(* ===== verification/_CoqProject ===== *)
-Q . S2P
Prelude.v
CString.v
Model.v
Namespace.v
Attributes.v
Alias.v
Classifier.v
Sorter.v
Builder.v
Emit.v
Machine.v
Stored.v
Translated.v
Arena.v
Bytes.v
Decode.v
Header.v
Driver.v
Lifecycle.v
Termination.v
Abstract.v
Refinement.v
Delivery.v
Closure.v
Order.v
Frame.v
Trace.v
WellFormed.v
Scenarios.v
Documents.v
Buffers.v
