(* ===== verification/Prelude.v ===== *)
(** * A verification library for the OPC UA nodeset model builder

    The program (src/src/Nodeset.c, with the declarations of
    src/src/nodeset.h) is the in-memory builder of an OPC UA NodeSet loader.
    A SAX driver calls it once per XML event; it keeps a namespace table, an
    alias table, seven class-indexed node containers, the references it has
    allocated and the growing table of hierarchical reference types, and at
    the end hands every node to a consumer callback in an order a sorter
    computes.

    ** Files, in dependency order

    - [Prelude] (this file): the result monad [res] whose failure records a
      C undefined behaviour, its notations (scope [res_scope]), the tactics
      and the hint base [nodeset] of the development, list lemmas (monadic
      fold, "x is before y in l", filters), the relation [res_rel] of two
      computations that agree, results and loops up to an equivalence
      ([res_equiv], [res_fold_Permutation]), computations that do not
      run out of fuel ([halts], with the tactic and the hint base of
      that name), and the machine-integer conversions.
    - [CString]: the libc fragment the builder calls on [char *] values:
      [strchr], [strcmp], [atoi], pointer offset [&s[n]].
    - [Model]: the data of the program: [TNodeId], [TBrowseName],
      [TNodeClass], [Reference], [TNode] with its class-specific extension,
      [Alias], [TNamespace], [TNamespaceTable], [Nodeset], the heap of
      allocated records, the whole machine state [World], and the walk
      [ref_chain] of a linked list of references.
    - [Namespace]: [translateNodeId], [translateBrowseName],
      [extractNodedId], [extractBrowseName], [Nodeset_newNamespace],
      [Nodeset_newNamespaceFinish].
    - [Attributes]: the attribute names (the macros [ATTRIBUTE_*]),
      [NodeAttribute], the sixteen attribute descriptors and
      [getAttributeValue] with the character arena.
    - [Alias]: the alias list and [alias2Id], [Nodeset_newAlias],
      [Nodeset_newAliasFinish].
    - [Classifier]: the seed table [hierachicalRefs],
      [isHierachicalReference], [isKnownReferenceType],
      [addIfHierachicalReferenceType].
    - [Sorter]: what the builder needs of Sort.c, as the class [Sorter]
      (an order that is a permutation and respects the edges [precedes]),
      and an instance of it, [kahn_sort].
    - [Builder]: [Nodeset_new], [extractAttributes], [initNode],
      [Nodeset_newNode], [Nodeset_newReference],
      [Nodeset_newReferenceFinish], [Nodeset_newNodeFinish].
    - [Emit]: [Nodeset_addNode], [Nodeset_getSortedNodes],
      [Nodeset_cleanup], for any instance of [Sorter].
    - [Machine]: the events as a state machine ([Call], [call], [run],
      [reachable]) and its invariant [wf_world]: the memory is well formed
      ([wf_heap]) and no node has been filed.
    - [Stored]: the class [Judgement] of the properties of the stored
      namespace indices that every event keeps, and the proof, once for all
      instances, that such a property holds in every reachable state.
    - [Translated]: every stored positive namespace index is a number the
      host has returned ([translated_world]), an instance of [Judgement]
      that reads the numbers off the trace.
    - [Arena]: the blocks each event takes from the character arena and
      where the strings of the nodes point ([arena_owned]).
    - [Bytes]: [getAttributeValue] as it is written, on the memory of the
      program: the flat array of pointers the parser hands over, the
      buffer the values lie in, the arena as blocks of bytes
      ([getAttributeValue_at]).
    - [Decode]: the two decoders as they are written, on pointers into
      that memory ([extractNodedId_at], [extractBrowseName_at], with
      [strchr], [atoi] and pointer arithmetic on bytes), and the first two
      statements of [extractAttributes], which decode what
      [getAttributeValue] returns ([extract_id_at],
      [extract_browseName_at]).
    - [Header]: the declarations of nodeset.h, as data: the element
      names, the states and the context of the parser, and the capacities
      and structs of the earlier design, compared with Nodeset.c.
    - [Driver]: the protocol in which the driver calls the builder, over
      the elements of a document ([load]), the whole import ([import]:
      build, emit, clean up), and the explicit sequence of calls of a
      document ([calls_of]).
    - [Lifecycle]: the whole life of a builder as a step relation over the
      events, the emission and the cleanup in any order ([Op], [op],
      [step], [life]), with the builder [Live] or [Freed].
    - [Termination]: no call of the builder runs forever ([halts]), in
      any state the host can bring it to.
    - [Abstract]: the builder without memory: a state of lists ([Abs]),
      the pure decoders of a node and of a reference ([decode_node],
      [decode_reference]) and one function per element of a document
      ([build]).
    - [Refinement]: each function of the builder as its decoder followed
      by an explicit update of the memory, the abstraction function [abs]
      from states to abstract states, and the simulation of a load by the
      abstract builder.
    - [Delivery]: what the host reads at the addresses it is called with
      during an import ([received]), and the namespace table a document
      leaves.
    - [Closure]: the set of hierarchical reference types the data model
      asks for, by rules ([hierarchical]), against the table the code
      grows while it reads the file.
    - [Order]: alias lists and abstract states up to the order of the
      aliases, as an equivalence the abstract builder respects.
    - [Frame]: states of the program up to the alias list and the arena,
      as an equivalence the builder respects.
    - [Trace]: the block of [Nodeset_getSortedNodes] compiled under
      XMLIMPORT_TRACE ([trace_namespaces]), with its output as a list of
      strings.
    - [WellFormed]: a check on the text of a document ([ok_document]),
      computed without the builder, and the proof that an import of a
      document that passes it has defined behaviour.
    - [Scenarios], [Documents], [Buffers]: runs of the builder on small
      node sets, imports of small documents and the functions on memory
      on a small start tag, evaluated by the kernel (the scenarios of the
      specification among them), and every theorem that has hypotheses
      applied to such a run.

    ** How the model corresponds to the code

    - A [char *] is an [option string] ([None] is NULL).  A string holds no
      NUL character.  [Bytes] and [Decode] justify this reading for the
      attribute values: there a [char *] is a pointer (an object and an
      offset), a byte may be indeterminate, and the functions on pointers
      are shown to compute what the functions on strings compute.
    - [int] is a [Z] in [INT_MIN, INT_MAX]; [uint16_t] and [size_t] are [Z]
      reduced modulo 2^16 and 2^64 by [to_uint16] and [to_size_t]; the
      conversion of a [size_t] to [int] wraps modulo 2^32 ([to_int]), which
      is what the compilers the project builds with do.  The data model is
      LP64.
    - An array with its element count (a node container, [countedRefs],
      the namespace array, the hierarchical table) is the list of its first
      [cnt] cells; the write [a[cnt++] = x] is an append, and it is undefined
      behaviour, hence a [Trap], when [cnt] has reached the capacity the
      code allocated.
    - Records the code allocates with malloc or calloc live in a heap
      ([gmap] from addresses to records), and malloc returns the allocation
      mark [brk], which only moves up.  A [Reference] is linked into its
      node's list before its target is parsed, so the lists are chains of
      addresses through the heap, as in the code, and
      [Nodeset_newReferenceFinish] updates the record in place.
    - Every function of the code is a function from the state to
      [res (result * state)].  [Trap u] is not a path of the code: it marks
      the executions to which ISO C gives no meaning (a NULL pointer handed
      to strchr, an index past the end of an array, a value atoi cannot
      represent, a pointer that is not allocated, a field read before it was
      written).  Theorems of kind "safety" give conditions under which a
      function does not trap.
    - The callbacks of the host are part of the state: the namespace
      callback is the field [cb] of the namespace table, and each call of
      the node callback and of [deleteValue] is an [Event] appended to the
      trace of the [World].
    - The driver is not among the sources.  Its protocol is modelled from
      the event surface of the specification: per element of the file one
      call of a [new] function with the attributes of the start tag, and
      one call of the matching [finish] function with the text of the
      element and the handle the [new] function returned; a node element
      brackets the Reference elements under it.  A document is the list of
      the elements that reach the builder; the handles are the allocation
      mark (for nodes and references) and the position in the alias list.
    - The abstract state of [Abstract] is what [abs] reads off a state of
      the builder: the namespace array and the alias list as they are, the
      table of hierarchical reference types as the list of its ids, the
      array of counted references as its length, the trace, and for each
      node handed to the sorter its class, id, browse name and extension
      with the records met on the walk of each of its two lists.

    ** What the theorems show

    - [CString], [Namespace]: the two textual decoders return the pair the
      documentation promises on well-formed text, what they return on the
      other texts, and when they trap; translation leaves namespace 0 alone
      and replaces every other index by the table's entry.
    - [Attributes]: [getAttributeValue] returns the first attribute of the
      given name, else the descriptor's default, and only ever grows the
      arena.
    - [Alias]: a declared alias resolves to its id; a name used before its
      declaration does not.
    - [Classifier]: membership in the table; finishing a ReferenceType node
      refines [promote] over the records of its hierarchical list, changes
      the table exactly when a reference promotes it, only appends copies of
      the node, returns on a well-formed heap, and writes past the table
      when the promotions of a node need more cells than it has
      ([addIfHierachicalReferenceType_overflow]): one cell is written
      per promoting reference, not per node.
    - [Sorter]: the instance keeps the contract, rejects a cycle of two
      nodes, returns an order whenever there is no cycle, and hands
      unconstrained nodes back in insertion order.
    - [Builder]: what each event has done when it returns (the node or
      reference it built, the list it chose, what it left alone), when
      [Nodeset_newReference] returns, and the executions without meaning
      (missing BrowseName, a NodeId in a namespace the file has not
      declared, full array of counted references).
    - [Emit]: a run of [Nodeset_getSortedNodes] that returns true is the
      sorter's order cut by class: the nodes handed to the host are a
      permutation of the finished nodes, in the order of the phases
      ReferenceType, DataType, ObjectType, Object, Method, VariableType,
      Variable, and within a class a parent comes before its children; a
      run returns true whenever the sorter returns an order and the nodes
      fit their containers; a run that returns false has done nothing;
      cleanup frees the counted references and the filed nodes, so that a
      builder that has filed no node frees no node.
    - [Machine]: [wf_heap] holds after [Nodeset_new] and is preserved by
      every event, and no event files a node, so [wf_world] holds in every
      reachable state; in such a state every walk of a list ends, a new
      reference joins exactly one list, the classification of a reference
      is decided by the table and the namespace alone, and cleanup after an
      emission frees every reference and exactly the finished nodes.
    - [Stored], [Translated]: a judgement that holds of namespace 0, of
      what the two decoders return against a table of good cells and of
      the cell written when a namespace is declared, and that survives
      further calls of the host, holds of every id, browse name and cell
      of every reachable state ([reachable_stored]).  Its instance: each
      positive index of a stored id is a number the host's callback
      returned in this load, each browse name is in namespace 0 or in
      such a number cut to 16 bits ([reachable_translated], the first
      two invariants of the data model of the specification).  An index
      that is not positive is stored as the file gives it.
    - [Lifecycle]: in every state the host can bring a builder to, by the
      events, the emission and the cleanup in any order, the memory of a
      live builder is well formed and a freed builder has left no
      reference, string or alias ([life_wf], [ops_wf]); the cleanup is
      defined exactly when no node was filed twice, and leaves allocated
      exactly the nodes that were never filed ([cleanup_defined]); the
      scan of [isKnownReferenceType] is a membership test, so that a
      reference type of the file becomes known by the emission and not
      before ([life_classification]); no sequence of calls that goes on
      after a cleanup is defined ([ops_after_cleanup]); an import is the
      run of its operations ([import_ops]).
    - [Termination]: whatever the host calls on a new builder, in any
      number and order, no call runs out of fuel: a sequence of
      operations returns or meets an undefined behaviour of the code
      ([ops_terminate], and [import_terminates] for an import).  The
      loop that needs the argument is the walk of
      [addIfHierachicalReferenceType]; it ends because
      [Nodeset_newReference] links every reference in front of older
      ones ([loop_halts]).  The other functions are sequences of calls
      and counted loops ([halts], with the hint base of that name).
    - [Arena]: the arena after an event is the arena before it followed by
      one block per attribute the event read and the start tag carried; in
      every reachable state each string field of a node is NULL, or points
      into a block of the arena, or into the default of a descriptor (P4
      of the specification, with the second owner the specification does
      not mention).
    - [Bytes]: on an array that encodes the attributes of a start tag,
      with their count, the function as it is written computes what its
      model on strings computes, provided the memory of the arena is
      cleared ([getAttributeValue_at_refines]); whatever it is given,
      the pointer it returns is a default of the program or the start of
      the block the arena has just handed out, never a pointer of the
      parser ([getAttributeValue_at_owned], P4 on addresses); the
      terminator of the
      copy is never written, so in memory that is not cleared reading a
      value is undefined ([getAttributeValue_at_unterminated]); a count
      larger than the array makes the function read past its end
      ([getAttributeValue_at_count]).  The array and the buffer are
      taken to be within what an [int] and a [size_t] hold.
    - [Decode]: on NULL and on a pointer to a string that fills its
      object (a copy in cleared memory, a string constant) the decoder
      of node ids on pointers and its model on strings return together,
      with the same index and an identifier that points into the object
      of the text to the string the model returns, or trap together with
      the same undefined behaviour ([extractNodedId_at_refines]; the
      same for browse names, [extractBrowseName_at_refines]); the first
      statement of [extractAttributes] leaves the identifier of the node
      pointing into the block the arena has just handed out, where the
      program reads what the model returns ([extract_id_at_refines], P4
      on bytes), and the second does the same for the browse name
      ([extract_browseName_at_refines]); and in memory that is not cleared a NodeId without a
      semicolon cannot be decoded, since [strchr] runs into the byte
      behind the copy ([extract_id_at_unterminated]).  The model on
      strings takes every text to fill its object: on a text that lies
      inside a larger buffer, [&s[3]] may point behind the terminator
      into bytes the program may read, where the model traps.
    - [Driver]: a load is the run of the event machine over the calls of
      the document, so every state a load ends in is reachable; after a
      load the sorter holds one node per node element, in document order
      and without repetition; an import that returns true has handed each
      node element to the host once, phases in order and parents first
      within a class, and has left no node, reference, arena block or alias
      allocated; an import that returns false has handed over nothing and
      leaves every node allocated.
    - [Refinement]: [Nodeset_newNode] and a Reference element are their
      decoder followed by an allocation ([Nodeset_newNode_eq],
      [load_reference_eq]); the loop of [addIfHierachicalReferenceType]
      is [promote_ref] folded over the records of the list; a walk reads
      the heap below its head only, so the lists of the finished nodes
      are not touched by later elements; and a load of a document from
      any well-formed state is simulated by [build] from its abstraction
      ([load_sim]): both return, in related states, or both trap with the
      same undefined behaviour.  Hence the namespaces, aliases, finished
      nodes with their two lists, table, number of references and calls
      of the host after a load are those the pure function [build]
      computes, and a load is defined exactly when [build] returns.  For
      one node element ([load_node_lists]): the node has the fields its
      attributes decode to, and each Reference element is in exactly one
      of its two lists, the one its classification names, last parsed
      first.
    - [Delivery]: the composition of the above for a whole import, on
      values ([import_content]): what the host reads at the addresses of
      the calls is a permutation of the nodes the abstract builder makes
      of the document, sorted by phase, and within a class parents come
      before children, where "parent" is read off the values; after a
      load the namespace table holds one cell per URI element of the
      document with the number the host returned, and the host was asked
      once per URI element ([loaded_namespaces]); every id of a node or
      reference the abstract builder makes of a document has a namespace
      index that is not positive or is the host's number of a URI of the
      document ([build_translated]).
    - [Closure]: invariant 4 of the data model.  The table of
      hierarchical reference types only grows ([build_table]), and holds
      at the end every ReferenceType that was parsed with an inverse
      reference to a type the table held at that moment
      ([build_closed]); it never holds a type outside the closure
      [hierarchical] of the seeds under "has an inverse reference, in its
      hierarchical list, to a hierarchical type" ([build_sound]); and it
      is that closure when every ReferenceType of the file stands behind
      the types it names as supertypes ([parents_first],
      [load_hierarchy]).  A file that lists a subtype first leaves it
      out of the table ([Documents.subtype_first_open]): the code has no
      pass that closes the table.  The seeds are seven ids, HasComponent
      twice: a reference of type HasEncoding (i=38) is not hierarchical
      after a load, unless the file has a node of that id
      ([load_HasEncoding]).
    - [Emit], on the capacities: a run of [Nodeset_getSortedNodes] stores
      past a container as soon as a class has more nodes than cells left
      ([Nodeset_getSortedNodes_overflow]), and [Nodeset_cleanup] returns
      exactly when each block it frees is allocated and freed once
      ([Nodeset_cleanup_Ok]).
    - [Order]: invariant 5 on the abstract builder.  Alias lists of
      distinct names that are permutations of each other resolve every
      name alike ([Permutation_same_aliases]); the abstract builder
      respects that equivalence ([build_proper]) and builds the same
      from a document in which a run of Alias elements of distinct names
      is permuted ([build_alias_order]).
    - [Frame]: invariant 5 and P5 where they hold, of the code.  The
      functions of the builder that touch neither the alias list nor
      the arena commute with a change of both ([framed]); a load from
      equivalent well-formed states ends in equivalent states
      ([load_equiv]); permuting a run of Alias elements of distinct
      names inside a document changes neither whether the import
      returns nor what it returns, trace and memory included
      ([import_alias_order]).  Results are compared up to the kind of
      undefined behaviour ([res_equiv]): when two declarations of the
      run trap, the order decides which is met first.
    - [Trace]: the traced build prints, after a load, the header and one
      line per namespace with the numbers of the host, and returns what
      the untraced build returns ([traced_loaded]); a URI element without
      text makes it print a NULL string ([traced_null_uri]).
    - [WellFormed]: the decoders return on the texts the check accepts (a
      node id without a semicolon, or with a numeral of a declared
      namespace from its fourth character on; a browse name without a
      colon, or after such a numeral); the abstract builder returns on a
      document that passes the check, hence the load does; the nodes of
      each class after a load are the node elements of the class, so the
      emission stores within the containers; and the import of such a
      document returns, true or false ([import_defined]).  An import
      returns exactly when the load returns and, unless the sorter gives
      up, no class has more node elements than its container has cells
      ([import_returns]).  The check is
      sufficient, not necessary: it rejects a numeral with a sign or
      leading white space, which [atoi] reads, and it counts one
      promotion for every inverse reference of a ReferenceType, whatever
      its target.

    ** Bounds and fuel

    The capacities are the constants of Nodeset.c (MAX_OBJECTS = 100000,
    MAX_VARIABLES = 1000000, 1000 for the other classes, 50 hierarchical
    reference types, 1000000 references).  Two loops of the model take
    fuel.  The walk of a list of references ([ref_chain], and the loop of
    [addIfHierachicalReferenceType]) takes the allocation mark as fuel: in
    a well-formed heap every link points to a lower address, so a walk makes
    fewer steps than there are addresses below the mark
    ([ref_chain_total]); running out of fuel is the result [Trap Timeout],
    which no sequence of calls on a new builder gives
    ([Termination.ops_terminate]).  The sorter's loop takes the
    number of nodes as fuel, one turn per node handed back, which is
    enough on every input without a cycle ([kahn_sort_complete]).  The
    check of [WellFormed] bounds the namespaces of a document by 65536,
    the indices a browse name can hold, so that no index read from a text
    that passes is changed by the conversion to [uint16_t] or to [int].

    ** Not modelled, and not yet proved

    The libxml2 callbacks of the driver and their parser-state machine
    (the transitions between the states of [TParserState]: what happens
    between two calls of the builder, unknown elements, the texts of
    DisplayName and Description, which the driver stores in the node
    itself), the value
    decoder, the bodies of the host's callbacks, and allocation failure
    (malloc never returns NULL in the model).  The table
    [hierachicalRefs] and the sorter are objects of the process, not of
    a builder ([Nodeset_new] stores the address of the one array and
    resets its count to the eight seeds, and calls [Sort_init]); the
    model gives a builder its own table and sorter, which is what one
    builder at a time sees (no builder overwrites the seeds,
    [wf_table], so the next one finds them in the first eight cells),
    and says nothing of two builders that are alive together.  nodeset.h is a header of an
    earlier design that Nodeset.c does not include (it declares a global
    nodeset, [countedChars], a one-argument [alias2Id]); of it the
    development models the three structs the code still uses, and keeps
    the rest in [Header] as data (the element names, the parser states
    and context, the capacities, [NodeAttribute] and [struct Nodeset] as
    the header declares them), with no function over them.  Sort.c,
    AliasList.c, CharArenaAllocator.c and the declarations of
    nodesetLoader.h are not under src/: what the builder needs of them is
    modelled from the specification and marked as such in PROJECT.json.
    The abstraction [abs] forgets the arena, the addresses and the nodes
    that are not finished; what the development proves of those is in
    [Arena], [Machine] and [Driver].  [Lifecycle] lets the host call the
    emission more than once; what the sorter of Sort.c does on a second
    [Sort_start] is not in the sources, and the model takes it to sort the
    nodes it was given again.  The output of the traced build is the list
    of the strings printf is given to write; the stream itself is not
    modelled.  The documents on which an import is undefined are
    characterised relative to the load ([import_returns]: the load
    returns and, unless the sorter gives up, the nodes of each class fit
    their container), and the load is defined exactly when the abstract
    builder returns ([load_refines]); the check [ok_document] on the text
    is sufficient for both and not necessary, and no check on the text
    alone is proved to be exact. *)

From Stdlib Require Export ZArith Lia.
From stdpp Require Export base tactics option list numbers sets sorting.

#[global] Set Warnings "-clear-no-such-hyp".

(** ** The result monad *)

(** The classes of undefined behaviour the code can run into. *)
Inductive ub : Type :=
| NullDeref      (* a NULL pointer handed to strchr, strcmp or atoi *)
| OutOfBounds    (* an index past the end of an array or of a string *)
| Overflow       (* a number atoi cannot represent in an int *)
| BadPointer     (* an address that is not (or no longer) allocated *)
| Uninitialised  (* a field read before anything was stored in it *)
| Timeout.       (* not a behaviour of the code: a loop of the model had not
                    finished when its fuel ran out *)

#[export] Instance ub_eq_dec : EqDecision ub.
Proof. solve_decision. Defined.

Inductive res (A : Type) : Type :=
| Ok (a : A)
| Trap (u : ub).
Arguments Ok {A} a.
Arguments Trap {A} u.

#[export] Instance res_eq_dec `{EqDecision A} : EqDecision (res A).
Proof. solve_decision. Defined.

Definition res_bind {A B} (m : res A) (k : A -> res B) : res B :=
  match m with
  | Ok a => k a
  | Trap u => Trap u
  end.

Definition res_map {A B} (f : A -> B) (m : res A) : res B :=
  res_bind m (fun a => Ok (f a)).

(** [require b u] is the check the code does not make: it continues when
    [b] holds and is undefined behaviour [u] otherwise. *)
Definition require (b : bool) (u : ub) : res unit :=
  if b then Ok tt else Trap u.

(** A field that must have been written: [None] is the indeterminate value
    malloc and realloc leave in it. *)
Definition initialised {A} (o : option A) : res A :=
  match o with
  | Some a => Ok a
  | None => Trap Uninitialised
  end.

(** A pointer that must not be NULL. *)
Definition nonnull {A} (o : option A) : res A :=
  match o with
  | Some a => Ok a
  | None => Trap NullDeref
  end.

Definition is_ok {A} (m : res A) : bool :=
  match m with Ok _ => true | Trap _ => false end.

Declare Scope res_scope.
Delimit Scope res_scope with res.
Notation "'let*' p := m 'in' k" := (res_bind m (fun p => k))
  (at level 10, p pattern, m at level 100, k at level 200) : res_scope.
Notation "m1 ;;; m2" := (res_bind m1 (fun _ => m2))
  (at level 100, right associativity) : res_scope.
Open Scope res_scope.

(** The monadic fold: the body of a [for] loop run over the cells of an
    array, stopping at the first trap. *)
Fixpoint res_fold {A S} (f : S -> A -> res S) (l : list A) (s : S) : res S :=
  match l with
  | [] => Ok s
  | a :: l' => let* s' := f s a in res_fold f l' s'
  end.

(** ** The hint base and the tactics of the development *)

Create HintDb nodeset discriminated.
Create Rewrite HintDb nodeset.

Section res_lemmas.
Context {A B : Type}.
Implicit Types (m : res A) (k : A -> res B).

Lemma res_bind_Ok a k : res_bind (Ok a) k = k a.
Proof. reflexivity. Qed.

Lemma res_bind_Trap u k : res_bind (Trap u) k = Trap u.
Proof. reflexivity. Qed.

Lemma res_bind_Ok_inv m k b :
  res_bind m k = Ok b <-> exists a, m = Ok a /\ k a = Ok b.
Proof.
  destruct m as [a|u]; simpl; split.
  - eauto.
  - by intros (a' & [= <-] & ?).
  - done.
  - by intros (? & ? & ?).
Qed.

Lemma res_bind_Trap_inv m k u :
  res_bind m k = Trap u <->
  m = Trap u \/ exists a, m = Ok a /\ k a = Trap u.
Proof.
  destruct m as [a|u']; simpl; split; eauto.
  - by intros [?|(a' & [= <-] & ?)].
  - intros [= ->]; eauto.
  - intros [?|(? & ? & ?)]; congruence.
Qed.

Lemma is_ok_bind m k :
  is_ok (res_bind m k) = true <->
  exists a, m = Ok a /\ is_ok (k a) = true.
Proof.
  destruct m as [a|u]; simpl; split; eauto.
  - by intros (a' & [= <-] & ?).
  - done.
  - by intros (? & ? & ?).
Qed.

Lemma is_ok_true m : is_ok m = true <-> exists a, m = Ok a.
Proof. destruct m; simpl; split; eauto; [done | by intros [? ?]]. Qed.

Lemma nonnull_Ok (o : option A) a : nonnull o = Ok a <-> o = Some a.
Proof. destruct o; simpl; split; congruence. Qed.

Lemma initialised_Ok (o : option A) a : initialised o = Ok a <-> o = Some a.
Proof. destruct o; simpl; split; congruence. Qed.

Lemma nonnull_Trap (o : option A) u :
  nonnull o = Trap u <-> o = None /\ u = NullDeref.
Proof.
  destruct o; simpl; split; [done | by intros [? _] | by intros [= <-] | by intros [_ ->]].
Qed.

End res_lemmas.

Lemma require_Ok b u x : require b u = Ok x <-> b = true.
Proof. destruct b, x; simpl; split; congruence. Qed.

Lemma require_Trap b u u' : require b u = Trap u' <-> b = false /\ u' = u.
Proof.
  destruct b; simpl; split; [done | by intros [? _] | by intros [= <-] | by intros [_ ->]].
Qed.

#[export] Hint Rewrite @res_bind_Ok @res_bind_Trap : nodeset.

(** [res_inv] splits every hypothesis that says a sequence of calls
    returned: one equation per call. *)
Ltac res_inv :=
  repeat match goal with
  | H : res_bind _ _ = Ok _ |- _ =>
      apply res_bind_Ok_inv in H; destruct H as (? & ? & H)
  | H : require _ _ = Ok _ |- _ => apply require_Ok in H
  | H : nonnull _ = Ok _ |- _ => apply nonnull_Ok in H
  | H : initialised _ = Ok _ |- _ => apply initialised_Ok in H
  | H : Ok _ = Ok _ |- _ => injection H as H
  | H : Trap _ = Ok _ |- _ => discriminate H
  | H : Ok _ = Trap _ |- _ => discriminate H
  | H : (_, _) = (_, _) |- _ => injection H as ? ?
  end; simplify_eq.

(** [res_step E] rewrites with the equation [E : m = Ok a] of a call and
    reduces the bind that consumed it. *)
Ltac res_step E := rewrite E; cbn [res_bind].

(** Closed goals by evaluation: [by_eval] proves a decidable proposition
    by evaluating its decision procedure, [by_run] an equation between
    two closed terms by evaluating both. *)
Ltac by_eval := apply (bool_decide_unpack _); vm_compute; exact I.
Ltac by_run := vm_compute; reflexivity.

Section res_fold_lemmas.
Context {A S : Type} (f : S -> A -> res S).

Lemma res_fold_app l1 l2 s :
  res_fold f (l1 ++ l2) s = (let* s1 := res_fold f l1 s in res_fold f l2 s1).
Proof.
  revert s; induction l1 as [|a l1 IH]; intros s; simpl; [done|].
  destruct (f s a); simpl; [apply IH | done].
Qed.

(** A property every step preserves is preserved by the loop. *)
Lemma res_fold_invariant (P : S -> Prop) l s s' :
  (forall s a s', a ∈ l -> P s -> f s a = Ok s' -> P s') ->
  P s -> res_fold f l s = Ok s' -> P s'.
Proof.
  revert s; induction l as [|a l IH]; intros s Hstep HP Hrun; simpl in *.
  - by simplify_eq.
  - res_inv. eapply IH; [|eapply Hstep; [left|done..]|done].
    intros ???? ; apply Hstep. by right.
Qed.

(** A loop whose every step succeeds succeeds. *)
Lemma res_fold_is_ok (P : S -> Prop) l s :
  (forall s a, a ∈ l -> P s -> exists s', f s a = Ok s' /\ P s') ->
  P s -> exists s', res_fold f l s = Ok s' /\ P s'.
Proof.
  revert s; induction l as [|a l IH]; intros s Hstep HP; simpl; [eauto|].
  destruct (Hstep s a) as (s1 & -> & HP1); [left|done|]. simpl.
  apply IH; [|done]. intros; apply Hstep; [by right|done].
Qed.

End res_fold_lemmas.

(** ** Computations that end *)

(** [Timeout] is no behaviour of the code: it is what a loop of the model
    gives when its fuel is spent.  [halts m] says that [m] is not that: it
    returns, or it traps with an undefined behaviour of the code. *)
Definition halts {A} (m : res A) : Prop := m <> Trap Timeout.

Create HintDb halts discriminated.

Section halts.
Context {A B : Type}.
Implicit Types (m : res A) (k : A -> res B).

Lemma halts_Ok (a : A) : halts (Ok a).
Proof. done. Qed.

Lemma halts_Trap u : u <> Timeout -> halts (@Trap A u).
Proof. unfold halts. congruence. Qed.

Lemma halts_bind m k :
  halts m -> (forall a, m = Ok a -> halts (k a)) -> halts (res_bind m k).
Proof. destruct m as [a|u]; cbn; [by auto | by intros Hu _ [= ->]]. Qed.

Lemma halts_map (f : A -> B) m : halts m -> halts (res_map f m).
Proof. intros Hm. by apply halts_bind. Qed.

Lemma halts_nonnull (o : option A) : halts (nonnull o).
Proof. by destruct o. Qed.

Lemma halts_initialised (o : option A) : halts (initialised o).
Proof. by destruct o. Qed.

End halts.

Lemma halts_require b u : u <> Timeout -> halts (require b u).
Proof. destruct b; [done | apply halts_Trap]. Qed.

(** A [for] loop ends when each of its turns does, in the states an
    invariant of the loop allows. *)
Lemma halts_fold {A St} (f : St -> A -> res St) (P : St -> Prop) l s :
  (forall s a s', P s -> f s a = Ok s' -> P s') ->
  (forall s a, P s -> halts (f s a)) ->
  P s -> halts (res_fold f l s).
Proof.
  intros Hinv Hf. revert s. induction l as [|a l IH]; intros s Hs; [done|].
  cbn [res_fold]. apply halts_bind; [by apply Hf|]. intros s' Hs'. by eapply IH, Hinv.
Qed.

#[export] Hint Resolve halts_Ok halts_nonnull halts_initialised : halts.

(** [halts] follows the shape of a function of the model: a sequence of
    calls halts when each call does, a case distinction when each branch
    does; the calls themselves are closed with the lemmas of the base
    [halts]. *)
Ltac halts_step :=
  lazymatch goal with
  | |- halts (Ok _) => exact (halts_Ok _)
  | |- halts (Trap _) => by apply halts_Trap
  | |- halts (require _ _) => by apply halts_require
  | |- halts (res_bind _ _) => apply halts_bind; [|intros ? _]
  | |- halts (res_map _ _) => apply halts_map
  | |- halts (match ?x with _ => _ end) => destruct x
  end.
Ltac halts := repeat first [solve [auto with halts] | halts_step].

(** ** Two computations that agree *)

(** [res_rel R m1 m2]: both computations return, with results related by
    [R], or both trap, with the same undefined behaviour. *)
Definition res_rel {A B} (R : A -> B -> Prop) (m1 : res A) (m2 : res B) : Prop :=
  match m1, m2 with
  | Ok a, Ok b => R a b
  | Trap u1, Trap u2 => u1 = u2
  | _, _ => False
  end.

Section res_rel.
Context {A B : Type}.
Implicit Types (R : A -> B -> Prop).

Lemma res_rel_Ok R a b : R a b -> res_rel R (Ok a) (Ok b).
Proof. done. Qed.

Lemma res_rel_mono R (R' : A -> B -> Prop) m1 m2 :
  (forall a b, R a b -> R' a b) -> res_rel R m1 m2 -> res_rel R' m1 m2.
Proof. destruct m1, m2; simpl; auto. Qed.

Lemma res_rel_bind {A' B'} R (R' : A' -> B' -> Prop) m1 m2 k1 k2 :
  res_rel R m1 m2 -> (forall a b, R a b -> res_rel R' (k1 a) (k2 b)) ->
  res_rel R' (res_bind m1 k1) (res_bind m2 k2).
Proof. destruct m1, m2; simpl; auto; done. Qed.

(** A computation whose last step repackages its result. *)
Lemma res_rel_ret {A'} R (R' : A' -> B -> Prop) m1 m2 (f : A -> A') :
  (forall a b, R a b -> R' (f a) b) -> res_rel R m1 m2 ->
  res_rel R' (res_bind m1 (fun a => Ok (f a))) m2.
Proof. destruct m1, m2; simpl; auto. Qed.

(** When the left computation returns, so does the right. *)
Lemma res_rel_Ok_l R a m2 :
  res_rel R (Ok a) m2 -> exists b, m2 = Ok b /\ R a b.
Proof. destruct m2; simpl; [eauto | done]. Qed.

(** When the right computation returns, so does the left. *)
Lemma res_rel_Ok_r R m1 b :
  res_rel R m1 (Ok b) -> exists a, m1 = Ok a /\ R a b.
Proof. destruct m1; simpl; [eauto | done]. Qed.

(** A function applied to the result on the right. *)
Lemma res_rel_map_r {B'} R (R' : A -> B' -> Prop) (g : B -> B') m1 m2 :
  res_rel R m1 m2 -> (forall a b, R a b -> R' a (g b)) ->
  res_rel R' m1 (res_map g m2).
Proof. destruct m1, m2; simpl; auto; done. Qed.

(** The same computation on both sides. *)
Lemma res_rel_refl (m : res A) : res_rel eq m m.
Proof. by destruct m. Qed.

(** What every result of the left computation satisfies can be added to
    the relation. *)
Lemma res_rel_and (P : A -> Prop) R m1 m2 :
  (forall a, m1 = Ok a -> P a) -> res_rel R m1 m2 ->
  res_rel (fun a b => P a /\ R a b) m1 m2.
Proof. destruct m1, m2; simpl; auto. Qed.

(** A relation that is a function from left to right is an equation. *)
Lemma res_rel_map (P : A -> Prop) (f : A -> B) m1 m2 :
  res_rel (fun a b => P a /\ f a = b) m1 m2 -> res_map f m1 = m2.
Proof. destruct m1, m2; simpl; try done; [by intros [_ ->] | by intros ->]. Qed.

(** Two loops over the same cells agree when their bodies do. *)
Lemma res_fold_rel {X} R (f : A -> X -> res A) (g : B -> X -> res B) l :
  (forall a b x, x ∈ l -> R a b -> res_rel R (f a x) (g b x)) ->
  forall a b, R a b -> res_rel R (res_fold f l a) (res_fold g l b).
Proof.
  induction l as [|x l IH]; intros Hstep a b HR; simpl; [done|].
  eapply res_rel_bind; [apply Hstep; [left | done]|].
  intros a' b' HR'. apply IH; [|done]. intros ????. apply Hstep. by right.
Qed.

End res_rel.

(** ** Results up to an equivalence *)

(** Two computations are equivalent when both return, with equivalent
    results, or both are undefined: which undefined behaviour a
    computation has is not observed. *)
#[export] Instance res_equiv `{Equiv A} : Equiv (res A) := fun m1 m2 =>
  match m1, m2 with
  | Ok a, Ok b => a ≡ b
  | Trap _, Trap _ => True
  | _, _ => False
  end.

Section res_equiv.
Context `{Equiv A, Equiv B}.

#[export] Instance res_equivalence : Equivalence (≡@{A}) -> Equivalence (≡@{res A}).
Proof.
  intros HA. split.
  - intros [a|u]; [change (a ≡ a); reflexivity | done].
  - intros [a|u] [b|v] Hab; try done. change (b ≡ a). by symmetry.
  - intros [a|u] [b|v] [c|x] Hab Hbc; try done. change (a ≡ c). by etrans.
Qed.

#[export] Instance Ok_proper : Proper ((≡) ==> (≡)) (@Ok A).
Proof. by intros a b Hab. Qed.

#[export] Instance res_bind_proper :
  Proper ((≡) ==> ((≡) ==> (≡)) ==> (≡)) (@res_bind A B).
Proof. intros [a|u] [b|v] Hm k1 k2 Hk; try done. by apply Hk. Qed.

#[export] Instance res_fold_proper {X} :
  Proper (((≡) ==> (=) ==> (≡)) ==> (=) ==> (≡) ==> (≡)) (@res_fold X A).
Proof.
  intros f g Hfg l ? <-. induction l as [|x l IH]; intros a b Hab; [done|].
  cbn [res_fold]. specialize (Hfg a b Hab x x eq_refl).
  destruct (f a x), (g b x); try done. by apply IH.
Qed.

(** Equivalent computations return together. *)
Lemma res_equiv_Ok_l (m : res A) a :
  Ok a ≡ m -> exists b, m = Ok b /\ a ≡ b.
Proof. destruct m as [b|u]; [eauto | done]. Qed.

End res_equiv.

(** ** Loops up to an equivalence *)

(** A loop whose body respects the equivalence on the states of an
    invariant respects it; and when two neighbours of a list can be
    exchanged, the list can be permuted.  [Q] says which lists may be
    permuted. *)
Section res_fold_equiv.
Context {St : Type} `{Equiv St} `{!Equivalence (≡@{St})} {A : Type}.
Context (f : St -> A -> res St) (I : St -> Prop).
Context (f_proper : forall s s' x, I s -> s ≡ s' -> f s x ≡ f s' x).
Context (f_inv : forall s x s', I s -> f s x = Ok s' -> I s').

Lemma res_fold_equiv l s s' : I s -> s ≡ s' -> res_fold f l s ≡ res_fold f l s'.
Proof.
  revert s s'. induction l as [|x l IH]; intros s s' Hs Hss; [done|].
  cbn [res_fold]. pose proof (f_proper s s' x Hs Hss) as Hx.
  destruct (f s x) as [s1|] eqn:E1, (f s' x) as [s1'|]; try done.
  cbn [res_bind]. apply IH; [by eapply f_inv | done].
Qed.

Context (Q : list A -> Prop).
Context (Q_tail : forall x l, Q (x :: l) -> Q l).
Context (Q_perm : forall l l', l ≡ₚ l' -> Q l -> Q l').
Context (f_swap : forall x y l s,
  Q (x :: y :: l) -> I s -> res_fold f [x; y] s ≡ res_fold f [y; x] s).

Lemma res_fold_Permutation l l' s :
  l ≡ₚ l' -> Q l -> I s -> res_fold f l s ≡ res_fold f l' s.
Proof.
  intros Hp. revert s.
  induction Hp as [|x l l' Hp IH|x y l|l1 l2 l3 H12 IH12 H23 IH23]; intros s HQ Hs.
  - reflexivity.
  - cbn [res_fold]. destruct (f s x) as [s1|] eqn:E; [|done].
    cbn [res_bind]. apply IH; [by eapply Q_tail | by eapply f_inv].
  - change (res_fold f ([y; x] ++ l) s ≡ res_fold f ([x; y] ++ l) s).
    rewrite !res_fold_app. pose proof (f_swap y x l s HQ Hs) as Hsw.
    destruct (res_fold f [y; x] s) as [s1|] eqn:E1, (res_fold f [x; y] s) as [s2|];
      try done.
    cbn [res_bind]. apply res_fold_equiv; [|done].
    apply (res_fold_invariant f I [y; x] s); [|done..]. intros ???? ; by apply f_inv.
  - etrans; [by apply IH12|]. apply IH23; [by eapply Q_perm | done].
Qed.

End res_fold_equiv.

(** ** Order of occurrence in a list *)

(** [before l x y]: an occurrence of [x] in [l] is followed, later, by an
    occurrence of [y]. *)
Definition before {A} (l : list A) (x y : A) : Prop :=
  exists l1 l2 l3, l = l1 ++ x :: l2 ++ y :: l3.

Fixpoint beforeb `{EqDecision A} (l : list A) (x y : A) : bool :=
  match l with
  | [] => false
  | a :: l' => (bool_decide (a = x) && bool_decide (y ∈ l')) || beforeb l' x y
  end.

Section before_lemmas.
Context {A : Type}.
Implicit Types (l : list A) (x y : A).

Lemma before_nil x y : ~ before [] x y.
Proof. intros (l1 & l2 & l3 & E). by destruct l1. Qed.

Lemma before_cons a l x y :
  before (a :: l) x y <-> (a = x /\ y ∈ l) \/ before l x y.
Proof.
  split.
  - intros ([|b l1] & l2 & l3 & E); simplify_eq/=.
    + left. split; [done|]. apply elem_of_app; right; left.
    + right. by exists l1, l2, l3.
  - intros [[-> Hy]|(l1 & l2 & l3 & ->)].
    + apply list_elem_of_split in Hy as (l2 & l3 & ->). by exists [], l2, l3.
    + by exists (a :: l1), l2, l3.
Qed.

Lemma before_elem_of l x y : before l x y -> x ∈ l /\ y ∈ l.
Proof. intros (l1 & l2 & l3 & ->). set_solver. Qed.

Lemma before_app_l l1 l2 x y : before l1 x y -> before (l1 ++ l2) x y.
Proof.
  intros (k1 & k2 & k3 & ->). exists k1, k2, (k3 ++ l2).
  by rewrite <- ?app_assoc, <- ?app_comm_cons, <- ?app_assoc.
Qed.

Lemma before_app_r l1 l2 x y : before l2 x y -> before (l1 ++ l2) x y.
Proof.
  intros (k1 & k2 & k3 & ->). exists (l1 ++ k1), k2, k3.
  by rewrite <- ?app_assoc.
Qed.

Lemma before_app_cross l1 l2 x y : x ∈ l1 -> y ∈ l2 -> before (l1 ++ l2) x y.
Proof.
  intros (k1 & k2 & ->)%list_elem_of_split (k3 & k4 & ->)%list_elem_of_split.
  exists k1, (k2 ++ k3), k4. by rewrite <- ?app_assoc, <- ?app_comm_cons, <- ?app_assoc.
Qed.

Lemma before_app l1 l2 x y :
  before (l1 ++ l2) x y <->
  before l1 x y \/ before l2 x y \/ (x ∈ l1 /\ y ∈ l2).
Proof.
  split.
  - induction l1 as [|a l1 IH]; simpl; [by auto|].
    rewrite !before_cons, elem_of_app, elem_of_cons. naive_solver.
  - intros [?|[?|[? ?]]];
      eauto using before_app_l, before_app_r, before_app_cross.
Qed.

(** In a list without repetition the order of two elements is one way only. *)
Lemma before_asym l x y : NoDup l -> before l x y -> ~ before l y x.
Proof.
  induction l as [|a l IH]; [by intros _ ?%before_nil|].
  rewrite NoDup_cons, !before_cons. intros [Ha Hl] [[-> Hy]|Hb] [[E Hx]|Hb'].
  - by subst.
  - apply before_elem_of in Hb' as [_ ?]. done.
  - subst. apply before_elem_of in Hb as [_ ?]. done.
  - by apply (IH Hl Hb).
Qed.

(** Selecting a sublist keeps the order of what it keeps, and adds none. *)
Lemma before_filter (P : A -> Prop) `{!forall a, Decision (P a)} l x y :
  before (filter P l) x y <-> before l x y /\ P x /\ P y.
Proof.
  induction l as [|a l IH]; simpl.
  - split; [by intros ?%before_nil | by intros [?%before_nil _]].
  - rewrite filter_cons. destruct (decide (P a)) as [Pa|Pa].
    + rewrite !before_cons, IH, list_elem_of_filter. naive_solver.
    + rewrite before_cons, IH. split; [naive_solver|].
      intros [[[-> _]|?] [? ?]]; [done | auto].
Qed.

Lemma beforeb_spec `{EqDecision A} l x y : beforeb l x y = true <-> before l x y.
Proof.
  induction l as [|a l IH]; simpl.
  - split; [done | by intros ?%before_nil].
  - rewrite before_cons, orb_true_iff, andb_true_iff, !bool_decide_eq_true, IH.
    done.
Qed.

#[export] Instance before_dec `{EqDecision A} l x y : Decision (before l x y).
Proof.
  refine (cast_if (decide (beforeb l x y = true))); by rewrite <- beforeb_spec.
Defined.

End before_lemmas.

(** A filter that keeps every element, and one that keeps none. *)
Section filter_all.
Context {A : Type} (P : A -> Prop) `{!forall x, Decision (P x)}.

Lemma filter_all (l : list A) : Forall P l -> filter P l = l.
Proof.
  induction 1 as [|x l Hx _ IH]; [done|]. by rewrite filter_cons_True, IH.
Qed.

Lemma filter_none (l : list A) : Forall (fun x => ~ P x) l -> filter P l = [].
Proof.
  induction 1 as [|x l Hx _ IH]; [done|]. by rewrite filter_cons_False.
Qed.

End filter_all.

(** A store into the last cell of an array. *)
Lemma insert_snoc {A} (l : list A) (x y : A) :
  <[length l := y]> (l ++ [x]) = l ++ [y].
Proof. by rewrite <- (Nat.add_0_r (length l)), insert_app_r. Qed.

Lemma insert_last {A} (l : list A) (x y : A) :
  <[length (l ++ [x]) - 1 := y]> (l ++ [x]) = l ++ [y].
Proof.
  rewrite length_app. simpl.
  replace (length l + 1 - 1) with (length l) by lia. apply insert_snoc.
Qed.

(** Counting through a map. *)
Lemma length_filter_fmap {A B} (f : A -> B) (P : B -> Prop) (Q : A -> Prop)
    `{!forall y, Decision (P y), !forall x, Decision (Q x)} (l : list A) :
  (forall x, x ∈ l -> P (f x) <-> Q x) ->
  length (filter P (f <$> l)) = length (filter Q l).
Proof.
  induction l as [|x l IH]; intros Hl; [done|].
  rewrite fmap_cons, !filter_cons.
  assert (P (f x) <-> Q x) as Hx by (apply Hl; left).
  specialize (IH (fun y Hy => Hl y (list_elem_of_further _ _ _ Hy))).
  repeat case_decide; simpl; rewrite ?IH; tauto.
Qed.

Lemma sum_list_app (l1 l2 : list nat) :
  sum_list (l1 ++ l2) = sum_list l1 + sum_list l2.
Proof. induction l1 as [|x l1 IH]; simpl; lia. Qed.

(** Order in a list glued from pieces, one per element of [cs]. *)
Section before_bind.
Context {A C : Type} (f : C -> list A).
Implicit Types (cs : list C) (x y : A).

(** Two elements of one piece keep the order they have in it. *)
Lemma before_bind_within cs c x y :
  c ∈ cs -> before (f c) x y -> before (cs ≫= f) x y.
Proof.
  intros (cs1 & cs2 & ->)%list_elem_of_split Hb.
  rewrite bind_app, bind_cons. by apply before_app_r, before_app_l.
Qed.

(** Elements of two pieces are ordered as the pieces are. *)
Lemma before_bind_across cs c1 c2 x y :
  before cs c1 c2 -> x ∈ f c1 -> y ∈ f c2 -> before (cs ≫= f) x y.
Proof.
  intros (k1 & k2 & k3 & ->) Hx Hy.
  rewrite bind_app, bind_cons, bind_app, bind_cons.
  apply before_app_r, before_app_cross; [done|].
  rewrite !elem_of_app. auto.
Qed.

End before_bind.

(** A list glued from pieces is sorted by the rank of a key when the
    pieces come in the order of the ranks and each piece holds elements of
    its own key only. *)
Section sorted_bind.
Context {A C : Type} (rank : C -> nat) (key : A -> C) (f : C -> list A).
Implicit Types (cs : list C) (l : list A).

Definition by_rank : relation A := fun x y => rank (key x) <= rank (key y).

Lemma sorted_same_key c l :
  Forall (fun x => key x = c) l -> StronglySorted by_rank l.
Proof.
  induction 1 as [|x l Hx Hl IH]; constructor; [done|].
  eapply Forall_impl; [apply Hl|]. intros y Hy. unfold by_rank. by rewrite Hx, Hy.
Qed.

Lemma sorted_bind cs :
  StronglySorted (fun c1 c2 => rank c1 <= rank c2) cs ->
  (forall c x, x ∈ f c -> key x = c) ->
  StronglySorted by_rank (cs ≫= f).
Proof.
  intros Hcs Hf. induction Hcs as [|c cs _ IH Hc]; [constructor|].
  rewrite bind_cons. apply StronglySorted_app_2; [| |done].
  - intros x y Hx (c' & Hy & Hc')%list_elem_of_bind. unfold by_rank.
    rewrite (Hf c x Hx), (Hf c' y Hy). rewrite Forall_forall in Hc. by apply Hc.
  - apply (sorted_same_key c), Forall_forall, Hf.
Qed.

End sorted_bind.

Lemma before_omap {A B} (f : A -> option B) (l : list A) u v x y :
  before l u v -> f u = Some x -> f v = Some y -> before (omap f l) x y.
Proof.
  intros (l1 & l2 & l3 & ->) Hu Hv.
  exists (omap f l1), (omap f l2), (omap f l3).
  rewrite omap_app. cbn. rewrite Hu, omap_app. cbn. by rewrite Hv.
Qed.

Lemma omap_bind {A B C} (g : B -> option C) (f : A -> list B) (l : list A) :
  omap g (l ≫= f) = l ≫= (fun x => omap g (f x)).
Proof.
  induction l as [|x l IH]; [done|]. by rewrite !bind_cons, omap_app, IH.
Qed.

(** ** Machine integers (LP64) *)

Definition INT_MIN : Z := -2147483648.
Definition INT_MAX : Z := 2147483647.
Definition UINT16_MAX : Z := 65535.
Definition SIZE_MAX : Z := 18446744073709551615.

Definition in_int (z : Z) : bool := (INT_MIN <=? z)%Z && (z <=? INT_MAX)%Z.

(** Conversion to [uint16_t] and to [size_t]: reduction modulo 2^16, 2^64. *)
Definition to_uint16 (z : Z) : Z := (z mod 65536)%Z.
Definition to_size_t (z : Z) : Z := (z mod (SIZE_MAX + 1))%Z.
(** Conversion of a wider integer to [int]: two's complement wrap-around. *)
Definition to_int (z : Z) : Z := ((z + 2147483648) mod 4294967296 - 2147483648)%Z.

Section machine_integers.
Open Scope Z_scope.

Lemma in_int_spec z : in_int z = true <-> INT_MIN <= z <= INT_MAX.
Proof. unfold in_int. rewrite andb_true_iff, !Z.leb_le. done. Qed.

Lemma to_uint16_range z : 0 <= to_uint16 z <= UINT16_MAX.
Proof. unfold to_uint16, UINT16_MAX. pose proof (Z.mod_pos_bound z 65536). lia. Qed.

Lemma to_uint16_small z : 0 <= z <= UINT16_MAX -> to_uint16 z = z.
Proof. unfold to_uint16, UINT16_MAX. intros. by apply Z.mod_small; lia. Qed.

Lemma to_size_t_range z : 0 <= to_size_t z <= SIZE_MAX.
Proof.
  unfold to_size_t, SIZE_MAX.
  pose proof (Z.mod_pos_bound z (18446744073709551615 + 1)). lia.
Qed.

Lemma to_size_t_small z : 0 <= z <= SIZE_MAX -> to_size_t z = z.
Proof. unfold to_size_t, SIZE_MAX. intros. by apply Z.mod_small; lia. Qed.

Lemma to_int_range z : in_int (to_int z) = true.
Proof.
  apply in_int_spec. unfold to_int, INT_MIN, INT_MAX.
  pose proof (Z.mod_pos_bound (z + 2147483648) 4294967296). lia.
Qed.

Lemma to_int_small z : in_int z = true -> to_int z = z.
Proof.
  rewrite in_int_spec. unfold to_int, INT_MIN, INT_MAX. intros.
  rewrite Z.mod_small; lia.
Qed.

(** An [int] stored in a [size_t] and read back as an [int] is unchanged,
    whatever its sign: the path of a namespace index through the table. *)
Lemma to_int_to_size_t z : in_int z = true -> to_int (to_size_t z) = z.
Proof.
  rewrite in_int_spec. unfold to_int, to_size_t, SIZE_MAX, INT_MIN, INT_MAX.
  intros. destruct (decide (0 <= z)).
  - rewrite (Z.mod_small z), Z.mod_small; lia.
  - replace (z mod (18446744073709551615 + 1)) with (z + 18446744073709551616)
      by (apply (Z.mod_unique _ _ (-1)); lia).
    replace (z + 18446744073709551616 + 2147483648)
      with (z + 2147483648 + 4294967296 * 4294967296) by lia.
    rewrite Z.mod_add, Z.mod_small; lia.
Qed.

(** Read back as a [uint16_t] it is unchanged only when it fits. *)
Lemma to_uint16_to_size_t z : 0 <= z <= UINT16_MAX -> to_uint16 (to_size_t z) = z.
Proof.
  intros. rewrite to_size_t_small, to_uint16_small; unfold UINT16_MAX, SIZE_MAX in *; lia.
Qed.

End machine_integers.

#[export] Hint Rewrite to_int_small to_uint16_small to_size_t_small
  using (first [done | lia]) : nodeset.
