(* ===== verification/CString.v ===== *)
(** * C strings and the libc functions the builder calls

    A [char *] that may be NULL is a [cstr]; a pointer into a string is the
    suffix it points at.  [strchr], [strcmp] and [atoi] follow ISO C; [atoi]
    and the pointer offset trap where C leaves the behaviour undefined.
    [pretty] (stdpp's decimal printer) is the inverse the round-trip lemmas
    are stated with. *)

From Stdlib Require Import ZArith Lia Ascii String.
From stdpp Require Import base tactics list strings numbers pretty.
From S2P Require Import Prelude.

(** A nullable [char *]. *)
Definition cstr : Type := option string.

(** [strchr s c]: the suffix of [s] that starts at the first [c], NULL when
    [c] does not occur. *)
Fixpoint strchr (s : string) (c : ascii) : option string :=
  match s with
  | EmptyString => None
  | String a s' => if Ascii.eqb a c then Some s else strchr s' c
  end.

(** [&s[n]]: defined as long as the [n] characters skipped are characters of
    the string; the result may be the empty string (the terminator). *)
Fixpoint str_offset (s : string) (n : nat) {struct n} : res string :=
  match n, s with
  | 0, _ => Ok s
  | S n', String _ s' => str_offset s' n'
  | S _, EmptyString => Trap OutOfBounds
  end.

(** [strcmp]: the sign of the first difference, bytes compared unsigned. *)
Definition strcmp (a b : string) : Z :=
  match String.compare a b with
  | Eq => 0
  | Lt => -1
  | Gt => 1
  end.

(** [isspace] in the C locale: space, \t, \n, \v, \f, \r. *)
Definition isspace (c : ascii) : bool := Ascii.is_space c.

Definition digit_of (c : ascii) : option Z := Z.of_nat <$> Ascii.is_nat c.

Fixpoint skip_spaces (s : string) : string :=
  match s with
  | String c s' => if isspace c then skip_spaces s' else s
  | EmptyString => s
  end.

(** The decimal digits at the head of [s], accumulated onto [acc]. *)
Fixpoint digits (acc : Z) (s : string) : Z :=
  match s with
  | String c s' =>
      match digit_of c with
      | Some d => digits (10 * acc + d) s'
      | None => acc
      end
  | EmptyString => acc
  end.

(** [atoi]: white space, an optional sign, decimal digits; whatever follows
    is ignored, and no digit at all gives 0.  A value that does not fit an
    [int] is undefined behaviour. *)
Definition atoi (s : string) : res Z :=
  let v :=
    match skip_spaces s with
    | String "-" s' => (- digits 0 s')%Z
    | String "+" s' => digits 0 s'
    | s' => digits 0 s'
    end in
  require (in_int v) Overflow ;;; Ok v.

(** A string that [atoi] reads as itself: it starts with a digit. *)
Definition starts_with_digit (s : string) : bool :=
  match s with
  | String c _ => bool_decide (is_Some (digit_of c))
  | EmptyString => false
  end.

(** The character that follows a numeral stops [digits]. *)
Definition stops_digits (s : string) : bool := negb (starts_with_digit s).

(** ** [strchr] *)

Lemma strchr_Some s c p :
  strchr s c = Some p ->
  exists pre rest, s = pre +:+ String c rest /\ p = String c rest /\
                   strchr pre c = None.
Proof.
  induction s as [|a s IH]; simpl; [done|].
  destruct (Ascii.eqb_spec a c) as [->|Hne].
  - intros [= <-]. by exists "", s.
  - intros (pre & rest & -> & -> & Hpre)%IH.
    exists (String a pre), rest. simpl.
    by destruct (Ascii.eqb_spec a c).
Qed.

Lemma strchr_None s c :
  strchr s c = None <-> c ∉ list_ascii_of_string s.
Proof.
  induction s as [|a s IH]; simpl.
  - split; [intros _; apply not_elem_of_nil | done].
  - rewrite not_elem_of_cons, <- IH.
    destruct (Ascii.eqb_spec a c) as [->|Hne]; naive_solver.
Qed.

Lemma strchr_app_first pre c rest :
  strchr pre c = None ->
  strchr (pre +:+ String c rest) c = Some (String c rest).
Proof.
  induction pre as [|a pre IH]; simpl.
  - by rewrite Ascii.eqb_refl.
  - destruct (Ascii.eqb a c); [done | apply IH].
Qed.

(** ** [str_offset] *)

Lemma str_offset_Ok s n :
  n <= String.length s -> exists p, str_offset s n = Ok p /\
    String.length p = String.length s - n.
Proof.
  revert s; induction n as [|n IH]; intros s Hn; simpl.
  - exists s. split; [done | lia].
  - destruct s as [|a s]; simpl in *; [lia|]. apply IH. lia.
Qed.

Lemma str_offset_Trap s n :
  String.length s < n <-> str_offset s n = Trap OutOfBounds.
Proof.
  revert s; induction n as [|n IH]; intros s; simpl.
  - split; [lia | intros [=]].
  - destruct s as [|a s]; simpl; [split; [done | lia]|].
    rewrite <- IH. lia.
Qed.

Lemma str_offset_Trap_inv s n u :
  str_offset s n = Trap u -> u = OutOfBounds /\ String.length s < n.
Proof.
  revert s. induction n as [|n IH]; intros [|a s]; cbn; try done.
  - intros [= <-]. split; [done | lia].
  - intros [-> ?]%IH. split; [done | lia].
Qed.

Lemma str_offset_app pre s :
  str_offset (pre +:+ s) (String.length pre) = Ok s.
Proof. induction pre as [|a pre IH]; [by destruct s | apply IH]. Qed.

(** ** [strcmp] *)

Lemma strcmp_refl a : strcmp a a = 0%Z.
Proof.
  unfold strcmp. pose proof (String.compare_antisym a a) as H.
  by destruct (String.compare a a).
Qed.

Lemma strcmp_eq a b : strcmp a b = 0%Z <-> a = b.
Proof.
  split; [|intros ->; apply strcmp_refl].
  unfold strcmp. pose proof (String.compare_eq_iff a b) as H.
  destruct (String.compare a b); intros E; [by apply H | discriminate E..].
Qed.

(** ** [atoi] *)

Lemma digit_of_pretty_N_char (d : N) :
  (d < 10)%N -> digit_of (pretty_N_char d) = Some (Z.of_N d).
Proof.
  intros. assert (d ∈ [0; 1; 2; 3; 4; 5; 6; 7; 8; 9]%N) as Hd.
  { rewrite !elem_of_cons. lia. }
  by repeat (apply elem_of_cons in Hd as [->|Hd]; [done|]); apply elem_of_nil in Hd.
Qed.

Lemma digits_stop acc s : stops_digits s = true -> digits acc s = acc.
Proof.
  destruct s as [|c s]; simpl; [done|]. unfold stops_digits; simpl.
  destruct (digit_of c); [|done]. rewrite bool_decide_eq_true_2; [done | eauto].
Qed.

(** Reading back what the decimal printer wrote. *)
Lemma digits_pretty_N_go (x : N) s :
  digits 0 (pretty_N_go x s) = digits (Z.of_N x) s.
Proof.
  revert s. induction (N.lt_wf_0 x) as [x _ IH]; intros s.
  destruct (decide (x = 0)%N) as [->|]; [done|].
  rewrite pretty_N_go_step by lia. rewrite IH by (apply N.div_lt; lia).
  simpl. rewrite digit_of_pretty_N_char by (apply N.mod_lt; lia).
  f_equal. rewrite (N.div_mod x 10) at 3 by lia. lia.
Qed.

Lemma pretty_N_go_app (x : N) s t :
  pretty_N_go x s +:+ t = pretty_N_go x (s +:+ t).
Proof.
  revert s. induction (N.lt_wf_0 x) as [x _ IH]; intros s.
  destruct (decide (x = 0)%N) as [->|]; [done|].
  rewrite (pretty_N_go_step x s), (pretty_N_go_step x (s +:+ t)) by lia.
  rewrite IH; [done | apply N.div_lt; lia].
Qed.

Lemma pretty_N_go_starts_with_digit (x : N) s :
  (0 < x)%N -> starts_with_digit (pretty_N_go x s) = true.
Proof.
  revert s. induction (N.lt_wf_0 x) as [x _ IH]; intros s Hx.
  rewrite pretty_N_go_step by done.
  destruct (decide (x `div` 10 = 0)%N) as [->|].
  - rewrite pretty_N_go_0. simpl.
    rewrite digit_of_pretty_N_char by (apply N.mod_lt; lia).
    by apply bool_decide_eq_true_2.
  - apply IH; [by apply N.div_lt | by apply N.neq_0_lt_0].
Qed.

Lemma pretty_N_starts_with_digit (n : N) rest :
  starts_with_digit (pretty n +:+ rest) = true.
Proof.
  unfold pretty, pretty_N. destruct (decide (n = 0)%N) as [->|]; [done|].
  rewrite pretty_N_go_app. apply pretty_N_go_starts_with_digit. lia.
Qed.

Lemma digits_pretty_N (n : N) rest :
  digits 0 (pretty n +:+ rest) = digits (Z.of_N n) rest.
Proof.
  unfold pretty, pretty_N. destruct (decide (n = 0)%N) as [->|]; [done|].
  by rewrite pretty_N_go_app, digits_pretty_N_go.
Qed.

(** On a text that starts with a digit [atoi] is [digits], range-checked. *)
Lemma atoi_starts_with_digit s :
  starts_with_digit s = true ->
  atoi s = (require (in_int (digits 0 s)) Overflow ;;; Ok (digits 0 s)).
Proof.
  destruct s as [|c s]; [done|]. unfold atoi, starts_with_digit. simpl.
  intros [d Hd]%bool_decide_eq_true.
  assert (isspace c = false /\ c <> "-"%char /\ c <> "+"%char) as (-> & ? & ?).
  { unfold digit_of in Hd. apply fmap_Some in Hd as (k & Hk & _).
    destruct c as [[] [] [] [] [] [] [] []]; by simplify_eq/=. }
  destruct c as [[] [] [] [] [] [] [] []]; by simplify_eq/=.
Qed.

(** [atoi] inverts the decimal printer on every value of an [int], whatever
    non-digit text follows the numeral. *)
Lemma atoi_pretty (n : N) rest :
  (Z.of_N n <= INT_MAX)%Z -> stops_digits rest = true ->
  atoi (pretty n +:+ rest) = Ok (Z.of_N n).
Proof.
  intros Hn Hrest.
  rewrite atoi_starts_with_digit by apply pretty_N_starts_with_digit.
  rewrite digits_pretty_N, digits_stop by done.
  replace (in_int (Z.of_N n)) with true; [done|].
  symmetry. apply in_int_spec. unfold INT_MIN. lia.
Qed.

(** A decimal numeral past [INT_MAX] is where [atoi] is undefined: the
    conversion overflows the [int] it returns. *)
Lemma atoi_overflow (n : N) rest :
  (INT_MAX < Z.of_N n)%Z -> stops_digits rest = true ->
  atoi (pretty n +:+ rest) = Trap Overflow.
Proof.
  intros Hn Hrest.
  rewrite atoi_starts_with_digit by apply pretty_N_starts_with_digit.
  rewrite digits_pretty_N, digits_stop by done.
  replace (in_int (Z.of_N n)) with false; [done|].
  symmetry. apply not_true_is_false. rewrite in_int_spec. lia.
Qed.

(** Text that starts with neither white space, a sign nor a digit reads
    as 0: [atoi] reports no error. *)
Lemma atoi_no_numeral c s :
  isspace c = false -> c <> "-"%char -> c <> "+"%char -> digit_of c = None ->
  atoi (String c s) = Ok 0%Z.
Proof.
  intros Hsp Hm Hp Hd.
  destruct c as [[] [] [] [] [] [] [] []]; try done; by simplify_eq/=.
Qed.

(** Whatever [atoi] returns is an [int]. *)
Lemma atoi_in_int s v : atoi s = Ok v -> in_int v = true.
Proof. unfold atoi. intros. by res_inv. Qed.

(** ** Texts built by concatenation *)

Lemma app_String a s t : String a s +:+ t = String a (s +:+ t).
Proof. reflexivity. Qed.

Lemma app_empty t : "" +:+ t = t.
Proof. reflexivity. Qed.

Lemma app_empty_r t : t +:+ "" = t.
Proof. induction t as [|a t IH]; [done|]. by rewrite app_String, IH. Qed.

(** The characters of a text, as a list. *)
Lemma chars_app s t :
  list_ascii_of_string (s +:+ t) = list_ascii_of_string s ++ list_ascii_of_string t.
Proof. induction s as [|a s IH]; [done|]. cbn. by rewrite <- IH. Qed.

Lemma chars_length s : length (list_ascii_of_string s) = String.length s.
Proof. induction s as [|a s IH]; [done|]. cbn. by rewrite IH. Qed.

(** [&s[n]], when it is defined, drops [n] characters. *)
Lemma str_offset_drop s n p :
  str_offset s n = Ok p ->
  n <= String.length s /\ list_ascii_of_string p = drop n (list_ascii_of_string s).
Proof.
  revert s. induction n as [|n IH]; intros [|a s]; cbn; try done.
  - intros [= <-]. split; [lia | done].
  - intros [= <-]. split; [lia | done].
  - intros [? ?]%IH. split; [lia | done].
Qed.

Lemma strchr_String a s c :
  strchr (String a s) c = if Ascii.eqb a c then Some (String a s) else strchr s c.
Proof. reflexivity. Qed.

(** A numeral holds digits only: [strchr] for another character skips it. *)
Lemma strchr_pretty_N_go (x : N) s c :
  digit_of c = None -> strchr (pretty_N_go x s) c = strchr s c.
Proof.
  intros Hc. revert s. induction (N.lt_wf_0 x) as [x _ IH]; intros s.
  destruct (decide (x = 0)%N) as [->|]; [done|].
  rewrite pretty_N_go_step by lia. rewrite IH by (apply N.div_lt; lia).
  rewrite strchr_String. destruct (Ascii.eqb_spec (pretty_N_char (x `mod` 10)) c) as [E|]; [|done].
  rewrite <- E, digit_of_pretty_N_char in Hc; [done | apply N.mod_lt; lia].
Qed.

Lemma strchr_pretty_N (n : N) rest c :
  digit_of c = None -> strchr (pretty n +:+ rest) c = strchr rest c.
Proof.
  intros Hc. unfold pretty, pretty_N. destruct (decide (n = 0)%N) as [->|].
  - rewrite app_String, strchr_String.
    destruct (Ascii.eqb_spec "0" c) as [<-|]; [done | by rewrite app_empty].
  - by rewrite pretty_N_go_app, strchr_pretty_N_go.
Qed.

#[export] Hint Rewrite app_String app_empty strchr_String : nodeset.
