(* ===== verification/Model.v ===== *)
(** * The data of the builder

    One module per C struct, its fields under the names the code uses; the
    heap of allocated records; the state of the whole builder ([World]).
    An array with its count is a list (see the header of [Prelude]). *)

From Stdlib Require Import ZArith.
From stdpp Require Import base tactics option list gmap strings numbers functions.
From S2P Require Import Prelude CString.

(** An address returned by malloc or calloc. *)
Definition ptr : Type := nat.

(** Handle of a decoded variable value, owned by the value interface. *)
Definition Value : Type := nat.

(** ** Node ids and browse names *)

Module TNodeId.
Record t : Type := mk { nsIdx : Z; id : cstr }.
#[export] Instance eq_dec : EqDecision t.
Proof. solve_decision. Defined.
End TNodeId.
Export (hints) TNodeId.
Abbreviation TNodeId := TNodeId.t.

Module TBrowseName.
Record t : Type := mk { nsIdx : Z; name : cstr }.
#[export] Instance eq_dec : EqDecision t.
Proof. solve_decision. Defined.
End TBrowseName.
Export (hints) TBrowseName.
Abbreviation TBrowseName := TBrowseName.t.

(** [TNodeId_cmp] returns 0 exactly on ids equal in both fields. *)
Definition TNodeId_cmp (a b : TNodeId) : Z :=
  if decide (a = b) then 0 else 1.

(** ** Node classes *)

Inductive TNodeClass : Type :=
| NODECLASS_OBJECT
| NODECLASS_OBJECTTYPE
| NODECLASS_VARIABLE
| NODECLASS_DATATYPE
| NODECLASS_METHOD
| NODECLASS_REFERENCETYPE
| NODECLASS_VARIABLETYPE.

#[export] Instance TNodeClass_eq_dec : EqDecision TNodeClass.
Proof. solve_decision. Defined.

(** The classes, as the loop [cnt < NODECLASS_COUNT] visits them. *)
Definition all_classes : list TNodeClass :=
  [NODECLASS_OBJECT; NODECLASS_OBJECTTYPE; NODECLASS_VARIABLE;
   NODECLASS_DATATYPE; NODECLASS_METHOD; NODECLASS_REFERENCETYPE;
   NODECLASS_VARIABLETYPE].

(** ** References *)

Module Reference.
(** [target] is [None] from malloc to [Nodeset_newReferenceFinish]: the
    code sets [target.id] to NULL and leaves [target.nsIdx] indeterminate. *)
Record t : Type := mk {
  isForward : bool;
  refType : TNodeId;
  target : option TNodeId;
  next : option ptr;
}.
#[export] Instance eq_dec : EqDecision t.
Proof. solve_decision. Defined.
Definition set_target (v : option TNodeId) (r : t) : t :=
  mk (isForward r) (refType r) v (next r).
End Reference.
Export (hints) Reference.
Abbreviation Reference := Reference.t.

(** ** Nodes *)

(** What each class adds to the common node: the struct the node was
    allocated as. *)
Inductive NodeExt : Type :=
| TObjectTypeNode (isAbstract : cstr)
| TObjectNode (parentNodeId : TNodeId) (eventNotifier : cstr)
| TVariableNode (parentNodeId datatype : TNodeId)
    (valueRank arrayDimensions accessLevel userAccessLevel : cstr)
    (value : option Value)
| TVariableTypeNode (valueRank : cstr) (datatype : TNodeId)
    (arrayDimensions isAbstract : cstr)
| TDataTypeNode
| TMethodNode (parentNodeId : TNodeId) (executable userExecutable : cstr)
| TReferenceTypeNode (symmetric : cstr).

#[export] Instance NodeExt_eq_dec : EqDecision NodeExt.
Proof. solve_decision. Defined.

(** The class a struct belongs to. *)
Definition ext_class (e : NodeExt) : TNodeClass :=
  match e with
  | TObjectTypeNode _ => NODECLASS_OBJECTTYPE
  | TObjectNode _ _ => NODECLASS_OBJECT
  | TVariableNode _ _ _ _ _ _ _ => NODECLASS_VARIABLE
  | TVariableTypeNode _ _ _ _ => NODECLASS_VARIABLETYPE
  | TDataTypeNode => NODECLASS_DATATYPE
  | TMethodNode _ _ _ => NODECLASS_METHOD
  | TReferenceTypeNode _ => NODECLASS_REFERENCETYPE
  end.

Module TNode.
Record t : Type := mk {
  nodeClass : TNodeClass;
  id : TNodeId;
  browseName : TBrowseName;
  displayName : cstr;
  description : cstr;
  writeMask : cstr;
  hierachicalRefs : option ptr;
  nonHierachicalRefs : option ptr;
  ext : NodeExt;
}.
#[export] Instance eq_dec : EqDecision t.
Proof. solve_decision. Defined.
Definition set_hierachicalRefs (v : option ptr) (n : t) : t :=
  mk (nodeClass n) (id n) (browseName n) (displayName n) (description n)
     (writeMask n) v (nonHierachicalRefs n) (ext n).
Definition set_nonHierachicalRefs (v : option ptr) (n : t) : t :=
  mk (nodeClass n) (id n) (browseName n) (displayName n) (description n)
     (writeMask n) (hierachicalRefs n) v (ext n).
End TNode.
Export (hints) TNode.
Abbreviation TNode := TNode.t.

(** ** Aliases and namespaces *)

Module Alias.
Record t : Type := mk { name : cstr; id : TNodeId }.
#[export] Instance eq_dec : EqDecision t.
Proof. solve_decision. Defined.
Definition set_id (v : TNodeId) (a : t) : t := mk (name a) v.
End Alias.
Export (hints) Alias.
Abbreviation Alias := Alias.t.

Module TNamespace.
(** [idx] is [None] from realloc to [Nodeset_newNamespaceFinish]. *)
Record t : Type := mk { idx : option Z; name : cstr }.
#[export] Instance eq_dec : EqDecision t.
Proof. solve_decision. Defined.
End TNamespace.
Export (hints) TNamespace.
Abbreviation TNamespace := TNamespace.t.

(** The host's callback: from a namespace URI to an [int]. *)
Definition addNamespaceCb : Type := cstr -> Z.

Module TNamespaceTable.
(** [size] is the length of [ns]. *)
Record t : Type := mk { ns : list TNamespace; cb : addNamespaceCb }.
Definition size (tb : t) : nat := length (ns tb).
Definition set_ns (v : list TNamespace) (tb : t) : t := mk v (cb tb).
End TNamespaceTable.
Abbreviation TNamespaceTable := TNamespaceTable.t.

(** ** The builder *)

(** [cnt] is the length of the list. *)
Definition NodeContainer : Type := list ptr.

Module Nodeset.
Record t : Type := mk {
  aliasList : list Alias;
  countedRefs : list ptr;                 (* refsSize is its length *)
  charArena : list string;                (* the blocks handed out *)
  nodes : TNodeClass -> NodeContainer;
  hierachicalRefs : list TNode;           (* hierachicalRefsSize is its length *)
  namespaceTable : TNamespaceTable;
}.
Definition set_aliasList v (n : t) : t :=
  mk v (countedRefs n) (charArena n) (nodes n) (hierachicalRefs n) (namespaceTable n).
Definition set_countedRefs v (n : t) : t :=
  mk (aliasList n) v (charArena n) (nodes n) (hierachicalRefs n) (namespaceTable n).
Definition set_charArena v (n : t) : t :=
  mk (aliasList n) (countedRefs n) v (nodes n) (hierachicalRefs n) (namespaceTable n).
Definition set_nodes v (n : t) : t :=
  mk (aliasList n) (countedRefs n) (charArena n) v (hierachicalRefs n) (namespaceTable n).
Definition set_hierachicalRefs v (n : t) : t :=
  mk (aliasList n) (countedRefs n) (charArena n) (nodes n) v (namespaceTable n).
Definition set_namespaceTable v (n : t) : t :=
  mk (aliasList n) (countedRefs n) (charArena n) (nodes n) (hierachicalRefs n) v.
End Nodeset.
Abbreviation Nodeset := Nodeset.t.

(** ** The heap and the state of the program *)

(** What the host observes: its callbacks, in the order they are called. *)
Inductive Event : Type :=
| CbAddNamespace (uri : cstr) (globalIdx : Z)
| CbAddNode (node : ptr)
| CbDeleteValue (node : ptr).

#[export] Instance Event_eq_dec : EqDecision Event.
Proof. solve_decision. Defined.

Module World.
Record t : Type := mk {
  nodeset : Nodeset;
  nodeHeap : gmap ptr TNode;      (* the nodes allocated and not freed *)
  refHeap : gmap ptr Reference;   (* the references allocated and not freed *)
  brk : ptr;                      (* the next address malloc returns *)
  sortNodes : list ptr;           (* what Sort_addNode has been given *)
  trace : list Event;
}.
Definition set_nodeset v (w : t) : t :=
  mk v (nodeHeap w) (refHeap w) (brk w) (sortNodes w) (trace w).
Definition set_nodeHeap v (w : t) : t :=
  mk (nodeset w) v (refHeap w) (brk w) (sortNodes w) (trace w).
Definition set_refHeap v (w : t) : t :=
  mk (nodeset w) (nodeHeap w) v (brk w) (sortNodes w) (trace w).
Definition set_brk v (w : t) : t :=
  mk (nodeset w) (nodeHeap w) (refHeap w) v (sortNodes w) (trace w).
Definition set_sortNodes v (w : t) : t :=
  mk (nodeset w) (nodeHeap w) (refHeap w) (brk w) v (trace w).
Definition set_trace v (w : t) : t :=
  mk (nodeset w) (nodeHeap w) (refHeap w) (brk w) (sortNodes w) v.
End World.
Abbreviation World := World.t.

(** ** Access to the heap *)

Section heap.
Implicit Types (w : World) (p : ptr).

(** [*p] for a node and for a reference: the address must be allocated. *)
Definition deref_node w p : res TNode :=
  match World.nodeHeap w !! p with
  | Some n => Ok n
  | None => Trap BadPointer
  end.

Definition deref_ref w p : res Reference :=
  match World.refHeap w !! p with
  | Some r => Ok r
  | None => Trap BadPointer
  end.

(** A store through [p]. *)
Definition store_node p (n : TNode) w : res World :=
  let* _ := deref_node w p in
  Ok (World.set_nodeHeap (<[p := n]> (World.nodeHeap w)) w).

Definition store_ref p (r : Reference) w : res World :=
  let* _ := deref_ref w p in
  Ok (World.set_refHeap (<[p := r]> (World.refHeap w)) w).

(** malloc and calloc: the next address, holding [n]. *)
Definition alloc_node (n : TNode) w : ptr * World :=
  (World.brk w,
   World.set_brk (S (World.brk w))
     (World.set_nodeHeap (<[World.brk w := n]> (World.nodeHeap w)) w)).

Definition alloc_ref (r : Reference) w : ptr * World :=
  (World.brk w,
   World.set_brk (S (World.brk w))
     (World.set_refHeap (<[World.brk w := r]> (World.refHeap w)) w)).

(** free: the address must be allocated (no double free). *)
Definition free_node p w : res World :=
  let* _ := deref_node w p in
  Ok (World.set_nodeHeap (delete p (World.nodeHeap w)) w).

Definition free_ref p w : res World :=
  let* _ := deref_ref w p in
  Ok (World.set_refHeap (delete p (World.refHeap w)) w).

Lemma deref_node_Ok w p n : deref_node w p = Ok n <-> World.nodeHeap w !! p = Some n.
Proof. unfold deref_node. destruct (_ !! _); split; congruence. Qed.

Lemma deref_ref_Ok w p r : deref_ref w p = Ok r <-> World.refHeap w !! p = Some r.
Proof. unfold deref_ref. destruct (_ !! _); split; congruence. Qed.

Lemma store_node_Ok w p n w' :
  store_node p n w = Ok w' <->
  is_Some (World.nodeHeap w !! p) /\
  w' = World.set_nodeHeap (<[p := n]> (World.nodeHeap w)) w.
Proof.
  unfold store_node, deref_node. destruct (_ !! _); simpl; [|split; [done | by intros [[] _]]].
  split; [intros [= <-]; eauto | by intros [_ ->]].
Qed.

Lemma store_ref_Ok w p r w' :
  store_ref p r w = Ok w' <->
  is_Some (World.refHeap w !! p) /\
  w' = World.set_refHeap (<[p := r]> (World.refHeap w)) w.
Proof.
  unfold store_ref, deref_ref. destruct (_ !! _); simpl; [|split; [done | by intros [[] _]]].
  split; [intros [= <-]; eauto | by intros [_ ->]].
Qed.

End heap.

(** ** Linked lists of references *)

(** The references of a list, from its head, as the loop
    [while (ref) ... ref = ref->next] meets them: each address with the
    record it holds.  The loop ends within [fuel] steps or the result is
    [Trap Timeout]. *)
Fixpoint ref_chain (fuel : nat) (h : gmap ptr Reference) (head : option ptr)
  : res (list (ptr * Reference)) :=
  match head, fuel with
  | None, _ => Ok []
  | Some _, 0 => Trap Timeout
  | Some r, S fuel' =>
      match h !! r with
      | None => Trap BadPointer
      | Some rec =>
          let* l := ref_chain fuel' h (Reference.next rec) in Ok ((r, rec) :: l)
      end
  end.

(** Every reference lies below the allocation mark, and links to a reference
    allocated before it: lists grow at their head only. *)
Definition wf_refs (h : gmap ptr Reference) (brk : ptr) : Prop :=
  forall r rec, h !! r = Some rec ->
    r < brk /\
    forall q, Reference.next rec = Some q -> q < r /\ is_Some (h !! q).

(** A head pointer is NULL or an allocated reference. *)
Definition valid_head (h : gmap ptr Reference) (head : option ptr) : Prop :=
  forall r, head = Some r -> is_Some (h !! r).

Section ref_chain.
Implicit Types (h : gmap ptr Reference) (head : option ptr).

Lemma ref_chain_lookup fuel h head l :
  ref_chain fuel h head = Ok l -> Forall (fun x => h !! x.1 = Some x.2) l.
Proof.
  revert head l. induction fuel as [|fuel IH]; intros [r|] l; simpl;
    try (intros [= <-]; constructor); try done.
  destruct (h !! r) as [rec|] eqn:E; [|done]. intros. res_inv.
  constructor; eauto.
Qed.

(** Termination: in a well-formed heap the walk from any valid head ends,
    and fuel above the head's address is enough. *)
Lemma ref_chain_total fuel h brk head :
  wf_refs h brk -> valid_head h head ->
  (forall r, head = Some r -> r < fuel) ->
  exists l, ref_chain fuel h head = Ok l.
Proof.
  intros Hwf. revert head. induction fuel as [|fuel IH]; intros head Hv Hlt.
  - destruct head as [r|]; [specialize (Hlt r eq_refl); lia | by exists []].
  - destruct head as [r|]; [|by exists []]. simpl.
    destruct (Hv r eq_refl) as [rec Hrec]. rewrite Hrec.
    destruct (Hwf r rec Hrec) as [_ Hnext]. specialize (Hlt r eq_refl).
    destruct (IH (Reference.next rec)) as (l & ->).
    + intros q Hq. by apply Hnext.
    + intros q Hq. apply Hnext in Hq as [? _]. lia.
    + by exists ((r, rec) :: l).
Qed.

(** More fuel does not change a walk that ended. *)
Lemma ref_chain_fuel_mono fuel fuel' h head l :
  fuel <= fuel' -> ref_chain fuel h head = Ok l -> ref_chain fuel' h head = Ok l.
Proof.
  revert fuel' head l. induction fuel as [|fuel IH]; intros fuel' head l Hle.
  - destruct head; simpl; [done|]. intros [= <-]. by destruct fuel'.
  - destruct head as [r|]; simpl; [|intros [= <-]; by destruct fuel'].
    destruct fuel' as [|fuel']; [lia|]. simpl.
    destruct (h !! r) as [rec|]; [|done]. intros. res_inv.
    by erewrite IH; [| lia | done].
Qed.

(** A reference allocated at the mark, linked to a reference of the heap,
    keeps the heap well formed. *)
Lemma wf_refs_alloc h brk rec :
  wf_refs h brk -> valid_head h (Reference.next rec) ->
  wf_refs (<[brk := rec]> h) (S brk).
Proof.
  intros Hwf Hnext r rec' [[<- <-]|[Hne Hr]]%lookup_insert_Some.
  - split; [lia|]. intros q Hq. destruct (Hnext q Hq) as [rq Hrq].
    destruct (Hwf q rq Hrq) as [Hlt _].
    split; [done|]. rewrite lookup_insert_ne by lia. by eexists.
  - destruct (Hwf r rec' Hr) as [Hlt Hlink]. split; [lia|].
    intros q Hq. destruct (Hlink q Hq) as [? [rq Hrq]]. split; [done|].
    rewrite lookup_insert_ne by lia. by eexists.
Qed.

(** A store through a reference that keeps its link keeps the heap well
    formed. *)
Lemma wf_refs_update h brk r rec rec' :
  wf_refs h brk -> h !! r = Some rec -> Reference.next rec' = Reference.next rec ->
  wf_refs (<[r := rec']> h) brk.
Proof.
  intros Hwf Hr Hnext r0 rec0 [[<- <-]|[Hne Hr0]]%lookup_insert_Some.
  - destruct (Hwf r rec Hr) as [Hlt Hlink]. split; [done|].
    intros q Hq. rewrite Hnext in Hq. destruct (Hlink q Hq) as [? ?].
    split; [done|]. by apply lookup_insert_is_Some'; right.
  - destruct (Hwf r0 rec0 Hr0) as [Hlt Hlink]. split; [done|].
    intros q Hq. destruct (Hlink q Hq) as [? ?].
    split; [done|]. by apply lookup_insert_is_Some'; right.
Qed.

Lemma valid_head_insert h r rec head :
  valid_head h head -> valid_head (<[r := rec]> h) head.
Proof. intros Hv q Hq. apply lookup_insert_is_Some'. right. by apply Hv. Qed.

Lemma ref_chain_cons fuel h r rec :
  h !! r = Some rec ->
  ref_chain (S fuel) h (Some r) =
  (let* l := ref_chain fuel h (Reference.next rec) in Ok ((r, rec) :: l)).
Proof. intros H. simpl. by rewrite H. Qed.

(** A block allocated at the mark is on no list of the heap: the walks are
    what they were. *)
Lemma ref_chain_alloc fuel h brk rec head :
  wf_refs h brk -> valid_head h head ->
  ref_chain fuel (<[brk := rec]> h) head = ref_chain fuel h head.
Proof.
  intros Hwf. revert head. induction fuel as [|fuel IH]; intros [r|] Hv; simpl;
    try done.
  destruct (Hv r eq_refl) as [rr Hrr]. destruct (Hwf r rr Hrr) as [Hlt Hlink].
  rewrite lookup_insert_ne, Hrr by lia. rewrite IH; [done|].
  intros q Hq. by apply Hlink.
Qed.

End ref_chain.
