(* ===== verification/Namespace.v ===== *)
(** * The namespace table and the two textual decoders

    [translateNodeId], [translateBrowseName], [extractNodedId],
    [extractBrowseName], [Nodeset_newNamespace] and
    [Nodeset_newNamespaceFinish] of Nodeset.c, and what they compute:
    the decoders on well-formed and on other text, translation through the
    table, and the conditions under which none of them traps. *)

From Stdlib Require Import ZArith Lia Ascii String.
From stdpp Require Import base tactics option list strings numbers pretty.
From S2P Require Import Prelude CString Model.

(** [namespaces[i]]: the array has [size] cells. *)
Definition ns_at (namespaces : list TNamespace) (i : Z) : res TNamespace :=
  require (0 <=? i)%Z OutOfBounds ;;;
  match namespaces !! Z.to_nat i with
  | Some n => Ok n
  | None => Trap OutOfBounds
  end.

Definition translateNodeId (namespaces : list TNamespace) (id : TNodeId)
  : res TNodeId :=
  if (0 <? TNodeId.nsIdx id)%Z then
    let* n := ns_at namespaces (TNodeId.nsIdx id) in
    let* g := initialised (TNamespace.idx n) in
    Ok (TNodeId.mk (to_int g) (TNodeId.id id))
  else Ok id.

Definition translateBrowseName (namespaces : list TNamespace) (bn : TBrowseName)
  : res TBrowseName :=
  if (0 <? TBrowseName.nsIdx bn)%Z then
    let* n := ns_at namespaces (TBrowseName.nsIdx bn) in
    let* g := initialised (TNamespace.idx n) in
    Ok (TBrowseName.mk (to_uint16 g) (TBrowseName.name bn))
  else Ok bn.

Definition extractNodedId (namespaces : list TNamespace) (s : cstr)
  : res TNodeId :=
  match s with
  | None => Ok (TNodeId.mk 0 None)
  | Some s =>
      match strchr s ";" with
      | None => Ok (TNodeId.mk 0 (Some s))
      | Some idxSemi =>
          let* digits_at := str_offset s 3 in
          let* k := atoi digits_at in
          let* rest := str_offset idxSemi 1 in
          translateNodeId namespaces (TNodeId.mk k (Some rest))
      end
  end.

Definition extractBrowseName (namespaces : list TNamespace) (s : cstr)
  : res TBrowseName :=
  let* s := nonnull s in
  match strchr s ":" with
  | None => Ok (TBrowseName.mk 0 (Some s))
  | Some bnName =>
      let* k := atoi s in
      let* rest := str_offset bnName 1 in
      translateBrowseName namespaces (TBrowseName.mk (to_uint16 k) (Some rest))
  end.

(** The table [Nodeset_new] builds: entry 0 is the OPC UA namespace. *)
Definition initial_namespaceTable (nsCallback : addNamespaceCb) : TNamespaceTable :=
  TNamespaceTable.mk
    [TNamespace.mk (Some 0%Z) (Some "http://opcfoundation.org/UA/")]
    nsCallback.

(** Appends a cell and returns its index; realloc leaves [idx] unset. *)
Definition Nodeset_newNamespace (w : World) : nat * World :=
  let tb := Nodeset.namespaceTable (World.nodeset w) in
  let ns' := TNamespaceTable.ns tb ++ [TNamespace.mk None None] in
  (length ns' - 1,
   World.set_nodeset
     (Nodeset.set_namespaceTable (TNamespaceTable.set_ns ns' tb) (World.nodeset w))
     w).

(** Stores the URI in the last cell, asks the host for the global index and
    stores it there as a [size_t]. *)
Definition Nodeset_newNamespaceFinish (namespaceUri : cstr) (w : World)
  : res World :=
  let tb := Nodeset.namespaceTable (World.nodeset w) in
  let last := (TNamespaceTable.size tb - 1)%nat in
  require (bool_decide (0 < TNamespaceTable.size tb)%nat) OutOfBounds ;;;
  let globalIdx := to_int (TNamespaceTable.cb tb namespaceUri) in
  let ns' := <[last := TNamespace.mk (Some (to_size_t globalIdx)) namespaceUri]>
               (TNamespaceTable.ns tb) in
  Ok (World.set_trace (World.trace w ++ [CbAddNamespace namespaceUri globalIdx])
        (World.set_nodeset
           (Nodeset.set_namespaceTable (TNamespaceTable.set_ns ns' tb)
              (World.nodeset w))
           w)).

(** The textual form of a node id in namespace [k]. *)
Definition nodeId_text (k : N) (rest : string) : string :=
  "ns=" +:+ pretty k +:+ ";" +:+ rest.

(** The textual form of a browse name in namespace [k]. *)
Definition browseName_text (k : N) (name : string) : string :=
  pretty k +:+ ":" +:+ name.

(** The table is usable at [k]: the cell exists and its index is set. *)
Definition ns_ready (namespaces : list TNamespace) (k : Z) (g : Z) : Prop :=
  exists n, namespaces !! Z.to_nat k = Some n /\ TNamespace.idx n = Some g.

(** ** Translation *)

Section translation.
Context (namespaces : list TNamespace).

Lemma ns_at_Ok (k : Z) n :
  ns_at namespaces k = Ok n <-> (0 <= k)%Z /\ namespaces !! Z.to_nat k = Some n.
Proof.
  unfold ns_at. destruct (Z.leb_spec 0 k); simpl.
  - destruct (namespaces !! Z.to_nat k); naive_solver.
  - split; [done | lia].
Qed.

Lemma ns_at_ready (k g : Z) :
  (0 <= k)%Z -> ns_ready namespaces k g ->
  (let* n := ns_at namespaces k in initialised (TNamespace.idx n)) = Ok g.
Proof.
  intros Hk (n & Hn & Hg). rewrite (proj2 (ns_at_Ok k n)) by done.
  simpl. by rewrite Hg.
Qed.

(** Namespace 0, and any index that is not positive, is never looked up:
    the id is returned as it is, whatever the table holds. *)
Theorem translateNodeId_ns0 (id : TNodeId) :
  (TNodeId.nsIdx id <= 0)%Z -> translateNodeId namespaces id = Ok id.
Proof.
  intros H. unfold translateNodeId.
  by destruct (Z.ltb_spec 0 (TNodeId.nsIdx id)); [lia|].
Qed.

(** A positive file-local index is replaced by the global index the
    table holds for it, converted from [size_t] to [int]; the identifier
    text is kept. *)
Theorem translateNodeId_ready (id : TNodeId) (g : Z) :
  (0 < TNodeId.nsIdx id)%Z -> ns_ready namespaces (TNodeId.nsIdx id) g ->
  translateNodeId namespaces id = Ok (TNodeId.mk (to_int g) (TNodeId.id id)).
Proof.
  intros Hk Hr. unfold translateNodeId.
  destruct (Z.ltb_spec 0 (TNodeId.nsIdx id)); [|lia].
  destruct Hr as (n & Hn & Hg).
  rewrite (proj2 (ns_at_Ok _ n)) by (split; [lia | done]). simpl. by rewrite Hg.
Qed.

(** An index at or past the size of the table is read past the end of the
    array: the code compares no index to the size. *)
Lemma translateNodeId_undeclared (id : TNodeId) :
  (0 < TNodeId.nsIdx id)%Z -> length namespaces <= Z.to_nat (TNodeId.nsIdx id) ->
  translateNodeId namespaces id = Trap OutOfBounds.
Proof.
  intros Hpos Hlen. unfold translateNodeId, ns_at.
  rewrite (proj2 (Z.ltb_lt _ _)), (proj2 (Z.leb_le _ _)) by lia. cbn.
  by rewrite (proj2 (lookup_ge_None _ _)).
Qed.

(** A browse name is translated like a node id, except that the global
    index is truncated to 16 bits. *)
Theorem translateBrowseName_ready (bn : TBrowseName) (g : Z) :
  (0 < TBrowseName.nsIdx bn)%Z -> ns_ready namespaces (TBrowseName.nsIdx bn) g ->
  translateBrowseName namespaces bn =
    Ok (TBrowseName.mk (to_uint16 g) (TBrowseName.name bn)).
Proof.
  intros Hk Hr. unfold translateBrowseName.
  destruct (Z.ltb_spec 0 (TBrowseName.nsIdx bn)); [|lia].
  destruct Hr as (n & Hn & Hg).
  rewrite (proj2 (ns_at_Ok _ n)) by (split; [lia | done]). simpl. by rewrite Hg.
Qed.

Lemma translateBrowseName_ns0 (bn : TBrowseName) :
  (TBrowseName.nsIdx bn <= 0)%Z -> translateBrowseName namespaces bn = Ok bn.
Proof.
  intros H. unfold translateBrowseName.
  by destruct (Z.ltb_spec 0 (TBrowseName.nsIdx bn)); [lia|].
Qed.

(** ** Decoding node ids *)

(** Text without a semicolon is an identifier of namespace 0, taken
    whole. *)
Theorem extractNodedId_plain (s : string) :
  strchr s ";" = None ->
  extractNodedId namespaces (Some s) = Ok (TNodeId.mk 0 (Some s)).
Proof. intros H. unfold extractNodedId. by rewrite H. Qed.

(** Whenever the text holds a semicolon, the namespace index is read by
    [atoi] from the fourth character on, whatever the first three are, and
    the identifier is what follows the first semicolon. *)
Theorem extractNodedId_prefixed (a b c : ascii) (k : N) (rest : string) :
  a <> ";"%char -> b <> ";"%char -> c <> ";"%char ->
  (Z.of_N k <= INT_MAX)%Z ->
  extractNodedId namespaces
    (Some (String a (String b (String c (pretty k +:+ ";" +:+ rest))))) =
  translateNodeId namespaces (TNodeId.mk (Z.of_N k) (Some rest)).
Proof.
  intros Ha Hb Hc Hk. unfold extractNodedId.
  rewrite !strchr_String.
  rewrite !(proj2 (Ascii.eqb_neq _ _)) by done.
  rewrite strchr_pretty_N by done. simpl strchr. simpl str_offset.
  cbn [res_bind]. by rewrite atoi_pretty.
Qed.

(** Round trip: the text "ns=<k>;<rest>" decodes to the translation of
    (k, rest), for every index an [int] holds and every identifier text,
    semicolons included. *)
Theorem extractNodedId_text (k : N) (rest : string) :
  (Z.of_N k <= INT_MAX)%Z ->
  extractNodedId namespaces (Some (nodeId_text k rest)) =
  translateNodeId namespaces (TNodeId.mk (Z.of_N k) (Some rest)).
Proof. intros. by apply (extractNodedId_prefixed "n" "s" "="). Qed.

(** A text whose semicolon is among its first two characters and which is
    shorter than three characters is read past its end. *)
Theorem extractNodedId_short (s : string) :
  is_Some (strchr s ";") -> String.length s < 3 ->
  extractNodedId namespaces (Some s) = Trap OutOfBounds.
Proof.
  intros [p Hp] Hlen. unfold extractNodedId. rewrite Hp.
  by rewrite (proj1 (str_offset_Trap s 3)).
Qed.

(** ** Decoding browse names *)

(** A browse name without a colon is a name of namespace 0. *)
Theorem extractBrowseName_plain (s : string) :
  strchr s ":" = None ->
  extractBrowseName namespaces (Some s) = Ok (TBrowseName.mk 0 (Some s)).
Proof. intros H. unfold extractBrowseName. simpl. by rewrite H. Qed.

(** Round trip: the text "<k>:<name>" decodes to the translation of
    (k mod 2^16, name). *)
Theorem extractBrowseName_text (k : N) (name : string) :
  (Z.of_N k <= INT_MAX)%Z ->
  extractBrowseName namespaces (Some (browseName_text k name)) =
  translateBrowseName namespaces
    (TBrowseName.mk (to_uint16 (Z.of_N k)) (Some name)).
Proof.
  intros Hk. unfold extractBrowseName, browseName_text. simpl nonnull. simpl res_bind.
  rewrite strchr_pretty_N by done. simpl strchr. by rewrite atoi_pretty.
Qed.

End translation.

(** A three-character text followed by a semicolon carries no numeral:
    [atoi] reads 0 and the text before the semicolon is dropped.  The
    string identifier "s=a;b" of namespace 0 decodes to (0, "b"). *)
Theorem extractNodedId_semicolon_in_identifier
    (namespaces : list TNamespace) (a b c : ascii) (rest : string) :
  a <> ";"%char -> b <> ";"%char -> c <> ";"%char ->
  extractNodedId namespaces (Some (String a (String b (String c (String ";" rest)))))
  = Ok (TNodeId.mk 0 (Some rest)).
Proof.
  intros Ha Hb Hc. unfold extractNodedId.
  rewrite !strchr_String, !(proj2 (Ascii.eqb_neq _ _)) by done.
  by rewrite Ascii.eqb_refl.
Qed.

(** ** Declaring namespaces *)

Section declaring.
Implicit Types (w : World) (uri : cstr).

Definition namespaces_of w : list TNamespace :=
  TNamespaceTable.ns (Nodeset.namespaceTable (World.nodeset w)).
Definition cb_of w : addNamespaceCb :=
  TNamespaceTable.cb (Nodeset.namespaceTable (World.nodeset w)).

(** [Nodeset_newNamespace] appends one cell with no URI and no index,
    returns its position, and touches nothing else. *)
Theorem Nodeset_newNamespace_appends w :
  fst (Nodeset_newNamespace w) = length (namespaces_of w) /\
  namespaces_of (snd (Nodeset_newNamespace w)) =
    namespaces_of w ++ [TNamespace.mk None None] /\
  cb_of (snd (Nodeset_newNamespace w)) = cb_of w /\
  World.trace (snd (Nodeset_newNamespace w)) = World.trace w.
Proof.
  unfold Nodeset_newNamespace, namespaces_of, cb_of. simpl.
  rewrite length_app. simpl. repeat split; lia.
Qed.

(** On a table with at least one cell [Nodeset_newNamespaceFinish]
    overwrites the last cell with the URI and the host's index, calls the
    host exactly once, and leaves the other cells as they were. *)
Theorem Nodeset_newNamespaceFinish_last uri w :
  namespaces_of w <> [] ->
  exists w', Nodeset_newNamespaceFinish uri w = Ok w' /\
    namespaces_of w' =
      <[length (namespaces_of w) - 1 :=
          TNamespace.mk (Some (to_size_t (to_int (cb_of w uri)))) uri]>
        (namespaces_of w) /\
    cb_of w' = cb_of w /\
    World.trace w' = World.trace w ++ [CbAddNamespace uri (to_int (cb_of w uri))].
Proof.
  intros Hne. unfold Nodeset_newNamespaceFinish, TNamespaceTable.size.
  fold (namespaces_of w) (cb_of w).
  rewrite bool_decide_eq_true_2 by (destruct (namespaces_of w); simpl; [done | lia]).
  by eexists.
Qed.

(** A declaration (start event, then the URI) adds exactly the cell
    (host index, URI) at the end of the table. *)
Theorem namespace_declaration uri w :
  exists w', Nodeset_newNamespaceFinish uri (snd (Nodeset_newNamespace w)) = Ok w' /\
    namespaces_of w' =
      namespaces_of w ++
        [TNamespace.mk (Some (to_size_t (to_int (cb_of w uri)))) uri].
Proof.
  destruct (Nodeset_newNamespace_appends w) as (_ & Hns & Hcb & _).
  destruct (Nodeset_newNamespaceFinish_last uri (snd (Nodeset_newNamespace w)))
    as (w' & Hw' & Hns' & _).
  { rewrite Hns. by destruct (namespaces_of w). }
  exists w'. split; [done|]. rewrite Hns', Hns, Hcb, length_app. simpl.
  replace (length (namespaces_of w) + 1 - 1) with (length (namespaces_of w) + 0) by lia.
  by rewrite insert_app_r.
Qed.

(** C28. After the declaration of a namespace at file index [i > 0], the text
    "ns=<i>;<rest>" decodes to the index the host returned for its URI, kept
    exactly through the [size_t] cell whatever its sign. *)
Theorem declared_namespace_translates uri w w' (rest : string) :
  namespaces_of w <> [] ->
  (Z.of_nat (length (namespaces_of w)) <= INT_MAX)%Z ->
  Nodeset_newNamespaceFinish uri (snd (Nodeset_newNamespace w)) = Ok w' ->
  extractNodedId (namespaces_of w')
    (Some (nodeId_text (N.of_nat (length (namespaces_of w))) rest)) =
  Ok (TNodeId.mk (to_int (cb_of w uri)) (Some rest)).
Proof.
  intros Hne Hlen Hfin.
  destruct (namespace_declaration uri w) as (w2 & Hw2 & Hns).
  rewrite Hw2 in Hfin. injection Hfin as <-.
  rewrite extractNodedId_text by lia.
  rewrite (translateNodeId_ready _ _ (to_size_t (to_int (cb_of w uri)))); simpl.
  - by rewrite to_int_to_size_t by apply to_int_range.
  - destruct (namespaces_of w); [done | simpl; lia].
  - eexists. rewrite Hns, nat_N_Z, Nat2Z.id, list_lookup_middle by done. done.
Qed.

End declaring.
