(* ===== verification/Attributes.v ===== *)
(** * Attribute descriptors and [getAttributeValue]

    The SAX driver passes the attributes of a start tag as a flat array of
    five pointers per attribute (local name, prefix, URI, start of the
    value, end of the value).  An [XmlAttr] is one such group, its value the
    bytes between the two pointers.  [getAttributeValue] copies the value of
    the first attribute of the wanted name into the character arena, and
    falls back on the descriptor's default, which may be NULL. *)

From Stdlib Require Import ZArith Lia Ascii String.
From stdpp Require Import base tactics option list strings numbers.
From S2P Require Import Prelude CString Model.

Module NodeAttribute.
Record t : Type := mk { name : string; defaultValue : cstr }.
End NodeAttribute.
Abbreviation NodeAttribute := NodeAttribute.t.

(** The names of the attributes, by the element that carries them. *)
(* UANode *)
Definition ATTRIBUTE_NODEID : string := "NodeId".
Definition ATTRIBUTE_BROWSENAME : string := "BrowseName".
(* UAInstance *)
Definition ATTRIBUTE_PARENTNODEID : string := "ParentNodeId".
(* UAVariable *)
Definition ATTRIBUTE_DATATYPE : string := "DataType".
Definition ATTRIBUTE_VALUERANK : string := "ValueRank".
Definition ATTRIBUTE_ARRAYDIMENSIONS : string := "ArrayDimensions".
(* UAObject *)
Definition ATTRIBUTE_EVENTNOTIFIER : string := "EventNotifier".
(* UAObjectType *)
Definition ATTRIBUTE_ISABSTRACT : string := "IsAbstract".
(* Reference *)
Definition ATTRIBUTE_REFERENCETYPE : string := "ReferenceType".
Definition ATTRIBUTE_ISFORWARD : string := "IsForward".
Definition ATTRIBUTE_SYMMETRIC : string := "Symmetric".
Definition ATTRIBUTE_ALIAS : string := "Alias".

Arguments ATTRIBUTE_NODEID : simpl never.
Arguments ATTRIBUTE_BROWSENAME : simpl never.
Arguments ATTRIBUTE_PARENTNODEID : simpl never.
Arguments ATTRIBUTE_DATATYPE : simpl never.
Arguments ATTRIBUTE_VALUERANK : simpl never.
Arguments ATTRIBUTE_ARRAYDIMENSIONS : simpl never.
Arguments ATTRIBUTE_EVENTNOTIFIER : simpl never.
Arguments ATTRIBUTE_ISABSTRACT : simpl never.
Arguments ATTRIBUTE_REFERENCETYPE : simpl never.
Arguments ATTRIBUTE_ISFORWARD : simpl never.
Arguments ATTRIBUTE_SYMMETRIC : simpl never.
Arguments ATTRIBUTE_ALIAS : simpl never.

Definition attrNodeId : NodeAttribute := NodeAttribute.mk ATTRIBUTE_NODEID None.
Definition attrBrowseName : NodeAttribute :=
  NodeAttribute.mk ATTRIBUTE_BROWSENAME None.
Definition attrParentNodeId : NodeAttribute :=
  NodeAttribute.mk ATTRIBUTE_PARENTNODEID None.
Definition attrEventNotifier : NodeAttribute :=
  NodeAttribute.mk ATTRIBUTE_EVENTNOTIFIER None.
Definition attrDataType : NodeAttribute :=
  NodeAttribute.mk ATTRIBUTE_DATATYPE (Some "i=24").
Definition attrValueRank : NodeAttribute :=
  NodeAttribute.mk ATTRIBUTE_VALUERANK (Some "-1").
Definition attrArrayDimensions : NodeAttribute :=
  NodeAttribute.mk ATTRIBUTE_ARRAYDIMENSIONS (Some "").
Definition attrIsAbstract : NodeAttribute :=
  NodeAttribute.mk ATTRIBUTE_ISABSTRACT (Some "false").
Definition attrIsForward : NodeAttribute :=
  NodeAttribute.mk ATTRIBUTE_ISFORWARD (Some "true").
Definition attrReferenceType : NodeAttribute :=
  NodeAttribute.mk ATTRIBUTE_REFERENCETYPE None.
Definition attrAlias : NodeAttribute := NodeAttribute.mk ATTRIBUTE_ALIAS None.
Definition attrExecutable : NodeAttribute := NodeAttribute.mk "Executable" (Some "true").
Definition attrUserExecutable : NodeAttribute :=
  NodeAttribute.mk "UserExecutable" (Some "true").
Definition attrAccessLevel : NodeAttribute := NodeAttribute.mk "AccessLevel" (Some "1").
Definition attrUserAccessLevel : NodeAttribute :=
  NodeAttribute.mk "UserAccessLevel" (Some "1").
Definition attrSymmetric : NodeAttribute := NodeAttribute.mk "Symmetric" (Some "false").

(** One attribute of a start tag: fields 0, 1, 2 and the bytes from field 3
    up to field 4. *)
Module XmlAttr.
Record t : Type := mk {
  localname : string;
  prefix : cstr;
  URI : cstr;
  value : string;
}.
End XmlAttr.
Abbreviation XmlAttr := XmlAttr.t.

(** An attribute written name="value", with no prefix and no namespace. *)
Definition xml_attr (name value : string) : XmlAttr :=
  XmlAttr.mk name None None value.

(** [CharArenaAllocator_malloc] followed by the memcpy of the value: the
    arena hands out one more block, which holds the copy. *)
Definition arena_copy (v : string) (w : World) : string * World :=
  (v, World.set_nodeset
        (Nodeset.set_charArena (Nodeset.charArena (World.nodeset w) ++ [v])
           (World.nodeset w))
        w).

(** The loop of [getAttributeValue]: the value of the first attribute whose
    local name [strcmp] finds equal to [name]. *)
Fixpoint find_attribute (name : string) (attributes : list XmlAttr)
  : option string :=
  match attributes with
  | [] => None
  | a :: attributes' =>
      if (strcmp (XmlAttr.localname a) name =? 0)%Z
      then Some (XmlAttr.value a)
      else find_attribute name attributes'
  end.

Definition getAttributeValue (attr : NodeAttribute) (attributes : list XmlAttr)
    (w : World) : cstr * World :=
  match find_attribute (NodeAttribute.name attr) attributes with
  | Some v => let '(p, w') := arena_copy v w in (Some p, w')
  | None => (NodeAttribute.defaultValue attr, w)
  end.

(** ** What [getAttributeValue] returns *)

Section getAttributeValue.
Implicit Types (attr : NodeAttribute) (attributes : list XmlAttr) (w : World).

Lemma find_attribute_Some name attributes v :
  find_attribute name attributes = Some v <->
  exists pre a post, attributes = pre ++ a :: post /\
    XmlAttr.localname a = name /\ XmlAttr.value a = v /\
    Forall (fun b => XmlAttr.localname b <> name) pre.
Proof.
  induction attributes as [|a l IH]; simpl.
  - split; [done | by intros ([|??] & ? & ? & ? & _)].
  - destruct (Z.eqb_spec (strcmp (XmlAttr.localname a) name) 0) as [E|E];
      rewrite strcmp_eq in E.
    + split.
      * intros [= <-]. by exists [], a, l.
      * intros (pre & a' & post & Heq & ? & ? & Hpre).
        destruct pre as [|b pre]; simplify_eq/=; [done|].
        by inversion Hpre.
    + rewrite IH. split.
      * intros (pre & a' & post & -> & ? & ? & ?).
        exists (a :: pre), a', post. by repeat split; [..|constructor].
      * intros (pre & a' & post & Heq & ? & ? & Hpre).
        destruct pre as [|b pre]; simplify_eq/=.
        inversion Hpre. by exists pre, a', post.
Qed.

Lemma find_attribute_None name attributes :
  find_attribute name attributes = None <->
  Forall (fun b => XmlAttr.localname b <> name) attributes.
Proof.
  induction attributes as [|a l IH]; simpl; [split; [constructor | done]|].
  rewrite Forall_cons_iff.
  destruct (Z.eqb_spec (strcmp (XmlAttr.localname a) name) 0) as [E|E];
    rewrite strcmp_eq in E.
  - split; [done | by intros [? _]].
  - rewrite IH. by split; [|intros [_ ?]].
Qed.

(** When an attribute of the wanted name is present, the value of the
    first such attribute is returned, and it is the block the arena has
    just handed out; nothing else of the state changes. *)
Theorem getAttributeValue_present attr attributes w pre a post :
  attributes = pre ++ a :: post ->
  XmlAttr.localname a = NodeAttribute.name attr ->
  Forall (fun b => XmlAttr.localname b <> NodeAttribute.name attr) pre ->
  getAttributeValue attr attributes w =
    (Some (XmlAttr.value a), snd (arena_copy (XmlAttr.value a) w)).
Proof.
  intros -> Ha Hpre. unfold getAttributeValue.
  by rewrite (proj2 (find_attribute_Some _ _ (XmlAttr.value a)))
    by (exists pre, a, post; done).
Qed.

(** When no attribute has the wanted name, the descriptor's default is
    returned (NULL when it has none) and the state is unchanged. *)
Theorem getAttributeValue_absent attr attributes w :
  Forall (fun b => XmlAttr.localname b <> NodeAttribute.name attr) attributes ->
  getAttributeValue attr attributes w = (NodeAttribute.defaultValue attr, w).
Proof.
  intros H. unfold getAttributeValue. by rewrite (proj2 (find_attribute_None _ _)).
Qed.

(** A value that is not the default of the descriptor lies in the arena
    after the call, and the arena never loses a block. *)
Theorem getAttributeValue_in_arena attr attributes w v :
  fst (getAttributeValue attr attributes w) = Some v ->
  (Some v = NodeAttribute.defaultValue attr \/
   v ∈ Nodeset.charArena (World.nodeset (snd (getAttributeValue attr attributes w))))
  /\ Nodeset.charArena (World.nodeset w) `prefix_of`
       Nodeset.charArena (World.nodeset (snd (getAttributeValue attr attributes w))).
Proof.
  unfold getAttributeValue.
  destruct (find_attribute _ _) as [v'|]; simpl.
  - intros [= ->]. split; [right; set_solver | by apply prefix_app_r].
  - intros <-. split; [by left | done].
Qed.

(** Everything but the arena is left alone. *)
Lemma getAttributeValue_frame attr attributes w :
  let w' := snd (getAttributeValue attr attributes w) in
  World.nodeHeap w' = World.nodeHeap w /\ World.refHeap w' = World.refHeap w /\
  World.brk w' = World.brk w /\ World.sortNodes w' = World.sortNodes w /\
  World.trace w' = World.trace w /\
  Nodeset.set_charArena (Nodeset.charArena (World.nodeset w)) (World.nodeset w')
    = World.nodeset w.
Proof.
  unfold getAttributeValue. destruct (find_attribute _ _); simpl;
    by destruct w as [[]].
Qed.

End getAttributeValue.

(** ** [getAttributeValue] as a pure function and an arena update *)

(** The state with another arena, everything else as in [w]. *)
Definition set_arena (a : list string) (w : World) : World :=
  World.set_nodeset (Nodeset.set_charArena a (World.nodeset w)) w.

Definition arena_of (w : World) : list string :=
  Nodeset.charArena (World.nodeset w).

(** What [getAttributeValue] returns, and the blocks it takes from the
    arena. *)
Definition attr_value (attr : NodeAttribute) (attributes : list XmlAttr) : cstr :=
  match find_attribute (NodeAttribute.name attr) attributes with
  | Some v => Some v
  | None => NodeAttribute.defaultValue attr
  end.

Definition attr_blocks (attr : NodeAttribute) (attributes : list XmlAttr)
  : list string :=
  match find_attribute (NodeAttribute.name attr) attributes with
  | Some v => [v]
  | None => []
  end.

Lemma set_arena_arena_of w : set_arena (arena_of w) w = w.
Proof. by destruct w as [[]]. Qed.

Lemma getAttributeValue_eq attr attributes w :
  getAttributeValue attr attributes w =
  (attr_value attr attributes,
   set_arena (arena_of w ++ attr_blocks attr attributes) w).
Proof.
  unfold getAttributeValue, attr_value, attr_blocks.
  destruct (find_attribute _ _); simpl; [done|].
  by rewrite app_nil_r, set_arena_arena_of.
Qed.
