(* ===== verification/Alias.v ===== *)
(** * The alias table

    [alias2Id], [Nodeset_newAlias] and [Nodeset_newAliasFinish] of
    Nodeset.c over the alias list.  AliasList.c is not part of the sources:
    the list is modelled from the specification as the aliases in the order
    of their declaration, an [Alias *] being the position of the alias, a
    fresh alias having the id (0, NULL), and lookup returning the first
    alias of the given name. *)

From Stdlib Require Import Ascii String.
From stdpp Require Import strings.
From S2P Require Import Prelude CString Model Namespace Attributes.

(** ** The list *)

Definition AliasList_new : list Alias := [].

Definition AliasList_newAlias (l : list Alias) (name : cstr) : nat * list Alias :=
  (length l, l ++ [Alias.mk name (TNodeId.mk 0 None)]).

(** A NULL name matches no alias. *)
Definition alias_matches (name : cstr) (a : Alias) : bool :=
  match name with
  | Some n => bool_decide (Alias.name a = Some n)
  | None => false
  end.

Fixpoint AliasList_getNodeId (l : list Alias) (name : cstr) : option TNodeId :=
  match l with
  | [] => None
  | a :: l' =>
      if alias_matches name a then Some (Alias.id a)
      else AliasList_getNodeId l' name
  end.

(** ** The builder's functions *)

Definition alias2Id (w : World) (name : cstr) : res TNodeId :=
  match AliasList_getNodeId (Nodeset.aliasList (World.nodeset w)) name with
  | None => extractNodedId (namespaces_of w) name
  | Some alias => Ok alias
  end.

Definition Nodeset_newAlias (attributes : list XmlAttr) (w : World) : nat * World :=
  let '(name, w1) := getAttributeValue attrAlias attributes w in
  let '(alias, l) := AliasList_newAlias (Nodeset.aliasList (World.nodeset w1)) name in
  (alias, World.set_nodeset (Nodeset.set_aliasList l (World.nodeset w1)) w1).

Definition Nodeset_newAliasFinish (alias : nat) (idString : cstr) (w : World)
  : res World :=
  let l := Nodeset.aliasList (World.nodeset w) in
  let* a := match l !! alias with Some a => Ok a | None => Trap BadPointer end in
  let* id := extractNodedId (namespaces_of w) idString in
  Ok (World.set_nodeset
        (Nodeset.set_aliasList (<[alias := Alias.set_id id a]> l) (World.nodeset w))
        w).

(** ** Lookup *)

Section lookup.
Implicit Types (l : list Alias) (name : string) (id : TNodeId).

Lemma AliasList_getNodeId_NULL l : AliasList_getNodeId l None = None.
Proof. by induction l. Qed.

Lemma AliasList_getNodeId_cons a l name :
  AliasList_getNodeId (a :: l) (Some name) =
  if decide (Alias.name a = Some name) then Some (Alias.id a)
  else AliasList_getNodeId l (Some name).
Proof.
  simpl. case_decide; [by rewrite bool_decide_eq_true_2 | by rewrite bool_decide_eq_false_2].
Qed.

Lemma AliasList_getNodeId_None l name :
  AliasList_getNodeId l (Some name) = None <->
  Forall (fun a => Alias.name a <> Some name) l.
Proof.
  induction l as [|a l IH]; [split; [intros _; constructor | done]|].
  rewrite AliasList_getNodeId_cons, Forall_cons_iff, <- IH.
  case_decide; naive_solver.
Qed.

Lemma AliasList_getNodeId_app l1 l2 name :
  AliasList_getNodeId (l1 ++ l2) (Some name) =
  match AliasList_getNodeId l1 (Some name) with
  | Some id => Some id
  | None => AliasList_getNodeId l2 (Some name)
  end.
Proof.
  induction l1 as [|a l1 IH]; [done|].
  rewrite <- app_comm_cons, !AliasList_getNodeId_cons. by case_decide.
Qed.

(** The first alias of the name decides. *)
Lemma AliasList_getNodeId_first l1 a l2 name :
  Forall (fun b => Alias.name b <> Some name) l1 -> Alias.name a = Some name ->
  AliasList_getNodeId (l1 ++ a :: l2) (Some name) = Some (Alias.id a).
Proof.
  intros H1 Ha. rewrite AliasList_getNodeId_app.
  rewrite (proj2 (AliasList_getNodeId_None l1 name)) by done.
  rewrite AliasList_getNodeId_cons. by rewrite decide_True.
Qed.

End lookup.

(** ** Resolution *)

Section resolution.
Implicit Types (w : World) (name text : string) (id : TNodeId).

Definition aliases_of w : list Alias := Nodeset.aliasList (World.nodeset w).

(** An alias of that name has not been declared. *)
Definition undeclared w name : Prop :=
  Forall (fun a => Alias.name a <> Some name) (aliases_of w).

(** Resolution reads the alias list and the namespace table, nothing
    else. *)
Lemma alias2Id_frame w1 w2 (name : cstr) :
  aliases_of w1 = aliases_of w2 -> namespaces_of w1 = namespaces_of w2 ->
  alias2Id w1 name = alias2Id w2 name.
Proof. unfold alias2Id, aliases_of. by intros -> ->. Qed.

(** A name that no declared alias bears is decoded as an inline node
    id. *)
Theorem alias2Id_undeclared w name :
  undeclared w name ->
  alias2Id w (Some name) = extractNodedId (namespaces_of w) (Some name).
Proof.
  intros H. unfold alias2Id. fold (aliases_of w).
  by rewrite (proj2 (AliasList_getNodeId_None _ _)).
Qed.

(** The name of a declared alias resolves to the id of the first alias
    declared under it, without consulting the namespace table. *)
Theorem alias2Id_declared w name l1 a l2 :
  aliases_of w = l1 ++ a :: l2 ->
  Forall (fun b => Alias.name b <> Some name) l1 -> Alias.name a = Some name ->
  alias2Id w (Some name) = Ok (Alias.id a).
Proof.
  intros Hl H1 Ha. unfold alias2Id. fold (aliases_of w).
  by rewrite Hl, AliasList_getNodeId_first.
Qed.

Lemma Nodeset_newAlias_spec attributes w name :
  find_attribute ATTRIBUTE_ALIAS attributes = Some name ->
  fst (Nodeset_newAlias attributes w) = length (aliases_of w) /\
  aliases_of (snd (Nodeset_newAlias attributes w)) =
    aliases_of w ++ [Alias.mk (Some name) (TNodeId.mk 0 None)] /\
  namespaces_of (snd (Nodeset_newAlias attributes w)) = namespaces_of w.
Proof.
  intros H. unfold Nodeset_newAlias, getAttributeValue. simpl. by rewrite H.
Qed.

Lemma Nodeset_newAliasFinish_spec alias a idString id w :
  aliases_of w !! alias = Some a ->
  extractNodedId (namespaces_of w) idString = Ok id ->
  exists w', Nodeset_newAliasFinish alias idString w = Ok w' /\
    aliases_of w' = <[alias := Alias.set_id id a]> (aliases_of w) /\
    namespaces_of w' = namespaces_of w.
Proof.
  intros Ha Hid. unfold Nodeset_newAliasFinish. fold (aliases_of w).
  rewrite Ha. simpl. rewrite Hid. simpl. by eexists.
Qed.

(** C29. Declaring an alias (start tag with the attribute Alias, then its
    text) appends it to the list with the decoded id, and from then on its
    name resolves to that id. *)
Theorem alias_declaration attributes w name text id :
  find_attribute ATTRIBUTE_ALIAS attributes = Some name ->
  undeclared w name ->
  extractNodedId (namespaces_of w) (Some text) = Ok id ->
  exists w',
    Nodeset_newAliasFinish (fst (Nodeset_newAlias attributes w)) (Some text)
      (snd (Nodeset_newAlias attributes w)) = Ok w' /\
    aliases_of w' = aliases_of w ++ [Alias.mk (Some name) id] /\
    alias2Id w' (Some name) = Ok id.
Proof.
  intros Hattr Hnew Hid.
  destruct (Nodeset_newAlias_spec attributes w name Hattr) as (Hi & Hl & Hns).
  destruct (Nodeset_newAliasFinish_spec (fst (Nodeset_newAlias attributes w))
              (Alias.mk (Some name) (TNodeId.mk 0 None)) (Some text) id
              (snd (Nodeset_newAlias attributes w))) as (w' & Hw' & Hl' & _).
  { rewrite Hi, Hl. by apply list_lookup_middle. }
  { by rewrite Hns. }
  assert (aliases_of w' = aliases_of w ++ [Alias.mk (Some name) id]) as Hfin.
  { rewrite Hl', Hi, Hl.
    replace (length (aliases_of w)) with (length (aliases_of w) + 0) at 1 by lia.
    by rewrite insert_app_r. }
  exists w'. repeat split; [done..|].
  by apply (alias2Id_declared w' name (aliases_of w) (Alias.mk (Some name) id) []).
Qed.

(** C30. Resolution depends on the order of the events: a use of a name that
    precedes the declaration of the alias resolves to the name itself as an
    identifier of namespace 0, not to the id the alias will stand for. *)
Theorem alias_used_before_declaration w name :
  undeclared w name -> strchr name ";" = None ->
  alias2Id w (Some name) = Ok (TNodeId.mk 0 (Some name)).
Proof.
  intros Hnew Hsemi. rewrite alias2Id_undeclared by done.
  by apply extractNodedId_plain.
Qed.

End resolution.
