(* ===== verification/Classifier.v ===== *)
(** * The hierarchical-reference classifier

    The seed table [hierachicalRefs], [isHierachicalReference],
    [isKnownReferenceType] and [addIfHierachicalReferenceType] of
    Nodeset.c: which reference types count as hierarchical, how the table
    grows when a ReferenceType node is finished, and when that growth runs
    past the fifty cells of the table. *)

From Stdlib Require Import Ascii String.
From stdpp Require Import strings gmap.
From S2P Require Import Prelude CString Model.

Definition MAX_HIERACHICAL_REFS : nat := 50.

(** One initialiser of the table: a ReferenceType node with an id and a
    browse name of namespace 0 and every pointer NULL. *)
Definition seed (id name : string) : TNode :=
  TNode.mk NODECLASS_REFERENCETYPE (TNodeId.mk 0 (Some id))
    (TBrowseName.mk 0 (Some name)) None None None None None
    (TReferenceTypeNode None).

Definition hierachicalRefs : list TNode :=
  [seed "i=35" "Organizes"; seed "i=36" "HasEventSource";
   seed "i=48" "HasNotifier"; seed "i=44" "Aggregates";
   seed "i=45" "HasSubtype"; seed "i=47" "HasComponent";
   seed "i=46" "HasProperty"; seed "i=47" "HasEncoding"].

Definition table_of (w : World) : list TNode :=
  Nodeset.hierachicalRefs (World.nodeset w).

Definition isHierachicalReference (w : World) (ref : Reference) : bool :=
  existsb (fun h => (TNodeId_cmp (Reference.refType ref) (TNode.id h) =? 0)%Z)
    (table_of w).

(** The loop of [isKnownReferenceType] over the ReferenceType container. *)
Fixpoint isKnownReferenceType_loop (w : World) (refTypeId : TNodeId)
    (container : list ptr) : res bool :=
  match container with
  | [] => Ok false
  | p :: container' =>
      let* n := deref_node w p in
      if (TNodeId_cmp refTypeId (TNode.id n) =? 0)%Z then Ok true
      else isKnownReferenceType_loop w refTypeId container'
  end.

Definition isKnownReferenceType (w : World) (refTypeId : TNodeId) : res bool :=
  if (TNodeId.nsIdx refTypeId =? 0)%Z then Ok true
  else isKnownReferenceType_loop w refTypeId
         (Nodeset.nodes (World.nodeset w) NODECLASS_REFERENCETYPE).

(** [hierachicalRefs[hierachicalRefsSize++] = *node]. *)
Definition push_hierachicalRef (n : TNode) (w : World) : res World :=
  require (bool_decide (length (table_of w) < MAX_HIERACHICAL_REFS)) OutOfBounds ;;;
  Ok (World.set_nodeset
        (Nodeset.set_hierachicalRefs (table_of w ++ [n]) (World.nodeset w)) w).

(** The inner [for] loop: is [target] the id of a cell of the table? *)
Definition targets_hierachical (w : World) (target : TNodeId) : bool :=
  existsb (fun h => (TNodeId_cmp (TNode.id h) target =? 0)%Z) (table_of w).

(** One turn of the [while] loop, on the reference [rec]. *)
Definition addIfHierachicalReferenceType_step (n : TNode) (rec : Reference)
    (w : World) : res World :=
  if negb (Reference.isForward rec) then
    let* target := initialised (Reference.target rec) in
    if targets_hierachical w target then push_hierachicalRef n w else Ok w
  else Ok w.

Fixpoint addIfHierachicalReferenceType_loop (fuel : nat) (n : TNode)
    (ref : option ptr) (w : World) : res World :=
  match ref, fuel with
  | None, _ => Ok w
  | Some _, 0 => Trap Timeout
  | Some r, S fuel' =>
      let* rec := deref_ref w r in
      let* w' := addIfHierachicalReferenceType_step n rec w in
      addIfHierachicalReferenceType_loop fuel' n (Reference.next rec) w'
  end.

Definition addIfHierachicalReferenceType (node : ptr) (w : World) : res World :=
  let* n := deref_node w node in
  addIfHierachicalReferenceType_loop (World.brk w) n (TNode.hierachicalRefs n) w.

(** ** Membership in the table *)

Definition table_ids (w : World) : list TNodeId := TNode.id <$> table_of w.

Lemma TNodeId_cmp_eq (a b : TNodeId) : (TNodeId_cmp a b =? 0)%Z = bool_decide (a = b).
Proof. unfold TNodeId_cmp. by case_decide; case_bool_decide. Qed.

Lemma existsb_elem_of `{EqDecision A} (x : A) (l : list A) :
  existsb (fun y => bool_decide (x = y)) l = bool_decide (x ∈ l).
Proof.
  induction l as [|a l IH]; cbn [existsb].
  - symmetry. apply bool_decide_eq_false_2, not_elem_of_nil.
  - rewrite IH. apply eq_true_iff_eq.
    rewrite orb_true_iff, !bool_decide_eq_true, elem_of_cons. done.
Qed.

(** A reference is hierarchical exactly when its type is the id of a
    cell of the table. *)
Theorem isHierachicalReference_spec (w : World) (ref : Reference) :
  isHierachicalReference w ref = bool_decide (Reference.refType ref ∈ table_ids w).
Proof.
  unfold isHierachicalReference, table_ids.
  rewrite <- existsb_elem_of. induction (table_of w) as [|h l IH]; simpl; [done|].
  by rewrite IH, TNodeId_cmp_eq.
Qed.

Lemma targets_hierachical_spec (w : World) (target : TNodeId) :
  targets_hierachical w target = bool_decide (target ∈ table_ids w).
Proof.
  unfold targets_hierachical, table_ids.
  rewrite <- existsb_elem_of. induction (table_of w) as [|h l IH]; simpl; [done|].
  rewrite IH, TNodeId_cmp_eq. f_equal. apply bool_decide_ext. naive_solver.
Qed.

(** ** Promotion, abstractly *)

(** The state with another table, everything else as in [w]. *)
Definition with_table (t : list TNode) (w : World) : World :=
  World.set_nodeset (Nodeset.set_hierachicalRefs t (World.nodeset w)) w.

(** An inverse reference whose target is the id of a cell of the table. *)
Definition promotes (table : list TNode) (rec : Reference) : bool :=
  negb (Reference.isForward rec) &&
  match Reference.target rec with
  | Some t => bool_decide (t ∈ TNode.id <$> table)
  | None => false
  end.

Definition promote_step (n : TNode) (table : list TNode) (rec : Reference)
  : list TNode :=
  if promotes table rec then table ++ [n] else table.

(** What finishing the ReferenceType node [n] with the references [recs]
    makes of the table. *)
Definition promote (n : TNode) (recs : list Reference) (table : list TNode)
  : list TNode :=
  foldl (promote_step n) table recs.

Section with_table.
Implicit Types (w : World) (t : list TNode).

Lemma table_of_with_table t w : table_of (with_table t w) = t.
Proof. done. Qed.
Lemma with_table_table_of w : with_table (table_of w) w = w.
Proof. by destruct w as [[]]. Qed.
Lemma with_table_twice t t' w : with_table t (with_table t' w) = with_table t w.
Proof. done. Qed.
Lemma refHeap_with_table t w : World.refHeap (with_table t w) = World.refHeap w.
Proof. done. Qed.
Lemma nodeHeap_with_table t w : World.nodeHeap (with_table t w) = World.nodeHeap w.
Proof. done. Qed.

Lemma push_hierachicalRef_Ok n w w' :
  push_hierachicalRef n w = Ok w' <->
  length (table_of w) < MAX_HIERACHICAL_REFS /\ w' = with_table (table_of w ++ [n]) w.
Proof.
  unfold push_hierachicalRef. case_bool_decide; simpl; naive_solver.
Qed.

End with_table.

#[export] Hint Rewrite table_of_with_table with_table_table_of with_table_twice
  refHeap_with_table nodeHeap_with_table : nodeset.

Section promotion.
Implicit Types (w : World) (n : TNode) (rec : Reference) (t : list TNode).

Lemma step_Ok n rec w w' :
  addIfHierachicalReferenceType_step n rec w = Ok w' ->
  w' = with_table (promote_step n (table_of w) rec) w.
Proof.
  unfold addIfHierachicalReferenceType_step, promote_step, promotes.
  destruct (Reference.isForward rec); simpl.
  { intros [= <-]. by rewrite with_table_table_of. }
  destruct (Reference.target rec) as [tg|]; simpl; [|done].
  rewrite targets_hierachical_spec. unfold table_ids. case_bool_decide.
  - by intros [_ ->]%push_hierachicalRef_Ok.
  - intros [= <-]. by rewrite with_table_table_of.
Qed.

(** The loop over the linked list computes [promote] over the records of
    the list. *)
Lemma loop_Ok fuel n head w w' :
  addIfHierachicalReferenceType_loop fuel n head w = Ok w' ->
  exists l, ref_chain fuel (World.refHeap w) head = Ok l /\
    w' = with_table (promote n l.*2 (table_of w)) w.
Proof.
  revert head w. induction fuel as [|fuel IH]; intros [r|] w; simpl; try done;
    try (intros [= <-]; exists []; split; [done|]; symmetry; apply with_table_table_of).
  intros H. res_inv.
  match goal with H : deref_ref _ _ = Ok ?rec |- _ =>
    apply deref_ref_Ok in H; rewrite H end.
  match goal with H : addIfHierachicalReferenceType_step _ _ _ = Ok _ |- _ =>
    apply step_Ok in H; subst end.
  apply IH in H as (l & Hl & ->). rewrite refHeap_with_table in Hl.
  rewrite Hl. simpl. eexists; split; [done|].
  by autorewrite with nodeset.
Qed.

Lemma promote_cons n rec recs t :
  promote n (rec :: recs) t = promote n recs (promote_step n t rec).
Proof. done. Qed.

Lemma promote_replicate n recs t :
  exists k, promote n recs t = t ++ replicate k n /\ k <= length recs.
Proof.
  revert t. induction recs as [|rec recs IH]; intros t.
  - exists 0. by rewrite app_nil_r.
  - rewrite promote_cons. unfold promote_step. destruct (promotes t rec).
    + destruct (IH (t ++ [n])) as (k & -> & ?). exists (S k).
      rewrite <- app_assoc. split; [done | simpl; lia].
    + destruct (IH t) as (k & -> & ?). exists k. split; [done | simpl; lia].
Qed.

(** The table changes exactly when some reference promotes against the
    table as it was. *)
Lemma promote_changes n recs t :
  promote n recs t <> t <-> Exists (fun rec => promotes t rec = true) recs.
Proof.
  induction recs as [|rec recs IH].
  - split; [done | by intros ?%Exists_nil].
  - rewrite Exists_cons, promote_cons. unfold promote_step.
    destruct (promotes t rec) eqn:E.
    + split; [by left|]. intros _.
      destruct (promote_replicate n recs (t ++ [n])) as (k & -> & _).
      rewrite <- app_assoc.
      intros Heq%(f_equal length). rewrite length_app in Heq. simpl in Heq. lia.
    + rewrite IH. naive_solver.
Qed.

End promotion.

(** ** [addIfHierachicalReferenceType] *)

Section addIfHierachicalReferenceType.
Implicit Types (w : World) (n : TNode) (node : ptr).

(** An inverse reference must have been given its target before the node
    is finished. *)
Definition finished (rec : Reference) : Prop :=
  Reference.isForward rec = false -> is_Some (Reference.target rec).

Lemma step_total n rec w :
  finished rec -> length (table_of w) < MAX_HIERACHICAL_REFS ->
  addIfHierachicalReferenceType_step n rec w =
    Ok (with_table (promote_step n (table_of w) rec) w).
Proof.
  intros Hfin Hcap.
  unfold addIfHierachicalReferenceType_step, promote_step, promotes, finished in *.
  destruct (Reference.isForward rec); simpl; [by rewrite with_table_table_of|].
  destruct Hfin as [tg ->]; [done|]. simpl.
  rewrite targets_hierachical_spec. unfold table_ids. case_bool_decide.
  - unfold push_hierachicalRef. by rewrite bool_decide_eq_true_2.
  - by rewrite with_table_table_of.
Qed.

Lemma promote_step_length n t rec : length (promote_step n t rec) <= S (length t).
Proof. unfold promote_step. destruct (promotes t rec); rewrite ?length_app; simpl; lia. Qed.

Lemma loop_total fuel n head w l :
  ref_chain fuel (World.refHeap w) head = Ok l ->
  Forall (fun x => finished x.2) l ->
  length (table_of w) + length l <= MAX_HIERACHICAL_REFS ->
  addIfHierachicalReferenceType_loop fuel n head w =
    Ok (with_table (promote n l.*2 (table_of w)) w).
Proof.
  revert head w l. induction fuel as [|fuel IH]; intros head w l;
    (destruct head as [r|]; simpl;
      [|intros [= <-] _ _; symmetry; f_equal; apply with_table_table_of]);
    [done|].
  destruct (World.refHeap w !! r) as [rec|] eqn:Hr; [|done].
  intros Hl Hfin Hcap. res_inv. apply Forall_cons_iff in Hfin as [Hrec Hfin].
  simpl in Hcap. rewrite (proj2 (deref_ref_Ok w r rec)) by done. cbn [res_bind].
  rewrite step_total by (done || lia). cbn [res_bind].
  erewrite IH; [by autorewrite with nodeset | done | done |].
  rewrite table_of_with_table. pose proof (promote_step_length n (table_of w) rec). lia.
Qed.

(** What a run that returns has done: the state is as it was except for the
    table, which is [promote] of the node over the records of its
    hierarchical list. *)
Lemma addIfHierachicalReferenceType_Ok node w w' :
  addIfHierachicalReferenceType node w = Ok w' ->
  exists n l,
    World.nodeHeap w !! node = Some n /\
    ref_chain (World.brk w) (World.refHeap w) (TNode.hierachicalRefs n) = Ok l /\
    w' = with_table (promote n l.*2 (table_of w)) w.
Proof.
  unfold addIfHierachicalReferenceType. intros H. res_inv.
  match goal with H : deref_node _ _ = Ok _ |- _ => apply deref_node_Ok in H end.
  apply loop_Ok in H as (l & ? & ?). eauto.
Qed.

(** C27. Refinement: on a node of the heap whose hierarchical list is walked
    as [l], every inverse reference of which has its target, and with a
    free cell of the table for each reference, finishing the node leaves the
    state as it was except for the table, which becomes [promote] of the
    node over the records of the list, in list order. *)
Theorem addIfHierachicalReferenceType_refines node n w l :
  World.nodeHeap w !! node = Some n ->
  ref_chain (World.brk w) (World.refHeap w) (TNode.hierachicalRefs n) = Ok l ->
  Forall (fun x => finished x.2) l ->
  length (table_of w) + length l <= MAX_HIERACHICAL_REFS ->
  addIfHierachicalReferenceType node w =
    Ok (with_table (promote n l.*2 (table_of w)) w).
Proof.
  intros Hn Hl Hfin Hcap. unfold addIfHierachicalReferenceType.
  rewrite (proj2 (deref_node_Ok w node n)) by done. cbn [res_bind].
  by apply loop_total.
Qed.

(** The table only grows, and what is appended are copies of the node
    being finished: one for each reference that promotes it. *)
Theorem addIfHierachicalReferenceType_grows node w w' :
  addIfHierachicalReferenceType node w = Ok w' ->
  exists n k, World.nodeHeap w !! node = Some n /\
    table_of w' = table_of w ++ replicate k n.
Proof.
  intros (n & l & Hn & _ & ->)%addIfHierachicalReferenceType_Ok.
  destruct (promote_replicate n l.*2 (table_of w)) as (k & Hk & _).
  exists n, k. by rewrite table_of_with_table.
Qed.

(** The node is added exactly when its hierarchical list holds an inverse
    reference whose target is, at that moment, the id of a cell of the
    table. *)
Theorem addIfHierachicalReferenceType_criterion node w w' :
  addIfHierachicalReferenceType node w = Ok w' ->
  table_of w' <> table_of w <->
  exists n l rec,
    World.nodeHeap w !! node = Some n /\
    ref_chain (World.brk w) (World.refHeap w) (TNode.hierachicalRefs n) = Ok l /\
    rec ∈ l.*2 /\ promotes (table_of w) rec = true.
Proof.
  intros (n & l & Hn & Hl & ->)%addIfHierachicalReferenceType_Ok.
  rewrite table_of_with_table, promote_changes, Exists_exists. split.
  - intros (rec & ? & ?). by exists n, l, rec.
  - intros (n' & l' & rec & Hn' & Hl' & ? & ?).
    rewrite Hn in Hn'. injection Hn' as <-.
    rewrite Hl in Hl'. injection Hl' as <-. by exists rec.
Qed.

(** Termination and safety: in a well-formed heap, on a node whose
    references have all been finished and with room left in the table for
    one cell per reference, finishing the node returns. *)
Theorem addIfHierachicalReferenceType_total node n w :
  wf_refs (World.refHeap w) (World.brk w) ->
  World.nodeHeap w !! node = Some n ->
  valid_head (World.refHeap w) (TNode.hierachicalRefs n) ->
  (forall r rec, World.refHeap w !! r = Some rec -> finished rec) ->
  (forall l, ref_chain (World.brk w) (World.refHeap w) (TNode.hierachicalRefs n) = Ok l ->
             length (table_of w) + length l <= MAX_HIERACHICAL_REFS) ->
  exists w', addIfHierachicalReferenceType node w = Ok w'.
Proof.
  intros Hwf Hn Hhead Hfin Hcap. unfold addIfHierachicalReferenceType.
  rewrite (proj2 (deref_node_Ok w node n)) by done. cbn [res_bind].
  destruct (ref_chain_total (World.brk w) (World.refHeap w) (World.brk w)
              (TNode.hierachicalRefs n)) as (l & Hl); [done | done | |].
  { intros r Hr. destruct (Hhead r Hr) as [rec Hrec]. by apply (Hwf r rec). }
  eexists. apply (loop_total _ _ _ _ l); [done | | by apply Hcap].
  apply ref_chain_lookup in Hl. eapply Forall_impl; [exact Hl|].
  intros [r rec] ?. by apply (Hfin r).
Qed.

(** The table has fifty cells: a promotion when it is full writes past
    its end. *)
Lemma push_hierachicalRef_full n w :
  length (table_of w) = MAX_HIERACHICAL_REFS ->
  push_hierachicalRef n w = Trap OutOfBounds.
Proof.
  intros H. unfold push_hierachicalRef.
  by rewrite bool_decide_eq_false_2 by lia.
Qed.

(** One turn of the loop when the table is full: the store is out of
    bounds when the reference promotes the node, and nothing happens when
    it does not. *)
Lemma step_full n rec w :
  finished rec -> length (table_of w) = MAX_HIERACHICAL_REFS ->
  addIfHierachicalReferenceType_step n rec w =
    if promotes (table_of w) rec then Trap OutOfBounds else Ok w.
Proof.
  intros Hfin Hfull. unfold addIfHierachicalReferenceType_step, promotes, finished in *.
  destruct (Reference.isForward rec); [done|]. destruct Hfin as [tg ->]; [done|].
  cbn. rewrite targets_hierachical_spec. unfold table_ids.
  case_bool_decide; [by apply push_hierachicalRef_full | done].
Qed.

Lemma loop_overflow fuel n head w l :
  ref_chain fuel (World.refHeap w) head = Ok l ->
  Forall (fun x => finished x.2) l ->
  length (table_of w) <= MAX_HIERACHICAL_REFS < length (promote n l.*2 (table_of w)) ->
  addIfHierachicalReferenceType_loop fuel n head w = Trap OutOfBounds.
Proof.
  revert head w l. induction fuel as [|fuel IH]; intros [r|] w l; cbn;
    try done; try (intros [= <-] _; cbn; lia).
  destruct (World.refHeap w !! r) as [rec|] eqn:Hr; [|done].
  intros Hl Hfin Hcap. res_inv. apply Forall_cons_iff in Hfin as [Hrec Hfin].
  rewrite fmap_cons, promote_cons in Hcap. cbn [snd] in Hcap, Hrec.
  rewrite (proj2 (deref_ref_Ok w r rec)) by done. cbn [res_bind].
  destruct (decide (length (table_of w) < MAX_HIERACHICAL_REFS)) as [Hroom|Hfull].
  - rewrite step_total by done. cbn [res_bind].
    eapply IH; [done | done | rewrite table_of_with_table].
    pose proof (promote_step_length n (table_of w) rec). lia.
  - rewrite step_full by (done || lia). unfold promote_step in Hcap.
    destruct (promotes (table_of w) rec); [done|]. by eapply IH.
Qed.

(** C35. Error: the table of the hierarchical reference types has fifty
    cells, and [addIfHierachicalReferenceType] writes one for every inverse
    reference of the finished node whose target is in the table, without
    comparing the count to the capacity.  When the promotions of a node
    need more cells than the table has, the function writes past its
    end. *)
Theorem addIfHierachicalReferenceType_overflow node n w l :
  World.nodeHeap w !! node = Some n ->
  ref_chain (World.brk w) (World.refHeap w) (TNode.hierachicalRefs n) = Ok l ->
  Forall (fun x => finished x.2) l ->
  length (table_of w) <= MAX_HIERACHICAL_REFS ->
  MAX_HIERACHICAL_REFS < length (promote n l.*2 (table_of w)) ->
  addIfHierachicalReferenceType node w = Trap OutOfBounds.
Proof.
  intros Hn Hl Hfin Hcap Hover. unfold addIfHierachicalReferenceType.
  rewrite (proj2 (deref_node_Ok w node n)) by done. cbn [res_bind].
  by apply (loop_overflow _ _ _ _ l).
Qed.

End addIfHierachicalReferenceType.

(** ** [isKnownReferenceType] *)

(** Every reference type of namespace 0 is known, whatever has been
    parsed. *)
Theorem isKnownReferenceType_ns0 (w : World) (refTypeId : TNodeId) :
  TNodeId.nsIdx refTypeId = 0%Z -> isKnownReferenceType w refTypeId = Ok true.
Proof. intros H. unfold isKnownReferenceType. by rewrite H. Qed.

(** As long as the ReferenceType container is empty, no reference type
    of another namespace is known. *)
Theorem isKnownReferenceType_empty_container (w : World) (refTypeId : TNodeId) :
  TNodeId.nsIdx refTypeId <> 0%Z ->
  Nodeset.nodes (World.nodeset w) NODECLASS_REFERENCETYPE = [] ->
  isKnownReferenceType w refTypeId = Ok false.
Proof.
  intros Hns Hc. unfold isKnownReferenceType. rewrite Hc.
  by rewrite (proj2 (Z.eqb_neq _ _)).
Qed.

(** The ids of the nodes of a container. *)
Definition ids_at (w : World) (container : list ptr) : list TNodeId :=
  omap (fun p => TNode.id <$> World.nodeHeap w !! p) container.

Lemma isKnownReferenceType_loop_spec (w : World) (refTypeId : TNodeId) container :
  Forall (fun p => is_Some (World.nodeHeap w !! p)) container ->
  isKnownReferenceType_loop w refTypeId container =
    Ok (bool_decide (refTypeId ∈ ids_at w container)).
Proof.
  induction 1 as [|p l [n Hn] _ IH]; [done|]. cbn. unfold ids_at, deref_node. cbn.
  rewrite Hn. cbn. rewrite TNodeId_cmp_eq, IH. f_equal.
  repeat case_bool_decide; set_solver.
Qed.

(** Equivalence: the scan of [isKnownReferenceType] is a membership
    test.  When every node of the ReferenceType container is allocated, a
    reference type is known exactly when it is of namespace 0 or is the id
    of a node of that container. *)
Theorem isKnownReferenceType_spec (w : World) (refTypeId : TNodeId) :
  Forall (fun p => is_Some (World.nodeHeap w !! p))
    (Nodeset.nodes (World.nodeset w) NODECLASS_REFERENCETYPE) ->
  isKnownReferenceType w refTypeId =
    Ok ((TNodeId.nsIdx refTypeId =? 0)%Z ||
        bool_decide (refTypeId ∈
          ids_at w (Nodeset.nodes (World.nodeset w) NODECLASS_REFERENCETYPE))).
Proof.
  intros Hall. unfold isKnownReferenceType.
  destruct (_ =? _)%Z; [done|]. by apply isKnownReferenceType_loop_spec.
Qed.

(** The scan reads the node heap and the container, nothing else. *)
Lemma isKnownReferenceType_loop_frame (w1 w2 : World) id container :
  World.nodeHeap w1 = World.nodeHeap w2 ->
  isKnownReferenceType_loop w1 id container =
  isKnownReferenceType_loop w2 id container.
Proof.
  intros H. induction container as [|p c IH]; simpl; [done|].
  unfold deref_node. by rewrite H, IH.
Qed.

Lemma isKnownReferenceType_frame (w1 w2 : World) id :
  World.nodeHeap w1 = World.nodeHeap w2 ->
  Nodeset.nodes (World.nodeset w1) = Nodeset.nodes (World.nodeset w2) ->
  isKnownReferenceType w1 id = isKnownReferenceType w2 id.
Proof.
  intros Hh Hn. unfold isKnownReferenceType.
  by rewrite Hn, (isKnownReferenceType_loop_frame w1 w2).
Qed.
