(* ===== verification/Sorter.v ===== *)
(** * The sorter

    Sort.c is not part of the sources.  The builder gives it every finished
    node ([Sort_addNode]) and at the end asks it for an order
    ([Sort_start]), in which it hands the nodes back one by one.  This file
    states what the builder relies on as the class [Sorter], modelled from
    the specification, defines the order relation the sorter works with
    ([precedes], over the references of the heap), and gives an instance:
    Kahn's algorithm with a first-in first-out queue, with the proof that
    it keeps the contract, rejects cycles and breaks ties by insertion
    order. *)

From stdpp Require Import gmap sorting.
From S2P Require Import Prelude CString Model Classifier.

(** ** What the builder gives the sorter *)

Definition Sort_init (w : World) : World := World.set_sortNodes [] w.

Definition Sort_addNode (node : ptr) (w : World) : World :=
  World.set_sortNodes (World.sortNodes w ++ [node]) w.

(** ** The interface *)

(** [sort prec l] is [None] when the sorter gives up (it returns false), and
    otherwise the order in which it hands back the nodes [l], where
    [prec u v] says that [u] has to come before [v]. *)
Class Sorter : Type := {
  sort : (ptr -> ptr -> bool) -> list ptr -> option (list ptr);
  (** every node is handed back, once *)
  sort_perm prec l out : sort prec l = Some out -> out ≡ₚ l;
  (** in the order asked for *)
  sort_sorted prec l out u v :
    NoDup l -> sort prec l = Some out ->
    u ∈ l -> v ∈ l -> u <> v -> prec u v = true -> before out u v;
}.

(** ** The order relation *)

Section precedes.
Context (w : World).

(** The records of a node's hierarchical list, [[]] when the list cannot be
    walked. *)
Definition hierarchical_refs_of (n : TNode) : list Reference :=
  match ref_chain (World.brk w) (World.refHeap w) (TNode.hierachicalRefs n) with
  | Ok l => l.*2
  | Trap _ => []
  end.

(** [n] has a reference of direction [fwd], of a type the table holds, to
    the node id [target]. *)
Definition refers (n : TNode) (fwd : bool) (target : TNodeId) : bool :=
  existsb
    (fun rec =>
       bool_decide (Reference.isForward rec = fwd) &&
       bool_decide (Reference.target rec = Some target) &&
       bool_decide (Reference.refType rec ∈ table_ids w))
    (hierarchical_refs_of n).

(** [u] is a parent of [v]: [v] names [u] by an inverse hierarchical
    reference, or [u] names [v] by a forward one. *)
Definition precedes (u v : ptr) : bool :=
  match World.nodeHeap w !! u, World.nodeHeap w !! v with
  | Some nu, Some nv =>
      refers nv false (TNode.id nu) || refers nu true (TNode.id nv)
  | _, _ => false
  end.

End precedes.

(** ** An instance: Kahn's algorithm with a first-in first-out queue *)

Section kahn.
Context (prec : ptr -> ptr -> bool) (l : list ptr).
Implicit Types (queue emitted pending out : list ptr) (u v : ptr).

(** Every other node that has to come before [v] is among [emitted]. *)
Definition is_ready emitted v : Prop :=
  Forall (fun u => u <> v -> prec u v = true -> u ∈ emitted) l.

#[export] Instance is_ready_dec emitted v : Decision (is_ready emitted v).
Proof. unfold is_ready. apply _. Defined.

(** One turn takes the node at the front of the queue, hands it back, and
    puts at the back of the queue the pending nodes that have become ready,
    in the order in which they were given.  It gives up when the queue is
    empty and nodes are still pending: they lie on a cycle or behind
    one. *)
Fixpoint kahn (fuel : nat) queue emitted pending : option (list ptr) :=
  match queue, fuel with
  | [], _ => if decide (pending = []) then Some emitted else None
  | _ :: _, 0 => None
  | u :: queue', S fuel' =>
      let emitted' := emitted ++ [u] in
      kahn fuel'
        (queue' ++ filter (is_ready emitted') pending)
        emitted'
        (filter (fun v => ~ is_ready emitted' v) pending)
  end.

Definition kahn_sort : option (list ptr) :=
  kahn (length l) (filter (is_ready []) l) []
    (filter (fun v => ~ is_ready [] v) l).

(** [v] stands in [out] behind every other node that has to come before
    it. *)
Definition ordered out v : Prop :=
  forall u, u ∈ l -> u <> v -> prec u v = true -> before out u v.

Lemma is_ready_mono emitted emitted' v :
  emitted ⊆ emitted' -> is_ready emitted v -> is_ready emitted' v.
Proof.
  intros Hsub Hr. eapply Forall_impl; [exact Hr|]. intros u Hu ? ?. auto.
Qed.

Lemma is_ready_ordered emitted v :
  is_ready emitted v -> ordered (emitted ++ [v]) v.
Proof.
  intros Hr u Hu Hne Hp. apply before_app_cross; [|set_solver].
  unfold is_ready in Hr. rewrite Forall_forall in Hr. by apply Hr.
Qed.

Lemma kahn_perm fuel queue emitted pending out :
  kahn fuel queue emitted pending = Some out ->
  out ≡ₚ emitted ++ queue ++ pending.
Proof.
  revert queue emitted pending.
  induction fuel as [|fuel IH]; intros [|u queue] emitted pending; simpl;
    try (case_decide; [intros [= <-]; subst; by rewrite app_nil_r | done]);
    [done|].
  intros ->%IH. rewrite <- !app_assoc. simpl.
  by rewrite (filter_app_complement (is_ready (emitted ++ [u])) pending).
Qed.

Lemma kahn_ordered fuel queue emitted pending out :
  kahn fuel queue emitted pending = Some out ->
  Forall (is_ready emitted) queue -> Forall (ordered emitted) emitted ->
  Forall (ordered out) out.
Proof.
  revert queue emitted pending.
  induction fuel as [|fuel IH]; intros [|u queue] emitted pending; simpl;
    try (case_decide; [by intros [= <-] | done]); [done|].
  intros Hrun [Hu Hq]%Forall_cons_iff He. apply IH in Hrun; [done| |].
  - apply Forall_app. split.
    + eapply Forall_impl; [exact Hq|]. intros v. apply is_ready_mono. set_solver.
    + apply Forall_forall. by intros v [? _]%list_elem_of_filter.
  - apply Forall_app. split; [|by repeat constructor; apply is_ready_ordered].
    eapply Forall_impl; [exact He|]. intros v Hv w ???. by apply before_app_l, Hv.
Qed.

End kahn.

#[export, refine] Instance kahn_sorter : Sorter := {| sort := kahn_sort |}.
Proof.
  - intros prec l out Hrun. unfold kahn_sort in Hrun.
    apply kahn_perm in Hrun. rewrite Hrun. simpl.
    apply (filter_app_complement (is_ready prec l []) l).
  - intros prec l out u v _ Hrun Hu Hv Hne Hp.
    pose proof Hrun as Hperm. unfold kahn_sort in Hrun, Hperm.
    apply kahn_perm in Hperm. simpl in Hperm.
    rewrite (filter_app_complement (is_ready prec l []) l) in Hperm.
    apply kahn_ordered in Hrun; [| |by constructor].
    + rewrite Forall_forall in Hrun. apply (Hrun v); [by rewrite Hperm | done..].
    + apply Forall_forall. by intros x [? _]%list_elem_of_filter.
Defined.

(** ** What the instance computes *)

Section kahn_sort.
Context (prec : ptr -> ptr -> bool).
Implicit Types (l out : list ptr) (u v : ptr).

(** C26. Soundness of the sorter: an order it returns holds every node it was
    given, once, and every node stands behind all other nodes that have to
    come before it. *)
Theorem kahn_sort_sound l out u v :
  kahn_sort prec l = Some out ->
  out ≡ₚ l /\
  (u ∈ l -> v ∈ l -> u <> v -> prec u v = true -> before out u v).
Proof.
  intros Hrun. split; [by apply (sort_perm prec)|].
  intros Hu Hv Hne Hp. pose proof (sort_perm prec l out Hrun) as Hperm.
  unfold sort, kahn_sorter, kahn_sort in Hrun.
  apply kahn_ordered in Hrun; [| |by constructor].
  - rewrite Forall_forall in Hrun. apply (Hrun v); [by rewrite Hperm | done..].
  - apply Forall_forall. by intros x [? _]%list_elem_of_filter.
Qed.

(** Cycle rejection: when two of the nodes each have to come before the
    other, the sorter gives up. *)
Theorem kahn_sort_cycle l u v :
  NoDup l -> u ∈ l -> v ∈ l -> u <> v ->
  prec u v = true -> prec v u = true ->
  kahn_sort prec l = None.
Proof.
  intros Hnd Hu Hv Hne Huv Hvu.
  destruct (kahn_sort prec l) as [out|] eqn:Hrun; [exfalso | done].
  pose proof (sort_perm prec l out Hrun) as Hperm.
  apply (before_asym out u v).
  - by rewrite Hperm.
  - by apply (sort_sorted prec l).
  - by apply (sort_sorted prec l).
Qed.

(** With nothing pending, the queue is handed back as it stands. *)
Lemma kahn_drain l fuel queue emitted :
  length queue <= fuel -> kahn prec l fuel queue emitted [] = Some (emitted ++ queue).
Proof.
  revert queue emitted. induction fuel as [|fuel IH]; intros [|u queue] emitted Hlen;
    simpl in *; try lia; try by rewrite app_nil_r.
  rewrite filter_nil, app_nil_r, IH by lia. by rewrite <- app_assoc.
Qed.

(** Tie-breaking: nodes among which no one has to come before another
    are handed back in the order in which they were given. *)
Theorem kahn_sort_unconstrained l :
  (forall u v, u ∈ l -> v ∈ l -> u <> v -> prec u v = false) ->
  kahn_sort prec l = Some l.
Proof.
  intros Hfree. unfold kahn_sort.
  assert (Forall (is_ready prec l []) l) as Hall.
  { apply Forall_forall. intros v Hv. apply Forall_forall. intros u Hu Hne Hp.
    by rewrite Hfree in Hp. }
  rewrite (filter_all _ l Hall), (filter_none (fun v => ~ is_ready prec l [] v) l).
  - by apply kahn_drain.
  - eapply Forall_impl; [exact Hall|]. by intros v Hv Hn.
Qed.

End kahn_sort.

(** ** Completeness of the instance *)

Section kahn_complete.
Context (prec : ptr -> ptr -> bool) (l : list ptr).
Implicit Types (queue emitted pending : list ptr) (u v : ptr).

(** The edges among the nodes of [l] go up along [rank]: there is no
    cycle. *)
Definition ranked (rank : ptr -> nat) : Prop :=
  forall u v, u ∈ l -> v ∈ l -> u <> v -> prec u v = true -> rank u < rank v.

(** A list that is not empty has an element of least rank. *)
Lemma least_rank (rank : ptr -> nat) (xs : list ptr) :
  xs <> [] -> exists v, v ∈ xs /\ forall u, u ∈ xs -> rank v <= rank u.
Proof.
  induction xs as [|x xs IH]; [done|]. intros _.
  destruct xs as [|y ys]; [exists x; set_solver|].
  destruct IH as (v & Hv & Hmin); [done|].
  destruct (decide (rank x <= rank v)).
  - exists x. split; [set_solver|]. intros u [->|Hu]%elem_of_cons; [done|].
    specialize (Hmin u Hu). lia.
  - exists v. split; [set_solver|]. intros u [->|Hu]%elem_of_cons; [lia | auto].
Qed.

(** With an empty queue and no cycle, nothing can be pending: the pending
    node of least rank would be ready. *)
Lemma kahn_no_stall rank emitted pending :
  ranked rank ->
  (forall x, x ∈ l -> x ∈ emitted ++ pending) -> pending ⊆ l ->
  Forall (fun v => ~ is_ready prec l emitted v) pending ->
  pending = [].
Proof.
  intros Hrank Hall Hsub Hnot.
  destruct (decide (pending = [])) as [|Hne]; [done | exfalso].
  destruct (least_rank rank pending Hne) as (v & Hv & Hmin).
  rewrite Forall_forall in Hnot. apply (Hnot v Hv).
  apply Forall_forall. intros u Hu Huv Hp.
  pose proof (Hall u Hu) as Hin.
  apply elem_of_app in Hin as [Hin|Hpend]; [done | exfalso].
  specialize (Hmin u Hpend). specialize (Hrank u v Hu (Hsub v Hv) Huv Hp). lia.
Qed.

Lemma kahn_complete rank fuel queue emitted pending :
  ranked rank ->
  (forall x, x ∈ l -> x ∈ emitted ++ queue ++ pending) -> pending ⊆ l ->
  Forall (fun v => ~ is_ready prec l emitted v) pending ->
  length queue + length pending <= fuel ->
  is_Some (kahn prec l fuel queue emitted pending).
Proof.
  intros Hrank. revert queue emitted pending.
  induction fuel as [|fuel IH]; intros queue emitted pending Hall Hsub Hnot Hlen.
  - destruct queue, pending; simpl in *; try lia. by eexists.
  - destruct queue as [|u queue]; simpl.
    + rewrite (kahn_no_stall rank emitted pending); [by eexists | done..].
    + pose proof (filter_app_complement (is_ready prec l (emitted ++ [u])) pending)
        as Hsplit.
      apply IH.
      * intros x Hx. specialize (Hall x Hx).
        assert (x ∈ pending -> x ∈ filter (is_ready prec l (emitted ++ [u])) pending ++
                  filter (fun v => ~ is_ready prec l (emitted ++ [u]) v) pending)
          by (by rewrite Hsplit).
        set_solver.
      * intros x Hx. apply list_elem_of_filter in Hx as [_ Hx]. by apply Hsub.
      * apply Forall_forall. intros x Hx. by apply list_elem_of_filter in Hx as [Hx _].
      * apply Permutation_length in Hsplit. rewrite length_app in Hsplit |- *.
        cbn [length] in Hlen. lia.
Qed.

End kahn_complete.

(** C32. Completeness: when the edges among the nodes go up along some rank,
    so that there is no cycle, the sorter returns an order. *)
Theorem kahn_sort_complete prec l (rank : ptr -> nat) :
  ranked prec l rank -> is_Some (kahn_sort prec l).
Proof.
  intros Hrank. unfold kahn_sort.
  pose proof (filter_app_complement (is_ready prec l []) l) as Hsplit.
  apply (kahn_complete prec l rank); [done | | | |].
  - intros x Hx. rewrite app_nil_l, Hsplit. done.
  - intros x Hx. by apply list_elem_of_filter in Hx as [_ Hx].
  - apply Forall_forall. intros x Hx. by apply list_elem_of_filter in Hx as [Hx _].
  - apply Permutation_length in Hsplit. rewrite length_app in Hsplit. lia.
Qed.
