(* ===== verification/Builder.v ===== *)
(** * The builder's events

    [Nodeset_new], [extractAttributes], [initNode], [Nodeset_newNode],
    [Nodeset_newReference], [Nodeset_newReferenceFinish] and
    [Nodeset_newNodeFinish] of Nodeset.c, each a function from the state to
    its result and the next state, and the theorems on each: what a node
    holds after [Nodeset_newNode], into which of the two lists a reference
    goes, when [Nodeset_newReference] returns, what each event leaves
    alone, and the start tags on which [Nodeset_newNode] has no defined
    behaviour. *)

From Stdlib Require Import Ascii String.
From stdpp Require Import strings gmap functions.
From S2P Require Import Prelude CString Model Namespace Attributes Alias Classifier.
From S2P Require Import Sorter.

(** ** Capacities *)

Definition MAX_OBJECTTYPES : Z := 1000.
Definition MAX_OBJECTS : Z := 100000.
Definition MAX_METHODS : Z := 1000.
Definition MAX_DATATYPES : Z := 1000.
Definition MAX_VARIABLES : Z := 1000000.
Definition MAX_REFERENCETYPES : Z := 1000.
Definition MAX_VARIABLETYPES : Z := 1000.
Definition MAX_REFCOUNTEDCHARS : Z := 10000000.
Definition MAX_REFCOUNTEDREFS : Z := 1000000.

(** The number of cells [Nodeset_new] allocates for the container of each
    class. *)
Definition container_capacity (c : TNodeClass) : Z :=
  match c with
  | NODECLASS_OBJECT => MAX_OBJECTS
  | NODECLASS_VARIABLE => MAX_VARIABLES
  | NODECLASS_METHOD => MAX_METHODS
  | NODECLASS_OBJECTTYPE => MAX_DATATYPES
  | NODECLASS_DATATYPE => MAX_DATATYPES
  | NODECLASS_REFERENCETYPE => MAX_REFERENCETYPES
  | NODECLASS_VARIABLETYPE => MAX_VARIABLETYPES
  end.

(** ** [Nodeset_new] *)

Definition Nodeset_new (nsCallback : addNamespaceCb) : World :=
  Sort_init
    (World.mk
       (Nodeset.mk AliasList_new [] [] (fun _ => []) hierachicalRefs
          (initial_namespaceTable nsCallback))
       ∅ ∅ 0 [] []).

(** ** [Nodeset_newNode] *)

(** The struct calloc returns for a class: every pointer NULL, every
    integer 0. *)
Definition zero_id : TNodeId := TNodeId.mk 0 None.

Definition zero_ext (c : TNodeClass) : NodeExt :=
  match c with
  | NODECLASS_OBJECTTYPE => TObjectTypeNode None
  | NODECLASS_OBJECT => TObjectNode zero_id None
  | NODECLASS_VARIABLE => TVariableNode zero_id zero_id None None None None None
  | NODECLASS_VARIABLETYPE => TVariableTypeNode None zero_id None None
  | NODECLASS_DATATYPE => TDataTypeNode
  | NODECLASS_METHOD => TMethodNode zero_id None None
  | NODECLASS_REFERENCETYPE => TReferenceTypeNode None
  end.

Definition calloc_node (c : TNodeClass) : TNode :=
  TNode.mk c zero_id (TBrowseName.mk 0 None) None None None None None (zero_ext c).

(** The [switch] of [extractAttributes]: the fields of the class, read in
    the order of the code. *)
Definition extractAttributes_ext (c : TNodeClass) (attributes : list XmlAttr)
    (w : World) : res (NodeExt * World) :=
  let namespaces := namespaces_of w in
  match c with
  | NODECLASS_OBJECTTYPE =>
      let '(isAbstract, w) := getAttributeValue attrIsAbstract attributes w in
      Ok (TObjectTypeNode isAbstract, w)
  | NODECLASS_OBJECT =>
      let '(s, w) := getAttributeValue attrParentNodeId attributes w in
      let* parentNodeId := extractNodedId namespaces s in
      let '(eventNotifier, w) := getAttributeValue attrEventNotifier attributes w in
      Ok (TObjectNode parentNodeId eventNotifier, w)
  | NODECLASS_VARIABLE =>
      let '(s, w) := getAttributeValue attrParentNodeId attributes w in
      let* parentNodeId := extractNodedId namespaces s in
      let '(datatype, w) := getAttributeValue attrDataType attributes w in
      let* datatype := alias2Id w datatype in
      let '(valueRank, w) := getAttributeValue attrValueRank attributes w in
      let '(arrayDimensions, w) := getAttributeValue attrArrayDimensions attributes w in
      let '(accessLevel, w) := getAttributeValue attrAccessLevel attributes w in
      let '(userAccessLevel, w) := getAttributeValue attrUserAccessLevel attributes w in
      Ok (TVariableNode parentNodeId datatype valueRank arrayDimensions
            accessLevel userAccessLevel None, w)
  | NODECLASS_VARIABLETYPE =>
      let '(valueRank, w) := getAttributeValue attrValueRank attributes w in
      let '(datatype, w) := getAttributeValue attrDataType attributes w in
      let* datatype := alias2Id w datatype in
      let '(arrayDimensions, w) := getAttributeValue attrArrayDimensions attributes w in
      let '(isAbstract, w) := getAttributeValue attrIsAbstract attributes w in
      Ok (TVariableTypeNode valueRank datatype arrayDimensions isAbstract, w)
  | NODECLASS_DATATYPE => Ok (TDataTypeNode, w)
  | NODECLASS_METHOD =>
      let '(s, w) := getAttributeValue attrParentNodeId attributes w in
      let* parentNodeId := extractNodedId namespaces s in
      let '(executable, w) := getAttributeValue attrExecutable attributes w in
      let '(userExecutable, w) := getAttributeValue attrUserExecutable attributes w in
      Ok (TMethodNode parentNodeId executable userExecutable, w)
  | NODECLASS_REFERENCETYPE =>
      let '(symmetric, w) := getAttributeValue attrSymmetric attributes w in
      Ok (TReferenceTypeNode symmetric, w)
  end.

Definition extractAttributes (node : TNode) (attributes : list XmlAttr)
    (w : World) : res (TNode * World) :=
  let namespaces := namespaces_of w in
  let '(s, w) := getAttributeValue attrNodeId attributes w in
  let* id := extractNodedId namespaces s in
  let '(s, w) := getAttributeValue attrBrowseName attributes w in
  let* browseName := extractBrowseName namespaces s in
  let* (ext, w) := extractAttributes_ext (TNode.nodeClass node) attributes w in
  Ok (TNode.mk (TNode.nodeClass node) id browseName (TNode.displayName node)
        (TNode.description node) (TNode.writeMask node)
        (TNode.hierachicalRefs node) (TNode.nonHierachicalRefs node) ext, w).

Definition initNode (nodeClass : TNodeClass) (node : ptr)
    (attributes : list XmlAttr) (w : World) : res World :=
  let* n := deref_node w node in
  let n := TNode.mk nodeClass (TNode.id n) (TNode.browseName n) None None None
             None None (TNode.ext n) in
  let* (n, w) := extractAttributes n attributes w in
  store_node node n w.

Definition Nodeset_newNode (nodeClass : TNodeClass) (attributes : list XmlAttr)
    (w : World) : res (ptr * World) :=
  let '(node, w) := alloc_node (calloc_node nodeClass) w in
  let* w := initNode nodeClass node attributes w in
  Ok (node, w).

(** ** [Nodeset_newReference] *)

(** [countedRefs[refsSize++] = newRef]. *)
Definition count_ref (newRef : ptr) (w : World) : res World :=
  let refs := Nodeset.countedRefs (World.nodeset w) in
  require (Z.of_nat (length refs) <? MAX_REFCOUNTEDREFS)%Z OutOfBounds ;;;
  Ok (World.set_nodeset (Nodeset.set_countedRefs (refs ++ [newRef]) (World.nodeset w)) w).

(** The test that decides the list: hierarchical by the table, or of a type
    that is not known. *)
Definition goes_hierachical (w : World) (rec : Reference) : res bool :=
  let* isKnownRef := isKnownReferenceType w (Reference.refType rec) in
  Ok (isHierachicalReference w rec || negb isKnownRef).

Definition Nodeset_newReference (node : ptr) (attributes : list XmlAttr)
    (w : World) : res (ptr * World) :=
  let '(newRef, w) := alloc_ref (Reference.mk false zero_id None None) w in
  let* w := count_ref newRef w in
  let '(s, w) := getAttributeValue attrIsForward attributes w in
  let* s := nonnull s in
  let isForward := (strcmp "true" s =? 0)%Z in
  let '(aliasIdString, w) := getAttributeValue attrReferenceType attributes w in
  let* refType := alias2Id w aliasIdString in
  let rec := Reference.mk isForward refType None None in
  let* hierachical := goes_hierachical w rec in
  let* n := deref_node w node in
  let* w :=
    if hierachical then
      let* w := store_ref newRef
                  (Reference.mk isForward refType None (TNode.hierachicalRefs n)) w in
      store_node node (TNode.set_hierachicalRefs (Some newRef) n) w
    else
      let* w := store_ref newRef
                  (Reference.mk isForward refType None (TNode.nonHierachicalRefs n)) w in
      store_node node (TNode.set_nonHierachicalRefs (Some newRef) n) w in
  Ok (newRef, w).

(** ** The two finish events *)

Definition Nodeset_newReferenceFinish (ref : ptr) (targetId : cstr) (w : World)
  : res World :=
  let* rec := deref_ref w ref in
  let* target := extractNodedId (namespaces_of w) targetId in
  store_ref ref (Reference.set_target (Some target) rec) w.

Definition Nodeset_newNodeFinish (node : ptr) (w : World) : res World :=
  let w := Sort_addNode node w in
  let* n := deref_node w node in
  if decide (TNode.nodeClass n = NODECLASS_REFERENCETYPE)
  then addIfHierachicalReferenceType node w
  else Ok w.

(** ** Reasoning about the events *)

(** [attr_inv] takes a successful run apart, call by call. *)
Ltac attr_inv :=
  repeat first
    [ progress res_inv
    | match goal with
      | H : context [getAttributeValue _ _ _] |- _ =>
          rewrite getAttributeValue_eq in H; cbn beta iota in H
      | H : context [match ?x with (_, _) => _ end] |- _ => is_var x; destruct x
      end ].

(** The tables of the builder that the events on nodes and references leave
    alone. *)
Definition same_tables (w w' : World) : Prop :=
  aliases_of w' = aliases_of w /\ namespaces_of w' = namespaces_of w /\
  table_of w' = table_of w /\
  Nodeset.nodes (World.nodeset w') = Nodeset.nodes (World.nodeset w) /\
  World.sortNodes w' = World.sortNodes w /\ World.trace w' = World.trace w.

Definition counted_of (w : World) : list ptr :=
  Nodeset.countedRefs (World.nodeset w).

(** The head of the list a reference goes to, and the node with the
    reference [r] as the new head of that list. *)
Definition head_of (hierachical : bool) (n : TNode) : option ptr :=
  if hierachical then TNode.hierachicalRefs n else TNode.nonHierachicalRefs n.

Definition link (hierachical : bool) (r : ptr) (n : TNode) : TNode :=
  if hierachical then TNode.set_hierachicalRefs (Some r) n
  else TNode.set_nonHierachicalRefs (Some r) n.

Lemma goes_hierachical_frame (w1 w2 : World) rec :
  World.nodeHeap w1 = World.nodeHeap w2 -> table_of w1 = table_of w2 ->
  Nodeset.nodes (World.nodeset w1) = Nodeset.nodes (World.nodeset w2) ->
  goes_hierachical w1 rec = goes_hierachical w2 rec.
Proof.
  intros Hh Ht Hn. unfold goes_hierachical, isHierachicalReference.
  by rewrite Ht, (isKnownReferenceType_frame w1 w2).
Qed.

(** The reads of an event see through the arena, the counted references and
    the reference heap. *)
Ltac frame_to w :=
  repeat match goal with
  | H : alias2Id ?w' _ = _ |- _ =>
      lazymatch w' with w => fail | _ => rewrite (alias2Id_frame w' w) in H by done end
  | H : goes_hierachical ?w' _ = _ |- _ =>
      lazymatch w' with w => fail | _ =>
        rewrite (goes_hierachical_frame w' w) in H by done end
  | H : deref_node _ _ = Ok _ |- _ => apply deref_node_Ok in H; cbn in H
  | H : store_node _ _ _ = Ok _ |- _ => apply store_node_Ok in H as [_ ->]
  | H : store_ref _ _ _ = Ok _ |- _ => apply store_ref_Ok in H as [_ ->]
  end.

(** [newNode_inv H w] takes a run [H] of [Nodeset_newNode] from [w] that
    returned apart: one equation per call, each on [w];
    [newReference_inv H w] does the same for [Nodeset_newReference]. *)
Ltac newNode_inv H w :=
  unfold Nodeset_newNode, alloc_node, initNode in H;
  cbn beta iota zeta in H; attr_inv; frame_to w;
  match goal with H' : extractAttributes _ _ _ = Ok _ |- _ =>
    unfold extractAttributes in H'; cbn beta iota zeta in H' end;
  attr_inv.

Ltac newReference_inv H w :=
  unfold Nodeset_newReference, alloc_ref, count_ref in H;
  cbn beta iota zeta in H; attr_inv; frame_to w.

Section newReference.
Implicit Types (w : World) (node r : ptr) (attributes : list XmlAttr).

(** The value read for IsForward is never NULL. *)
Lemma attr_value_IsForward attributes :
  exists s, attr_value attrIsForward attributes = Some s.
Proof. unfold attr_value. destruct (find_attribute _ _); eauto. Qed.

(** What a successful [Nodeset_newReference] has done: the reference is
    the block malloc returned; it is counted; its direction and type are
    those decoded from the attributes, its target is not set; it stands at
    the head of the list the classification chose, in front of the old
    head; the node is otherwise as it was. *)
Theorem Nodeset_newReference_Ok node attributes w r w' :
  Nodeset_newReference node attributes w = Ok (r, w') ->
  exists s refType hier n,
    attr_value attrIsForward attributes = Some s /\
    alias2Id w (attr_value attrReferenceType attributes) = Ok refType /\
    goes_hierachical w (Reference.mk (strcmp "true" s =? 0)%Z refType None None)
      = Ok hier /\
    World.nodeHeap w !! node = Some n /\
    r = World.brk w /\ World.brk w' = S r /\
    World.refHeap w' =
      <[r := Reference.mk (strcmp "true" s =? 0)%Z refType None (head_of hier n)]>
        (World.refHeap w) /\
    World.nodeHeap w' = <[node := link hier r n]> (World.nodeHeap w) /\
    counted_of w' = counted_of w ++ [r] /\
    same_tables w w'.
Proof.
  intros H. newReference_inv H w.
  match goal with
  | Hs : attr_value attrIsForward _ = Some ?s, Ht : alias2Id w _ = Ok ?t,
    Hn : World.nodeHeap w !! node = Some ?n,
    H : (if ?b then _ else _) = Ok _ |- _ => exists s, t, b, n; destruct b
  end; res_inv; frame_to w; cbn; rewrite insert_insert_eq; by repeat split.
Qed.

(** The scan of the known reference types returns when every cell of the
    container points to a node. *)
Lemma isKnownReferenceType_loop_total w id container :
  Forall (fun p => is_Some (World.nodeHeap w !! p)) container ->
  exists b, isKnownReferenceType_loop w id container = Ok b.
Proof.
  induction 1 as [|p c [n Hn] _ [b IH]]; simpl; [by eexists|].
  rewrite (proj2 (deref_node_Ok w p n)) by done. cbn [res_bind].
  destruct (_ =? _)%Z; eauto.
Qed.

Lemma goes_hierachical_total w rec :
  Forall (fun p => is_Some (World.nodeHeap w !! p))
    (Nodeset.nodes (World.nodeset w) NODECLASS_REFERENCETYPE) ->
  exists b, goes_hierachical w rec = Ok b.
Proof.
  intros H. unfold goes_hierachical, isKnownReferenceType.
  destruct (_ =? _)%Z; [by eexists|].
  destruct (isKnownReferenceType_loop_total w (Reference.refType rec) _ H) as [b ->].
  by eexists.
Qed.

(** [Nodeset_newReference] returns, with the block malloc hands out,
    whenever the node exists, the array of counted references has a free
    cell, the reference type decodes, and the ReferenceType container holds
    valid pointers. *)
Theorem Nodeset_newReference_total node attributes w n refType :
  World.nodeHeap w !! node = Some n ->
  (Z.of_nat (length (counted_of w)) < MAX_REFCOUNTEDREFS)%Z ->
  alias2Id w (attr_value attrReferenceType attributes) = Ok refType ->
  Forall (fun p => is_Some (World.nodeHeap w !! p))
    (Nodeset.nodes (World.nodeset w) NODECLASS_REFERENCETYPE) ->
  exists w', Nodeset_newReference node attributes w = Ok (World.brk w, w').
Proof.
  intros Hn Hcap Hty Hknown. unfold Nodeset_newReference, alloc_ref, count_ref.
  cbn beta iota zeta. fold (counted_of w) in Hcap |- *. cbn [World.nodeset World.set_brk World.set_refHeap].
  fold (counted_of w). rewrite (proj2 (Z.ltb_lt _ _)) by done. cbn [require res_bind].
  rewrite getAttributeValue_eq. cbn beta iota.
  destruct (attr_value_IsForward attributes) as [s ->]. cbn [nonnull res_bind].
  rewrite getAttributeValue_eq. cbn beta iota.
  rewrite (alias2Id_frame _ w) by done. rewrite Hty. cbn [res_bind].
  rewrite (goes_hierachical_frame _ w) by done.
  destruct (goes_hierachical_total w
    (Reference.mk (strcmp "true" s =? 0)%Z refType None None) Hknown) as [b ->].
  cbn [res_bind]. unfold deref_node at 1. cbn. rewrite Hn. cbn [res_bind].
  destruct b; unfold store_ref, store_node, deref_ref, deref_node; cbn;
    rewrite lookup_insert_eq; cbn; rewrite Hn; cbn; by eexists.
Qed.

(** When the array of counted references is full, the store of the new
    reference into it is out of bounds. *)
Theorem Nodeset_newReference_full node attributes w :
  (MAX_REFCOUNTEDREFS <= Z.of_nat (length (counted_of w)))%Z ->
  Nodeset_newReference node attributes w = Trap OutOfBounds.
Proof.
  intros H. unfold Nodeset_newReference, alloc_ref, count_ref.
  cbn beta iota zeta. cbn [World.nodeset World.set_brk World.set_refHeap].
  fold (counted_of w). by rewrite (proj2 (Z.ltb_ge _ _)).
Qed.

End newReference.

Section classification.
Implicit Types (w : World) (rec : Reference).

(** While the ReferenceType container is empty, a reference goes to the
    hierarchical list exactly when its type is in the table or is not of
    namespace 0. *)
Theorem goes_hierachical_parsing w rec :
  Nodeset.nodes (World.nodeset w) NODECLASS_REFERENCETYPE = [] ->
  goes_hierachical w rec =
    Ok (bool_decide (Reference.refType rec ∈ table_ids w) ||
        negb (TNodeId.nsIdx (Reference.refType rec) =? 0)%Z).
Proof.
  intros Hc. unfold goes_hierachical, isKnownReferenceType.
  rewrite Hc, isHierachicalReference_spec.
  by destruct (_ =? _)%Z; simpl; rewrite ?orb_false_r.
Qed.

(** The direction of a reference: forward exactly when the text read for
    IsForward is "true". *)
Lemma isForward_decode (s : string) :
  (strcmp "true" s =? 0)%Z = bool_decide (s = "true").
Proof.
  apply eq_true_iff_eq. rewrite Z.eqb_eq, strcmp_eq, bool_decide_eq_true. naive_solver.
Qed.

End classification.

Section newNode.
Implicit Types (w : World) (node : ptr) (attributes : list XmlAttr).

Lemma extractAttributes_ext_Ok c attributes w ext w' :
  extractAttributes_ext c attributes w = Ok (ext, w') ->
  ext_class ext = c /\
  World.nodeHeap w' = World.nodeHeap w /\ World.refHeap w' = World.refHeap w /\
  World.brk w' = World.brk w /\ counted_of w' = counted_of w /\ same_tables w w'.
Proof.
  intros H. unfold extractAttributes_ext in H.
  destruct c; attr_inv; by repeat split.
Qed.

(** What a successful [Nodeset_newNode] has done: the node is a fresh
    block of the given class, with the extension of that class, the id and
    the browse name decoded from the attributes NodeId and BrowseName, and
    both lists of references empty; nothing else of the heap changes. *)
Theorem Nodeset_newNode_Ok nodeClass attributes w node w' :
  Nodeset_newNode nodeClass attributes w = Ok (node, w') ->
  exists n,
    node = World.brk w /\ World.brk w' = S node /\
    World.nodeHeap w' = <[node := n]> (World.nodeHeap w) /\
    World.refHeap w' = World.refHeap w /\
    counted_of w' = counted_of w /\ same_tables w w' /\
    TNode.nodeClass n = nodeClass /\ ext_class (TNode.ext n) = nodeClass /\
    extractNodedId (namespaces_of w) (attr_value attrNodeId attributes)
      = Ok (TNode.id n) /\
    extractBrowseName (namespaces_of w) (attr_value attrBrowseName attributes)
      = Ok (TNode.browseName n) /\
    TNode.hierachicalRefs n = None /\ TNode.nonHierachicalRefs n = None.
Proof.
  intros H. newNode_inv H w.
  match goal with H : extractAttributes_ext _ _ _ = Ok _ |- _ =>
    apply extractAttributes_ext_Ok in H as (? & ? & ? & ? & ? & ?) end.
  unfold same_tables in *. destruct_and?. eexists. cbn in *.
  match goal with Hh : World.nodeHeap _ = _ |- _ => rewrite Hh end.
  rewrite insert_insert_eq. by repeat split.
Qed.

(** The class-specific fields of the new node are those [extractAttributes]
    reads, against the alias list and the namespace table of the state the
    call started in; the three strings of the common part that no
    attribute gives are NULL. *)
Lemma Nodeset_newNode_ext nodeClass attributes w node w' :
  Nodeset_newNode nodeClass attributes w = Ok (node, w') ->
  exists n w1 w2,
    World.nodeHeap w' !! node = Some n /\
    extractAttributes_ext nodeClass attributes w1 = Ok (TNode.ext n, w2) /\
    aliases_of w1 = aliases_of w /\ namespaces_of w1 = namespaces_of w /\
    TNode.displayName n = None /\ TNode.description n = None /\
    TNode.writeMask n = None.
Proof.
  intros H. newNode_inv H w. cbn [World.nodeHeap World.set_nodeHeap TNode.nodeClass TNode.ext] in *.
  rewrite lookup_insert_eq. eexists _, _, _. split; [done|].
  split; [eassumption | done].
Qed.

(** C37. A node element without the attribute BrowseName makes
    [extractBrowseName] search a NULL string: no node is built and no error
    is reported, the behaviour is undefined. *)
Theorem Nodeset_newNode_no_BrowseName nodeClass attributes w id :
  find_attribute ATTRIBUTE_BROWSENAME attributes = None ->
  extractNodedId (namespaces_of w) (attr_value attrNodeId attributes) = Ok id ->
  Nodeset_newNode nodeClass attributes w = Trap NullDeref.
Proof.
  intros Hbn Hid. unfold Nodeset_newNode, alloc_node, initNode, deref_node.
  cbn. rewrite lookup_insert_eq. cbn [res_bind]. unfold extractAttributes.
  rewrite getAttributeValue_eq. cbn beta iota zeta.
  change (namespaces_of _) with (namespaces_of w). rewrite Hid. cbn [res_bind].
  rewrite getAttributeValue_eq. cbn beta iota.
  unfold attr_value at 1. cbn [NodeAttribute.name attrBrowseName]. by rewrite Hbn.
Qed.

(** C38. A node whose NodeId names a namespace the file has not declared:
    the text "ns=<k>;<rest>" with [k] at or past the size of the namespace
    table makes [translateNodeId] read the table past its end.  No error
    is reported and no node is built; the index of the file is compared to
    nothing on its way from [atoi] to the array. *)
Theorem Nodeset_newNode_undeclared_namespace nodeClass attributes w (k : N) rest :
  find_attribute ATTRIBUTE_NODEID attributes = Some (nodeId_text k rest) ->
  (0 < k)%N -> (Z.of_N k <= INT_MAX)%Z ->
  length (namespaces_of w) <= N.to_nat k ->
  Nodeset_newNode nodeClass attributes w = Trap OutOfBounds.
Proof.
  intros Hid Hpos Hint Hlen. unfold Nodeset_newNode, alloc_node, initNode, deref_node.
  cbn. rewrite lookup_insert_eq. cbn [res_bind]. unfold extractAttributes.
  rewrite getAttributeValue_eq. cbn beta iota zeta.
  change (namespaces_of _) with (namespaces_of w).
  unfold attr_value. cbn [NodeAttribute.name attrNodeId]. rewrite Hid.
  rewrite extractNodedId_text by done.
  by rewrite translateNodeId_undeclared by (cbn; lia).
Qed.

(** A node element without the attribute NodeId is accepted: the node
    is built with a NULL identifier in namespace 0. *)
Theorem Nodeset_newNode_no_NodeId nodeClass attributes w node w' :
  find_attribute ATTRIBUTE_NODEID attributes = None ->
  Nodeset_newNode nodeClass attributes w = Ok (node, w') ->
  exists n, World.nodeHeap w' !! node = Some n /\ TNode.id n = TNodeId.mk 0 None.
Proof.
  intros Hid (n & -> & _ & Hh & _ & _ & _ & _ & _ & Hn & _)%Nodeset_newNode_Ok.
  exists n. rewrite Hh, lookup_insert_eq. split; [done|].
  unfold attr_value in Hn. cbn [NodeAttribute.name attrNodeId] in Hn.
  rewrite Hid in Hn. by injection Hn.
Qed.

End newNode.

Section finish.
Implicit Types (w : World) (node ref : ptr).

(** [Nodeset_newReferenceFinish] sets the target of the reference to the
    decoded text of the element, in place: direction, type and link of the
    reference, and everything else of the state, are kept. *)
Theorem Nodeset_newReferenceFinish_Ok ref targetId w w' :
  Nodeset_newReferenceFinish ref targetId w = Ok w' <->
  exists rec target,
    World.refHeap w !! ref = Some rec /\
    extractNodedId (namespaces_of w) targetId = Ok target /\
    w' = World.set_refHeap
           (<[ref := Reference.set_target (Some target) rec]> (World.refHeap w)) w.
Proof.
  unfold Nodeset_newReferenceFinish. split.
  - intros H. res_inv. frame_to w.
    match goal with H : deref_ref _ _ = _ |- _ => apply deref_ref_Ok in H end. eauto.
  - intros (rec & target & Hr & Ht & ->).
    rewrite (proj2 (deref_ref_Ok w ref rec)), Ht by done. cbn [res_bind].
    apply store_ref_Ok. eauto.
Qed.

(** [Nodeset_newNodeFinish] hands the node to the sorter, and changes
    the table of hierarchical reference types only for a ReferenceType
    node, by [addIfHierachicalReferenceType]. *)
Theorem Nodeset_newNodeFinish_Ok node w w' :
  Nodeset_newNodeFinish node w = Ok w' ->
  exists n, World.nodeHeap w !! node = Some n /\
    World.sortNodes w' = World.sortNodes w ++ [node] /\
    if decide (TNode.nodeClass n = NODECLASS_REFERENCETYPE)
    then addIfHierachicalReferenceType node (Sort_addNode node w) = Ok w'
    else w' = Sort_addNode node w.
Proof.
  unfold Nodeset_newNodeFinish. intros H. res_inv. frame_to w.
  eexists. split; [done|]. case_decide; [|by simplify_eq].
  split; [|done].
  apply addIfHierachicalReferenceType_Ok in H as (? & ? & _ & _ & ->). done.
Qed.

End finish.
