(* ===== verification/Emit.v ===== *)
(** * Emission and cleanup

    [Nodeset_addNode], [Nodeset_getSortedNodes] and [Nodeset_cleanup] of
    Nodeset.c.  [Nodeset_getSortedNodes] asks the sorter for an order, files
    every node it hands back in the container of its class, and then calls
    the host once per node, container after container in a fixed order of
    the classes.  The theorems of this file are stated for any sorter that
    keeps the contract of the class [Sorter]: what the host sees is the
    sorter's order, cut by class and glued in the order of the phases. *)

From stdpp Require Import gmap functions.
From S2P Require Import Prelude CString Model Namespace Attributes Alias Classifier.
From S2P Require Import Sorter Builder.

(** ** [Nodeset_addNode] *)

Definition container_of (w : World) (c : TNodeClass) : NodeContainer :=
  Nodeset.nodes (World.nodeset w) c.

(** The state with other containers, everything else as in [w]. *)
Definition with_nodes (f : TNodeClass -> NodeContainer) (w : World) : World :=
  World.set_nodeset (Nodeset.set_nodes f (World.nodeset w)) w.

(** [nodes[cnt] = node; cnt++] on the container of the node's class. *)
Definition Nodeset_addNode (w : World) (node : ptr) : res World :=
  let* n := deref_node w node in
  let c := TNode.nodeClass n in
  require (Z.of_nat (length (container_of w c)) <? container_capacity c)%Z
    OutOfBounds ;;;
  Ok (with_nodes (<[c := container_of w c ++ [node]]> (container_of w)) w).

(** ** The host's callbacks *)

Definition callback (node : ptr) (w : World) : World :=
  World.set_trace (World.trace w ++ [CbAddNode node]) w.

Definition deleteValue (node : ptr) (w : World) : World :=
  World.set_trace (World.trace w ++ [CbDeleteValue node]) w.

(** One [for] loop over a container. *)
Definition emit_class (c : TNodeClass) (w : World) : World :=
  foldl (fun w node => callback node w) w (container_of w c).

(** The last loop: each variable is handed over, then its value deleted. *)
Definition emit_variables (w : World) : World :=
  foldl (fun w node => deleteValue node (callback node w)) w
    (container_of w NODECLASS_VARIABLE).

(** ** [Nodeset_getSortedNodes] and [Nodeset_cleanup] *)

Section sorted.
Context `{Sorter}.

(** The sorter files the nodes through [Nodeset_addNode], in its order, or
    gives up before it files any. *)
Definition Sort_start (w : World) : res (bool * World) :=
  match sort (precedes w) (World.sortNodes w) with
  | None => Ok (false, w)
  | Some order =>
      let* w := res_fold Nodeset_addNode order w in Ok (true, w)
  end.

Definition Nodeset_getSortedNodes (w : World) : res (bool * World) :=
  let* (started, w) := Sort_start w in
  if negb started then Ok (false, w)
  else
    let w := emit_class NODECLASS_REFERENCETYPE w in
    let w := emit_class NODECLASS_DATATYPE w in
    let w := emit_class NODECLASS_OBJECTTYPE w in
    let w := emit_class NODECLASS_OBJECT w in
    let w := emit_class NODECLASS_METHOD w in
    let w := emit_class NODECLASS_VARIABLETYPE w in
    let w := emit_variables w in
    Ok (true, w).

End sorted.

Definition Sort_cleanup (w : World) : World := World.set_sortNodes [] w.

(** The two loops of [Nodeset_cleanup]: every counted reference is freed,
    then every node of every container. *)
Definition free_refs (w : World) : res World :=
  res_fold (fun w r => free_ref r w) (counted_of w) w.

Definition free_container (w : World) (c : TNodeClass) : res World :=
  res_fold (fun w node => free_node node w) (container_of w c) w.

Definition Nodeset_cleanup (w : World) : res World :=
  let w := set_arena [] w in
  let w := World.set_nodeset (Nodeset.set_aliasList [] (World.nodeset w)) w in
  let* w := free_refs w in
  let* w := res_fold free_container all_classes w in
  Ok (Sort_cleanup w).

(** ** What the host is to see *)

(** The order of the seven loops. *)
Definition emission_order : list TNodeClass :=
  [NODECLASS_REFERENCETYPE; NODECLASS_DATATYPE; NODECLASS_OBJECTTYPE;
   NODECLASS_OBJECT; NODECLASS_METHOD; NODECLASS_VARIABLETYPE;
   NODECLASS_VARIABLE].

(** The phase of a class: its position in that order. *)
Definition phase (c : TNodeClass) : nat :=
  match c with
  | NODECLASS_REFERENCETYPE => 0
  | NODECLASS_DATATYPE => 1
  | NODECLASS_OBJECTTYPE => 2
  | NODECLASS_OBJECT => 3
  | NODECLASS_METHOD => 4
  | NODECLASS_VARIABLETYPE => 5
  | NODECLASS_VARIABLE => 6
  end.

(** The class of the node at an address. *)
Definition class_of (w : World) (p : ptr) : option TNodeClass :=
  TNode.nodeClass <$> World.nodeHeap w !! p.

(** The nodes of class [c] among [l], in the order of [l]. *)
Definition of_class (w : World) (c : TNodeClass) (l : list ptr) : list ptr :=
  filter (fun p => class_of w p = Some c) l.

(** The nodes the host is given, in the order it is given them. *)
Definition added (t : list Event) : list ptr :=
  omap (fun e => match e with CbAddNode p => Some p | _ => None end) t.

(** The events of a run over the sorter's order [l]. *)
Definition events_of_class (w : World) (l : list ptr) (c : TNodeClass)
  : list Event :=
  if decide (c = NODECLASS_VARIABLE)
  then of_class w c l ≫= (fun p => [CbAddNode p; CbDeleteValue p])
  else CbAddNode <$> of_class w c l.

Definition emission (w : World) (l : list ptr) : list Event :=
  emission_order ≫= events_of_class w l.

(** ** Filing the nodes *)

Section addNode.
Implicit Types (w : World) (p node : ptr) (c : TNodeClass) (l : list ptr).

Lemma with_nodes_container_of w : with_nodes (container_of w) w = w.
Proof. by destruct w as [[]]. Qed.

Lemma of_class_cons w c p l :
  of_class w c (p :: l) =
  if decide (class_of w p = Some c) then p :: of_class w c l else of_class w c l.
Proof. unfold of_class. by rewrite filter_cons. Qed.

Lemma Nodeset_addNode_Ok w node w' :
  Nodeset_addNode w node = Ok w' <->
  exists c, class_of w node = Some c /\
    (Z.of_nat (length (container_of w c)) < container_capacity c)%Z /\
    w' = with_nodes (<[c := container_of w c ++ [node]]> (container_of w)) w.
Proof.
  unfold Nodeset_addNode, class_of, deref_node.
  destruct (World.nodeHeap w !! node) as [n|]; simpl; [|naive_solver].
  destruct (Z.ltb_spec (Z.of_nat (length (container_of w (TNode.nodeClass n))))
              (container_capacity (TNode.nodeClass n))); simpl.
  - split; [intros [= <-]; eauto | by intros (c & [= <-] & _ & ->)].
  - split; [done | intros (c & [= <-] & ? & _); lia].
Qed.

(** Filing the nodes of the sorter's order changes the containers and
    nothing else: each container receives, behind what it held, the nodes
    of its class in the sorter's order. *)
Theorem Nodeset_addNode_files l w w' :
  res_fold Nodeset_addNode l w = Ok w' ->
  exists f, w' = with_nodes f w /\
    forall c, f c = container_of w c ++ of_class w c l.
Proof.
  revert w. induction l as [|p l IH]; intros w; simpl.
  - intros [= <-]. exists (container_of w).
    split; [by rewrite with_nodes_container_of | intros c; by rewrite app_nil_r].
  - intros Hrun. res_inv.
    match goal with H : Nodeset_addNode _ _ = _ |- _ =>
      apply Nodeset_addNode_Ok in H as (cp & Hcp & _ & ->) end.
    apply IH in Hrun as (f & -> & Hf). exists f. split; [done|].
    intros c. rewrite Hf, of_class_cons. change (container_of (with_nodes ?g _)) with g.
    change (of_class (with_nodes _ w)) with (of_class w).
    destruct (decide (cp = c)) as [->|Hne].
    + by rewrite fn_lookup_insert, decide_True, <- app_assoc.
    + rewrite fn_lookup_insert_ne by done. by rewrite decide_False by congruence.
Qed.

(** Every node that was filed is a node of the heap. *)
Lemma Nodeset_addNode_allocated l w w' :
  res_fold Nodeset_addNode l w = Ok w' ->
  Forall (fun p => is_Some (class_of w p)) l.
Proof.
  revert w. induction l as [|p l IH]; intros w; simpl; [by constructor|].
  intros Hrun. res_inv.
  match goal with H : Nodeset_addNode _ _ = _ |- _ =>
    apply Nodeset_addNode_Ok in H as (cp & Hcp & _ & ->) end.
  constructor; [by eexists | by apply IH in Hrun].
Qed.

End addNode.

(** ** The calls of the host *)

Section emit.
Implicit Types (w : World) (c : TNodeClass).

Lemma set_trace_trace w : World.set_trace (World.trace w) w = w.
Proof. by destruct w. Qed.

Lemma emit_class_eq c w :
  emit_class c w =
  World.set_trace (World.trace w ++ (CbAddNode <$> container_of w c)) w.
Proof.
  unfold emit_class. generalize (container_of w c) as l.
  intros l. revert w. induction l as [|p l IH]; intros w; simpl.
  - by rewrite app_nil_r, set_trace_trace.
  - rewrite IH. unfold callback. cbn. by rewrite <- app_assoc.
Qed.

Lemma emit_variables_eq w :
  emit_variables w =
  World.set_trace
    (World.trace w ++
     (container_of w NODECLASS_VARIABLE ≫= fun p => [CbAddNode p; CbDeleteValue p]))
    w.
Proof.
  unfold emit_variables. generalize (container_of w NODECLASS_VARIABLE) as l.
  intros l. revert w. induction l as [|p l IH]; intros w; simpl.
  - by rewrite app_nil_r, set_trace_trace.
  - rewrite IH. unfold callback, deleteValue. cbn. by rewrite <- !app_assoc.
Qed.

End emit.

(** ** [Nodeset_getSortedNodes] *)

Section getSortedNodes.
Context `{Sorter}.
Implicit Types (w : World) (c : TNodeClass) (order : list ptr).

(** No node has been filed yet. *)
Definition unfiled w : Prop := forall c, container_of w c = [].

(** A run that returns true, as a state: the containers and the trace
    change, nothing else does. *)
Lemma getSortedNodes_run w w' :
  unfiled w -> Nodeset_getSortedNodes w = Ok (true, w') ->
  exists order f,
    sort (precedes w) (World.sortNodes w) = Some order /\
    (forall c, f c = of_class w c order) /\
    w' = World.set_trace (World.trace w ++ emission w order) (with_nodes f w).
Proof.
  intros Hun Hrun. unfold Nodeset_getSortedNodes, Sort_start in Hrun.
  destruct (sort _ _) as [order|]; [|by attr_inv]. attr_inv.
  match goal with H : res_fold _ _ _ = _ |- _ =>
    apply Nodeset_addNode_files in H as (f & -> & Hf) end.
  exists order, f. split; [done|].
  assert (forall c, f c = of_class w c order) as Hf'.
  { intros c. by rewrite Hf, Hun. }
  split; [done|]. cbn [negb] in Hrun. injection Hrun as <-.
  rewrite emit_variables_eq, !emit_class_eq. cbn.
  unfold emission, events_of_class. cbn. rewrite !Hf', app_nil_r, <- !app_assoc.
  done.
Qed.

(** Any run that returns, on any state: the containers grow by nodes the
    sorter was given and the trace changes, nothing else does. *)
Lemma Nodeset_getSortedNodes_frame w sorted w' :
  Nodeset_getSortedNodes w = Ok (sorted, w') ->
  exists f t, w' = World.set_trace t (with_nodes f w) /\
    forall c, exists l, f c = container_of w c ++ l /\ l ⊆ World.sortNodes w.
Proof.
  intros Hrun. unfold Nodeset_getSortedNodes, Sort_start in Hrun.
  destruct (sort _ _) as [order|] eqn:Hs.
  - attr_inv.
    match goal with H : res_fold _ _ _ = _ |- _ =>
      apply Nodeset_addNode_files in H as (f & -> & Hf) end.
    cbn [negb] in Hrun. injection Hrun as <- <-.
    rewrite emit_variables_eq, !emit_class_eq. cbn. eexists f, _. split; [done|].
    intros c. exists (of_class w c order). split; [done|].
    intros p [_ Hp]%list_elem_of_filter. by rewrite <- (sort_perm _ _ _ Hs).
  - cbn in Hrun. injection Hrun as <- <-. exists (container_of w), (World.trace w).
    split; [by rewrite with_nodes_container_of, set_trace_trace|].
    intros c. exists []. rewrite app_nil_r. split; [done | apply list_subseteq_nil].
Qed.

(** C24. Refinement: a run of [Nodeset_getSortedNodes] that returns true, on
    a builder in which no node has been filed, is the sorter's order of the
    finished nodes, cut by class: the host has seen [emission] of that
    order, each container holds the nodes of its class in that order, and
    the heap is untouched. *)
Theorem Nodeset_getSortedNodes_refines w w' :
  unfiled w -> Nodeset_getSortedNodes w = Ok (true, w') ->
  exists order,
    sort (precedes w) (World.sortNodes w) = Some order /\
    World.trace w' = World.trace w ++ emission w order /\
    (forall c, container_of w' c = of_class w c order) /\
    World.nodeHeap w' = World.nodeHeap w /\ World.refHeap w' = World.refHeap w.
Proof.
  intros Hun Hrun.
  destruct (getSortedNodes_run w w' Hun Hrun) as (order & f & Hs & Hf & ->).
  exists order. by repeat split.
Qed.

End getSortedNodes.

(** ** The order of the emission *)

Section added.
Implicit Types (t : list Event) (l : list ptr).

Lemma added_app t1 t2 : added (t1 ++ t2) = added t1 ++ added t2.
Proof. apply omap_app. Qed.

Lemma added_callbacks l : added (CbAddNode <$> l) = l.
Proof. induction l as [|p l IH]; [done|]. cbn. by f_equal. Qed.

Lemma added_variables l :
  added (l ≫= fun p => [CbAddNode p; CbDeleteValue p]) = l.
Proof. induction l as [|p l IH]; [done|]. cbn. by f_equal. Qed.

Lemma added_bind {C} (g : C -> list Event) (cs : list C) :
  added (cs ≫= g) = cs ≫= (fun c => added (g c)).
Proof.
  induction cs as [|c cs IH]; [done|]. by rewrite !bind_cons, added_app, IH.
Qed.

End added.

Section emission.
Context (w : World).
Implicit Types (order : list ptr) (u v : ptr) (c : TNodeClass).

Lemma added_events_of_class order c :
  added (events_of_class w order c) = of_class w c order.
Proof.
  unfold events_of_class. case_decide; [apply added_variables | apply added_callbacks].
Qed.

Lemma added_emission order :
  added (emission w order) = emission_order ≫= (fun c => of_class w c order).
Proof.
  unfold emission. rewrite added_bind. unfold emission_order.
  rewrite !bind_cons. cbn beta. by rewrite !added_events_of_class.
Qed.

Lemma elem_of_of_class order c u :
  u ∈ of_class w c order <-> class_of w u = Some c /\ u ∈ order.
Proof. unfold of_class. by rewrite list_elem_of_filter. Qed.

Lemma phase_before c1 c2 : phase c1 < phase c2 <-> before emission_order c1 c2.
Proof.
  rewrite <- beforeb_spec. destruct c1, c2; vm_compute; split; (done || lia).
Qed.

Lemma elem_of_emission_order c : c ∈ emission_order.
Proof. destruct c; unfold emission_order; set_solver. Qed.

(** Phase order: of two nodes of the sorter's order, the one whose class
    comes earlier in ReferenceType, DataType, ObjectType, Object, Method,
    VariableType, Variable is handed to the host first, whatever the
    sorter's order says of them. *)
Theorem emission_phase_order order u v cu cv :
  u ∈ order -> v ∈ order ->
  class_of w u = Some cu -> class_of w v = Some cv -> phase cu < phase cv ->
  before (added (emission w order)) u v.
Proof.
  intros Hu Hv Hcu Hcv Hph. rewrite added_emission.
  apply (before_bind_across _ _ cu cv); [by apply phase_before | |];
    by apply elem_of_of_class.
Qed.

(** Within a class the host sees the sorter's order. *)
Theorem emission_within_class order u v c :
  class_of w u = Some c -> class_of w v = Some c -> before order u v ->
  before (added (emission w order)) u v.
Proof.
  intros Hu Hv Hb. rewrite added_emission.
  apply (before_bind_within _ _ c); [apply elem_of_emission_order|].
  by apply before_filter.
Qed.

(** Every node of the sorter's order is handed to the host, once. *)
Theorem emission_perm order :
  Forall (fun p => is_Some (class_of w p)) order ->
  added (emission w order) ≡ₚ order.
Proof.
  rewrite added_emission. unfold emission_order. cbn.
  induction 1 as [|p l [c Hc] _ IH]; [done|].
  etrans; [|apply (Permutation_skip p), IH].
  rewrite !of_class_cons, Hc.
  destruct c; repeat (case_decide; try congruence);
    rewrite <- ?app_comm_cons; by rewrite <- ?Permutation_middle.
Qed.

(** A value is deleted for the variables of the sorter's order, and for
    no other node. *)
Theorem emission_deleteValue order p :
  CbDeleteValue p ∈ emission w order <->
  class_of w p = Some NODECLASS_VARIABLE /\ p ∈ order.
Proof.
  unfold emission. rewrite list_elem_of_bind, <- elem_of_of_class. split.
  - intros (c & Hc & _). unfold events_of_class in Hc. case_decide as Hv.
    + subst c. apply list_elem_of_bind in Hc as (q & Hq & ?). set_solver.
    + by apply list_elem_of_fmap in Hc as (q & [=] & _).
  - intros Hp. exists NODECLASS_VARIABLE. split; [|apply elem_of_emission_order].
    unfold events_of_class. rewrite decide_True by done.
    apply list_elem_of_bind. exists p. set_solver.
Qed.

End emission.

(** ** What the host sees of a run *)

(** The nodes handed to the host between the states [w] and [w']. *)
Definition emitted (w w' : World) : list ptr :=
  added (drop (length (World.trace w)) (World.trace w')).

Section runs.
Context `{Sorter}.
Implicit Types (w : World) (u v : ptr).

Lemma emitted_refines w w' :
  unfiled w -> Nodeset_getSortedNodes w = Ok (true, w') ->
  exists order,
    sort (precedes w) (World.sortNodes w) = Some order /\
    Forall (fun p => is_Some (class_of w p)) order /\
    emitted w w' = added (emission w order).
Proof.
  intros Hun Hrun.
  destruct (getSortedNodes_run w w' Hun Hrun) as (order & f & Hs & _ & ->).
  exists order. split; [done|]. split.
  - unfold Nodeset_getSortedNodes, Sort_start in Hrun. rewrite Hs in Hrun.
    attr_inv. by eapply Nodeset_addNode_allocated.
  - unfold emitted. cbn. by rewrite drop_app_length.
Qed.

(** P1: when [Nodeset_getSortedNodes] returns true, of any two finished
    nodes the one of the earlier phase has been handed to the host first. *)
Theorem Nodeset_getSortedNodes_phase_order w w' u v cu cv :
  unfiled w -> Nodeset_getSortedNodes w = Ok (true, w') ->
  u ∈ World.sortNodes w -> v ∈ World.sortNodes w ->
  class_of w u = Some cu -> class_of w v = Some cv -> phase cu < phase cv ->
  before (emitted w w') u v.
Proof.
  intros Hun Hrun Hu Hv Hcu Hcv Hph.
  destruct (emitted_refines w w' Hun Hrun) as (order & Hs & _ & ->).
  apply sort_perm in Hs.
  apply (emission_phase_order w order u v cu cv); by rewrite ?Hs.
Qed.

(** P2 within a class: when [Nodeset_getSortedNodes] returns true, a
    finished node has been handed to the host before every other finished
    node of its class that it precedes in the hierarchy. *)
Theorem Nodeset_getSortedNodes_parent_first w w' u v c :
  unfiled w -> Nodeset_getSortedNodes w = Ok (true, w') ->
  NoDup (World.sortNodes w) ->
  u ∈ World.sortNodes w -> v ∈ World.sortNodes w -> u <> v ->
  class_of w u = Some c -> class_of w v = Some c ->
  precedes w u v = true ->
  before (emitted w w') u v.
Proof.
  intros Hun Hrun Hnd Hu Hv Hne Hcu Hcv Hprec.
  destruct (emitted_refines w w' Hun Hrun) as (order & Hs & _ & ->).
  apply (emission_within_class w order u v c); [done..|].
  by apply (sort_sorted (precedes w) (World.sortNodes w)).
Qed.

(** When [Nodeset_getSortedNodes] returns true, every finished node has
    been handed to the host, once, and no other node. *)
Theorem Nodeset_getSortedNodes_complete w w' :
  unfiled w -> Nodeset_getSortedNodes w = Ok (true, w') ->
  emitted w w' ≡ₚ World.sortNodes w.
Proof.
  intros Hun Hrun.
  destruct (emitted_refines w w' Hun Hrun) as (order & Hs & Hall & ->).
  rewrite emission_perm by done. by apply sort_perm in Hs.
Qed.

(** When the sorter gives up, [Nodeset_getSortedNodes] returns false and
    has done nothing: no node is filed and the host is not called. *)
Theorem Nodeset_getSortedNodes_false w w' :
  Nodeset_getSortedNodes w = Ok (false, w') <->
  sort (precedes w) (World.sortNodes w) = None /\ w' = w.
Proof.
  unfold Nodeset_getSortedNodes, Sort_start.
  destruct (sort _ _) as [order|]; cbn; [|naive_solver].
  split; [|by intros [? _]].
  destruct (res_fold _ _ _); cbn; [done | done].
Qed.

End runs.

(** ** [Nodeset_cleanup] *)

(** Freeing the blocks at the addresses [l] of a heap, one after the other:
    each must be allocated when its turn comes. *)
Definition release {A} (h : gmap ptr A) (l : list ptr) : res (gmap ptr A) :=
  res_fold
    (fun h p => match h !! p with
                | Some _ => Ok (delete p h)
                | None => Trap BadPointer
                end) l h.

Section release.
Context {A : Type}.
Implicit Types (h : gmap ptr A) (l : list ptr) (p q : ptr).

(** The frees succeed exactly when the addresses are distinct and all
    allocated, and they free those blocks and no other. *)
Lemma release_Ok h l h' :
  release h l = Ok h' <->
  NoDup l /\ Forall (fun p => is_Some (h !! p)) l /\
  h' = filter (fun kv => kv.1 ∉ l) h.
Proof.
  unfold release. revert h h'. induction l as [|p l IH]; intros h h'; simpl.
  - rewrite (map_filter_id _ h) by (intros; apply not_elem_of_nil).
    split; [intros [= <-]; by repeat constructor | by intros (_ & _ & ->)].
  - rewrite NoDup_cons, Forall_cons_iff.
    destruct (h !! p) as [a|] eqn:Hp; simpl; [|split; [done | by intros (_ & [[? ?] _] & _)]].
    rewrite IH. clear IH.
    assert (filter (fun kv : ptr * A => kv.1 ∉ l) (delete p h) =
            filter (fun kv : ptr * A => kv.1 ∉ p :: l) h) as ->.
    { apply map_eq. intros q. apply option_eq. intros b.
      rewrite !map_lookup_filter_Some, lookup_delete_Some. set_solver. }
    assert (Forall (fun q => is_Some (delete p h !! q)) l <->
            (p ∉ l) /\ Forall (fun q => is_Some (h !! q)) l) as ->; [|naive_solver].
    rewrite !Forall_forall. setoid_rewrite lookup_delete_is_Some. set_solver.
Qed.

End release.

Section cleanup.
Implicit Types (w : World) (l : list ptr).

Lemma free_refs_release l w :
  res_fold (fun w r => free_ref r w) l w =
  res_map (fun h => World.set_refHeap h w) (release (World.refHeap w) l).
Proof.
  unfold release. revert w. induction l as [|r l IH]; intros w; simpl; [by destruct w|].
  unfold free_ref, deref_ref. destruct (World.refHeap w !! r); simpl; [|done].
  rewrite IH. cbn. by destruct (res_fold _ _ _).
Qed.

Lemma free_nodes_release l w :
  res_fold (fun w node => free_node node w) l w =
  res_map (fun h => World.set_nodeHeap h w) (release (World.nodeHeap w) l).
Proof.
  unfold release. revert w. induction l as [|r l IH]; intros w; simpl; [by destruct w|].
  unfold free_node, deref_node. destruct (World.nodeHeap w !! r); simpl; [|done].
  rewrite IH. cbn. by destruct (res_fold _ _ _).
Qed.

Lemma free_containers_unfiled w (cs : list TNodeClass) :
  unfiled w -> res_fold free_container cs w = Ok w.
Proof.
  intros Hun. induction cs as [|c cs IH]; [done|]. simpl.
  unfold free_container at 1. by rewrite Hun.
Qed.

(** Cleanup of a builder in which no node has been filed: when every
    reference of the heap is counted once, the references are all freed,
    and not one node is. *)
Theorem Nodeset_cleanup_unfiled w :
  unfiled w -> NoDup (counted_of w) ->
  (forall r, r ∈ counted_of w <-> is_Some (World.refHeap w !! r)) ->
  exists w', Nodeset_cleanup w = Ok w' /\
    World.refHeap w' = ∅ /\ World.nodeHeap w' = World.nodeHeap w.
Proof.
  intros Hun Hnd Hcounted.
  assert (release (World.refHeap w) (counted_of w) =
          Ok (filter (fun kv => kv.1 ∉ counted_of w) (World.refHeap w))) as Hok.
  { apply release_Ok. split; [done|]. split; [|done].
    apply Forall_forall. intros r. apply Hcounted. }
  unfold Nodeset_cleanup, free_refs. rewrite free_refs_release.
  change (release _ _) with (release (World.refHeap w) (counted_of w)).
  rewrite Hok. cbn [res_map res_bind].
  rewrite free_containers_unfiled by (intros c; apply Hun).
  eexists. split; [done|]. split; [|done]. cbn.
  apply map_empty. intros r. apply map_lookup_filter_None. right.
  intros rec Hr Hn. apply Hn, Hcounted. by eexists.
Qed.

End cleanup.

(** ** When the emission returns *)

Section total.
Context `{Sorter}.
Implicit Types (w : World) (l order : list ptr) (c : TNodeClass).

(** The nodes of each class fit the container of the class. *)
Definition fits w l : Prop :=
  forall c,
    (Z.of_nat (length (container_of w c) + length (of_class w c l)) <=
     container_capacity c)%Z.

Lemma Nodeset_addNode_total l w :
  Forall (fun p => is_Some (class_of w p)) l -> fits w l ->
  exists w', res_fold Nodeset_addNode l w = Ok w'.
Proof.
  revert w. induction l as [|p l IH]; intros w Hall Hfit; simpl; [by eexists|].
  apply Forall_cons_iff in Hall as [[cp Hcp] Hall].
  assert (Nodeset_addNode w p =
          Ok (with_nodes (<[cp := container_of w cp ++ [p]]> (container_of w)) w))
    as Hadd.
  { apply Nodeset_addNode_Ok. exists cp. split; [done|]. split; [|done].
    specialize (Hfit cp). rewrite of_class_cons, decide_True in Hfit by done.
    simpl in Hfit. lia. }
  rewrite Hadd. cbn [res_bind]. apply IH; [done|].
  intros c. specialize (Hfit c). rewrite of_class_cons in Hfit.
  change (container_of (with_nodes ?g _)) with g.
  change (of_class (with_nodes _ w)) with (of_class w).
  destruct (decide (cp = c)) as [->|Hne].
  - rewrite fn_lookup_insert, length_app. rewrite decide_True in Hfit by done.
    simpl in *. lia.
  - rewrite fn_lookup_insert_ne by done. by rewrite decide_False in Hfit by congruence.
Qed.

(** The nodes of an order the sorter returns have a class when the nodes
    it was given are allocated. *)
Lemma sorted_classes w order :
  sort (precedes w) (World.sortNodes w) = Some order ->
  Forall (fun p => is_Some (World.nodeHeap w !! p)) (World.sortNodes w) ->
  Forall (fun p => is_Some (class_of w p)) order.
Proof.
  intros Hs Hall. rewrite (sort_perm _ _ _ Hs). eapply Forall_impl; [exact Hall|].
  intros p [n Hn]. unfold class_of. rewrite Hn. by eexists.
Qed.

(** [Nodeset_getSortedNodes] returns true, without a store past the end
    of a container, whenever the sorter returns an order, every node of the
    order is a node of the heap, and the nodes of each class fit the
    container of the class. *)
Theorem Nodeset_getSortedNodes_total w order :
  sort (precedes w) (World.sortNodes w) = Some order ->
  Forall (fun p => is_Some (World.nodeHeap w !! p)) (World.sortNodes w) ->
  fits w order ->
  exists w', Nodeset_getSortedNodes w = Ok (true, w').
Proof.
  intros Hs Hall Hfit. unfold Nodeset_getSortedNodes, Sort_start. rewrite Hs.
  destruct (Nodeset_addNode_total order w) as [w1 ->];
    [by apply sorted_classes | done | by eexists].
Qed.

(** Filing stores past the end of a container as soon as a class has more
    nodes than its container has cells left. *)
Lemma Nodeset_addNode_overflow l w c :
  Forall (fun p => is_Some (class_of w p)) l ->
  (forall c', Z.of_nat (length (container_of w c')) <= container_capacity c')%Z ->
  (container_capacity c <
   Z.of_nat (length (container_of w c) + length (of_class w c l)))%Z ->
  res_fold Nodeset_addNode l w = Trap OutOfBounds.
Proof.
  revert w. induction l as [|p l IH]; intros w Hall Hcap Hover; simpl.
  { specialize (Hcap c). simpl in Hover. lia. }
  apply Forall_cons_iff in Hall as [[cp Hcp] Hall].
  destruct (Nodeset_addNode w p) as [w'|u] eqn:Hadd.
  - apply Nodeset_addNode_Ok in Hadd as (cp' & Hcp' & Hlt & ->).
    cbn [res_bind]. apply IH; [done| |]; intros;
      change (container_of (with_nodes ?g _)) with g;
      change (of_class (with_nodes _ w)) with (of_class w).
    + destruct (decide (cp' = c')) as [->|Hne];
        [rewrite fn_lookup_insert, length_app; simpl; lia
        | by rewrite fn_lookup_insert_ne].
    + rewrite of_class_cons in Hover.
      destruct (decide (cp' = c)) as [->|Hne].
      * rewrite fn_lookup_insert, length_app. rewrite decide_True in Hover by done.
        simpl in *. lia.
      * rewrite fn_lookup_insert_ne by done.
        by rewrite decide_False in Hover by congruence.
  - cbn [res_bind]. f_equal. revert Hadd. unfold Nodeset_addNode, deref_node.
    unfold class_of in Hcp. destruct (World.nodeHeap w !! p) as [n|]; [|done].
    cbn. destruct (_ <? _)%Z; cbn; congruence.
Qed.

(** C34. Error: when the sorter returns an order and some class has more
    nodes than its container has cells left, [Nodeset_getSortedNodes] stores
    past the end of that container: the code compares no count to a
    capacity. *)
Theorem Nodeset_getSortedNodes_overflow w order c :
  sort (precedes w) (World.sortNodes w) = Some order ->
  Forall (fun p => is_Some (World.nodeHeap w !! p)) (World.sortNodes w) ->
  (forall c', Z.of_nat (length (container_of w c')) <= container_capacity c')%Z ->
  (container_capacity c <
   Z.of_nat (length (container_of w c) + length (of_class w c order)))%Z ->
  Nodeset_getSortedNodes w = Trap OutOfBounds.
Proof.
  intros Hs Hall Hcap Hover. unfold Nodeset_getSortedNodes, Sort_start. rewrite Hs.
  by rewrite (Nodeset_addNode_overflow order w c); [|apply sorted_classes|..].
Qed.

End total.

(** ** What cleanup frees *)

Section cleanup_run.
Implicit Types (w : World) (l : list ptr) (cs : list TNodeClass).

Lemma release_app {A} (h : gmap ptr A) l1 l2 :
  release h (l1 ++ l2) = (let* h1 := release h l1 in release h1 l2).
Proof. apply res_fold_app. Qed.

(** The nodes of the containers [cs], in the order cleanup frees them. *)
Definition filed w cs : list ptr := cs ≫= container_of w.

Lemma free_containers_release cs w :
  res_fold free_container cs w =
  res_map (fun h => World.set_nodeHeap h w) (release (World.nodeHeap w) (filed w cs)).
Proof.
  revert w. induction cs as [|c cs IH]; intros w; [by destruct w|].
  unfold filed. rewrite bind_cons, release_app. simpl.
  unfold free_container at 1. rewrite free_nodes_release.
  destruct (release (World.nodeHeap w) (container_of w c)) as [h|]; [|done].
  cbn [res_map res_bind]. by rewrite IH.
Qed.

(** What [Nodeset_cleanup] leaves of a state: no string, no alias, no
    counted reference, no filed node, an empty sorter. *)
Definition cleaned w : World :=
  let w := set_arena [] w in
  let w := World.set_nodeset (Nodeset.set_aliasList [] (World.nodeset w)) w in
  let w := World.set_refHeap
             (filter (fun kv => kv.1 ∉ counted_of w) (World.refHeap w)) w in
  let w := World.set_nodeHeap
             (filter (fun kv => kv.1 ∉ filed w all_classes) (World.nodeHeap w)) w in
  Sort_cleanup w.

(** [Nodeset_cleanup] has defined behaviour exactly when each block it
    frees is allocated and is freed once, and then it leaves [cleaned]. *)
Lemma Nodeset_cleanup_Ok w w' :
  Nodeset_cleanup w = Ok w' <->
  (NoDup (counted_of w) /\
   Forall (fun r => is_Some (World.refHeap w !! r)) (counted_of w)) /\
  (NoDup (filed w all_classes) /\
   Forall (fun p => is_Some (World.nodeHeap w !! p)) (filed w all_classes)) /\
  w' = cleaned w.
Proof.
  unfold Nodeset_cleanup, free_refs. rewrite free_refs_release.
  change (release _ _) with (release (World.refHeap w) (counted_of w)).
  destruct (release (World.refHeap w) _) as [h|] eqn:Hr; cbn [res_map res_bind].
  - apply release_Ok in Hr as (Hnd & Hall & ->). rewrite free_containers_release.
    change (release _ _) with (release (World.nodeHeap w) (filed w all_classes)).
    destruct (release (World.nodeHeap w) _) as [h'|] eqn:Hn; cbn [res_map res_bind].
    + apply release_Ok in Hn as (Hnd' & Hall' & ->).
      split; [by intros [= <-] | by intros (_ & _ & ->)].
    + split; [done|]. intros (_ & [Hnd' Hall'] & _).
      by rewrite (proj2 (release_Ok _ _ _) (conj Hnd' (conj Hall' eq_refl))) in Hn.
  - split; [done|]. intros ([Hnd Hall] & _).
    by rewrite (proj2 (release_Ok _ _ _) (conj Hnd (conj Hall eq_refl))) in Hr.
Qed.

(** The run of [Nodeset_cleanup] when every counted reference and every
    filed node is an allocated block, freed once: the references are all
    freed, and of the nodes those of the containers. *)
Lemma Nodeset_cleanup_run w :
  NoDup (counted_of w) ->
  (forall r, r ∈ counted_of w <-> is_Some (World.refHeap w !! r)) ->
  NoDup (filed w all_classes) ->
  Forall (fun p => is_Some (World.nodeHeap w !! p)) (filed w all_classes) ->
  exists w', Nodeset_cleanup w = Ok w' /\
    World.refHeap w' = ∅ /\
    World.nodeHeap w' =
      filter (fun kv => kv.1 ∉ filed w all_classes) (World.nodeHeap w).
Proof.
  intros Hnd Hcounted Hndn Halloc. exists (cleaned w). split.
  - apply Nodeset_cleanup_Ok. split; [split; [done|]|done].
    apply Forall_forall. intros r. apply Hcounted.
  - split; [|done]. cbn. apply map_empty. intros r.
    apply map_lookup_filter_None. right.
    intros rec Hr Hn. apply Hn, Hcounted. by eexists.
Qed.

(** Whatever it frees, a cleanup that returns has emptied the arena, the
    alias list and the sorter, and has not called the host. *)
Lemma Nodeset_cleanup_frame w w' :
  Nodeset_cleanup w = Ok w' ->
  arena_of w' = [] /\ aliases_of w' = [] /\ World.sortNodes w' = [] /\
  World.trace w' = World.trace w.
Proof.
  by intros (_ & _ & ->)%Nodeset_cleanup_Ok.
Qed.

End cleanup_run.

Section cleanup_emitted.
Context `{Sorter}.
Implicit Types (w : World) (order : list ptr).

Lemma all_classes_emission_order : all_classes ≡ₚ emission_order.
Proof.
  apply NoDup_Permutation; [by apply (bool_decide_unpack _)..|].
  intros []; unfold all_classes, emission_order; set_solver.
Qed.

(** After an emission the containers hold the finished nodes. *)
Lemma filed_emitted w w' :
  unfiled w -> Nodeset_getSortedNodes w = Ok (true, w') ->
  filed w' all_classes ≡ₚ World.sortNodes w /\
  World.nodeHeap w' = World.nodeHeap w /\ World.refHeap w' = World.refHeap w /\
  counted_of w' = counted_of w.
Proof.
  intros Hun Hrun.
  destruct (emitted_refines w w' Hun Hrun) as (order' & Hs' & Hall & _).
  destruct (getSortedNodes_run w w' Hun Hrun) as (order & f & Hs & Hf & ->).
  rewrite Hs in Hs'. injection Hs' as <-.
  split; [|done]. unfold filed. change (container_of _) with f.
  rewrite (list_bind_ext f (fun c => of_class w c order) all_classes all_classes)
    by done.
  rewrite all_classes_emission_order, <- added_emission, emission_perm by done.
  by apply sort_perm in Hs.
Qed.

End cleanup_emitted.
