(* ===== verification/Machine.v ===== *)
(** * The builder as a state machine

    The parser drives the builder by calls: [Nodeset_new] once, then any
    sequence of the eight events.  [call] runs one event on the state,
    [reachable] is the set of states such sequences lead to, and [wf_world]
    is the invariant of those states.  Its first part, [wf_heap], is about
    the memory and holds until the cleanup: the heap of references is well
    formed (so that every walk of a list ends), every list head of every
    node is a reference of the heap, every node carries the extension of
    its class, every reference of the heap is counted once, every node
    with the sorter or in a container is allocated, and the seed table is
    still the front of the table of hierarchical reference types.  Its
    second part holds while a file is parsed: no node has been filed. *)

From stdpp Require Import gmap functions.
From S2P Require Import Prelude CString Model Namespace Attributes Alias Classifier.
From S2P Require Import Sorter Builder Emit.

(** ** The events *)

Inductive Call : Type :=
| CallNewNamespace
| CallNewNamespaceFinish (namespaceUri : cstr)
| CallNewAlias (attributes : list XmlAttr)
| CallNewAliasFinish (alias : nat) (idString : cstr)
| CallNewNode (nodeClass : TNodeClass) (attributes : list XmlAttr)
| CallNewReference (node : ptr) (attributes : list XmlAttr)
| CallNewReferenceFinish (ref : ptr) (targetId : cstr)
| CallNewNodeFinish (node : ptr).

(** One event on the state.  The handle an event returns (an alias, a node,
    a reference) is determined by the state before it: the length of the
    alias list, or the allocation mark. *)
Definition call (w : World) (c : Call) : res World :=
  match c with
  | CallNewNamespace => Ok (snd (Nodeset_newNamespace w))
  | CallNewNamespaceFinish namespaceUri =>
      Nodeset_newNamespaceFinish namespaceUri w
  | CallNewAlias attributes => Ok (snd (Nodeset_newAlias attributes w))
  | CallNewAliasFinish alias idString => Nodeset_newAliasFinish alias idString w
  | CallNewNode nodeClass attributes =>
      res_map snd (Nodeset_newNode nodeClass attributes w)
  | CallNewReference node attributes =>
      res_map snd (Nodeset_newReference node attributes w)
  | CallNewReferenceFinish ref targetId =>
      Nodeset_newReferenceFinish ref targetId w
  | CallNewNodeFinish node => Nodeset_newNodeFinish node w
  end.

(** A run of the parser: the events in order, from a state. *)
Definition run (calls : list Call) (w : World) : res World :=
  res_fold call calls w.

(** The states of the builder while a file is parsed. *)
Inductive reachable : World -> Prop :=
| reachable_new nsCallback : reachable (Nodeset_new nsCallback)
| reachable_call w c w' : reachable w -> call w c = Ok w' -> reachable w'.

(** ** The invariant *)

Record wf_node (w : World) (p : ptr) (n : TNode) : Prop := {
  wf_node_below : p < World.brk w;
  wf_node_hierachical : valid_head (World.refHeap w) (TNode.hierachicalRefs n);
  wf_node_nonHierachical :
    valid_head (World.refHeap w) (TNode.nonHierachicalRefs n);
  wf_node_ext : ext_class (TNode.ext n) = TNode.nodeClass n;
}.

(** The memory of the builder is well formed.  This is what holds as long
    as nothing has been freed, whether or not the nodes have been filed. *)
Record wf_heap (w : World) : Prop := {
  wf_refHeap : wf_refs (World.refHeap w) (World.brk w);
  wf_nodeHeap : forall p n, World.nodeHeap w !! p = Some n -> wf_node w p n;
  wf_counted : forall r, r ∈ counted_of w <-> is_Some (World.refHeap w !! r);
  wf_counted_NoDup : NoDup (counted_of w);
  wf_sortNodes :
    Forall (fun p => is_Some (World.nodeHeap w !! p)) (World.sortNodes w);
  wf_filed :
    forall c, Forall (fun p => is_Some (World.nodeHeap w !! p)) (container_of w c);
  wf_table : hierachicalRefs `prefix_of` table_of w;
  wf_namespaces : 0 < length (namespaces_of w);
}.

(** The invariant of the states while a file is parsed: the memory is well
    formed and no node has been filed. *)
Record wf_world (w : World) : Prop := {
  wf_world_heap :> wf_heap w;
  wf_unfiled : unfiled w;
}.

(** ** Preservation *)

Section preservation.
Implicit Types (w : World) (p node r : ptr) (n : TNode).

(** The invariant reads the two heaps, the allocation mark, the counted
    references, the sorter's nodes, the containers, the table and the
    namespaces: a state that agrees with a well-formed one on the first six,
    keeps the seeds and has a namespace is well formed. *)
Lemma wf_heap_ext w w' :
  World.refHeap w' = World.refHeap w -> World.nodeHeap w' = World.nodeHeap w ->
  World.brk w' = World.brk w -> counted_of w' = counted_of w ->
  World.sortNodes w' = World.sortNodes w ->
  (forall c, container_of w' c = container_of w c) ->
  hierachicalRefs `prefix_of` table_of w' -> 0 < length (namespaces_of w') ->
  wf_heap w -> wf_heap w'.
Proof.
  intros Hr Hn Hb Hc Hs Hf Ht Hns Hwf.
  split; rewrite ?Hr, ?Hn, ?Hb, ?Hc, ?Hs; try done; try apply Hwf.
  - intros p n Hp. destruct (wf_nodeHeap w Hwf p n Hp).
    split; by rewrite ?Hr, ?Hb.
  - intros c. rewrite Hf. apply Hwf.
Qed.

(** A node stays well formed when the mark moves up and the heap of
    references keeps its addresses. *)
Lemma wf_node_mono w w' p n :
  World.brk w <= World.brk w' ->
  (forall q, is_Some (World.refHeap w !! q) -> is_Some (World.refHeap w' !! q)) ->
  wf_node w p n -> wf_node w' p n.
Proof.
  intros Hb Hh []. split; [lia | | | done]; intros q Hq; by apply Hh; auto.
Qed.

Lemma wf_refs_mono h brk brk' : brk <= brk' -> wf_refs h brk -> wf_refs h brk'.
Proof.
  intros Hle Hwf r rec Hr. destruct (Hwf r rec Hr). split; [lia | done].
Qed.

(** The filed nodes stay allocated when the containers stay and the heap
    of nodes keeps its addresses. *)
Lemma wf_filed_mono w w' :
  Nodeset.nodes (World.nodeset w') = Nodeset.nodes (World.nodeset w) ->
  (forall p, is_Some (World.nodeHeap w !! p) -> is_Some (World.nodeHeap w' !! p)) ->
  wf_heap w ->
  forall c, Forall (fun p => is_Some (World.nodeHeap w' !! p)) (container_of w' c).
Proof.
  intros Hf Hn Hwf c. unfold container_of. rewrite Hf.
  eapply Forall_impl; [apply (wf_filed w Hwf c)|]. apply Hn.
Qed.

(** The mark is not an address of either heap. *)
Lemma wf_world_fresh_ref w : wf_heap w -> World.refHeap w !! World.brk w = None.
Proof.
  intros Hwf. destruct (World.refHeap w !! World.brk w) as [rec|] eqn:E; [|done].
  destruct (wf_refHeap w Hwf _ _ E). lia.
Qed.

Lemma wf_world_fresh_node w : wf_heap w -> World.nodeHeap w !! World.brk w = None.
Proof.
  intros Hwf. destruct (World.nodeHeap w !! World.brk w) as [n|] eqn:E; [|done].
  destruct (wf_nodeHeap w Hwf _ _ E). lia.
Qed.

Lemma wf_heap_new nsCallback : wf_heap (Nodeset_new nsCallback).
Proof.
  split; cbn; try done.
  - intros r. rewrite lookup_empty. split; [by intros ?%elem_of_nil | by intros []].
  - constructor.
  - simpl. lia.
Qed.

Lemma wf_heap_newNamespace w :
  wf_heap w -> wf_heap (snd (Nodeset_newNamespace w)).
Proof.
  intros Hwf. pose proof (wf_table w Hwf).
  apply (wf_heap_ext w); try done. cbn. rewrite length_app. simpl. lia.
Qed.

Lemma wf_heap_newNamespaceFinish namespaceUri w w' :
  Nodeset_newNamespaceFinish namespaceUri w = Ok w' -> wf_heap w -> wf_heap w'.
Proof.
  unfold Nodeset_newNamespaceFinish. intros Hrun Hwf. res_inv.
  pose proof (wf_table w Hwf). pose proof (wf_namespaces w Hwf).
  apply (wf_heap_ext w); try done. cbn. by rewrite length_insert.
Qed.

Lemma wf_heap_newAlias attributes w :
  wf_heap w -> wf_heap (snd (Nodeset_newAlias attributes w)).
Proof.
  intros Hwf. pose proof (wf_table w Hwf). pose proof (wf_namespaces w Hwf).
  unfold Nodeset_newAlias. rewrite getAttributeValue_eq. cbn.
  by apply (wf_heap_ext w).
Qed.

Lemma wf_heap_newAliasFinish alias idString w w' :
  Nodeset_newAliasFinish alias idString w = Ok w' -> wf_heap w -> wf_heap w'.
Proof.
  unfold Nodeset_newAliasFinish. intros Hrun Hwf. res_inv.
  pose proof (wf_table w Hwf). pose proof (wf_namespaces w Hwf).
  by apply (wf_heap_ext w).
Qed.

Lemma wf_heap_newNode nodeClass attributes w node w' :
  Nodeset_newNode nodeClass attributes w = Ok (node, w') ->
  wf_heap w -> wf_heap w'.
Proof.
  intros (n & -> & Hb & Hn & Hr & Hc & Hsame & Hcl & Hext & _ & _ & Hh & Hnh)
    %Nodeset_newNode_Ok Hwf.
  destruct Hsame as (_ & Hns & Ht & Hf & Hs & _).
  assert (forall p, is_Some (World.nodeHeap w !! p) -> is_Some (World.nodeHeap w' !! p))
    as Hmono by (intros p ?; rewrite Hn; by apply lookup_insert_is_Some'; right).
  split; [..|by apply (wf_filed_mono w)| |];
    rewrite ?Hb, ?Hn, ?Hr, ?Hc, ?Hs, ?Hns, ?Ht; try apply Hwf.
  - apply (wf_refs_mono _ (World.brk w)); [lia | apply Hwf].
  - intros p n' [[<- <-]|[Hne Hp]]%lookup_insert_Some.
    + split; rewrite ?Hb, ?Hh, ?Hnh, ?Hcl; (lia || done).
    + apply (wf_node_mono w); [lia | by rewrite Hr | by apply Hwf].
  - rewrite <- Hn. eapply Forall_impl; [apply Hwf | apply Hmono].
Qed.

Lemma wf_heap_newReference node attributes w r w' :
  Nodeset_newReference node attributes w = Ok (r, w') ->
  wf_heap w -> wf_heap w'.
Proof.
  intros (s & refType & hier & n & _ & _ & _ & Hnode & -> & Hb & Hr & Hn & Hc & Hsame)
    %Nodeset_newReference_Ok Hwf.
  destruct Hsame as (_ & Hns & Ht & Hf & Hs & _).
  pose proof (wf_nodeHeap w Hwf node n Hnode) as Hwn.
  pose proof (wf_world_fresh_ref w Hwf) as Hfresh.
  assert (forall q, is_Some (World.refHeap w !! q) -> is_Some (World.refHeap w' !! q))
    as Hmono by (intros q ?; rewrite Hr; by apply lookup_insert_is_Some'; right).
  assert (forall p, is_Some (World.nodeHeap w !! p) -> is_Some (World.nodeHeap w' !! p))
    as Hmono' by (intros p ?; rewrite Hn; by apply lookup_insert_is_Some'; right).
  split; [..|by apply (wf_filed_mono w)| |];
    rewrite ?Hb, ?Hns, ?Ht, ?Hs; try apply Hwf.
  - rewrite Hr. apply wf_refs_alloc; [apply Hwf|]. by destruct hier; apply Hwn.
  - rewrite Hn. intros p n' [[<- <-]|[Hne Hp]]%lookup_insert_Some.
    + destruct Hwn. split; rewrite ?Hb; [lia | | | by destruct hier];
        destruct hier; cbn; try (intros q Hq; by apply Hmono; auto);
        intros q [= <-]; rewrite Hr, lookup_insert_eq; by eexists.
    + apply (wf_node_mono w); [lia | done | by apply Hwf].
  - intros q. rewrite Hc, Hr, elem_of_app, list_elem_of_singleton,
      lookup_insert_is_Some, (wf_counted w Hwf q).
    destruct (decide (World.brk w = q)) as [<-|]; [|naive_solver].
    rewrite Hfresh. naive_solver.
  - rewrite Hc. apply NoDup_app. split; [apply Hwf|]. split; [|apply NoDup_singleton].
    intros q Hq ->%list_elem_of_singleton.
    apply (wf_counted w Hwf) in Hq. rewrite Hfresh in Hq. by destruct Hq.
  - eapply Forall_impl; [apply Hwf | apply Hmono'].
Qed.

Lemma wf_heap_newReferenceFinish ref targetId w w' :
  Nodeset_newReferenceFinish ref targetId w = Ok w' -> wf_heap w -> wf_heap w'.
Proof.
  intros (rec & target & Href & _ & ->)%Nodeset_newReferenceFinish_Ok Hwf.
  split; cbn; try apply Hwf.
  - by apply (wf_refs_update _ _ _ rec); [apply Hwf | |].
  - intros p n Hp. apply (wf_node_mono w); [done | | by apply Hwf].
    intros q Hq. by apply lookup_insert_is_Some'; right.
  - intros q. rewrite lookup_insert_is_Some, (wf_counted w Hwf q).
    destruct (decide (ref = q)) as [<-|]; [|naive_solver].
    rewrite Href. naive_solver.
Qed.

(** The state after [Nodeset_newNodeFinish]: the node is with the
    sorter, and the table has grown by copies of a node. *)
Lemma Nodeset_newNodeFinish_state node w w' :
  Nodeset_newNodeFinish node w = Ok w' ->
  exists n k, World.nodeHeap w !! node = Some n /\
    w' = with_table (table_of w ++ replicate k n) (Sort_addNode node w).
Proof.
  intros (n & Hnode & Hs & Hrest)%Nodeset_newNodeFinish_Ok.
  case_decide.
  - apply addIfHierachicalReferenceType_Ok in Hrest as (n' & l & Hn' & _ & ->).
    destruct (promote_replicate n' l.*2 (table_of (Sort_addNode node w)))
      as (k & -> & _).
    by exists n', k.
  - subst w'. exists n, 0. rewrite app_nil_r. split; [done|].
    symmetry. apply (with_table_table_of (Sort_addNode node w)).
Qed.

Lemma wf_heap_newNodeFinish node w w' :
  Nodeset_newNodeFinish node w = Ok w' -> wf_heap w -> wf_heap w'.
Proof.
  intros (n & k & Hnode & ->)%Nodeset_newNodeFinish_state Hwf.
  split; cbn; try apply Hwf; [| |apply prefix_app_r, Hwf].
  - intros p n0 Hp. by apply (wf_node_mono w); [..|apply Hwf].
  - apply Forall_app. split; [apply Hwf | by apply Forall_singleton].
Qed.

End preservation.

(** ** The invariant holds while parsing *)

Lemma wf_heap_call w c w' : call w c = Ok w' -> wf_heap w -> wf_heap w'.
Proof.
  destruct c; simpl; intros Hrun Hwf.
  - injection Hrun as <-. by apply wf_heap_newNamespace.
  - by eapply wf_heap_newNamespaceFinish.
  - injection Hrun as <-. by apply wf_heap_newAlias.
  - by eapply wf_heap_newAliasFinish.
  - destruct (Nodeset_newNode _ _ _) as [[node w1]|] eqn:E; simplify_eq/=.
    by eapply wf_heap_newNode.
  - destruct (Nodeset_newReference _ _ _) as [[r w1]|] eqn:E; simplify_eq/=.
    by eapply wf_heap_newReference.
  - by eapply wf_heap_newReferenceFinish.
  - by eapply wf_heap_newNodeFinish.
Qed.

(** No event files a node. *)
Lemma call_containers w c w' :
  call w c = Ok w' -> forall cl, container_of w' cl = container_of w cl.
Proof.
  destruct c; simpl; intros Hrun cl; unfold container_of.
  - by injection Hrun as <-.
  - unfold Nodeset_newNamespaceFinish in Hrun. by res_inv.
  - injection Hrun as <-. unfold Nodeset_newAlias. by rewrite getAttributeValue_eq.
  - unfold Nodeset_newAliasFinish in Hrun. by res_inv.
  - destruct (Nodeset_newNode _ _ _) as [[node w1]|] eqn:E; simplify_eq/=.
    apply Nodeset_newNode_Ok in E as (n & _ & _ & _ & _ & _ & Hsame & _).
    destruct Hsame as (_ & _ & _ & Hf & _). by rewrite Hf.
  - destruct (Nodeset_newReference _ _ _) as [[r w1]|] eqn:E; simplify_eq/=.
    apply Nodeset_newReference_Ok
      in E as (s & refType & hier & n & _ & _ & _ & _ & _ & _ & _ & _ & _ & Hsame).
    destruct Hsame as (_ & _ & _ & Hf & _). by rewrite Hf.
  - by apply Nodeset_newReferenceFinish_Ok in Hrun as (rec & target & _ & _ & ->).
  - by apply Nodeset_newNodeFinish_state in Hrun as (n & k & _ & ->).
Qed.

Lemma wf_world_new nsCallback : wf_world (Nodeset_new nsCallback).
Proof. split; [apply wf_heap_new | done]. Qed.

Lemma wf_world_call w c w' : call w c = Ok w' -> wf_world w -> wf_world w'.
Proof.
  intros Hrun Hwf. split; [by eapply wf_heap_call, Hwf|].
  intros cl. rewrite (call_containers _ _ _ Hrun). apply Hwf.
Qed.

Lemma wf_world_newNode nodeClass attributes w node w' :
  Nodeset_newNode nodeClass attributes w = Ok (node, w') ->
  wf_world w -> wf_world w'.
Proof.
  intros Hrun. apply (wf_world_call w (CallNewNode nodeClass attributes)).
  simpl. by rewrite Hrun.
Qed.

Lemma wf_world_newReference node attributes w r w' :
  Nodeset_newReference node attributes w = Ok (r, w') ->
  wf_world w -> wf_world w'.
Proof.
  intros Hrun. apply (wf_world_call w (CallNewReference node attributes)).
  simpl. by rewrite Hrun.
Qed.

Lemma wf_world_newReferenceFinish ref targetId w w' :
  Nodeset_newReferenceFinish ref targetId w = Ok w' -> wf_world w -> wf_world w'.
Proof. apply (wf_world_call w (CallNewReferenceFinish ref targetId)). Qed.

Lemma wf_world_newNodeFinish node w w' :
  Nodeset_newNodeFinish node w = Ok w' -> wf_world w -> wf_world w'.
Proof. apply (wf_world_call w (CallNewNodeFinish node)). Qed.

(** C9. Every state the parser can drive the builder to is well formed. *)
Theorem reachable_wf w : reachable w -> wf_world w.
Proof.
  induction 1 as [cb | w c w' _ IH Hcall];
    [apply wf_world_new | by eapply wf_world_call].
Qed.

(** A run of events from a well-formed state ends in a well-formed state,
    and from a reachable state in a reachable one. *)
Lemma run_wf calls w w' : wf_world w -> run calls w = Ok w' -> wf_world w'.
Proof.
  intros Hwf. apply (res_fold_invariant call wf_world); [|done].
  intros s c s' _ Hs Hc. by eapply wf_world_call.
Qed.

Lemma run_reachable calls w w' : reachable w -> run calls w = Ok w' -> reachable w'.
Proof.
  intros Hr. apply (res_fold_invariant call reachable); [|done].
  intros s c s' _ Hs Hc. by eapply reachable_call.
Qed.

(** ** What the invariant gives *)

Section consequences.
Implicit Types (w : World) (p : ptr) (n : TNode) (rec : Reference).

Lemma wf_world_chain w head :
  wf_world w -> valid_head (World.refHeap w) head ->
  exists l, ref_chain (World.brk w) (World.refHeap w) head = Ok l.
Proof.
  intros Hwf Hhead.
  apply (ref_chain_total _ _ (World.brk w)); [apply Hwf | done |].
  intros r Hr. destruct (Hhead r Hr) as [rec Hrec].
  by apply (wf_refHeap w Hwf r rec).
Qed.

(** While a file is parsed, a reference goes to the hierarchical list
    exactly when its type is in the table or is not of namespace 0: no
    reference type of another namespace is known before the nodes are
    filed. *)
Theorem parsing_classification w rec :
  wf_world w ->
  goes_hierachical w rec =
    Ok (bool_decide (Reference.refType rec ∈ table_ids w) ||
        negb (TNodeId.nsIdx (Reference.refType rec) =? 0)%Z).
Proof. intros Hwf. apply goes_hierachical_parsing, (wf_unfiled w Hwf). Qed.

(** The addresses of the references of a list, from its head. *)
Definition refs_of w (head : option ptr) : list ptr :=
  match ref_chain (World.brk w) (World.refHeap w) head with
  | Ok l => l.*1
  | Trap _ => []
  end.

Lemma refs_of_alloc w w' rec head :
  wf_world w -> valid_head (World.refHeap w) head ->
  World.brk w' = S (World.brk w) ->
  World.refHeap w' = <[World.brk w := rec]> (World.refHeap w) ->
  refs_of w' head = refs_of w head.
Proof.
  intros Hwf Hhead Hb Hr. unfold refs_of. rewrite Hb, Hr.
  rewrite ref_chain_alloc by (done || apply Hwf).
  destruct (wf_world_chain w head Hwf Hhead) as [l Hl].
  by rewrite Hl, (ref_chain_fuel_mono (World.brk w) (S (World.brk w)) _ _ l) by (done || lia).
Qed.

(** C16. P3: in a well-formed state, a new reference joins exactly one of the
    two lists of its node, at the head; the references each list held stay
    in it, in their order. *)
Theorem Nodeset_newReference_one_list w node attributes r w' n :
  wf_world w -> World.nodeHeap w !! node = Some n ->
  Nodeset_newReference node attributes w = Ok (r, w') ->
  exists n' hier, World.nodeHeap w' !! node = Some n' /\
    refs_of w' (head_of hier n') = r :: refs_of w (head_of hier n) /\
    refs_of w' (head_of (negb hier) n') = refs_of w (head_of (negb hier) n) /\
    r ∉ refs_of w (TNode.hierachicalRefs n) ++ refs_of w (TNode.nonHierachicalRefs n).
Proof.
  intros Hwf Hn (s & ty & hier & n0 & _ & _ & _ & Hn0 & -> & Hb & Hr & Hh & _)
    %Nodeset_newReference_Ok.
  rewrite Hn in Hn0. injection Hn0 as <-.
  destruct (wf_nodeHeap w Hwf node n Hn) as [_ Hvh Hvn _].
  assert (valid_head (World.refHeap w) (head_of hier n) /\
          valid_head (World.refHeap w) (head_of (negb hier) n)) as [Hv Hv'].
  { by destruct hier. }
  exists (link hier (World.brk w) n), hier.
  split; [by rewrite Hh, lookup_insert_eq|]. split; [|split].
  - replace (head_of hier (link hier (World.brk w) n)) with (Some (World.brk w))
      by (by destruct hier).
    destruct (wf_world_chain w (head_of hier n) Hwf Hv) as [l Hl].
    unfold refs_of. rewrite Hl, Hb.
    erewrite ref_chain_cons by (rewrite Hr; apply lookup_insert_eq).
    rewrite Hr, ref_chain_alloc by (done || apply Hwf). cbn [Reference.next].
    by rewrite Hl.
  - replace (head_of (negb hier) (link hier (World.brk w) n))
      with (head_of (negb hier) n) by (by destruct hier).
    by eapply refs_of_alloc.
  - assert (forall head, World.brk w ∉ refs_of w head) as Hfresh; [|set_solver].
    intros head. unfold refs_of.
    destruct (ref_chain _ _ head) as [l|] eqn:Hl; [|apply not_elem_of_nil].
    intros (x & Hx & Hin)%list_elem_of_fmap.
    apply ref_chain_lookup in Hl. rewrite Forall_forall in Hl.
    specialize (Hl x Hin). rewrite <- Hx, (wf_world_fresh_ref w Hwf) in Hl. done.
Qed.

End consequences.

(** ** Cleanup after an emission *)

Section cleanup.
Context `{Sorter}.
Implicit Types (w : World) (p : ptr).

(** After an emission the cleanup runs, frees every reference, and of the
    nodes exactly the finished ones. *)
Lemma cleanup_after_emission w w' :
  wf_world w -> NoDup (World.sortNodes w) ->
  Nodeset_getSortedNodes w = Ok (true, w') ->
  exists w'', Nodeset_cleanup w' = Ok w'' /\ World.refHeap w'' = ∅ /\
    World.nodeHeap w'' =
      filter (fun kv => kv.1 ∉ World.sortNodes w) (World.nodeHeap w).
Proof.
  intros Hwf Hnd Hrun.
  destruct (filed_emitted w w' (wf_unfiled w Hwf) Hrun) as (Hperm & Hn & Hr & Hc).
  destruct (Nodeset_cleanup_run w') as (w'' & Hrun' & Hrefs & Hnodes).
  - rewrite Hc. apply Hwf.
  - intros r. rewrite Hc, Hr. apply Hwf.
  - by rewrite Hperm.
  - rewrite Hperm, Hn. apply Hwf.
  - exists w''. split; [done|]. split; [done|]. rewrite Hnodes, Hn.
    apply map_filter_ext. intros p n _. cbn. by rewrite Hperm.
Qed.

(** P6 after an emission: when each node was finished once and
    [Nodeset_getSortedNodes] returned true, [Nodeset_cleanup] frees every
    reference and exactly the finished nodes; a node that was created and
    never finished stays allocated. *)
Theorem Nodeset_cleanup_emitted w w' :
  wf_world w -> NoDup (World.sortNodes w) ->
  Nodeset_getSortedNodes w = Ok (true, w') ->
  exists w'', Nodeset_cleanup w' = Ok w'' /\
    World.refHeap w'' = ∅ /\
    forall p, World.nodeHeap w'' !! p =
              if decide (p ∈ World.sortNodes w) then None else World.nodeHeap w !! p.
Proof.
  intros Hwf Hnd Hrun.
  destruct (cleanup_after_emission w w' Hwf Hnd Hrun) as (w'' & Hrun' & Hrefs & Hnodes).
  exists w''. split; [done|]. split; [done|]. intros p.
  rewrite Hnodes. apply option_eq. intros n.
  rewrite map_lookup_filter_Some. cbn. case_decide; naive_solver.
Qed.

End cleanup.
