(* ===== verification/Stored.v ===== *)
(** * Judgements on the stored values

    Several properties of the builder have one shape: every namespace
    index the builder stores (in a node id, in a browse name, in a cell of
    the namespace table) is of a certain kind, and the decoders only
    return indices of that kind.  The class [Judgement] states what such a
    kind has to satisfy: it may depend on the calls made to the host so
    far, it holds of namespace 0 and of what the two decoders return
    against a table whose cells are of the kind, and the cell written when
    a namespace is declared is of the kind.  For any such judgement, every
    state the parser can drive the builder to stores values of the kind
    only ([reachable_stored]).  [Translated] gives the instance the data
    model of the specification asks for. *)

From stdpp Require Import gmap.
From S2P Require Import Prelude CString Model Namespace Attributes Alias Classifier.
From S2P Require Import Sorter Builder Emit Machine.

(** ** The interface *)

Class Judgement : Type := {
  good_id : list Event -> TNodeId -> Prop;
  good_name : list Event -> TBrowseName -> Prop;
  good_cell : list Event -> TNamespace -> Prop;
  (** what holds stays true when the host is called again *)
  good_id_mono t t' id : good_id t id -> good_id (t ++ t') id;
  good_name_mono t t' bn : good_name t bn -> good_name (t ++ t') bn;
  good_cell_mono t t' ns : good_cell t ns -> good_cell (t ++ t') ns;
  (** namespace 0, and a cell whose index is not set *)
  good_id_zero t id : good_id t (TNodeId.mk 0 id);
  good_name_zero t name : good_name t (TBrowseName.mk 0 name);
  good_cell_zero t uri : good_cell t (TNamespace.mk (Some 0%Z) uri);
  good_cell_unset t uri : good_cell t (TNamespace.mk None uri);
  (** the cell written with the index the host has just returned *)
  good_cell_host t uri uri' g :
    in_int g = true ->
    good_cell (t ++ [CbAddNamespace uri g]) (TNamespace.mk (Some (to_size_t g)) uri');
  (** the decoders, against a table of good cells *)
  good_extractNodedId t namespaces s id :
    Forall (good_cell t) namespaces ->
    extractNodedId namespaces s = Ok id -> good_id t id;
  good_extractBrowseName t namespaces s bn :
    Forall (good_cell t) namespaces ->
    extractBrowseName namespaces s = Ok bn -> good_name t bn;
}.

(** ** The judgement on records and on the state *)

Section stored.
Context `{Judgement}.
Implicit Types (t : list Event) (w : World) (n : TNode) (c : Call).

(** The node ids among the fields a class adds. *)
Definition good_ext t (e : NodeExt) : Prop :=
  match e with
  | TObjectNode parentNodeId _ => good_id t parentNodeId
  | TVariableNode parentNodeId datatype _ _ _ _ _ =>
      good_id t parentNodeId /\ good_id t datatype
  | TVariableTypeNode _ datatype _ _ => good_id t datatype
  | TMethodNode parentNodeId _ _ => good_id t parentNodeId
  | TObjectTypeNode _ | TDataTypeNode | TReferenceTypeNode _ => True
  end.

(** A node: its id, its browse name, the ids of its class, and the struct
    of its class behind it. *)
Record good_node t n : Prop := {
  good_node_id : good_id t (TNode.id n);
  good_node_browseName : good_name t (TNode.browseName n);
  good_node_ext : good_ext t (TNode.ext n);
  good_node_class : ext_class (TNode.ext n) = TNode.nodeClass n;
}.

(** A reference: its type, and its target once it has been stored. *)
Definition good_reference t (r : Reference) : Prop :=
  good_id t (Reference.refType r) /\
  forall target, Reference.target r = Some target -> good_id t target.

Definition good_alias t (a : Alias) : Prop := good_id t (Alias.id a).

(** The state, judged against the calls of its trace. *)
Record stored_world w : Prop := {
  stored_nodeHeap : map_Forall (fun _ => good_node (World.trace w)) (World.nodeHeap w);
  stored_refHeap :
    map_Forall (fun _ => good_reference (World.trace w)) (World.refHeap w);
  stored_aliases : Forall (good_alias (World.trace w)) (aliases_of w);
  stored_namespaces : Forall (good_cell (World.trace w)) (namespaces_of w);
  stored_table : Forall (good_node (World.trace w)) (table_of w);
}.

(** ** Monotonicity *)

Lemma good_ext_mono t t' e : good_ext t e -> good_ext (t ++ t') e.
Proof. destruct e; cbn; intuition auto using good_id_mono. Qed.

Lemma good_node_mono t t' n : good_node t n -> good_node (t ++ t') n.
Proof.
  intros []. split; auto using good_id_mono, good_name_mono, good_ext_mono.
Qed.

Lemma good_reference_mono t t' r : good_reference t r -> good_reference (t ++ t') r.
Proof. intros [Hty Htg]. split; [|intros target Ht]; auto using good_id_mono. Qed.

(** ** The decoders *)

Lemma alias2Id_good t w s id :
  Forall (good_alias t) (aliases_of w) -> Forall (good_cell t) (namespaces_of w) ->
  alias2Id w s = Ok id -> good_id t id.
Proof.
  intros Hall Hns. unfold alias2Id. fold (aliases_of w).
  destruct (AliasList_getNodeId _ _) as [a|] eqn:E;
    [|by apply good_extractNodedId].
  intros [= <-]. induction Hall as [|b l Hb _ IH]; [done|]. cbn in E.
  destruct (alias_matches s b); [by injection E as <- | by apply IH].
Qed.

Lemma extractAttributes_ext_good t cl attributes w ext w' :
  Forall (good_alias t) (aliases_of w) -> Forall (good_cell t) (namespaces_of w) ->
  extractAttributes_ext cl attributes w = Ok (ext, w') -> good_ext t ext.
Proof.
  intros Hall Hns Hrun. unfold extractAttributes_ext in Hrun.
  destruct cl; attr_inv; cbn; repeat split;
    first [ done | by eapply good_extractNodedId
          | by eapply (alias2Id_good t w); [exact Hall | exact Hns | eassumption] ].
Qed.

(** ** Every event keeps the judgement *)

Lemma stored_world_new nsCallback : stored_world (Nodeset_new nsCallback).
Proof.
  split; cbn; [apply map_Forall_empty.. | constructor | |].
  - apply Forall_singleton, good_cell_zero.
  - apply Forall_forall. intros n Hn.
    repeat (apply elem_of_cons in Hn as [->|Hn]);
      [split; cbn; auto using good_id_zero, good_name_zero.. | by apply elem_of_nil in Hn].
Qed.

(** Linking a reference changes no judged field of the node. *)
Lemma good_node_link t hier r n : good_node t n -> good_node t (link hier r n).
Proof. intros []. by destruct hier. Qed.

Lemma stored_world_newNamespaceFinish namespaceUri w w' :
  stored_world w -> Nodeset_newNamespaceFinish namespaceUri w = Ok w' ->
  stored_world w'.
Proof.
  unfold Nodeset_newNamespaceFinish. intros Hs Hrun. res_inv. split; cbn.
  - eapply map_Forall_impl; [apply Hs|]. intros p n. apply good_node_mono.
  - eapply map_Forall_impl; [apply Hs|]. intros p r. apply good_reference_mono.
  - eapply Forall_impl; [apply Hs|]. intros a. apply good_id_mono.
  - apply Forall_insert; [|apply good_cell_host, to_int_range].
    eapply Forall_impl; [apply Hs|]. intros ns. apply good_cell_mono.
  - eapply Forall_impl; [apply Hs|]. intros n. apply good_node_mono.
Qed.

Lemma stored_world_newNode nodeClass attributes w node w' :
  stored_world w -> Nodeset_newNode nodeClass attributes w = Ok (node, w') ->
  stored_world w'.
Proof.
  intros Hs Hrun.
  destruct (Nodeset_newNode_ext _ _ _ _ _ Hrun)
    as (n' & w1 & w2 & Hn' & Hext & Ha & Hns1 & _).
  apply Nodeset_newNode_Ok in Hrun
    as (n & -> & _ & Hn & Hr & _ & Hsame & Hcl & Hec & Hid & Hbn & _).
  rewrite Hn, lookup_insert_eq in Hn'. injection Hn' as <-.
  destruct Hsame as (Hal & Hns & Htb & _ & _ & Htr).
  split; rewrite ?Htr, ?Hn, ?Hr, ?Hal, ?Hns, ?Htb; try apply Hs.
  apply map_Forall_insert_2; [|apply Hs]. split.
  - eapply good_extractNodedId; [apply Hs | done].
  - eapply good_extractBrowseName; [apply Hs | done].
  - eapply extractAttributes_ext_good; [| |exact Hext];
      rewrite ?Ha, ?Hns1; apply Hs.
  - by rewrite Hcl.
Qed.

Lemma stored_world_newReference node attributes w r w' :
  stored_world w -> Nodeset_newReference node attributes w = Ok (r, w') ->
  stored_world w'.
Proof.
  intros Hs (s & refType & hier & n & _ & Hty & _ & Hnode & _ & _ & Hr & Hn & _ & Hsame)
    %Nodeset_newReference_Ok.
  destruct Hsame as (Hal & Hns & Htb & _ & _ & Htr).
  split; rewrite ?Htr, ?Hn, ?Hr, ?Hal, ?Hns, ?Htb; try apply Hs.
  - apply map_Forall_insert_2; [|apply Hs].
    by apply good_node_link, (stored_nodeHeap w Hs node).
  - apply map_Forall_insert_2; [|apply Hs]. split; [|done].
    eapply alias2Id_good; [apply Hs.. | exact Hty].
Qed.

Lemma stored_world_newNodeFinish node w w' :
  stored_world w -> Nodeset_newNodeFinish node w = Ok w' -> stored_world w'.
Proof.
  intros Hs (n & k & Hnode & ->)%Nodeset_newNodeFinish_state.
  split; cbn; try apply Hs. apply Forall_app. split; [apply Hs|].
  by apply Forall_replicate, (stored_nodeHeap w Hs node).
Qed.

Lemma stored_world_call w c w' : stored_world w -> call w c = Ok w' -> stored_world w'.
Proof.
  intros Hs. destruct c; simpl; intros Hrun.
  - injection Hrun as <-. split; cbn; try apply Hs.
    apply Forall_app. split; [apply Hs | apply Forall_singleton, good_cell_unset].
  - by eapply stored_world_newNamespaceFinish.
  - injection Hrun as <-. unfold Nodeset_newAlias. rewrite getAttributeValue_eq.
    split; cbn; try apply Hs.
    apply Forall_app. split; [apply Hs | apply Forall_singleton, good_id_zero].
  - unfold Nodeset_newAliasFinish in Hrun. res_inv.
    split; cbn; try apply Hs. apply Forall_insert; [apply Hs|].
    eapply good_extractNodedId; [apply Hs | done].
  - destruct (Nodeset_newNode _ _ _) as [[node w1]|] eqn:E; simplify_eq/=.
    by eapply stored_world_newNode.
  - destruct (Nodeset_newReference _ _ _) as [[r w1]|] eqn:E; simplify_eq/=.
    by eapply stored_world_newReference.
  - apply Nodeset_newReferenceFinish_Ok in Hrun as (rec & target & Href & Htg & ->).
    split; cbn; try apply Hs. apply map_Forall_insert_2; [|apply Hs].
    destruct (stored_refHeap w Hs ref rec Href) as [Hty _]. split; [done|].
    intros ? [= <-]. eapply good_extractNodedId; [apply Hs | done].
  - by eapply stored_world_newNodeFinish.
Qed.

(** Whatever the judgement, every state the parser can drive the builder
    to stores good values only. *)
Lemma reachable_stored w : reachable w -> stored_world w.
Proof.
  induction 1 as [cb | w c w' _ IH Hcall];
    [apply stored_world_new | by eapply stored_world_call].
Qed.

End stored.
