(* ===== verification/Translated.v ===== *)
(** * Every stored namespace index is a translated one

    A file numbers its namespaces itself; the host numbers them otherwise,
    and tells the builder its number for a URI when the URI is declared
    ([Nodeset_newNamespaceFinish]).  This file shows the first two
    invariants of the data model: whatever the builder stores has been
    translated.  A positive namespace index of a node id (of a node, of a
    reference type, of a target, of an alias, of a parent or a data type) is
    a number the host's callback has returned in this load; the index of a
    browse name is 0 or such a number cut to 16 bits; a cell of the
    namespace table holds 0, nothing yet, or such a number.  The judgement
    reads the numbers the host returned off the trace, so it is an instance
    of [Judgement] that depends on the calls made so far.

    A namespace index that is not positive is outside the invariant: the
    code translates [0 < nsIdx] only, so the text "ns=-5;i=1" is stored with
    the index -5 as it stands. *)

From Stdlib Require Import Ascii String.
From stdpp Require Import strings gmap.
From S2P Require Import Prelude CString Model Namespace Attributes Alias Classifier.
From S2P Require Import Sorter Builder Emit Machine Stored.

(** ** The judgement *)

(** The numbers the host has returned for the namespaces declared so far,
    in the order of the declarations. *)
Definition host_indices (t : list Event) : list Z :=
  omap (fun e => match e with CbAddNamespace _ g => Some g | _ => None end) t.

Definition translated_id (t : list Event) (id : TNodeId) : Prop :=
  (TNodeId.nsIdx id <= 0)%Z \/ TNodeId.nsIdx id ∈ host_indices t.

Definition translated_browseName (t : list Event) (bn : TBrowseName) : Prop :=
  TBrowseName.nsIdx bn = 0%Z \/
  exists g, g ∈ host_indices t /\ TBrowseName.nsIdx bn = to_uint16 (to_size_t g).

(** A cell holds the number of namespace 0, or an [int] the host returned,
    stored as a [size_t]. *)
Definition translated_namespace (t : list Event) (ns : TNamespace) : Prop :=
  forall idx, TNamespace.idx ns = Some idx ->
    idx = 0%Z \/
    exists g, g ∈ host_indices t /\ in_int g = true /\ idx = to_size_t g.

(** ** Its laws *)

Section laws.
Implicit Types (t : list Event) (namespaces : list TNamespace) (s : cstr).

Lemma host_indices_app t t' : host_indices (t ++ t') = host_indices t ++ host_indices t'.
Proof. apply omap_app. Qed.

Lemma elem_of_host_indices_app t t' g : g ∈ host_indices t -> g ∈ host_indices (t ++ t').
Proof. rewrite host_indices_app. set_solver. Qed.

Lemma translated_id_mono t t' id : translated_id t id -> translated_id (t ++ t') id.
Proof. intros [?|?]; [by left | right; by apply elem_of_host_indices_app]. Qed.

Lemma translated_browseName_mono t t' bn :
  translated_browseName t bn -> translated_browseName (t ++ t') bn.
Proof.
  intros [?|(g & Hg & ?)]; [by left|].
  right. exists g. split; [by apply elem_of_host_indices_app | done].
Qed.

Lemma translated_namespace_mono t t' ns :
  translated_namespace t ns -> translated_namespace (t ++ t') ns.
Proof.
  intros Hns idx [?|(g & Hg & ?)]%Hns; [by left|].
  right. exists g. split; [by apply elem_of_host_indices_app | done].
Qed.

Lemma translated_id_zero t id : translated_id t (TNodeId.mk 0 id).
Proof. by left. Qed.

Lemma translated_browseName_zero t name : translated_browseName t (TBrowseName.mk 0 name).
Proof. by left. Qed.

Lemma translated_namespace_zero t uri : translated_namespace t (TNamespace.mk (Some 0%Z) uri).
Proof. intros ? [= <-]. by left. Qed.

Lemma translated_namespace_unset t uri : translated_namespace t (TNamespace.mk None uri).
Proof. by intros ? [=]. Qed.

Lemma translated_namespace_host t uri uri' g :
  in_int g = true ->
  translated_namespace (t ++ [CbAddNamespace uri g]) (TNamespace.mk (Some (to_size_t g)) uri').
Proof.
  intros Hg ? [= <-]. right. exists g. split; [|done].
  rewrite host_indices_app. set_solver.
Qed.

(** What a lookup of the table returns is the index of one of its cells. *)
Lemma ns_at_translated t namespaces k n g :
  Forall (translated_namespace t) namespaces ->
  ns_at namespaces k = Ok n -> TNamespace.idx n = Some g ->
  g = 0%Z \/ exists h, h ∈ host_indices t /\ in_int h = true /\ g = to_size_t h.
Proof.
  intros Hall [_ Hn%list_elem_of_lookup_2]%ns_at_Ok Hg.
  rewrite Forall_forall in Hall. by eapply Hall.
Qed.

Ltac lookup_translated t Hall :=
  match goal with
  | Hn : ns_at _ _ = Ok ?n, Hg : TNamespace.idx ?n = Some _ |- _ =>
      destruct (ns_at_translated t _ _ _ _ Hall Hn Hg) as [->|(h & Hh & Hint & ->)]
  end.

(** Translation leaves an index that is not positive as it is, and
    replaces a positive one by a number of the host. *)
Lemma translateNodeId_translated t namespaces id id' :
  Forall (translated_namespace t) namespaces ->
  translateNodeId namespaces id = Ok id' -> translated_id t id'.
Proof.
  intros Hall. unfold translateNodeId.
  destruct (Z.ltb_spec 0 (TNodeId.nsIdx id)); [|intros [= <-]; by left].
  intros Hrun. res_inv. lookup_translated t Hall;
    [by left | right; cbn; by rewrite to_int_to_size_t].
Qed.

Lemma translateBrowseName_translated t namespaces bn bn' :
  Forall (translated_namespace t) namespaces ->
  translateBrowseName namespaces bn = Ok bn' ->
  (0 <= TBrowseName.nsIdx bn)%Z -> translated_browseName t bn'.
Proof.
  intros Hall. unfold translateBrowseName.
  destruct (Z.ltb_spec 0 (TBrowseName.nsIdx bn)); [|intros [= <-] ?; left; lia].
  intros Hrun _. res_inv. lookup_translated t Hall; [by left | right; by exists h].
Qed.

(** An id [extractNodedId] returns is in namespace 0, carries the index the
    text gave when that is not positive, or carries a number of the host. *)
Lemma extractNodedId_translated t namespaces s id :
  Forall (translated_namespace t) namespaces ->
  extractNodedId namespaces s = Ok id -> translated_id t id.
Proof.
  intros Hall. unfold extractNodedId. destruct s as [s|]; [|by intros [= <-]; left].
  destruct (strchr s ";"); [|by intros [= <-]; left].
  intros Hrun. res_inv. by eapply translateNodeId_translated.
Qed.

Lemma extractBrowseName_translated t namespaces s bn :
  Forall (translated_namespace t) namespaces ->
  extractBrowseName namespaces s = Ok bn -> translated_browseName t bn.
Proof.
  intros Hall. unfold extractBrowseName. intros Hrun. res_inv.
  destruct (strchr _ ":"); [|injection Hrun as <-; by left].
  res_inv. eapply translateBrowseName_translated; [done..|]. apply to_uint16_range.
Qed.

End laws.

#[export] Instance translation : Judgement := {|
  good_id := translated_id;
  good_name := translated_browseName;
  good_cell := translated_namespace;
  good_id_mono := translated_id_mono;
  good_name_mono := translated_browseName_mono;
  good_cell_mono := translated_namespace_mono;
  good_id_zero := translated_id_zero;
  good_name_zero := translated_browseName_zero;
  good_cell_zero := translated_namespace_zero;
  good_cell_unset := translated_namespace_unset;
  good_cell_host := translated_namespace_host;
  good_extractNodedId := extractNodedId_translated;
  good_extractBrowseName := extractBrowseName_translated;
|}.

(** The state stores translated indices only. *)
Definition translated_world : World -> Prop := @stored_world translation.

(** C11. Invariants 1 and 2 of the data model: in every state the parser
    can drive the builder to, each positive namespace index of a stored node
    id (the id of a node, the type and the target of a reference, the id of
    an alias, a parent or a data type, the id of a hierarchical reference
    type) is a number the host's callback has returned for a namespace
    declared in this load; each browse name is in namespace 0 or in such a
    number cut to 16 bits; each cell of the namespace table holds 0,
    nothing yet, or such a number. *)
Theorem reachable_translated w : reachable w -> translated_world w.
Proof. apply (@reachable_stored translation). Qed.
