(* ===== verification/Arena.v ===== *)
(** * The character arena

    [getAttributeValue] copies the value of an attribute into a block of
    the arena and returns the block; the decoders return pointers into the
    text they are given.  This file follows the strings: which blocks a new
    node takes from the arena, and where each string field of a node
    points (P4 of the specification): into a block of the arena, or into a
    string constant of the code when the attribute was absent and its
    descriptor has a default. *)

From Stdlib Require Import Ascii String.
From stdpp Require Import strings gmap.
From S2P Require Import Prelude CString Model Namespace Attributes Alias Classifier.
From S2P Require Import Sorter Builder Emit Machine.

(** ** Pointers into a string *)

(** [t] is [s] from some position on: a pointer into the array [s]. *)
Definition tail_of (t s : string) : Prop := exists pre, s = pre +:+ t.

(** The string a pointer points into is one of [blocks]; NULL points
    nowhere. *)
Definition points_into (blocks : list string) (p : cstr) : Prop :=
  forall t, p = Some t -> exists b, b ∈ blocks /\ tail_of t b.

Section tail_of.
Implicit Types (s t u : string) (blocks : list string) (p : cstr).

Lemma tail_of_refl s : tail_of s s.
Proof. by exists "". Qed.

Lemma tail_of_String a s : tail_of s (String a s).
Proof. by exists (String a ""). Qed.

Lemma tail_of_trans t s u : tail_of t s -> tail_of s u -> tail_of t u.
Proof.
  intros [pre ->] [pre' ->]. exists (pre' +:+ pre).
  induction pre' as [|a pre' IH]; [done|]. rewrite !app_String. by f_equal.
Qed.

Lemma strchr_tail s c t : strchr s c = Some t -> tail_of t s.
Proof. intros (pre & rest & -> & -> & _)%strchr_Some. by exists pre. Qed.

Lemma str_offset_tail s n t : str_offset s n = Ok t -> tail_of t s.
Proof.
  revert s. induction n as [|n IH]; intros s; simpl.
  - intros [= <-]. apply tail_of_refl.
  - destruct s as [|a s]; [done|]. intros Ht%IH.
    eapply tail_of_trans; [exact Ht | apply tail_of_String].
Qed.

Lemma points_into_NULL blocks : points_into blocks None.
Proof. by intros t. Qed.

Lemma points_into_block blocks s : s ∈ blocks -> points_into blocks (Some s).
Proof. intros Hs t [= <-]. exists s. split; [done | apply tail_of_refl]. Qed.

Lemma points_into_mono blocks blocks' p :
  blocks ⊆ blocks' -> points_into blocks p -> points_into blocks' p.
Proof. intros Hsub Hp t Ht. destruct (Hp t Ht) as (b & Hb & Htl). eauto. Qed.

(** A pointer into a string that points into [blocks] points into
    [blocks]. *)
Lemma points_into_tail blocks s t :
  points_into blocks (Some s) -> tail_of t s -> points_into blocks (Some t).
Proof.
  intros Hs Htl t' [= <-]. destruct (Hs s eq_refl) as (b & Hb & Hsb).
  exists b. split; [done | by eapply tail_of_trans].
Qed.

End tail_of.

(** ** What the decoders return *)

Section decoders.
Implicit Types (namespaces : list TNamespace) (s : cstr) (blocks : list string).

(** The identifier of a decoded node id points into the text decoded:
    at its start, or behind its first semicolon. *)
Lemma extractNodedId_points_into namespaces blocks s id :
  points_into blocks s -> extractNodedId namespaces s = Ok id ->
  points_into blocks (TNodeId.id id).
Proof.
  unfold extractNodedId. destruct s as [s|]; [|by intros _ [= <-]].
  destruct (strchr s ";") as [idxSemi|] eqn:E; [|by intros ? [= <-]].
  intros Hs H. res_inv. unfold translateNodeId in H. cbn in H.
  assert (points_into blocks (Some x1)) as Hrest.
  { apply (points_into_tail blocks s); [done|].
    eapply tail_of_trans; [by eapply str_offset_tail | by eapply strchr_tail]. }
  by destruct (0 <? _)%Z; res_inv.
Qed.

Lemma extractBrowseName_points_into namespaces blocks s bn :
  points_into blocks s -> extractBrowseName namespaces s = Ok bn ->
  points_into blocks (TBrowseName.name bn).
Proof.
  unfold extractBrowseName. intros Hs H. res_inv.
  destruct (strchr _ ":") as [bnName|] eqn:E; [|by injection H as <-].
  res_inv. unfold translateBrowseName in H. cbn in H.
  assert (points_into blocks (Some x1)) as Hrest.
  { eapply points_into_tail; [done|].
    eapply tail_of_trans; [by eapply str_offset_tail | by eapply strchr_tail]. }
  by destruct (0 <? _)%Z; res_inv.
Qed.

End decoders.

(** ** The blocks a node takes *)

(** The attributes [extractAttributes] reads for a class, in the order it
    reads them. *)
Definition class_attributes (c : TNodeClass) : list NodeAttribute :=
  match c with
  | NODECLASS_OBJECTTYPE => [attrIsAbstract]
  | NODECLASS_OBJECT => [attrParentNodeId; attrEventNotifier]
  | NODECLASS_VARIABLE =>
      [attrParentNodeId; attrDataType; attrValueRank; attrArrayDimensions;
       attrAccessLevel; attrUserAccessLevel]
  | NODECLASS_VARIABLETYPE =>
      [attrValueRank; attrDataType; attrArrayDimensions; attrIsAbstract]
  | NODECLASS_DATATYPE => []
  | NODECLASS_METHOD => [attrParentNodeId; attrExecutable; attrUserExecutable]
  | NODECLASS_REFERENCETYPE => [attrSymmetric]
  end.

Definition node_attributes (c : TNodeClass) : list NodeAttribute :=
  attrNodeId :: attrBrowseName :: class_attributes c.

(** The blocks the arena hands out for the attributes [attrs] of a start
    tag: one per attribute that is present, none for an absent one. *)
Definition blocks_of (attrs : list NodeAttribute) (attributes : list XmlAttr)
  : list string :=
  attrs ≫= (fun attr => attr_blocks attr attributes).

(** The string constants of the code a field may point to: the defaults of
    the descriptors. *)
Definition literals : list string :=
  omap NodeAttribute.defaultValue
    [attrNodeId; attrBrowseName; attrParentNodeId; attrEventNotifier;
     attrDataType; attrValueRank; attrArrayDimensions; attrIsAbstract;
     attrIsForward; attrReferenceType; attrAlias; attrExecutable;
     attrUserExecutable; attrAccessLevel; attrUserAccessLevel; attrSymmetric].

(** The strings of the fields a class adds; the data type of a variable is
    a node id resolved through the alias list and is followed apart. *)
Definition ext_strings (e : NodeExt) : list cstr :=
  match e with
  | TObjectTypeNode isAbstract => [isAbstract]
  | TObjectNode parentNodeId eventNotifier =>
      [TNodeId.id parentNodeId; eventNotifier]
  | TVariableNode parentNodeId _ valueRank arrayDimensions accessLevel
      userAccessLevel _ =>
      [TNodeId.id parentNodeId; valueRank; arrayDimensions; accessLevel;
       userAccessLevel]
  | TVariableTypeNode valueRank _ arrayDimensions isAbstract =>
      [valueRank; arrayDimensions; isAbstract]
  | TDataTypeNode => []
  | TMethodNode parentNodeId executable userExecutable =>
      [TNodeId.id parentNodeId; executable; userExecutable]
  | TReferenceTypeNode symmetric => [symmetric]
  end.

Definition node_strings (n : TNode) : list cstr :=
  [TNodeId.id (TNode.id n); TBrowseName.name (TNode.browseName n);
   TNode.displayName n; TNode.description n; TNode.writeMask n]
  ++ ext_strings (TNode.ext n).

Section blocks.
Implicit Types (w : World) (attr : NodeAttribute) (attributes : list XmlAttr).
Implicit Types (blocks : list string) (c : TNodeClass).

(** The value read for an attribute is the block copied for it, or the
    default of its descriptor, or NULL. *)
Lemma attr_value_points_into attr attributes blocks :
  attr_blocks attr attributes ⊆ blocks ->
  (forall d, NodeAttribute.defaultValue attr = Some d -> d ∈ blocks) ->
  points_into blocks (attr_value attr attributes).
Proof.
  unfold attr_blocks, attr_value. destruct (find_attribute _ _) as [v|].
  - intros Hsub _. apply points_into_block. set_solver.
  - intros _ Hd. destruct (NodeAttribute.defaultValue attr) as [d|];
      [apply points_into_block; auto | apply points_into_NULL].
Qed.

(** The arena after the class-specific attributes have been read. *)
Lemma extractAttributes_ext_arena c attributes w ext w' :
  extractAttributes_ext c attributes w = Ok (ext, w') ->
  arena_of w' = arena_of w ++ blocks_of (class_attributes c) attributes.
Proof.
  intros H. unfold extractAttributes_ext in H.
  destruct c; attr_inv; cbn; rewrite <- ?app_assoc, ?app_nil_r; done.
Qed.

(** The blocks a new node has taken from the arena: one for each of the
    attributes of its class that the start tag carries, in the order the
    code reads them. *)
Lemma Nodeset_newNode_arena c attributes w node w' :
  Nodeset_newNode c attributes w = Ok (node, w') ->
  arena_of w' = arena_of w ++ blocks_of (node_attributes c) attributes.
Proof.
  intros H. newNode_inv H w.
  match goal with Hx : extractAttributes_ext _ _ _ = Ok _ |- _ =>
    apply extractAttributes_ext_arena in Hx; unfold arena_of in *; cbn in Hx |- *;
    rewrite Hx end.
  unfold blocks_of. cbn. by rewrite <- !app_assoc.
Qed.

End blocks.

(** ** Where the strings of a node point *)

Section strings.
Implicit Types (w : World) (n : TNode) (c : TNodeClass).
Implicit Types (attributes : list XmlAttr) (blocks : list string).

(** One field: the value of an attribute, or the identifier of a node id
    decoded from it. *)
Ltac arena_field :=
  first
    [ apply attr_value_points_into;
        [set_solver | intros ? [= <-]; unfold literals; cbn; set_solver]
    | eapply extractNodedId_points_into; [|eassumption]; arena_field
    | eapply extractBrowseName_points_into; [|eassumption]; arena_field ].

Lemma extractAttributes_ext_strings c attributes w ext w' :
  extractAttributes_ext c attributes w = Ok (ext, w') ->
  Forall (points_into (blocks_of (class_attributes c) attributes ++ literals))
    (ext_strings ext).
Proof.
  intros H. unfold extractAttributes_ext in H.
  destruct c; attr_inv; unfold blocks_of; cbn; repeat constructor; arena_field.
Qed.

(** P4 for a new node: every string field of the node points into a block
    of the arena, or into a default of a descriptor; the blocks are those
    copied for the attributes of this start tag. *)
Lemma Nodeset_newNode_strings c attributes w node w' :
  Nodeset_newNode c attributes w = Ok (node, w') ->
  exists n, World.nodeHeap w' !! node = Some n /\
    Forall (points_into (blocks_of (node_attributes c) attributes ++ literals))
      (node_strings n).
Proof.
  intros Hrun.
  destruct (Nodeset_newNode_ext _ _ _ _ _ Hrun)
    as (n & w1 & w2 & Hn & Hext & _ & _ & Hdn & Hds & Hwm).
  apply Nodeset_newNode_Ok in Hrun
    as (n' & -> & _ & Hh & _ & _ & _ & _ & _ & Hid & Hbn & _).
  rewrite Hh, lookup_insert_eq in Hn. simplify_eq.
  exists n. split; [by rewrite Hh, lookup_insert_eq|].
  apply extractAttributes_ext_strings in Hext.
  unfold node_strings, blocks_of in *. cbn [mbind list_bind node_attributes].
  apply Forall_app. split.
  - rewrite Hdn, Hds, Hwm. repeat constructor; try apply points_into_NULL; arena_field.
  - eapply Forall_impl; [exact Hext|]. intros p. apply points_into_mono. set_solver.
Qed.

End strings.

(** ** The arena along a run *)

Section arena.
Implicit Types (w : World) (c : Call) (n : TNode).

(** The blocks an event takes from the arena: those of the attributes of
    its start tag that the code reads. *)
Definition takes c : list string :=
  match c with
  | CallNewNode nodeClass attributes =>
      blocks_of (node_attributes nodeClass) attributes
  | CallNewReference _ attributes =>
      blocks_of [attrIsForward; attrReferenceType] attributes
  | CallNewAlias attributes => blocks_of [attrAlias] attributes
  | _ => []
  end.

Lemma Nodeset_newReference_arena node attributes w r w' :
  Nodeset_newReference node attributes w = Ok (r, w') ->
  arena_of w' =
  arena_of w ++ blocks_of [attrIsForward; attrReferenceType] attributes.
Proof.
  intros H. newReference_inv H w.
  match goal with H : (if ?b then _ else _) = Ok _ |- _ => destruct b end;
    res_inv; frame_to w; unfold blocks_of; cbn; by rewrite <- app_assoc, app_nil_r.
Qed.

(** The arena only grows while a file is parsed, by the blocks of each
    event. *)
Lemma call_arena w c w' :
  call w c = Ok w' -> arena_of w' = arena_of w ++ takes c.
Proof.
  destruct c; cbn [call takes]; intros Hrun; rewrite ?app_nil_r.
  - by injection Hrun as <-.
  - unfold Nodeset_newNamespaceFinish in Hrun. by res_inv.
  - injection Hrun as <-. unfold Nodeset_newAlias. rewrite getAttributeValue_eq.
    unfold blocks_of. cbn. by rewrite app_nil_r.
  - unfold Nodeset_newAliasFinish in Hrun. by res_inv.
  - destruct (Nodeset_newNode _ _ _) as [[node w1]|] eqn:E; [|done].
    injection Hrun as <-. by eapply Nodeset_newNode_arena.
  - destruct (Nodeset_newReference _ _ _) as [[r w1]|] eqn:E; [|done].
    injection Hrun as <-. by eapply Nodeset_newReference_arena.
  - by apply Nodeset_newReferenceFinish_Ok in Hrun as (? & ? & _ & _ & ->).
  - apply Nodeset_newNodeFinish_Ok in Hrun as (n & _ & _ & Hrest).
    case_decide; [|by subst].
    by apply addIfHierachicalReferenceType_Ok in Hrest as (? & ? & _ & _ & ->).
Qed.

(** Every string field of every node points into the arena or into a
    default. *)
Definition arena_owned w : Prop :=
  map_Forall
    (fun _ n => Forall (points_into (arena_of w ++ literals)) (node_strings n))
    (World.nodeHeap w).

Lemma node_strings_link hier r n : node_strings (link hier r n) = node_strings n.
Proof. by destruct hier. Qed.

Lemma arena_owned_call w c w' :
  arena_owned w -> call w c = Ok w' -> arena_owned w'.
Proof.
  intros Hown Hrun. pose proof (call_arena w c w' Hrun) as Harena.
  assert (forall n, Forall (points_into (arena_of w ++ literals)) (node_strings n) ->
            Forall (points_into (arena_of w' ++ literals)) (node_strings n)) as Hmono.
  { intros n Hn. eapply Forall_impl; [exact Hn|]. intros p.
    apply points_into_mono. rewrite Harena. set_solver. }
  assert (World.nodeHeap w' = World.nodeHeap w -> arena_owned w') as Hsame.
  { intros Hh. unfold arena_owned. rewrite Hh.
    eapply map_Forall_impl; [exact Hown|]. intros p n. apply Hmono. }
  unfold arena_owned. destruct c; simpl in Hrun, Harena.
  - apply Hsame. by injection Hrun as <-.
  - apply Hsame. unfold Nodeset_newNamespaceFinish in Hrun. by res_inv.
  - apply Hsame. injection Hrun as <-. unfold Nodeset_newAlias.
    by rewrite getAttributeValue_eq.
  - apply Hsame. unfold Nodeset_newAliasFinish in Hrun. by res_inv.
  - destruct (Nodeset_newNode _ _ _) as [[node w1]|] eqn:E; simplify_eq/=.
    destruct (Nodeset_newNode_strings _ _ _ _ _ E) as (n & Hn & Hstr).
    apply Nodeset_newNode_Ok in E as (n' & -> & _ & Hh & _).
    rewrite Hh, lookup_insert_eq in Hn. simplify_eq. rewrite Hh.
    apply map_Forall_insert_2.
    + eapply Forall_impl; [exact Hstr|]. intros p. apply points_into_mono.
      rewrite Harena. set_solver.
    + eapply map_Forall_impl; [exact Hown|]. intros p n'. apply Hmono.
  - destruct (Nodeset_newReference _ _ _) as [[r w1]|] eqn:E; simplify_eq/=.
    apply Nodeset_newReference_Ok in E
      as (? & ? & hier & n & _ & _ & _ & Hn & _ & _ & _ & Hh & _).
    rewrite Hh. apply map_Forall_insert_2.
    + rewrite node_strings_link. by apply Hmono, (Hown node).
    + eapply map_Forall_impl; [exact Hown|]. intros p n'. apply Hmono.
  - apply Hsame. by apply Nodeset_newReferenceFinish_Ok in Hrun as (? & ? & _ & _ & ->).
  - apply Hsame. apply Nodeset_newNodeFinish_Ok in Hrun as (n & _ & _ & Hrest).
    case_decide; [|by subst].
    by apply addIfHierachicalReferenceType_Ok in Hrest as (? & ? & _ & _ & ->).
Qed.

(** C18. P4 while a file is parsed: in every state the parser can drive the
    builder to, each string field of each node is NULL or points into a
    block of the arena or into the default of an attribute descriptor. *)
Theorem reachable_arena_owned w : reachable w -> arena_owned w.
Proof.
  induction 1 as [cb | w c w' _ IH Hcall];
    [apply map_Forall_empty | by eapply arena_owned_call].
Qed.

End arena.
