(* ===== verification/Bytes.v ===== *)
(** * [getAttributeValue] on the memory of the program

    [Attributes] models [getAttributeValue] on strings: the attributes of
    a start tag are a list of records, the value of an attribute is a
    string, the arena a list of strings.  This file models the function
    as it is written, on the memory the parser hands over: the attributes
    are a flat array of pointers, five per attribute, of which the first
    points to a name and the fourth and the fifth to the first byte of the
    value and behind its last byte in the buffer of the parser; the value
    is not terminated there.  The function indexes the array with [int]
    arithmetic, takes [value_end - value_start + 1] bytes from the arena
    and copies [value_end - value_start] bytes into them.

    CharArenaAllocator.c is not among the sources.  The arena is a list of
    blocks, and what a byte of a block holds before the program writes it
    is a parameter, [fill]: zero if the allocator clears its memory,
    indeterminate if it does not.

    The theorems show that on an array that encodes a list of attributes
    the function computes what the string model computes, and that the
    copy is a string exactly because of the byte the allocator left behind
    it: the code never writes the terminator; and that on any array the
    pointer the function returns is a default of the program or the start
    of a block the arena has just handed out. *)

From Stdlib Require Import Ascii String.
From stdpp Require Import strings.
From S2P Require Import Prelude CString Model Attributes.

(** ** Memory *)

(** The objects a pointer of this function points into. *)
Inductive Obj : Type :=
| Input                (* the buffer of the parser *)
| Name (k : nat)       (* a name of the parser's dictionary, terminated *)
| Block (k : nat)      (* a block of the arena *)
| Literal (s : string). (* a string constant of the program *)

#[export] Instance Obj_eq_dec : EqDecision Obj.
Proof. solve_decision. Defined.

Module Ptr.
Record t : Type := mk { obj : Obj; off : Z }.
#[export] Instance eq_dec : EqDecision t.
Proof. solve_decision. Defined.
End Ptr.
Export (hints) Ptr.
Abbreviation Ptr := Ptr.t.

(** A byte of memory; [None] is the indeterminate value of a byte that was
    never written. *)
Definition cell : Type := option ascii.

Module Mem.
Record t : Type := mk {
  input : list ascii;
  names : list string;
  arena : list (list cell);
}.
Definition set_arena v (m : t) : t := mk (input m) (names m) v.
End Mem.
Abbreviation Mem := Mem.t.

Section memory.
Implicit Types (m : Mem) (p : Ptr) (cells : list cell).

(** The bytes of an object. *)
Definition contents m (o : Obj) : res (list cell) :=
  match o with
  | Input => Ok (Some <$> Mem.input m)
  | Name k =>
      match Mem.names m !! k with
      | Some s => Ok (Some <$> (list_ascii_of_string s ++ [zero]))
      | None => Trap BadPointer
      end
  | Block k =>
      match Mem.arena m !! k with
      | Some b => Ok b
      | None => Trap BadPointer
      end
  | Literal s => Ok (Some <$> (list_ascii_of_string s ++ [zero]))
  end.

(** The bytes from a pointer to the end of its object. *)
Definition bytes_at m p : res (list cell) :=
  let* cells := contents m (Ptr.obj p) in
  require (bool_decide (0 <= Ptr.off p <= Z.of_nat (length cells))%Z) OutOfBounds ;;;
  Ok (drop (Z.to_nat (Ptr.off p)) cells).

(** Reading a string: up to the first zero byte.  Reading an indeterminate
    byte, or the end of the object, is undefined. *)
Fixpoint read_string cells : res string :=
  match cells with
  | [] => Trap OutOfBounds
  | None :: _ => Trap Uninitialised
  | Some c :: cells' =>
      if Ascii.eqb c zero then Ok EmptyString
      else let* s := read_string cells' in Ok (String c s)
  end.

Definition cstring m p : res string :=
  let* cells := bytes_at m p in read_string cells.

(** [strcmp] of the string at [p] with a string constant. *)
Definition strcmp_at m p (name : string) : res Z :=
  let* s := cstring m p in Ok (strcmp s name).

(** [value_end - value_start]: defined for two pointers into one
    object. *)
Definition ptr_diff (p q : Ptr) : res Z :=
  require (bool_decide (Ptr.obj p = Ptr.obj q)) BadPointer ;;;
  Ok (Ptr.off p - Ptr.off q)%Z.

(** [memcpy(dst, src, n)]: [n] bytes are read from [src] and written to
    [dst], which is a block of the arena; both ranges lie in their
    objects. *)
Definition memcpy m (dst src : Ptr) (n : Z) : res Mem :=
  let* from := bytes_at m src in
  require (bool_decide (n <= Z.of_nat (length from))%Z) OutOfBounds ;;;
  match Ptr.obj dst with
  | Block k =>
      let* b := contents m (Block k) in
      require (bool_decide (0 <= Ptr.off dst /\ Ptr.off dst + n <= Z.of_nat (length b))%Z)
        OutOfBounds ;;;
      Ok (Mem.set_arena
            (<[k := take (Z.to_nat (Ptr.off dst)) b ++ take (Z.to_nat n) from ++
                    drop (Z.to_nat (Ptr.off dst + n)) b]> (Mem.arena m)) m)
  | _ => Trap BadPointer
  end.

End memory.

(** ** The function *)

(** The default of a descriptor: NULL, or a pointer to a string
    constant. *)
Definition literal (s : cstr) : option Ptr := (fun s => Ptr.mk (Literal s) 0) <$> s.

Section getAttributeValue.
Context (fill : cell).
Implicit Types (m : Mem) (attributes : list (option Ptr)) (attr : NodeAttribute).

(** The arena hands out a block of [size] bytes that hold [fill]. *)
Definition CharArenaAllocator_malloc m (size : Z) : Ptr * Mem :=
  (Ptr.mk (Block (length (Mem.arena m))) 0,
   Mem.set_arena (Mem.arena m ++ [replicate (Z.to_nat size) fill]) m).

(** [attributes[i * fields + k]], the index computed in [int]. *)
Definition field attributes (i fields k : Z) : res (option Ptr) :=
  require (in_int (i * fields)) Overflow ;;;
  require (in_int (i * fields + k)) Overflow ;;;
  match attributes !! Z.to_nat (i * fields + k) with
  | Some p => Ok p
  | None => Trap OutOfBounds
  end.

(** The loop, with [todo] turns left. *)
Fixpoint getAttributeValue_loop attr attributes (todo : nat) (i : Z) m
  : res (option Ptr * Mem) :=
  match todo with
  | 0 => Ok (literal (NodeAttribute.defaultValue attr), m)
  | S todo' =>
      let fields := 5%Z in
      let* localname := field attributes i fields 0 in
      let* localname := nonnull localname in
      let* c := strcmp_at m localname (NodeAttribute.name attr) in
      if negb (c =? 0)%Z then getAttributeValue_loop attr attributes todo' (i + 1) m
      else
        let* value_start := field attributes i fields 3 in
        let* value_end := field attributes i fields 4 in
        let* value_start := nonnull value_start in
        let* value_end := nonnull value_end in
        let* d := ptr_diff value_end value_start in
        let size := to_size_t d in
        let '(value, m) := CharArenaAllocator_malloc m (to_size_t (size + 1)) in
        let* m := memcpy m value value_start size in
        Ok (Some value, m)
  end.

Definition getAttributeValue_at attr attributes (nb_attributes : Z) m
  : res (option Ptr * Mem) :=
  getAttributeValue_loop attr attributes (Z.to_nat nb_attributes) 0 m.

End getAttributeValue.

(** ** Strings in memory *)

(** A string without a zero byte. *)
Definition no_nul (s : string) : Prop := zero ∉ list_ascii_of_string s.

Section strings.
Implicit Types (s : string) (cells : list cell).

(** Reading runs over the bytes of a string without a zero byte. *)
Lemma read_string_app s cells :
  no_nul s ->
  read_string ((Some <$> list_ascii_of_string s) ++ cells) =
  res_map (String.append s) (read_string cells).
Proof.
  unfold no_nul. induction s as [|c s IH]; intros Hs; cbn.
  - by destruct (read_string cells).
  - apply not_elem_of_cons in Hs as [Hc Hs].
    rewrite (proj2 (Ascii.eqb_neq c zero)) by done. rewrite IH by done.
    by destruct (read_string cells).
Qed.

(** The copy of a string is a string when the byte behind it is zero; when
    that byte was never written, reading the copy is undefined. *)
Lemma read_string_copy s (last : cell) :
  no_nul s ->
  read_string ((Some <$> list_ascii_of_string s) ++ [last]) =
  match last with
  | None => Trap Uninitialised
  | Some c => if Ascii.eqb c zero then Ok s else Trap OutOfBounds
  end.
Proof.
  intros Hs. rewrite read_string_app by done. destruct last as [c|]; [|done]. cbn.
  destruct (Ascii.eqb c zero); [|done]. cbn. f_equal. by rewrite app_empty_r.
Qed.

End strings.

(** ** An array that encodes a list of attributes *)

Section encoding.
Context (fill : cell).
Implicit Types (m : Mem) (attributes : list (option Ptr)) (attr : NodeAttribute).
Implicit Types (x : XmlAttr) (xs : list XmlAttr).

(** The five pointers from [5 * i] on encode the attribute [x]: the first
    points to its name, the fourth and the fifth delimit its value in the
    buffer of the parser. *)
Definition encodes m attributes (i : nat) x : Prop :=
  exists p s e,
    attributes !! (5 * i) = Some (Some p) /\
    cstring m p = Ok (XmlAttr.localname x) /\
    attributes !! (5 * i + 3) = Some (Some (Ptr.mk Input (Z.of_nat s))) /\
    attributes !! (5 * i + 4) = Some (Some (Ptr.mk Input (Z.of_nat e))) /\
    s <= e <= length (Mem.input m) /\
    take (e - s) (drop s (Mem.input m)) = list_ascii_of_string (XmlAttr.value x).

Definition encoded m attributes xs : Prop :=
  forall i x, xs !! i = Some x -> encodes m attributes i x.

(** The memory after the copy of the value [v]: one more block, which
    holds the bytes of [v] and the byte the allocator left behind them. *)
Definition copied (v : string) m : option Ptr * Mem :=
  (Some (Ptr.mk (Block (length (Mem.arena m))) 0),
   Mem.set_arena (Mem.arena m ++ [(Some <$> list_ascii_of_string v) ++ [fill]]) m).

Lemma field_Ok attributes (i : nat) (k : Z) p :
  (0 <= k)%Z -> attributes !! (5 * i + Z.to_nat k) = Some p ->
  (Z.of_nat (5 * i) + k <= INT_MAX)%Z ->
  field attributes (Z.of_nat i) 5 k = Ok p.
Proof.
  intros Hk Hp Hint. unfold field.
  rewrite !(proj2 (in_int_spec _)) by (unfold INT_MIN, INT_MAX in *; lia).
  cbn [require res_bind].
  replace (Z.to_nat (Z.of_nat i * 5 + k)) with (5 * i + Z.to_nat k) by lia.
  by rewrite Hp.
Qed.

(** The copy into a block the arena has just handed out. *)
Lemma memcpy_fresh m (s n : nat) :
  s + n <= length (Mem.input m) ->
  memcpy (CharArenaAllocator_malloc fill m (Z.of_nat n + 1)).2
    (CharArenaAllocator_malloc fill m (Z.of_nat n + 1)).1
    (Ptr.mk Input (Z.of_nat s)) (Z.of_nat n) =
  Ok (Mem.set_arena
        (Mem.arena m ++ [(Some <$> take n (drop s (Mem.input m))) ++ [fill]]) m).
Proof.
  intros Hlen. unfold memcpy, bytes_at. cbn.
  rewrite length_fmap, bool_decide_eq_true_2 by lia. cbn.
  rewrite length_drop, length_fmap, Nat2Z.id, bool_decide_eq_true_2 by lia. cbn.
  rewrite lookup_app_r, Nat.sub_diag by done. cbn.
  rewrite length_replicate, bool_decide_eq_true_2 by lia. cbn.
  f_equal. unfold Mem.set_arena. cbn. f_equal.
  replace (length (Mem.arena m)) with (length (Mem.arena m) + 0) at 1 by lia.
  rewrite insert_app_r. cbn. f_equal.
  rewrite Nat2Z.id, <- fmap_drop, <- fmap_take.
  replace (Z.to_nat (Z.of_nat n + 1)) with (n + 1) by lia.
  replace (Z.to_nat (0 + Z.of_nat n)) with n by lia.
  by rewrite replicate_add, drop_app_length' by (by rewrite length_replicate).
Qed.

End encoding.

(** ** The loop on an encoded array *)

(** The array and the memory are fixed, and the buffer of the parser is
    smaller than the largest [size_t]. *)
Section loop.
Context (fill : cell) (attr : NodeAttribute) (attributes : list (option Ptr)) (m : Mem).
Context (Hsz : (Z.of_nat (length (Mem.input m)) < SIZE_MAX)%Z).
Implicit Types (x : XmlAttr) (xs : list XmlAttr).

(** The turn of the loop on an attribute that is encoded at [i]. *)
Lemma getAttributeValue_turn (i todo : nat) x :
  encodes m attributes i x ->
  (Z.of_nat (5 * i + 4) <= INT_MAX)%Z ->
  getAttributeValue_loop fill attr attributes (S todo) (Z.of_nat i) m =
  if (strcmp (XmlAttr.localname x) (NodeAttribute.name attr) =? 0)%Z
  then Ok (copied fill (XmlAttr.value x) m)
  else getAttributeValue_loop fill attr attributes todo (Z.of_nat (S i)) m.
Proof.
  intros (p & s & e & Hp & Hname & Hs & He & Hse & Hval) Hint.
  cbn [getAttributeValue_loop]. rewrite <- (Nat.add_0_r (5 * i)) in Hp.
  rewrite (field_Ok _ i 0 (Some p)) by (done || lia). cbn [res_bind nonnull].
  unfold strcmp_at. rewrite Hname. cbn [res_bind].
  destruct (_ =? 0)%Z; cbn [negb]; [|by rewrite Nat2Z.inj_succ].
  rewrite (field_Ok _ i 3 _ ltac:(lia) Hs), (field_Ok _ i 4 _ ltac:(lia) He) by lia.
  cbn [res_bind nonnull]. unfold ptr_diff. cbn [Ptr.obj Ptr.off].
  rewrite bool_decide_eq_true_2 by done. cbn [require res_bind].
  replace (Z.of_nat e - Z.of_nat s)%Z with (Z.of_nat (e - s)) by lia.
  rewrite (to_size_t_small (Z.of_nat (e - s))) by (unfold SIZE_MAX in *; lia).
  rewrite to_size_t_small by (unfold SIZE_MAX in *; lia).
  pose proof (memcpy_fresh fill m s (e - s)) as Hcopy.
  destruct (CharArenaAllocator_malloc fill m _) as [value m1] eqn:E.
  cbn [fst snd] in Hcopy. rewrite Hcopy by lia. cbn [res_bind].
  unfold copied. rewrite Hval. by injection E as <- _.
Qed.

Lemma getAttributeValue_loop_refines pre xs :
  encoded m attributes (pre ++ xs) ->
  (5 * Z.of_nat (length (pre ++ xs)) <= INT_MAX)%Z ->
  getAttributeValue_loop fill attr attributes (length xs) (Z.of_nat (length pre)) m =
  Ok (match find_attribute (NodeAttribute.name attr) xs with
      | Some v => copied fill v m
      | None => (literal (NodeAttribute.defaultValue attr), m)
      end).
Proof.
  revert pre. induction xs as [|x xs IH]; intros pre Henc Hint; [done|].
  rewrite length_app in Hint. cbn [length] in *.
  rewrite (getAttributeValue_turn (length pre) (length xs) x);
    [|apply Henc; by rewrite lookup_app_r, Nat.sub_diag|lia].
  cbn [find_attribute]. destruct (_ =? 0)%Z; [done|].
  replace (S (length pre)) with (length (pre ++ [x])) by (rewrite length_app; cbn; lia).
  apply IH; rewrite <- ?app_assoc; [done|]. rewrite !length_app. cbn. lia.
Qed.

(** The turns on attributes of other names. *)
Lemma getAttributeValue_loop_miss pre xs todo :
  encoded m attributes (pre ++ xs) ->
  (5 * Z.of_nat (length (pre ++ xs)) <= INT_MAX)%Z ->
  find_attribute (NodeAttribute.name attr) xs = None ->
  getAttributeValue_loop fill attr attributes (length xs + todo) (Z.of_nat (length pre)) m =
  getAttributeValue_loop fill attr attributes todo (Z.of_nat (length (pre ++ xs))) m.
Proof.
  revert pre. induction xs as [|x xs IH]; intros pre Henc Hint Hmiss.
  { by rewrite app_nil_r. }
  rewrite length_app in Hint. cbn [length find_attribute] in *.
  change (S (length xs) + todo) with (S (length xs + todo)).
  rewrite (getAttributeValue_turn (length pre) _ x);
    [|apply Henc; by rewrite lookup_app_r, Nat.sub_diag|lia].
  destruct (_ =? 0)%Z; [done|].
  replace (S (length pre)) with (length (pre ++ [x])) by (rewrite length_app; cbn; lia).
  rewrite (cons_middle x pre xs), app_assoc.
  apply IH; rewrite <- ?app_assoc; [done| |done]. rewrite !length_app. cbn. lia.
Qed.

End loop.

(** ** The function and its string model *)

(** What the program reads at a pointer that may be NULL. *)
Definition read_cstr (m : Mem) (v : option Ptr) : res cstr :=
  match v with
  | None => Ok None
  | Some p => res_map Some (cstring m p)
  end.

(** The default of a descriptor is a string: it holds no zero byte. *)
Definition default_string (attr : NodeAttribute) : Prop :=
  from_option no_nul True (NodeAttribute.defaultValue attr).

(** The blocks of the arena, read as strings. *)
Definition arena_strings (m : Mem) (l : list string) : Prop :=
  Forall2 (fun b s => read_string b = Ok s) (Mem.arena m) l.

Section refinement.
Implicit Types (m : Mem) (attributes : list (option Ptr)) (attr : NodeAttribute).
Implicit Types (xs : list XmlAttr) (w : World).

(** The bytes of the block of a copy. *)
Lemma bytes_at_copied (fill : cell) v m :
  bytes_at
    (Mem.set_arena (Mem.arena m ++ [(Some <$> list_ascii_of_string v) ++ [fill]]) m)
    (Ptr.mk (Block (length (Mem.arena m))) 0) =
  Ok ((Some <$> list_ascii_of_string v) ++ [fill]).
Proof.
  unfold bytes_at. cbn. rewrite lookup_app_r, Nat.sub_diag by done. cbn.
  by rewrite bool_decide_eq_true_2 by lia.
Qed.

Lemma cstring_copied (fill : cell) v m :
  cstring
    (Mem.set_arena (Mem.arena m ++ [(Some <$> list_ascii_of_string v) ++ [fill]]) m)
    (Ptr.mk (Block (length (Mem.arena m))) 0) =
  read_string ((Some <$> list_ascii_of_string v) ++ [fill]).
Proof. unfold cstring. by rewrite bytes_at_copied. Qed.

(** A string constant reads as itself. *)
Lemma cstring_literal m (s : string) :
  no_nul s -> cstring m (Ptr.mk (Literal s) 0) = Ok s.
Proof.
  intros Hs. unfold cstring, bytes_at. cbn. rewrite bool_decide_eq_true_2 by lia. cbn.
  change (Z.to_nat 0) with 0. rewrite drop_0, fmap_app.
  apply (read_string_copy s (Some zero) Hs).
Qed.

Lemma read_cstr_literal m attr :
  default_string attr ->
  read_cstr m (literal (NodeAttribute.defaultValue attr)) = Ok (NodeAttribute.defaultValue attr).
Proof.
  unfold default_string. destruct (NodeAttribute.defaultValue attr) as [d|]; [|done].
  intros Hd. cbn. by rewrite cstring_literal.
Qed.

(** The value of an attribute of a well-formed start tag holds no zero
    byte. *)
Lemma find_attribute_no_nul name xs v :
  Forall (fun x => no_nul (XmlAttr.value x)) xs ->
  find_attribute name xs = Some v -> no_nul v.
Proof.
  intros Hnul (pre & a & post & -> & _ & <- & _)%find_attribute_Some.
  rewrite Forall_app, Forall_cons in Hnul. apply Hnul.
Qed.

(** With the count of the attributes the array encodes, the function
    returns: the copy of the first value of the name, or the default. *)
Lemma getAttributeValue_at_eq (fill : cell) attr attributes m xs :
  encoded m attributes xs ->
  (5 * Z.of_nat (length xs) <= INT_MAX)%Z ->
  (Z.of_nat (length (Mem.input m)) < SIZE_MAX)%Z ->
  getAttributeValue_at fill attr attributes (Z.of_nat (length xs)) m =
  Ok (match find_attribute (NodeAttribute.name attr) xs with
      | Some v => copied fill v m
      | None => (literal (NodeAttribute.defaultValue attr), m)
      end).
Proof.
  intros. unfold getAttributeValue_at. rewrite Nat2Z.id.
  by apply (getAttributeValue_loop_refines fill attr attributes m ltac:(done) [] xs).
Qed.

(** C19. Refinement: on an array of pointers that encodes the attributes of
    a start tag, with the count of the attributes, and an arena whose
    memory is cleared, the function as it is written computes what its
    model on strings computes: it returns, what the program reads at the
    pointer returned is the value the model returns, and the blocks of
    the arena, read as strings, are the arena of the model.  The array
    and the buffer are within the sizes an [int] and a [size_t] hold, and
    no value of an attribute, and no default, holds a zero byte. *)
Theorem getAttributeValue_at_refines attr attributes m xs w :
  encoded m attributes xs ->
  (5 * Z.of_nat (length xs) <= INT_MAX)%Z ->
  (Z.of_nat (length (Mem.input m)) < SIZE_MAX)%Z ->
  Forall (fun x => no_nul (XmlAttr.value x)) xs -> default_string attr ->
  arena_strings m (arena_of w) ->
  exists v m',
    getAttributeValue_at (Some zero) attr attributes (Z.of_nat (length xs)) m = Ok (v, m') /\
    read_cstr m' v = Ok (getAttributeValue attr xs w).1 /\
    arena_strings m' (arena_of (getAttributeValue attr xs w).2).
Proof.
  intros Henc Hint Hsz Hnul Hdef Harena.
  rewrite (getAttributeValue_at_eq _ _ _ _ xs) by done.
  rewrite getAttributeValue_eq. unfold attr_value, attr_blocks. cbn [fst snd].
  destruct (find_attribute _ xs) as [v|] eqn:Hfind.
  - pose proof (find_attribute_no_nul _ xs v Hnul Hfind) as Hv.
    eexists _, _. split; [done|]. cbn [read_cstr copied fst snd].
    rewrite (cstring_copied (Some zero)), read_string_copy by done. split; [done|].
    apply Forall2_app; [done|]. constructor; [|done]. by rewrite read_string_copy.
  - eexists _, _. split; [done|]. split; [by apply read_cstr_literal|].
    by rewrite app_nil_r, set_arena_arena_of.
Qed.

(** The terminator is never written: when the memory of the arena is
    not cleared, the copy the function returns for an attribute that is
    present is not a string.  Reading it (with [strchr], [strcmp] or
    [atoi], as the builder does with every value) runs into the byte
    behind the copy, which nothing has written. *)
Theorem getAttributeValue_at_unterminated attr attributes m xs v :
  encoded m attributes xs ->
  (5 * Z.of_nat (length xs) <= INT_MAX)%Z ->
  (Z.of_nat (length (Mem.input m)) < SIZE_MAX)%Z ->
  find_attribute (NodeAttribute.name attr) xs = Some v -> no_nul v ->
  exists p m',
    getAttributeValue_at None attr attributes (Z.of_nat (length xs)) m = Ok (Some p, m') /\
    cstring m' p = Trap Uninitialised.
Proof.
  intros Henc Hint Hsz Hfind Hv. rewrite (getAttributeValue_at_eq _ _ _ _ xs), Hfind by done.
  eexists _, _. split; [done|]. by rewrite (cstring_copied None), read_string_copy.
Qed.

(** A copy changes one block of the arena. *)
Lemma memcpy_Ok m dst src n m' :
  memcpy m dst src n = Ok m' ->
  exists k b, Ptr.obj dst = Block k /\ k < length (Mem.arena m) /\
              m' = Mem.set_arena (<[k := b]> (Mem.arena m)) m.
Proof.
  unfold memcpy. intros H. res_inv. destruct (Ptr.obj dst) as [| |k|]; try done.
  res_inv. exists k. eexists. split; [done|]. split; [|done].
  match goal with H : contents _ _ = Ok _ |- _ => cbn in H end.
  destruct (Mem.arena m !! k) eqn:Hk; [|done]. by apply lookup_lt_Some in Hk.
Qed.

Lemma getAttributeValue_loop_owned (fill : cell) attr attributes todo (i : Z) m v m' :
  getAttributeValue_loop fill attr attributes todo i m = Ok (v, m') ->
  (v = literal (NodeAttribute.defaultValue attr) /\ m' = m) \/
  exists b, v = Some (Ptr.mk (Block (length (Mem.arena m))) 0) /\
            m' = Mem.set_arena (Mem.arena m ++ [b]) m.
Proof.
  revert i. induction todo as [|todo IH]; intros i; cbn [getAttributeValue_loop].
  { intros [= <- <-]. by left. }
  intros H. res_inv. destruct (negb _); [by apply (IH (i + 1)%Z)|].
  res_inv. cbn [CharArenaAllocator_malloc] in H. revert H.
  generalize (replicate (Z.to_nat (to_size_t (to_size_t x5 + 1))) fill).
  intros blk H. res_inv. right.
  match goal with H : memcpy _ _ _ _ = Ok _ |- _ =>
    apply memcpy_Ok in H as (k & b & Hk & _ & Hm) end.
  cbn [Ptr.obj] in Hk. injection Hk as <-. exists b. split; [reflexivity|].
  rewrite Hm. unfold Mem.set_arena. cbn [Mem.arena Mem.input Mem.names]. f_equal.
  replace (length (Mem.arena m)) with (length (Mem.arena m) + 0) at 1 by lia.
  rewrite insert_app_r. reflexivity.
Qed.

(** C20. P4 of the specification, on addresses, for the one function every
    string of a node comes from.  Whatever the array, the count and the
    memory it is given, when [getAttributeValue] returns, the pointer it
    returns is the default of the descriptor (NULL or a string constant of
    the program), and the memory is as it was; or it is the start of a
    block the arena has just handed out, and that block is all that has
    changed in memory.  It is never a pointer into the buffer or the
    dictionary of the parser: the builder keeps no pointer the caller
    owns. *)
Theorem getAttributeValue_at_owned (fill : cell) attr attributes (nb_attributes : Z) m v m' :
  getAttributeValue_at fill attr attributes nb_attributes m = Ok (v, m') ->
  (v = literal (NodeAttribute.defaultValue attr) /\ m' = m) \/
  exists b, v = Some (Ptr.mk (Block (length (Mem.arena m))) 0) /\
            m' = Mem.set_arena (Mem.arena m ++ [b]) m.
Proof. unfold getAttributeValue_at. apply getAttributeValue_loop_owned. Qed.

(** [getAttributeValue] trusts the count it is given.  With a
    count larger than the number of attributes the array holds, and no
    attribute of the name it looks for, the loop does not stop at the end
    of the array: the read of the name of the next attribute,
    [attributes[i * 5 + 0]], is past the end, and the default of the
    descriptor is never reached. *)
Theorem getAttributeValue_at_count (fill : cell) attr attributes m xs (nb_attributes : Z) :
  encoded m attributes xs -> length attributes = 5 * length xs ->
  (5 * Z.of_nat (length xs) + 4 <= INT_MAX)%Z ->
  (Z.of_nat (length (Mem.input m)) < SIZE_MAX)%Z ->
  find_attribute (NodeAttribute.name attr) xs = None ->
  (Z.of_nat (length xs) < nb_attributes)%Z ->
  getAttributeValue_at fill attr attributes nb_attributes m = Trap OutOfBounds.
Proof.
  intros Henc Hlen Hint Hsz Hmiss Hnb. unfold getAttributeValue_at.
  replace (Z.to_nat nb_attributes)
    with (length xs + S (Z.to_nat nb_attributes - S (length xs))) by lia.
  rewrite (getAttributeValue_loop_miss fill attr attributes m Hsz [] xs _ Henc
             ltac:(cbn [app]; lia) Hmiss
           : getAttributeValue_loop _ _ _ _ 0%Z _ = _).
  cbn [getAttributeValue_loop app]. unfold field.
  rewrite !(proj2 (in_int_spec _)) by (unfold INT_MIN, INT_MAX in *; lia).
  cbn [require res_bind]. by rewrite lookup_ge_None_2 by lia.
Qed.

End refinement.
