(* ===== verification/Decode.v ===== *)
(** * The decoders on the memory of the program

    [Namespace] models [extractNodedId] and [extractBrowseName] on
    strings: a pointer into a string is the suffix it points at.  This
    file models them as they are written, on pointers: [strchr] returns a
    pointer into the text it searched, [&s[3]] and [idxSemi + 1] are
    pointer arithmetic, [atoi] reads bytes until one is no digit, and the
    identifier of the node id returned is a pointer into the same object
    as the text.

    The theorems show that on a text that is a string filling its object
    to the end (a copy [getAttributeValue] made into cleared memory, a
    string constant) the decoders on pointers compute what the decoders on
    strings compute, traps included; that the first two statements of
    [extractAttributes], which decode the copies of the attributes NodeId
    and BrowseName, leave the identifier and the name of the node pointing
    into the block the arena has just handed out; and what the decoder does with that copy when the
    memory of the arena is not cleared. *)

From Stdlib Require Import Ascii String.
From stdpp Require Import strings.
From S2P Require Import Prelude CString Model Namespace Attributes Bytes.

(** ** The functions of the C library, on bytes *)

Section libc.
Implicit Types (m : Mem) (p : Ptr) (cells : list cell) (c : ascii).

(** [p + n]: defined while the result points into the object of [p] or
    just behind its last byte. *)
Definition ptr_add m p (n : Z) : res Ptr :=
  let* cells := contents m (Ptr.obj p) in
  require (bool_decide (0 <= Ptr.off p + n <= Z.of_nat (length cells))%Z) OutOfBounds ;;;
  Ok (Ptr.mk (Ptr.obj p) (Ptr.off p + n)).

(** [strchr]: the distance to the first [c], none when the terminator
    comes first.  Every byte up to there is read. *)
Fixpoint strchr_cells cells c : res (option nat) :=
  match cells with
  | [] => Trap OutOfBounds
  | None :: _ => Trap Uninitialised
  | Some a :: cells' =>
      if Ascii.eqb a c then Ok (Some 0)
      else if Ascii.eqb a zero then Ok None
      else res_map (fmap S) (strchr_cells cells' c)
  end.

Definition strchr_at m p c : res (option Ptr) :=
  let* cells := bytes_at m p in
  let* k := strchr_cells cells c in
  Ok ((fun k => Ptr.mk (Ptr.obj p) (Ptr.off p + Z.of_nat k)) <$> k).

(** [atoi]: white space, a sign, digits; it reads up to the first byte
    that is none of them. *)
Fixpoint skip_spaces_cells cells : res (list cell) :=
  match cells with
  | [] => Trap OutOfBounds
  | None :: _ => Trap Uninitialised
  | Some a :: cells' => if isspace a then skip_spaces_cells cells' else Ok cells
  end.

Fixpoint digits_cells (acc : Z) cells : res Z :=
  match cells with
  | [] => Trap OutOfBounds
  | None :: _ => Trap Uninitialised
  | Some a :: cells' =>
      match digit_of a with
      | Some d => digits_cells (10 * acc + d) cells'
      | None => Ok acc
      end
  end.

Definition atoi_cells cells : res Z :=
  let* cells := skip_spaces_cells cells in
  let* v :=
    match cells with
    | Some a :: cells' =>
        if Ascii.eqb a "-" then res_map Z.opp (digits_cells 0 cells')
        else if Ascii.eqb a "+" then digits_cells 0 cells'
        else digits_cells 0 cells
    | _ => digits_cells 0 cells
    end in
  require (in_int v) Overflow ;;; Ok v.

Definition atoi_at m p : res Z :=
  let* cells := bytes_at m p in atoi_cells cells.

End libc.

(** ** The decoders *)

(** [TNodeId] and [TBrowseName] as the code has them: the text is a
    pointer. *)
Module PNodeId.
Record t : Type := mk { nsIdx : Z; id : option Ptr }.
End PNodeId.
Abbreviation PNodeId := PNodeId.t.

Module PBrowseName.
Record t : Type := mk { nsIdx : Z; name : option Ptr }.
End PBrowseName.
Abbreviation PBrowseName := PBrowseName.t.

Section decoders.
Context (namespaces : list TNamespace).
Implicit Types (m : Mem) (p : Ptr).

Definition translateNodeId_at (id : PNodeId) : res PNodeId :=
  if (0 <? PNodeId.nsIdx id)%Z then
    let* n := ns_at namespaces (PNodeId.nsIdx id) in
    let* g := initialised (TNamespace.idx n) in
    Ok (PNodeId.mk (to_int g) (PNodeId.id id))
  else Ok id.

Definition translateBrowseName_at (bn : PBrowseName) : res PBrowseName :=
  if (0 <? PBrowseName.nsIdx bn)%Z then
    let* n := ns_at namespaces (PBrowseName.nsIdx bn) in
    let* g := initialised (TNamespace.idx n) in
    Ok (PBrowseName.mk (to_uint16 g) (PBrowseName.name bn))
  else Ok bn.

Definition extractNodedId_at m (s : option Ptr) : res PNodeId :=
  match s with
  | None => Ok (PNodeId.mk 0 None)
  | Some s =>
      let* idxSemi := strchr_at m s ";" in
      match idxSemi with
      | None => Ok (PNodeId.mk 0 (Some s))
      | Some idxSemi =>
          let* digits_at := ptr_add m s 3 in
          let* k := atoi_at m digits_at in
          let* rest := ptr_add m idxSemi 1 in
          translateNodeId_at (PNodeId.mk k (Some rest))
      end
  end.

Definition extractBrowseName_at m (s : option Ptr) : res PBrowseName :=
  let* s := nonnull s in
  let* bnName := strchr_at m s ":" in
  match bnName with
  | None => Ok (PBrowseName.mk 0 (Some s))
  | Some bnName =>
      let* k := atoi_at m s in
      let* rest := ptr_add m bnName 1 in
      translateBrowseName_at (PBrowseName.mk (to_uint16 k) (Some rest))
  end.

End decoders.

(** The first two statements of [extractAttributes]: the id and the
    browse name of the node are decoded from what [getAttributeValue]
    returns for NodeId and BrowseName. *)
Section extractAttributes.
Context (fill : cell) (namespaces : list TNamespace).
Implicit Types (m : Mem) (attributes : list (option Ptr)).

Definition extract_id_at attributes (attributeSize : Z) m : res (PNodeId * Mem) :=
  let* (s, m) := getAttributeValue_at fill attrNodeId attributes attributeSize m in
  let* id := extractNodedId_at namespaces m s in
  Ok (id, m).

Definition extract_browseName_at attributes (attributeSize : Z) m
  : res (PBrowseName * Mem) :=
  let* (s, m) := getAttributeValue_at fill attrBrowseName attributes attributeSize m in
  let* bn := extractBrowseName_at namespaces m s in
  Ok (bn, m).

End extractAttributes.

(** ** The library functions on the bytes of a string *)

(** The bytes of a string with its terminator. *)
Definition string_cells (s : string) : list cell :=
  (Some <$> list_ascii_of_string s) ++ [Some zero].

Section cells.
Implicit Types (s : string) (l : list ascii) (tail : list cell) (c : ascii).

(** [strchr] runs over bytes that are neither the character nor zero. *)
Lemma strchr_cells_skip l c tail :
  c ∉ l -> zero ∉ l ->
  strchr_cells ((Some <$> l) ++ tail) c =
  res_map (fmap (Nat.add (length l))) (strchr_cells tail c).
Proof.
  induction l as [|a l IH]; cbn.
  - intros _ _. by destruct (strchr_cells tail c) as [[k|]|].
  - intros [Hc Hl]%not_elem_of_cons [Hz Hl']%not_elem_of_cons.
    rewrite (proj2 (Ascii.eqb_neq a c)), (proj2 (Ascii.eqb_neq a zero)), IH by done.
    by destruct (strchr_cells tail c) as [[k|]|].
Qed.

Lemma skip_spaces_cells_string s tail :
  skip_spaces_cells ((Some <$> list_ascii_of_string s) ++ Some zero :: tail) =
  Ok ((Some <$> list_ascii_of_string (skip_spaces s)) ++ Some zero :: tail).
Proof. induction s as [|a s IH]; cbn; [done|]. by destruct (isspace a). Qed.

Lemma digits_cells_string acc s tail :
  digits_cells acc ((Some <$> list_ascii_of_string s) ++ Some zero :: tail) =
  Ok (digits acc s).
Proof.
  revert acc. induction s as [|a s IH]; intros acc; cbn; [done|].
  by destruct (digit_of a).
Qed.

(** The sign of [atoi], by comparison instead of by cases. *)
Lemma atoi_value_cons (a : ascii) (t : string) :
  match String a t with
  | String "-" s' => (- digits 0 s')%Z
  | String "+" s' => digits 0 s'
  | s' => digits 0 s'
  end =
  if Ascii.eqb a "-" then (- digits 0 t)%Z
  else if Ascii.eqb a "+" then digits 0 t else digits 0 (String a t).
Proof. destruct a as [[] [] [] [] [] [] [] []]; reflexivity. Qed.

(** On the bytes of a string [atoi] reads what it reads from the string,
    whatever follows the terminator. *)
Lemma atoi_cells_string s tail :
  atoi_cells ((Some <$> list_ascii_of_string s) ++ Some zero :: tail) = atoi s.
Proof.
  unfold atoi_cells, atoi. rewrite skip_spaces_cells_string. cbn [res_bind].
  destruct (skip_spaces s) as [|a t]; [done|]. rewrite atoi_value_cons.
  cbn [list_ascii_of_string fmap list_fmap app].
  destruct (Ascii.eqb a "-"); [by rewrite digits_cells_string|].
  destruct (Ascii.eqb a "+"); [by rewrite digits_cells_string|].
  pose proof (digits_cells_string 0 (String a t) tail) as Hd.
  cbn [list_ascii_of_string fmap list_fmap app] in Hd. by rewrite Hd.
Qed.

(** Behind the last byte of an object there is nothing to read. *)
Lemma atoi_cells_nil : atoi_cells [] = Trap OutOfBounds.
Proof. done. Qed.

End cells.

(** ** Pointers to strings *)

Section pointers.
Implicit Types (m : Mem) (p q : Ptr) (s : string) (cells : list cell) (n k : nat).

(** [p] points to the string [s], which fills its object to the end. *)
Definition points m p s : Prop :=
  no_nul s /\ bytes_at m p = Ok (string_cells s).

(** The pointer [n] bytes further. *)
Definition shift p n : Ptr := Ptr.mk (Ptr.obj p) (Ptr.off p + Z.of_nat n).

Lemma string_cells_length s : length (string_cells s) = S (String.length s).
Proof. unfold string_cells. rewrite length_app, length_fmap, chars_length. cbn. lia. Qed.

(** Arithmetic on a pointer, against the bytes from it to the end of its
    object. *)
Lemma bytes_at_shift m p cells n :
  bytes_at m p = Ok cells -> n <= length cells ->
  ptr_add m p (Z.of_nat n) = Ok (shift p n) /\
  bytes_at m (shift p n) = Ok (drop n cells).
Proof.
  unfold bytes_at, ptr_add, shift. cbn [Ptr.obj Ptr.off].
  destruct (contents m (Ptr.obj p)) as [all|]; [|done].
  cbn. case_bool_decide; [|done]. cbn. intros [= <-]. rewrite length_drop. intros Hn.
  rewrite !bool_decide_eq_true_2 by lia. cbn. split; [done|].
  rewrite drop_drop. do 2 f_equal. lia.
Qed.

Lemma ptr_add_past m p cells n :
  bytes_at m p = Ok cells -> length cells < n ->
  ptr_add m p (Z.of_nat n) = Trap OutOfBounds.
Proof.
  unfold bytes_at, ptr_add. destruct (contents m (Ptr.obj p)) as [all|]; [|done].
  cbn. case_bool_decide; [|done]. cbn. intros [= <-]. rewrite length_drop. intros Hn.
  by rewrite bool_decide_eq_false_2 by lia.
Qed.

(** What a pointer to a string reads. *)
Lemma points_cstring m p s : points m p s -> cstring m p = Ok s.
Proof.
  intros [Hs Hp]. unfold cstring. rewrite Hp. cbn.
  apply (read_string_copy s (Some zero) Hs).
Qed.

(** [&s[n]] on a pointer to a string. *)
Lemma points_offset m p s n s' :
  points m p s -> str_offset s n = Ok s' ->
  ptr_add m p (Z.of_nat n) = Ok (shift p n) /\ points m (shift p n) s'.
Proof.
  intros [Hs Hp] [Hn Hdrop]%str_offset_drop.
  destruct (bytes_at_shift m p _ n Hp) as [Hadd Hat].
  { rewrite string_cells_length. lia. }
  split; [done|]. split.
  - unfold no_nul in *. rewrite Hdrop. intros Hin. by apply Hs, (subseteq_drop n).
  - rewrite Hat. unfold string_cells.
    by rewrite drop_app_le, <- fmap_drop, Hdrop by (rewrite length_fmap, chars_length; lia).
Qed.

(** [atoi(&s[n])] where the string is shorter than [n]: the pointer is
    out of the object, or points behind its last byte. *)
Lemma points_past m p s n :
  points m p s -> String.length s < n ->
  (let* q := ptr_add m p (Z.of_nat n) in atoi_at m q) = Trap OutOfBounds.
Proof.
  intros [_ Hp] Hn. destruct (decide (n = S (String.length s))) as [->|].
  - destruct (bytes_at_shift m p _ (S (String.length s)) Hp) as [-> Hat].
    { by rewrite string_cells_length. }
    cbn [res_bind]. unfold atoi_at. rewrite Hat.
    by rewrite drop_ge by (rewrite string_cells_length; lia).
  - by rewrite (ptr_add_past m p (string_cells s)) by (rewrite ?string_cells_length; done || lia).
Qed.

Lemma points_atoi m p s : points m p s -> atoi_at m p = atoi s.
Proof.
  intros [_ Hp]. unfold atoi_at. rewrite Hp. cbn [res_bind].
  apply (atoi_cells_string s []).
Qed.

(** [strchr] on a pointer to a string: NULL when the string model finds
    nothing, and else the pointer to the suffix it finds. *)
Lemma points_strchr m p s c :
  points m p s -> c <> zero ->
  match strchr s c with
  | None => strchr_at m p c = Ok None
  | Some suffix =>
      exists k, strchr_at m p c = Ok (Some (shift p k)) /\ str_offset s k = Ok suffix
  end.
Proof.
  intros [Hs Hp] Hc. unfold strchr_at. rewrite Hp. cbn [res_bind]. unfold string_cells.
  destruct (strchr s c) as [suffix|] eqn:E.
  - apply strchr_Some in E as (pre & rest & -> & -> & Hpre%strchr_None).
    exists (String.length pre). split; [|apply str_offset_app].
    unfold no_nul in Hs. rewrite chars_app in Hs |- *. apply not_elem_of_app in Hs as [Hz _].
    rewrite fmap_app, <- app_assoc, strchr_cells_skip by done. cbn.
    rewrite Ascii.eqb_refl, chars_length. cbn. by rewrite Nat.add_0_r.
  - apply strchr_None in E. rewrite strchr_cells_skip by done. cbn [strchr_cells].
    by rewrite (proj2 (Ascii.eqb_neq zero c)), Ascii.eqb_refl by done.
Qed.

End pointers.

(** ** The decoders on pointers and on strings *)

Section refinement.
Context (namespaces : list TNamespace).
Implicit Types (m : Mem) (p q : Ptr) (s : string).

(** A decoded text on pointers against the text decoded on strings: a
    pointer to it, into the object of [p]. *)
Definition text_at m p (r : option Ptr) (text : cstr) : Prop :=
  exists q s, r = Some q /\ text = Some s /\ points m q s /\ Ptr.obj q = Ptr.obj p.

Definition id_at m p (r : PNodeId) (id : TNodeId) : Prop :=
  PNodeId.nsIdx r = TNodeId.nsIdx id /\ text_at m p (PNodeId.id r) (TNodeId.id id).

Definition browseName_at m p (r : PBrowseName) (bn : TBrowseName) : Prop :=
  PBrowseName.nsIdx r = TBrowseName.nsIdx bn /\
  text_at m p (PBrowseName.name r) (TBrowseName.name bn).

(** The translation touches the index only. *)
Lemma translateNodeId_at_rel m p k q s :
  points m q s -> Ptr.obj q = Ptr.obj p ->
  res_rel (id_at m p) (translateNodeId_at namespaces (PNodeId.mk k (Some q)))
    (translateNodeId namespaces (TNodeId.mk k (Some s))).
Proof.
  intros Hq Hobj. unfold translateNodeId_at, translateNodeId. cbn.
  assert (forall i, id_at m p (PNodeId.mk i (Some q)) (TNodeId.mk i (Some s))) as Hrel
    by (intros i; split; [done | by exists q, s]).
  destruct (0 <? k)%Z; [|apply Hrel]. destruct (ns_at _ _) as [n|]; [|done]. cbn.
  destruct (TNamespace.idx n); [apply Hrel | done].
Qed.

Lemma translateBrowseName_at_rel m p k q s :
  points m q s -> Ptr.obj q = Ptr.obj p ->
  res_rel (browseName_at m p) (translateBrowseName_at namespaces (PBrowseName.mk k (Some q)))
    (translateBrowseName namespaces (TBrowseName.mk k (Some s))).
Proof.
  intros Hq Hobj. unfold translateBrowseName_at, translateBrowseName. cbn.
  assert (forall i, browseName_at m p (PBrowseName.mk i (Some q)) (TBrowseName.mk i (Some s)))
    as Hrel by (intros i; split; [done | by exists q, s]).
  destruct (0 <? k)%Z; [|apply Hrel]. destruct (ns_at _ _) as [n|]; [|done]. cbn.
  destruct (TNamespace.idx n); [apply Hrel | done].
Qed.

(** The pointer behind the character [strchr] found. *)
Lemma points_behind m p s k c rest :
  points m p s -> str_offset s k = Ok (String c rest) ->
  ptr_add m (shift p k) 1 = Ok (shift (shift p k) 1) /\
  points m (shift (shift p k) 1) rest.
Proof.
  intros Hp Hk. destruct (points_offset m p s k _ Hp Hk) as [_ Hsuffix].
  apply (points_offset m (shift p k) (String c rest) 1 rest Hsuffix eq_refl).
Qed.

(** The two decoders of node ids on a text that is not NULL. *)
Lemma extractNodedId_at_sim m p s :
  points m p s ->
  res_rel (id_at m p) (extractNodedId_at namespaces m (Some p))
    (extractNodedId namespaces (Some s)).
Proof.
  intros Hp. unfold extractNodedId_at, extractNodedId.
  pose proof (points_strchr m p s ";" Hp ltac:(done)) as Hchr.
  destruct (strchr s ";") as [suffix|] eqn:E.
  - destruct Hchr as (k & -> & Hk). cbn [res_bind].
    apply strchr_Some in E as (pre & rest & _ & -> & _).
    destruct (str_offset s 3) as [d|u] eqn:E3; cbn [res_bind].
    + destruct (points_offset m p s 3 d Hp E3) as [Hadd Hd].
      change (Z.of_nat 3) with 3%Z in Hadd. rewrite Hadd. cbn [res_bind].
      rewrite (points_atoi _ _ _ Hd). destruct (atoi d) as [i|]; [|done]. cbn [res_bind].
      destruct (points_behind m p s k _ rest Hp Hk) as [-> Hrest]. cbn [res_bind str_offset].
      by apply translateNodeId_at_rel.
    + apply str_offset_Trap_inv in E3 as [-> Hlen].
      pose proof (points_past m p s 3 Hp Hlen) as Hpast.
      change (Z.of_nat 3) with 3%Z in Hpast.
      destruct (ptr_add m p 3) as [q|]; cbn [res_bind] in *;
        [by rewrite Hpast | by injection Hpast as ->].
  - rewrite Hchr. cbn [res_bind res_rel]. split; [done|]. by exists p, s.
Qed.

(** A text that may be NULL, on pointers and on strings. *)
Definition cstr_at m (r : option Ptr) (text : cstr) : Prop :=
  match r, text with
  | None, None => True
  | Some q, Some s => points m q s
  | _, _ => False
  end.

(** Two pointers into one object, where neither is NULL. *)
Definition inside (r q : option Ptr) : Prop :=
  match r, q with
  | Some p, Some q => Ptr.obj q = Ptr.obj p
  | _, _ => True
  end.

(** C21. Equivalence of [extractNodedId] as it is written, on pointers, with
    its model on strings.  On NULL, and on a pointer to a string that
    fills its object to the end, the function on pointers returns exactly
    when the model returns, with the same namespace index and an
    identifier that points, inside the object of the text, to the string
    the model returns; and when the model traps, the function has the
    same undefined behaviour: the pointer [&s[3]] is out of the object,
    or [atoi] reads behind its last byte, exactly when the model reads
    past the end of the string. *)
Theorem extractNodedId_at_refines m (r : option Ptr) (text : cstr) :
  cstr_at m r text ->
  res_rel
    (fun a id =>
       PNodeId.nsIdx a = TNodeId.nsIdx id /\
       cstr_at m (PNodeId.id a) (TNodeId.id id) /\ inside r (PNodeId.id a))
    (extractNodedId_at namespaces m r) (extractNodedId namespaces text).
Proof.
  destruct r as [p|], text as [s|]; try done. intros Hp.
  eapply res_rel_mono; [|by apply extractNodedId_at_sim].
  intros a id (Hns & q & s' & Hq & Hs & Hqs & Hobj). rewrite Hq, Hs. by cbn.
Qed.

(** [extractBrowseName] on pointers and on strings, in the same way. *)
Theorem extractBrowseName_at_refines m p s :
  points m p s ->
  res_rel (browseName_at m p) (extractBrowseName_at namespaces m (Some p))
    (extractBrowseName namespaces (Some s)).
Proof.
  intros Hp. unfold extractBrowseName_at, extractBrowseName. cbn [nonnull res_bind].
  pose proof (points_strchr m p s ":" Hp ltac:(done)) as Hchr.
  destruct (strchr s ":") as [suffix|] eqn:E.
  - destruct Hchr as (k & -> & Hk). cbn [res_bind].
    apply strchr_Some in E as (pre & rest & _ & -> & _).
    rewrite (points_atoi _ _ _ Hp). destruct (atoi s) as [i|]; [|done]. cbn [res_bind].
    destruct (points_behind m p s k _ rest Hp Hk) as [-> Hrest]. cbn [res_bind str_offset].
    by apply translateBrowseName_at_rel.
  - rewrite Hchr. cbn [res_bind res_rel]. split; [done|]. by exists p, s.
Qed.

End refinement.

(** ** The id and the browse name of a node, from the attributes of its start tag *)

Section node_id.
Context (namespaces : list TNamespace).
Implicit Types (m : Mem) (attributes : list (option Ptr)) (xs : list XmlAttr).

(** The copy of a value into cleared memory is a string that fills its
    block. *)
Lemma points_copied v m :
  no_nul v ->
  points
    (Mem.set_arena (Mem.arena m ++ [(Some <$> list_ascii_of_string v) ++ [Some zero]]) m)
    (Ptr.mk (Block (length (Mem.arena m))) 0) v.
Proof. intros Hv. split; [done | apply bytes_at_copied]. Qed.

(** What a decoder returns beside its index: a pointer at which the
    program reads the text of the model, into the object it was given. *)
Lemma text_at_read m p r text :
  text_at m p r text ->
  read_cstr m r = Ok text /\ forall q, r = Some q -> Ptr.obj q = Ptr.obj p.
Proof.
  intros (q & s & -> & -> & Hqs & Hobj). split; [|by intros ? [= <-]].
  exact (f_equal (res_map Some) (points_cstring _ q s Hqs)).
Qed.

(** C22. The first statement of [extractAttributes], on the memory of the
    program, against its model on strings.  On an array that encodes the
    attributes of a start tag, with an arena whose memory is cleared, the
    statement returns exactly when the model returns and has the same
    undefined behaviour when the model traps; the arena has then grown by
    one block, the copy of the value of NodeId with its terminator, or
    not at all when the attribute is absent; the namespace index is that
    of the model; and the identifier of the node is a pointer into that
    very block (P4, on bytes), at which the program reads the identifier
    the model returns. *)
Theorem extract_id_at_refines attributes m xs :
  encoded m attributes xs ->
  (5 * Z.of_nat (length xs) <= INT_MAX)%Z ->
  (Z.of_nat (length (Mem.input m)) < SIZE_MAX)%Z ->
  Forall (fun x => no_nul (XmlAttr.value x)) xs ->
  res_rel
    (fun r id =>
       Mem.arena r.2 = Mem.arena m ++ (string_cells <$> attr_blocks attrNodeId xs) /\
       PNodeId.nsIdx r.1 = TNodeId.nsIdx id /\
       read_cstr r.2 (PNodeId.id r.1) = Ok (TNodeId.id id) /\
       forall q, PNodeId.id r.1 = Some q -> Ptr.obj q = Block (length (Mem.arena m)))
    (extract_id_at (Some zero) namespaces attributes (Z.of_nat (length xs)) m)
    (extractNodedId namespaces (attr_value attrNodeId xs)).
Proof.
  intros Henc Hint Hsz Hnul. unfold extract_id_at, attr_value, attr_blocks.
  rewrite (getAttributeValue_at_eq _ _ _ _ xs) by done.
  destruct (find_attribute _ xs) as [v|] eqn:Hfind; cbn [res_bind copied]; [|by rewrite app_nil_r].
  pose proof (points_copied v m (find_attribute_no_nul _ xs v Hnul Hfind)) as Hp.
  eapply (res_rel_ret _ _ _ _ (fun id => (id, _))); [|by apply extractNodedId_at_sim].
  intros r id [Hns [Hread Hobj]%text_at_read]. by cbn.
Qed.

(** C23. The second statement of [extractAttributes], on the memory of the
    program, against its model on strings: [extractBrowseName] on what
    [getAttributeValue] returns for BrowseName.  With an arena whose
    memory is cleared the two return together, with the same index
    (truncated to 16 bits) and a name that points into the block the arena
    has just handed out, at which the program reads the name the model
    returns; and they trap together, with the same undefined behaviour: a
    start tag without BrowseName is a NULL dereference in [strchr], in the
    program as in the model. *)
Theorem extract_browseName_at_refines attributes m xs :
  encoded m attributes xs ->
  (5 * Z.of_nat (length xs) <= INT_MAX)%Z ->
  (Z.of_nat (length (Mem.input m)) < SIZE_MAX)%Z ->
  Forall (fun x => no_nul (XmlAttr.value x)) xs ->
  res_rel
    (fun r bn =>
       Mem.arena r.2 = Mem.arena m ++ (string_cells <$> attr_blocks attrBrowseName xs) /\
       PBrowseName.nsIdx r.1 = TBrowseName.nsIdx bn /\
       read_cstr r.2 (PBrowseName.name r.1) = Ok (TBrowseName.name bn) /\
       forall q, PBrowseName.name r.1 = Some q -> Ptr.obj q = Block (length (Mem.arena m)))
    (extract_browseName_at (Some zero) namespaces attributes (Z.of_nat (length xs)) m)
    (extractBrowseName namespaces (attr_value attrBrowseName xs)).
Proof.
  intros Henc Hint Hsz Hnul. unfold extract_browseName_at, attr_value, attr_blocks.
  rewrite (getAttributeValue_at_eq _ _ _ _ xs) by done.
  destruct (find_attribute _ xs) as [v|] eqn:Hfind; cbn [res_bind copied]; [|done].
  pose proof (points_copied v m (find_attribute_no_nul _ xs v Hnul Hfind)) as Hp.
  eapply (res_rel_ret _ _ _ _ (fun bn => (bn, _))); [|by apply extractBrowseName_at_refines].
  intros r bn [Hns [Hread Hobj]%text_at_read]. by cbn.
Qed.

(** C36. When the memory of the arena is not cleared, a node whose NodeId
    has no semicolon (an id of namespace 0, as "i=85") cannot be decoded:
    [strchr] runs through the copy into the byte behind it, which nothing
    has written. *)
Theorem extract_id_at_unterminated attributes m xs v :
  encoded m attributes xs ->
  (5 * Z.of_nat (length xs) <= INT_MAX)%Z ->
  (Z.of_nat (length (Mem.input m)) < SIZE_MAX)%Z ->
  find_attribute (NodeAttribute.name attrNodeId) xs = Some v ->
  no_nul v -> strchr v ";" = None ->
  extract_id_at None namespaces attributes (Z.of_nat (length xs)) m = Trap Uninitialised.
Proof.
  intros Henc Hint Hsz Hfind Hv Hsemi%strchr_None. unfold extract_id_at.
  rewrite (getAttributeValue_at_eq _ _ _ _ xs), Hfind by done.
  cbn [res_bind copied extractNodedId_at]. unfold strchr_at.
  by rewrite bytes_at_copied; cbn [res_bind]; rewrite strchr_cells_skip.
Qed.

End node_id.
