(* ===== verification/Header.v ===== *)
(** * The declarations of nodeset.h

    nodeset.h is the header of an earlier design of the builder.  Nodeset.c
    does not include it: the two files define the same capacities under
    the same names, and Nodeset.c has structs and prototypes of its own.
    The header is what is left in the sources of the driver's side: the
    names of the elements the driver looks for, the states of its
    callbacks and its context.  The functions that move between the states
    are the driver's and are not among the sources, so the declarations
    are kept here as data and no transition is modelled.

    The comparisons at the end say where the header and Nodeset.c agree and
    where they do not. *)

From Stdlib Require Import String.
From stdpp Require Import strings gmap.
From S2P Require Import Prelude CString Model Attributes Classifier Sorter Builder.

(** ** The names of the elements *)

Definition OBJECT : string := "UAObject".
Definition METHOD : string := "UAMethod".
Definition OBJECTTYPE : string := "UAObjectType".
Definition VARIABLE : string := "UAVariable".
Definition DATATYPE : string := "UADataType".
Definition REFERENCETYPE : string := "UAReferenceType".
Definition DISPLAYNAME : string := "DisplayName".
Definition REFERENCES : string := "References".
Definition REFERENCE : string := "Reference".
Definition DESCRIPTION : string := "Description".
Definition ALIAS : string := "Alias".
Definition NAMESPACEURIS : string := "NamespaceUris".
Definition NAMESPACEURI : string := "Uri".

(** ** The states and the context of the parser *)

Inductive TParserState : Type :=
| PARSER_STATE_INIT
| PARSER_STATE_NODE
| PARSER_STATE_DISPLAYNAME
| PARSER_STATE_REFERENCES
| PARSER_STATE_REFERENCE
| PARSER_STATE_DESCRIPTION
| PARSER_STATE_ALIAS
| PARSER_STATE_UNKNOWN
| PARSER_STATE_NAMESPACEURIS
| PARSER_STATE_URI.

#[export] Instance TParserState_eq_dec : EqDecision TParserState.
Proof. solve_decision. Defined.

(** [struct TParserCtx]: the state, the class and the address of the node
    under construction, and the address of the field that receives the
    next text. *)
Module TParserCtx.
Record t : Type := mk {
  state : TParserState;
  nodeClass : TNodeClass;
  node : option ptr;
  nextOnCharacters : option ptr;
}.
End TParserCtx.
Abbreviation TParserCtx := TParserCtx.t.

(** ** The builder of the earlier design *)

Module nodeset_h.

(** The capacities. *)
Definition MAX_OBJECTTYPES : Z := 1000.
Definition MAX_OBJECTS : Z := 100000.
Definition MAX_METHODS : Z := 1000.
Definition MAX_DATATYPES : Z := 1000.
Definition MAX_VARIABLES : Z := 1000000.
Definition MAX_REFERENCETYPES : Z := 1000.
Definition MAX_HIERACHICAL_REFS : nat := 50.
Definition MAX_ALIAS : Z := 100.
Definition MAX_REFCOUNTEDCHARS : Z := 1000000.
Definition MAX_REFCOUNTEDREFS : Z := 1000000.

(** [NodeAttribute], with a flag Nodeset.c does not have. *)
Module NodeAttribute.
Record t : Type := mk { name : string; defaultValue : cstr; optional : bool }.
End NodeAttribute.

(** The descriptors the header declares, by the attribute each reads. *)
Definition declared_attributes : list string :=
  [ATTRIBUTE_NODEID; ATTRIBUTE_BROWSENAME; ATTRIBUTE_PARENTNODEID;
   ATTRIBUTE_EVENTNOTIFIER; ATTRIBUTE_DATATYPE; ATTRIBUTE_VALUERANK;
   ATTRIBUTE_ARRAYDIMENSIONS; ATTRIBUTE_ISABSTRACT; ATTRIBUTE_ISFORWARD;
   ATTRIBUTE_REFERENCETYPE; ATTRIBUTE_ALIAS].

(** [struct Nodeset]: arrays with their counts, where Nodeset.c has an
    alias list and a character arena, and no table of hierarchical
    reference types. *)
Module Nodeset.
Record t : Type := mk {
  countedRefs : list ptr;               (* refsSize is its length *)
  countedChars : list string;           (* charsSize is its length *)
  aliasArray : list Alias;              (* aliasSize is its length *)
  nodes : TNodeClass -> NodeContainer;
  namespaceTable : TNamespaceTable;
}.
End Nodeset.

End nodeset_h.

(** ** The header and Nodeset.c *)

(** The names of the node elements.  Nodeset.c has seven classes of
    nodes; the header has no name for the element of a VariableType. *)
Definition node_elements : list string :=
  [OBJECT; METHOD; OBJECTTYPE; VARIABLE; DATATYPE; REFERENCETYPE].

Example no_VariableType_element :
  length all_classes = 7 /\ length node_elements = 6 /\
  "UAVariableType" ∉ node_elements.
Proof. split; [done | split; [done | by_eval]]. Qed.

(** The capacities both files define are equal, except the number of
    characters, which neither uses. *)
Example capacities :
  (nodeset_h.MAX_OBJECTTYPES, nodeset_h.MAX_OBJECTS, nodeset_h.MAX_METHODS,
   nodeset_h.MAX_DATATYPES, nodeset_h.MAX_VARIABLES, nodeset_h.MAX_REFERENCETYPES,
   nodeset_h.MAX_HIERACHICAL_REFS, nodeset_h.MAX_REFCOUNTEDREFS)
  = (MAX_OBJECTTYPES, MAX_OBJECTS, MAX_METHODS, MAX_DATATYPES, MAX_VARIABLES,
     MAX_REFERENCETYPES, MAX_HIERACHICAL_REFS, MAX_REFCOUNTEDREFS) /\
  nodeset_h.MAX_REFCOUNTEDCHARS <> MAX_REFCOUNTEDCHARS.
Proof. split; [done | by_eval]. Qed.

(** The descriptors of Nodeset.c the header does not declare. *)
Example undeclared_descriptors :
  filter (fun a => a ∉ nodeset_h.declared_attributes)
    (NodeAttribute.name <$>
       [attrNodeId; attrBrowseName; attrParentNodeId; attrEventNotifier;
        attrDataType; attrValueRank; attrArrayDimensions; attrIsAbstract;
        attrIsForward; attrReferenceType; attrAlias; attrExecutable;
        attrUserExecutable; attrAccessLevel; attrUserAccessLevel; attrSymmetric])
  = ["Executable"; "UserExecutable"; "AccessLevel"; "UserAccessLevel"; "Symmetric"].
Proof. by_run. Qed.
