(* ===== verification/Driver.v ===== *)
(** * The driver's protocol: loading a document

    The SAX driver is not among the sources; what the builder fixes of it
    is the surface it calls, eight functions in four pairs.  Each pair
    brackets one element of the file: the start tag gives the attributes to
    the [new] function, which returns a handle, and the text of the element
    goes with that handle to the [finish] function.  This file models that
    protocol over the elements of a document that reach the builder
    (namespace URIs, aliases, nodes with their references), as the
    composition of the builder's functions in which every handle is the one
    the builder returned.

    The theorems relate a load to a run of the event machine of [Machine]
    over an explicit sequence of calls, and follow the nodes of a document
    through the whole import: every node element becomes one block of the
    heap, is handed to the sorter once, is delivered to the host once, and
    is freed by the cleanup. *)

From Stdlib Require Import String.
From stdpp Require Import strings gmap functions.
From S2P Require Import Prelude CString Model Namespace Attributes Alias Classifier.
From S2P Require Import Sorter Builder Emit Machine.

(** ** Documents *)

(** A Reference element: its attributes and its text. *)
Module RefElem.
Record t : Type := mk { attributes : list XmlAttr; targetId : cstr }.
End RefElem.
Abbreviation RefElem := RefElem.t.

(** A node element (UAObject, UAVariable, ...): its class, its attributes
    and the Reference elements under it, in the order of the file. *)
Module NodeElem.
Record t : Type := mk {
  nodeClass : TNodeClass;
  attributes : list XmlAttr;
  references : list RefElem;
}.
End NodeElem.
Abbreviation NodeElem := NodeElem.t.

Inductive Element : Type :=
| UriElement (namespaceUri : cstr)
| AliasElement (attributes : list XmlAttr) (idString : cstr)
| NodeElement (e : NodeElem).

Definition Document : Type := list Element.

(** ** The driver *)

Definition load_reference (node : ptr) (w : World) (e : RefElem) : res World :=
  let* (ref, w) := Nodeset_newReference node (RefElem.attributes e) w in
  Nodeset_newReferenceFinish ref (RefElem.targetId e) w.

Definition load_node (e : NodeElem) (w : World) : res World :=
  let* (node, w) :=
    Nodeset_newNode (NodeElem.nodeClass e) (NodeElem.attributes e) w in
  let* w := res_fold (load_reference node) (NodeElem.references e) w in
  Nodeset_newNodeFinish node w.

Definition load_element (w : World) (e : Element) : res World :=
  match e with
  | UriElement namespaceUri =>
      let '(_, w) := Nodeset_newNamespace w in
      Nodeset_newNamespaceFinish namespaceUri w
  | AliasElement attributes idString =>
      let '(alias, w) := Nodeset_newAlias attributes w in
      Nodeset_newAliasFinish alias idString w
  | NodeElement e => load_node e w
  end.

Definition load (doc : Document) (w : World) : res World :=
  res_fold load_element doc w.

(** ** The calls of a load *)

(** The handles are determined by the state a load starts from: malloc
    hands out the block at the allocation mark, and an alias is its position
    in the list. *)
Fixpoint calls_of_references (node brk : ptr) (refs : list RefElem) : list Call :=
  match refs with
  | [] => []
  | e :: refs =>
      CallNewReference node (RefElem.attributes e)
        :: CallNewReferenceFinish brk (RefElem.targetId e)
        :: calls_of_references node (S brk) refs
  end.

Definition calls_of_element (brk : ptr) (alias : nat) (e : Element) : list Call :=
  match e with
  | UriElement namespaceUri =>
      [CallNewNamespace; CallNewNamespaceFinish namespaceUri]
  | AliasElement attributes idString =>
      [CallNewAlias attributes; CallNewAliasFinish alias idString]
  | NodeElement e =>
      CallNewNode (NodeElem.nodeClass e) (NodeElem.attributes e)
        :: calls_of_references brk (S brk) (NodeElem.references e)
        ++ [CallNewNodeFinish brk]
  end.

(** The blocks an element takes from malloc, and the aliases it declares. *)
Definition blocks (e : Element) : nat :=
  match e with
  | NodeElement e => S (length (NodeElem.references e))
  | _ => 0
  end.

Definition declares (e : Element) : nat :=
  match e with AliasElement _ _ => 1 | _ => 0 end.

Fixpoint calls_of (brk : ptr) (alias : nat) (doc : Document) : list Call :=
  match doc with
  | [] => []
  | e :: doc =>
      calls_of_element brk alias e
        ++ calls_of (brk + blocks e) (alias + declares e) doc
  end.

(** ** The two marks *)

Section marks.
Implicit Types (w : World) (c : Call) (calls : list Call).

(** What a call takes from malloc and adds to the alias list. *)
Definition allocates c : nat :=
  match c with CallNewNode _ _ | CallNewReference _ _ => 1 | _ => 0 end.

Definition appends c : nat :=
  match c with CallNewAlias _ => 1 | _ => 0 end.

Lemma run_cons c calls w :
  run (c :: calls) w = (let* w' := call w c in run calls w').
Proof. done. Qed.

Lemma run_app calls1 calls2 w :
  run (calls1 ++ calls2) w = (let* w' := run calls1 w in run calls2 w').
Proof. apply res_fold_app. Qed.

Lemma Nodeset_newNodeFinish_marks node w w' :
  Nodeset_newNodeFinish node w = Ok w' ->
  World.brk w' = World.brk w /\ aliases_of w' = aliases_of w.
Proof.
  intros (n & _ & _ & Hrest)%Nodeset_newNodeFinish_Ok. case_decide; [|by subst].
  by apply addIfHierachicalReferenceType_Ok in Hrest as (? & ? & _ & _ & ->).
Qed.

(** Every call moves the allocation mark and the length of the alias list
    by what it takes, whatever its arguments. *)
Lemma call_marks w c w' :
  call w c = Ok w' ->
  World.brk w' = World.brk w + allocates c /\
  length (aliases_of w') = length (aliases_of w) + appends c.
Proof.
  unfold aliases_of. destruct c; simpl; intros Hrun.
  - injection Hrun as <-. cbn. lia.
  - unfold Nodeset_newNamespaceFinish in Hrun. res_inv. cbn. lia.
  - injection Hrun as <-. unfold Nodeset_newAlias. rewrite getAttributeValue_eq.
    cbn. rewrite length_app. simpl. done.
  - unfold Nodeset_newAliasFinish in Hrun. res_inv. cbn.
    rewrite length_insert. lia.
  - destruct (Nodeset_newNode _ _ _) as [[node w1]|] eqn:E; simplify_eq/=.
    apply Nodeset_newNode_Ok in E as (n & -> & -> & _ & _ & _ & Hsame & _).
    destruct Hsame as (Ha & _). unfold aliases_of in Ha. rewrite Ha. lia.
  - destruct (Nodeset_newReference _ _ _) as [[r w1]|] eqn:E; simplify_eq/=.
    apply Nodeset_newReference_Ok in E
      as (? & ? & ? & ? & _ & _ & _ & _ & -> & -> & _ & _ & _ & Hsame).
    destruct Hsame as (Ha & _). unfold aliases_of in Ha. rewrite Ha. lia.
  - apply Nodeset_newReferenceFinish_Ok in Hrun as (? & ? & _ & _ & ->). cbn. lia.
  - apply Nodeset_newNodeFinish_marks in Hrun as [-> Ha].
    unfold aliases_of in Ha. rewrite Ha. lia.
Qed.

Lemma run_marks calls w w' :
  run calls w = Ok w' ->
  World.brk w' = World.brk w + sum_list (allocates <$> calls) /\
  length (aliases_of w') = length (aliases_of w) + sum_list (appends <$> calls).
Proof.
  revert w. induction calls as [|c calls IH]; intros w.
  - intros [= <-]. cbn. lia.
  - rewrite run_cons. intros Hrun. res_inv.
    match goal with H : call _ _ = _ |- _ => apply call_marks in H as [Hb Ha] end.
    apply IH in Hrun as [-> ->]. rewrite Hb, Ha. cbn. lia.
Qed.

Lemma allocates_references node brk refs :
  sum_list (allocates <$> calls_of_references node brk refs) = length refs.
Proof. revert brk. induction refs as [|e refs IH]; intros brk; cbn; [done | by rewrite IH]. Qed.

Lemma appends_references node brk refs :
  sum_list (appends <$> calls_of_references node brk refs) = 0.
Proof. revert brk. induction refs as [|e refs IH]; intros brk; cbn; [done | by rewrite IH]. Qed.

End marks.

(** ** The nodes of a run *)

Section nodes.
Implicit Types (w : World) (c : Call) (calls : list Call) (p : ptr).

(** The node a call creates, at the allocation mark, and the node it hands
    to the sorter. *)
Definition creates (brk : ptr) c : list (ptr * TNodeClass) :=
  match c with CallNewNode nodeClass _ => [(brk, nodeClass)] | _ => [] end.

Definition finishes c : list ptr :=
  match c with CallNewNodeFinish node => [node] | _ => [] end.

(** What a call does to the nodes: the heap gains the node it creates, with
    the class asked for, every other node keeps its class; the sorter is
    given the node it finishes; the host is not given any node. *)
Lemma call_nodes w c w' :
  wf_world w -> call w c = Ok w' ->
  (forall p cl, class_of w' p = Some cl <->
     class_of w p = Some cl \/ (p, cl) ∈ creates (World.brk w) c) /\
  World.sortNodes w' = World.sortNodes w ++ finishes c /\
  added (World.trace w') = added (World.trace w).
Proof.
  intros Hwf. unfold class_of.
  destruct c; simpl; intros Hrun; rewrite ?app_nil_r.
  - injection Hrun as <-. cbn. set_solver.
  - unfold Nodeset_newNamespaceFinish in Hrun. res_inv. cbn.
    rewrite added_app, app_nil_r. set_solver.
  - injection Hrun as <-. unfold Nodeset_newAlias. rewrite getAttributeValue_eq.
    cbn. set_solver.
  - unfold Nodeset_newAliasFinish in Hrun. res_inv. cbn. set_solver.
  - destruct (Nodeset_newNode _ _ _) as [[node w1]|] eqn:E; simplify_eq/=.
    apply Nodeset_newNode_Ok in E
      as (n & -> & _ & -> & _ & _ & Hsame & <- & _).
    destruct Hsame as (_ & _ & _ & _ & -> & ->). split; [|done].
    intros p cl. rewrite list_elem_of_singleton.
    destruct (decide (p = World.brk w)) as [->|Hne].
    + rewrite lookup_insert_eq, (wf_world_fresh_node w Hwf). naive_solver.
    + rewrite lookup_insert_ne by done. naive_solver.
  - destruct (Nodeset_newReference _ _ _) as [[r w1]|] eqn:E; simplify_eq/=.
    apply Nodeset_newReference_Ok in E
      as (? & ? & hier & n & _ & _ & _ & Hn & _ & _ & _ & -> & _ & Hsame).
    destruct Hsame as (_ & _ & _ & _ & -> & ->). split; [|done].
    intros p cl. destruct (decide (p = node)) as [->|Hne].
    + rewrite lookup_insert_eq, Hn. destruct hier; set_solver.
    + rewrite lookup_insert_ne by done. set_solver.
  - apply Nodeset_newReferenceFinish_Ok in Hrun as (? & ? & _ & _ & ->). cbn.
    set_solver.
  - apply Nodeset_newNodeFinish_Ok in Hrun as (n & _ & -> & Hrest).
    assert (exists t, w' = with_table t (Sort_addNode node w)) as [t ->].
    { case_decide; [|by exists (table_of w); destruct w as [[]]].
      apply addIfHierachicalReferenceType_Ok in Hrest as (? & ? & _ & _ & ->). eauto. }
    cbn. set_solver.
Qed.

(** The nodes a run creates, from the allocation mark it starts at, and
    the nodes it hands to the sorter. *)
Fixpoint nodes_created (brk : ptr) calls : list (ptr * TNodeClass) :=
  match calls with
  | [] => []
  | c :: calls => creates brk c ++ nodes_created (brk + allocates c) calls
  end.

Definition nodes_finished calls : list ptr := calls ≫= finishes.

Lemma nodes_created_app brk calls1 calls2 :
  nodes_created brk (calls1 ++ calls2) =
  nodes_created brk calls1 ++
  nodes_created (brk + sum_list (allocates <$> calls1)) calls2.
Proof.
  revert brk. induction calls1 as [|c calls1 IH]; intros brk; cbn.
  - by rewrite Nat.add_0_r.
  - by rewrite IH, <- app_assoc, Nat.add_assoc.
Qed.

Lemma run_nodes calls w w' :
  wf_world w -> run calls w = Ok w' ->
  (forall p cl, class_of w' p = Some cl <->
     class_of w p = Some cl \/ (p, cl) ∈ nodes_created (World.brk w) calls) /\
  World.sortNodes w' = World.sortNodes w ++ nodes_finished calls /\
  added (World.trace w') = added (World.trace w).
Proof.
  revert w. induction calls as [|c calls IH]; intros w Hwf.
  - intros [= <-]. cbn. rewrite app_nil_r. set_solver.
  - rewrite run_cons. intros Hrun. res_inv.
    match goal with H : call _ _ = _ |- _ =>
      pose proof (wf_world_call _ _ _ H Hwf) as Hwf';
      pose proof (call_marks _ _ _ H) as [Hb _];
      apply (call_nodes _ _ _ Hwf) in H as (Hcl & Hs & Ht) end.
    apply (IH _ Hwf') in Hrun as (Hcl' & -> & ->).
    rewrite Hs, Ht, <- app_assoc. rewrite Hb in Hcl'. split; [|done].
    intros p cl. rewrite Hcl', Hcl. cbn [nodes_created]. set_solver.
Qed.

End nodes.

(** ** A load is a run of its calls *)

Section load_run.
Implicit Types (w : World) (node : ptr) (e : Element) (doc : Document).

Lemma load_references_run node refs w :
  res_fold (load_reference node) refs w =
  run (calls_of_references node (World.brk w) refs) w.
Proof.
  revert w. induction refs as [|e refs IH]; intros w; [done|].
  cbn [res_fold calls_of_references]. rewrite run_cons. unfold load_reference at 1.
  cbn [call]. destruct (Nodeset_newReference _ _ _) as [[r w1]|] eqn:E; [|done].
  cbn [res_map res_bind snd]. rewrite run_cons. cbn [call].
  apply Nodeset_newReference_Ok in E
    as (? & ? & ? & ? & _ & _ & _ & _ & -> & Hb & _).
  destruct (Nodeset_newReferenceFinish _ _ _) as [w2|] eqn:E2; [|done].
  cbn [res_bind]. rewrite IH. f_equal.
  apply Nodeset_newReferenceFinish_Ok in E2 as (? & ? & _ & _ & ->). cbn.
  by rewrite Hb.
Qed.

Lemma load_element_run e w :
  load_element w e =
  run (calls_of_element (World.brk w) (length (aliases_of w)) e) w.
Proof.
  destruct e as [uri|attributes idString|e]; cbn [load_element calls_of_element].
  - rewrite run_cons. cbn [call res_bind]. rewrite run_cons. cbn [call].
    destruct (Nodeset_newNamespace w) as [i w1]. cbn [snd].
    by destruct (Nodeset_newNamespaceFinish _ _).
  - rewrite run_cons. cbn [call res_bind]. rewrite run_cons. cbn [call].
    replace (length (aliases_of w)) with (fst (Nodeset_newAlias attributes w)).
    + destruct (Nodeset_newAlias attributes w) as [alias w1]. cbn.
      by destruct (Nodeset_newAliasFinish _ _ _).
    + unfold Nodeset_newAlias. by rewrite getAttributeValue_eq.
  - rewrite run_cons. unfold load_node. cbn [call].
    destruct (Nodeset_newNode _ _ _) as [[node w1]|] eqn:E; [|done].
    cbn [res_map res_bind snd]. rewrite run_app.
    apply Nodeset_newNode_Ok in E as (n & -> & Hb & _).
    rewrite load_references_run, Hb.
    destruct (run _ w1) as [w2|]; [|done]. cbn [res_bind].
    rewrite run_cons. cbn [call]. by destruct (Nodeset_newNodeFinish _ _).
Qed.

Lemma load_element_marks e w w' :
  load_element w e = Ok w' ->
  World.brk w' = World.brk w + blocks e /\
  length (aliases_of w') = length (aliases_of w) + declares e.
Proof.
  rewrite load_element_run. intros [-> ->]%run_marks. split; f_equal.
  - destruct e as [| |e]; cbn; [done..|].
    rewrite fmap_app, sum_list_app, allocates_references. cbn. lia.
  - destruct e as [| |e]; cbn; [done..|].
    rewrite fmap_app, sum_list_app, appends_references. cbn. lia.
Qed.

(** The driver, which threads the handles the builder returns through its
    calls, does what the event machine does on the explicit sequence of
    calls of the document, in which every handle is computed from the
    allocation mark and the length of the alias list at the start.  The
    two agree on the final state and on the trap, if any. *)
Lemma load_run doc w :
  load doc w = run (calls_of (World.brk w) (length (aliases_of w)) doc) w.
Proof.
  revert w. induction doc as [|e doc IH]; intros w; [done|].
  unfold load. cbn [res_fold calls_of]. rewrite run_app, <- load_element_run.
  destruct (load_element w e) as [w1|] eqn:E; [|done]. cbn [res_bind].
  apply load_element_marks in E as [<- <-]. apply IH.
Qed.

End load_run.

(** ** The nodes of a document *)

(** The node an element becomes, at the allocation mark the element is
    loaded at, and the nodes of a document loaded from a mark: each node
    element takes one block for the node and one per reference. *)
Definition node_of (brk : ptr) (e : Element) : list (ptr * TNodeClass) :=
  match e with
  | NodeElement e => [(brk, NodeElem.nodeClass e)]
  | _ => []
  end.

Fixpoint nodes_of (brk : ptr) (doc : Document) : list (ptr * TNodeClass) :=
  match doc with
  | [] => []
  | e :: doc => node_of brk e ++ nodes_of (brk + blocks e) doc
  end.

Section nodes_of.
Implicit Types (w : World) (e : Element) (doc : Document) (p brk : ptr).

Lemma nodes_created_references node brk brk' refs :
  nodes_created brk (calls_of_references node brk' refs) = [].
Proof.
  revert brk brk'. induction refs as [|e refs IH]; intros brk brk'; cbn; [done|].
  apply IH.
Qed.

Lemma nodes_finished_references node brk refs :
  nodes_finished (calls_of_references node brk refs) = [].
Proof.
  revert brk. induction refs as [|e refs IH]; intros brk; cbn; [done|]. apply IH.
Qed.

Lemma calls_of_element_nodes brk alias e :
  nodes_created brk (calls_of_element brk alias e) = node_of brk e /\
  nodes_finished (calls_of_element brk alias e) = (node_of brk e).*1 /\
  sum_list (allocates <$> calls_of_element brk alias e) = blocks e.
Proof.
  destruct e as [| |e]; cbn; [done..|]. unfold nodes_finished.
  rewrite nodes_created_app, nodes_created_references, bind_app.
  fold (nodes_finished (calls_of_references brk (S brk) (NodeElem.references e))).
  rewrite nodes_finished_references, fmap_app, sum_list_app, allocates_references.
  cbn. split; [done|]. split; [done | lia].
Qed.

Lemma calls_of_nodes brk alias doc :
  nodes_created brk (calls_of brk alias doc) = nodes_of brk doc /\
  nodes_finished (calls_of brk alias doc) = (nodes_of brk doc).*1.
Proof.
  revert brk alias. induction doc as [|e doc IH]; intros brk alias; [done|].
  cbn [calls_of nodes_of]. unfold nodes_finished.
  destruct (calls_of_element_nodes brk alias e) as (Hc & Hf & Hb).
  destruct (IH (brk + blocks e) (alias + declares e)) as [Hc' Hf'].
  rewrite nodes_created_app, bind_app, fmap_app, Hc, Hb, Hc'.
  unfold nodes_finished in Hf, Hf'. by rewrite Hf, Hf'.
Qed.

(** The nodes of a document lie at or above the mark, at addresses that
    grow with the position in the document. *)
Lemma nodes_of_above brk doc p :
  p ∈ (nodes_of brk doc).*1 -> brk <= p.
Proof.
  revert brk. induction doc as [|e doc IH]; intros brk; cbn [nodes_of].
  - by intros ?%elem_of_nil.
  - rewrite fmap_app, elem_of_app. intros [Hp|Hp%IH]; [|lia].
    destruct e; cbn in Hp; set_solver.
Qed.

Lemma nodes_of_NoDup brk doc : NoDup (nodes_of brk doc).*1.
Proof.
  revert brk. induction doc as [|e doc IH]; intros brk; cbn [nodes_of].
  - constructor.
  - rewrite fmap_app. apply NoDup_app. split; [|split; [|apply IH]].
    + destruct e; cbn; repeat constructor; set_solver.
    + intros p Hp Hp'%nodes_of_above. destruct e; cbn in *; [set_solver..|].
      apply list_elem_of_singleton in Hp. lia.
Qed.

(** The nodes after a load: the heap holds what it held and one node per
    node element of the document, of the class of the element; each of
    them has been handed to the sorter, in the order of the document; the
    host has not been given any node. *)
Lemma load_nodes doc w w' :
  wf_world w -> load doc w = Ok w' ->
  (forall p cl, class_of w' p = Some cl <->
     class_of w p = Some cl \/ (p, cl) ∈ nodes_of (World.brk w) doc) /\
  World.sortNodes w' = World.sortNodes w ++ (nodes_of (World.brk w) doc).*1 /\
  added (World.trace w') = added (World.trace w).
Proof.
  intros Hwf. rewrite load_run. intros Hrun%run_nodes; [|done].
  by destruct (calls_of_nodes (World.brk w) (length (aliases_of w)) doc) as [<- <-].
Qed.

End nodes_of.

(** ** A whole import *)

Section import.
Context `{Sorter}.
Implicit Types (w : World) (doc : Document) (nsCallback : addNamespaceCb).
Implicit Types (u v p : ptr) (order : list ptr).

(** What the loader does with a file: build, emit, clean up. *)
Definition import nsCallback doc : res (bool * World) :=
  let* w := load doc (Nodeset_new nsCallback) in
  let* (sorted, w) := Nodeset_getSortedNodes w in
  let* w := Nodeset_cleanup w in
  Ok (sorted, w).

Lemma import_Ok nsCallback doc sorted w :
  import nsCallback doc = Ok (sorted, w) <->
  exists w1 w2, load doc (Nodeset_new nsCallback) = Ok w1 /\
    Nodeset_getSortedNodes w1 = Ok (sorted, w2) /\ Nodeset_cleanup w2 = Ok w.
Proof.
  unfold import. split.
  - intros Hrun. attr_inv. eauto.
  - intros (w1 & w2 & -> & Hs & Hc). cbn [res_bind]. rewrite Hs. cbn [res_bind].
    by rewrite Hc.
Qed.

(** The state a load ends in is reachable, hence well formed, and its
    nodes are those of the document. *)
Lemma loaded_reachable nsCallback doc w :
  load doc (Nodeset_new nsCallback) = Ok w -> reachable w.
Proof. rewrite load_run. apply run_reachable. constructor. Qed.

Lemma loaded_wf nsCallback doc w :
  load doc (Nodeset_new nsCallback) = Ok w -> wf_world w.
Proof. rewrite load_run. apply run_wf, wf_world_new. Qed.

Lemma loaded_nodes nsCallback doc w :
  load doc (Nodeset_new nsCallback) = Ok w ->
  (forall p cl, class_of w p = Some cl <-> (p, cl) ∈ nodes_of 0 doc) /\
  World.sortNodes w = (nodes_of 0 doc).*1 /\ added (World.trace w) = [].
Proof.
  intros (Hcl & Hs & Ht)%load_nodes; [|apply wf_world_new].
  split; [|done]. intros p cl. rewrite Hcl. unfold class_of. cbn.
  rewrite lookup_empty. naive_solver.
Qed.

(** What the host has been given after an import that returns true: the
    emission of the order the sorter made of the nodes of the document. *)
Lemma import_emission nsCallback doc w :
  import nsCallback doc = Ok (true, w) ->
  exists w1 order, load doc (Nodeset_new nsCallback) = Ok w1 /\
    sort (precedes w1) (nodes_of 0 doc).*1 = Some order /\
    added (World.trace w) = added (emission w1 order).
Proof.
  intros (w1 & w2 & Hload & Hsort & Hclean)%import_Ok.
  pose proof (loaded_wf _ _ _ Hload) as Hwf.
  destruct (loaded_nodes _ _ _ Hload) as (_ & Hs & Ht).
  destruct (getSortedNodes_run w1 w2 (wf_unfiled w1 Hwf) Hsort)
    as (order & f & Ho & _ & ->).
  apply Nodeset_cleanup_frame in Hclean as (_ & _ & _ & ->).
  exists w1, order. rewrite <- Hs. split; [done|]. split; [done|].
  cbn. by rewrite added_app, Ht.
Qed.

(** C4. Every node element of the document is delivered to the host, and
    delivered once: the nodes the host has been given after an import that
    returns true are the nodes of the document, in some order. *)
Theorem import_delivers nsCallback doc w :
  import nsCallback doc = Ok (true, w) ->
  added (World.trace w) ≡ₚ (nodes_of 0 doc).*1.
Proof.
  intros (w1 & order & Hload & Ho & ->)%import_emission.
  destruct (loaded_nodes _ _ _ Hload) as (Hcl & _ & _).
  pose proof (sort_perm _ _ _ Ho) as Hperm.
  rewrite emission_perm; [done|]. rewrite Hperm. apply Forall_forall.
  intros p ((p' & cl) & -> & Hp)%list_elem_of_fmap. exists cl. by apply Hcl.
Qed.

(** C2. P1 for a whole import: a node element of an earlier phase is
    delivered before every node element of a later phase, wherever the two
    stand in the document. *)
Theorem import_phase_order nsCallback doc w u v cu cv :
  import nsCallback doc = Ok (true, w) ->
  (u, cu) ∈ nodes_of 0 doc -> (v, cv) ∈ nodes_of 0 doc ->
  phase cu < phase cv ->
  before (added (World.trace w)) u v.
Proof.
  intros (w1 & order & Hload & Ho & ->)%import_emission Hu Hv Hlt.
  destruct (loaded_nodes _ _ _ Hload) as (Hcl & _ & _).
  pose proof (sort_perm _ _ _ Ho) as Hperm.
  apply (emission_phase_order w1 order u v cu cv); [| |by apply Hcl..|done];
    rewrite Hperm; apply list_elem_of_fmap; by eexists (_, _).
Qed.

(** C3. P2 for a whole import: of two node elements of one class, the one
    the other names as its parent (or that names the other as its child) in
    the state the load ended in is delivered first. *)
Theorem import_parent_first nsCallback doc w1 w u v c :
  load doc (Nodeset_new nsCallback) = Ok w1 ->
  import nsCallback doc = Ok (true, w) ->
  (u, c) ∈ nodes_of 0 doc -> (v, c) ∈ nodes_of 0 doc -> u <> v ->
  precedes w1 u v = true ->
  before (added (World.trace w)) u v.
Proof.
  intros Hload (w1' & order & Hload' & Ho & ->)%import_emission Hu Hv Hne Hprec.
  rewrite Hload in Hload'. injection Hload' as <-.
  destruct (loaded_nodes _ _ _ Hload) as (Hcl & _ & _).
  apply (emission_within_class w1 order u v c); [by apply Hcl..|].
  apply (sort_sorted (precedes w1) (nodes_of 0 doc).*1);
    [apply nodes_of_NoDup | done | | | done..];
    apply list_elem_of_fmap; by eexists (_, _).
Qed.

(** C5. P6 for a whole import: after an import that returns true nothing
    the builder allocated is left: no node, no reference, no block of the
    arena, no alias, and the sorter is empty. *)
Theorem import_releases nsCallback doc w :
  import nsCallback doc = Ok (true, w) ->
  World.nodeHeap w = ∅ /\ World.refHeap w = ∅ /\
  arena_of w = [] /\ aliases_of w = [] /\ World.sortNodes w = [].
Proof.
  intros (w1 & w2 & Hload & Hsort & Hclean)%import_Ok.
  pose proof (loaded_wf _ _ _ Hload) as Hwf.
  destruct (loaded_nodes _ _ _ Hload) as (Hcl & Hs & _).
  destruct (cleanup_after_emission w1 w2 Hwf) as (w' & Hclean' & Hrefs & Hnodes);
    [rewrite Hs; apply nodes_of_NoDup | done |].
  rewrite Hclean in Hclean'. injection Hclean' as <-.
  apply Nodeset_cleanup_frame in Hclean as (? & ? & ? & _).
  split; [|done]. rewrite Hnodes. apply map_empty. intros p.
  apply map_lookup_filter_None. right. intros n Hp Hnot. apply Hnot. cbn.
  rewrite Hs. apply list_elem_of_fmap. exists (p, TNode.nodeClass n).
  split; [done|]. apply Hcl. unfold class_of. by rewrite Hp.
Qed.

(** C33. When the sorter gives up, the import returns false, the host has been
    given no node, and the cleanup frees the references only: every node
    of the document is still allocated when the import returns. *)
Theorem import_sort_failure nsCallback doc w :
  import nsCallback doc = Ok (false, w) ->
  added (World.trace w) = [] /\ World.refHeap w = ∅ /\
  forall p cl, (p, cl) ∈ nodes_of 0 doc -> class_of w p = Some cl.
Proof.
  intros (w1 & w2 & Hload & Hsort & Hclean)%import_Ok.
  pose proof (loaded_wf _ _ _ Hload) as Hwf.
  destruct (loaded_nodes _ _ _ Hload) as (Hcl & _ & Ht).
  apply Nodeset_getSortedNodes_false in Hsort as [_ ->].
  destruct (Nodeset_cleanup_unfiled w1) as (w' & Hclean' & Hrefs & Hnodes);
    [apply Hwf..|].
  rewrite Hclean in Hclean'. injection Hclean' as <-.
  apply Nodeset_cleanup_frame in Hclean as (_ & _ & _ & Htr).
  split; [by rewrite Htr|]. split; [done|].
  intros p cl. unfold class_of. rewrite Hnodes. apply Hcl.
Qed.

End import.
