(* ===== verification/Lifecycle.v ===== *)
(** * The life of a builder

    [Machine] follows the builder while a file is parsed.  This file
    follows it to its end: the host may ask for the sorted nodes
    ([Nodeset_getSortedNodes]) and release the builder
    ([Nodeset_cleanup]), and nothing in the code stops it from calling in
    another order.  The operations are the eight events, the emission and
    the cleanup; a builder is [Live] until the cleanup, which ends with
    [free(n)], and [Freed] afterwards, when any call reads freed memory.

    [life] is the set of the states the host can reach by calls that
    return, in any order.  Its invariant [wf_life] is what holds without
    the protocol: the memory of a live builder is well formed ([wf_heap]:
    every list can be walked, every filed node is allocated), and a freed
    builder has left no reference, no string and no alias behind.  What
    does depend on the order is stated exactly: the cleanup is defined when
    no node has been filed twice, and the nodes it leaves allocated are
    those that were never filed. *)

From stdpp Require Import gmap.
From S2P Require Import Prelude CString Model Namespace Attributes Alias Classifier.
From S2P Require Import Sorter Builder Emit Machine Driver.

(** ** Operations and states *)

Inductive Op : Type :=
| OpCall (c : Call)
| OpGetSortedNodes
| OpCleanup.

(** The builder as the host holds it.  [Freed w] keeps what is left in
    memory when the builder itself is gone: the nodes that were not freed
    and the calls the host has seen. *)
Inductive Life : Type :=
| Live (w : World)
| Freed (w : World).

Definition world_of (l : Life) : World :=
  match l with Live w | Freed w => w end.

Section lifecycle.
Context `{Sorter}.
Implicit Types (w : World) (l : Life) (o : Op) (c : Call).

(** One operation.  Every function of the builder starts by reading a
    field of the builder it is given. *)
Definition op l o : res Life :=
  match l with
  | Freed _ => Trap BadPointer
  | Live w =>
      match o with
      | OpCall c => res_map Live (call w c)
      | OpGetSortedNodes => res_map (fun r => Live r.2) (Nodeset_getSortedNodes w)
      | OpCleanup => res_map Freed (Nodeset_cleanup w)
      end
  end.

Definition ops (os : list Op) l : res Life := res_fold op os l.

(** The same as a step relation: the operations that return. *)
Inductive step : Life -> Op -> Life -> Prop :=
| step_call w c w' : call w c = Ok w' -> step (Live w) (OpCall c) (Live w')
| step_sorted w sorted w' :
    Nodeset_getSortedNodes w = Ok (sorted, w') ->
    step (Live w) OpGetSortedNodes (Live w')
| step_cleanup w w' :
    Nodeset_cleanup w = Ok w' -> step (Live w) OpCleanup (Freed w').

(** The states the host can bring a builder to. *)
Inductive life : Life -> Prop :=
| life_new nsCallback : life (Live (Nodeset_new nsCallback))
| life_step l o l' : life l -> step l o l' -> life l'.

(** ** The invariant *)

Definition wf_life l : Prop :=
  match l with
  | Live w => wf_heap w
  | Freed w =>
      World.refHeap w = ∅ /\ arena_of w = [] /\ aliases_of w = [] /\
      World.sortNodes w = []
  end.

Lemma step_op l o l' : step l o l' <-> op l o = Ok l'.
Proof.
  split.
  - intros [w c w' Hrun | w sorted w' Hrun | w w' Hrun]; cbn; by rewrite Hrun.
  - destruct l as [w|w]; [|done]. destruct o as [c| |]; cbn.
    + destruct (call w c) as [w'|] eqn:E; [|done]. intros [= <-]. by constructor.
    + destruct (Nodeset_getSortedNodes w) as [[sorted w']|] eqn:E; [|done].
      intros [= <-]. by econstructor.
    + destruct (Nodeset_cleanup w) as [w'|] eqn:E; [|done].
      intros [= <-]. by constructor.
Qed.

(** The emission keeps the memory well formed: it files nodes the sorter
    was given, which are allocated. *)
Lemma wf_heap_getSortedNodes w sorted w' :
  Nodeset_getSortedNodes w = Ok (sorted, w') -> wf_heap w -> wf_heap w'.
Proof.
  intros (f & t & -> & Hf)%Nodeset_getSortedNodes_frame Hwf.
  split; cbn; try apply Hwf.
  - intros p n Hp. by apply (wf_node_mono w), Hwf.
  - intros c. destruct (Hf c) as (l & Hl & Hsub).
    change (container_of _ c) with (f c). rewrite Hl. apply Forall_app.
    split; [apply Hwf|]. apply Forall_forall. intros p Hp%Hsub.
    pose proof (wf_sortNodes w Hwf) as Hs. rewrite Forall_forall in Hs. by apply Hs.
Qed.

(** The cleanup of a well-formed memory leaves no reference. *)
Lemma wf_life_cleanup w w' :
  Nodeset_cleanup w = Ok w' -> wf_heap w -> wf_life (Freed w').
Proof.
  intros (_ & _ & ->)%Nodeset_cleanup_Ok Hwf. split; [|done]. cbn.
  apply map_empty. intros r. apply map_lookup_filter_None. right.
  intros rec Hr Hn. apply Hn, (wf_counted w Hwf). by eexists.
Qed.

Lemma wf_life_step l o l' : step l o l' -> wf_life l -> wf_life l'.
Proof.
  intros [w c w' Hrun | w sorted w' Hrun | w w' Hrun]; cbn [wf_life].
  - by apply (wf_heap_call w c).
  - by eapply wf_heap_getSortedNodes.
  - by apply wf_life_cleanup.
Qed.

(** The invariant holds in every state of a life. *)
Lemma life_wf l : life l -> wf_life l.
Proof.
  induction 1 as [cb | l o l' _ IH Hstep];
    [apply wf_heap_new | by eapply wf_life_step].
Qed.

(** A run of operations that returns is a path of the step relation. *)
Lemma ops_life os l l' : life l -> ops os l = Ok l' -> life l'.
Proof.
  intros Hl. apply (res_fold_invariant op life); [|done].
  intros s o s' _ Hs Ho%step_op. by eapply life_step.
Qed.

(** C10. Invariant of the whole life of a builder: whatever operations the
    host calls on a new builder and in whatever order (events after the
    emission, several emissions, a cleanup at any moment), when the calls
    return the memory of a live builder is well formed (every reference
    list can be walked, every counted reference and every filed node is
    allocated, the seeds head the table), and a freed builder has left no
    reference, no string, no alias and no node with the sorter. *)
Theorem ops_wf nsCallback os l :
  ops os (Live (Nodeset_new nsCallback)) = Ok l -> wf_life l.
Proof. intros Hrun. eapply life_wf, ops_life; [apply life_new | done]. Qed.

(** ** After the cleanup *)

(** Nothing can be called on a freed builder. *)
Lemma ops_Freed os w : os <> [] -> ops os (Freed w) = Trap BadPointer.
Proof. by destruct os. Qed.

(** No sequence of operations that goes on after a cleanup has defined
    behaviour. *)
Theorem ops_after_cleanup os o os' l :
  exists u, ops (os ++ OpCleanup :: o :: os') l = Trap u.
Proof.
  unfold ops. rewrite res_fold_app.
  destruct (res_fold op os l) as [[w|w]|u]; cbn [res_bind res_fold]; [| |by eexists].
  - cbn [op]. destruct (Nodeset_cleanup w); cbn; by eexists.
  - by eexists.
Qed.

(** ** When the cleanup is defined, and what it leaves *)

(** C13. The cleanup of a live builder, at any moment of its life, has
    defined behaviour exactly when no node has been filed twice; it then
    frees every reference, and of the nodes exactly the filed ones: a node
    that was never filed stays allocated. *)
Theorem cleanup_defined w :
  life (Live w) ->
  (NoDup (filed w all_classes) <-> exists w', Nodeset_cleanup w = Ok w') /\
  forall w', Nodeset_cleanup w = Ok w' ->
    World.refHeap w' = ∅ /\
    forall p, World.nodeHeap w' !! p =
              if decide (p ∈ filed w all_classes) then None else World.nodeHeap w !! p.
Proof.
  intros Hwf%life_wf. cbn in Hwf. split.
  - split.
    + intros Hnd. exists (cleaned w). apply Nodeset_cleanup_Ok.
      split; [split; [apply Hwf|]|split; [split; [done|]|done]].
      * apply Forall_forall. intros r. apply (wf_counted w Hwf).
      * apply Forall_forall. intros p (c & Hp & _)%list_elem_of_bind.
        pose proof (wf_filed w Hwf c) as Hc. rewrite Forall_forall in Hc. by apply Hc.
    + by intros (w' & (_ & [Hnd _] & _)%Nodeset_cleanup_Ok).
  - intros w' Hrun. split; [by apply (wf_life_cleanup w w' Hrun Hwf)|].
    apply Nodeset_cleanup_Ok in Hrun as (_ & _ & ->). intros p. cbn.
    apply option_eq. intros n. rewrite map_lookup_filter_Some. cbn.
    case_decide; naive_solver.
Qed.

(** ** Classification, at any moment *)

(** C25. In every state of a live builder a reference goes to the
    hierarchical list exactly when its type is in the table, or is neither
    of namespace 0 nor the id of a filed ReferenceType node.  (While a file
    is parsed no node is filed, and the second case is every type of
    another namespace.) *)
Theorem life_classification w rec :
  life (Live w) ->
  goes_hierachical w rec =
    Ok (bool_decide (Reference.refType rec ∈ table_ids w) ||
        negb ((TNodeId.nsIdx (Reference.refType rec) =? 0)%Z ||
              bool_decide (Reference.refType rec ∈
                ids_at w (container_of w NODECLASS_REFERENCETYPE)))).
Proof.
  intros Hwf%life_wf. cbn in Hwf. unfold goes_hierachical.
  rewrite isKnownReferenceType_spec by apply (wf_filed w Hwf).
  cbn [res_bind]. by rewrite isHierachicalReference_spec.
Qed.

(** ** An import, as operations *)

(** The operations of an import: the events of the document, the
    emission, the cleanup. *)
Definition ops_of (doc : Document) : list Op :=
  (OpCall <$> calls_of 0 0 doc) ++ [OpGetSortedNodes; OpCleanup].

Lemma ops_calls calls w : ops (OpCall <$> calls) (Live w) = res_map Live (run calls w).
Proof.
  revert w. induction calls as [|c calls IH]; intros w; [done|]. cbn.
  destruct (call w c) as [w'|]; [apply IH | done].
Qed.

(** An import is the run of its operations: it ends in the same state
    with the builder freed, or in the same trap. *)
Theorem import_ops nsCallback doc :
  ops (ops_of doc) (Live (Nodeset_new nsCallback)) =
  res_map (fun r => Freed r.2) (import nsCallback doc).
Proof.
  unfold ops_of, ops. rewrite res_fold_app. fold (ops (OpCall <$> calls_of 0 0 doc)).
  rewrite ops_calls. unfold import. rewrite load_run.
  destruct (run _ _) as [w|]; [|done]. cbn.
  destruct (Nodeset_getSortedNodes w) as [[sorted w1]|]; [|done]. cbn.
  by destruct (Nodeset_cleanup w1).
Qed.

End lifecycle.
