(* ===== verification/Termination.v ===== *)
(** * Termination

    The loops of Nodeset.c are [for] loops over a counter, with one
    exception: [addIfHierachicalReferenceType] walks the hierarchical list
    of a node with [while (ref) ... ref = ref->next], and ends only if
    that list does.  The model runs that loop with fuel, the number of
    blocks allocated so far, and gives [Trap Timeout] when the fuel is
    spent.

    This file shows that it never is: whatever the host calls on a new
    builder, and in whatever order, no call runs out of fuel
    ([ops_terminate]).  The reason is in [Nodeset_newReference], which
    links a new reference in front of the references of its node: every
    [next] pointer leads to a block allocated earlier ([wf_refs]), so a
    walk from a block below the allocation mark takes at most as many
    turns as the mark says.  Every other function of the builder is a
    sequence of calls and counted loops, shown to end by following its
    shape ([halts]). *)

From stdpp Require Import gmap strings.
From S2P Require Import Prelude CString Model Namespace Attributes Alias Classifier.
From S2P Require Import Sorter Builder Emit Machine Driver Lifecycle.

(** ** The functions without a list walk *)

Section straight.
Implicit Types (w : World) (p : ptr) (s : cstr) (namespaces : list TNamespace).

Lemma deref_node_halts w p : halts (deref_node w p).
Proof. unfold deref_node. halts. Qed.

Lemma deref_ref_halts w p : halts (deref_ref w p).
Proof. unfold deref_ref. halts. Qed.
#[local] Hint Resolve deref_node_halts deref_ref_halts : halts.

Lemma store_node_halts p n w : halts (store_node p n w).
Proof. unfold store_node. halts. Qed.

Lemma store_ref_halts p r w : halts (store_ref p r w).
Proof. unfold store_ref. halts. Qed.

Lemma free_node_halts p w : halts (free_node p w).
Proof. unfold free_node. halts. Qed.

Lemma free_ref_halts p w : halts (free_ref p w).
Proof. unfold free_ref. halts. Qed.
#[local] Hint Resolve store_node_halts store_ref_halts free_node_halts free_ref_halts
  : halts.

Lemma str_offset_halts (t : string) n : halts (str_offset t n).
Proof. revert t. induction n as [|n IH]; intros [|a t]; cbn; halts. Qed.

Lemma atoi_halts (t : string) : halts (atoi t).
Proof. unfold atoi. halts. Qed.

Lemma ns_at_halts namespaces i : halts (ns_at namespaces i).
Proof. unfold ns_at. halts. Qed.
#[local] Hint Resolve str_offset_halts atoi_halts ns_at_halts : halts.

Lemma translateNodeId_halts namespaces id : halts (translateNodeId namespaces id).
Proof. unfold translateNodeId. halts. Qed.

Lemma translateBrowseName_halts namespaces bn :
  halts (translateBrowseName namespaces bn).
Proof. unfold translateBrowseName. halts. Qed.
#[local] Hint Resolve translateNodeId_halts translateBrowseName_halts : halts.

Lemma extractNodedId_halts namespaces s : halts (extractNodedId namespaces s).
Proof. unfold extractNodedId. halts. Qed.

Lemma extractBrowseName_halts namespaces s : halts (extractBrowseName namespaces s).
Proof. unfold extractBrowseName. halts. Qed.
#[local] Hint Resolve extractNodedId_halts extractBrowseName_halts : halts.

Lemma alias2Id_halts w s : halts (alias2Id w s).
Proof. unfold alias2Id. halts. Qed.
#[local] Hint Resolve alias2Id_halts : halts.

Lemma extractAttributes_ext_halts c attributes w :
  halts (extractAttributes_ext c attributes w).
Proof. unfold extractAttributes_ext. halts. Qed.
#[local] Hint Resolve extractAttributes_ext_halts : halts.

Lemma Nodeset_newNode_halts nodeClass attributes w :
  halts (Nodeset_newNode nodeClass attributes w).
Proof. unfold Nodeset_newNode, initNode, extractAttributes. halts. Qed.

Lemma isKnownReferenceType_halts w id : halts (isKnownReferenceType w id).
Proof.
  unfold isKnownReferenceType. destruct (_ =? _)%Z; [halts|].
  induction (Nodeset.nodes _ _) as [|p l IH]; cbn; halts.
Qed.
#[local] Hint Resolve isKnownReferenceType_halts : halts.

Lemma Nodeset_newReference_halts node attributes w :
  halts (Nodeset_newReference node attributes w).
Proof. unfold Nodeset_newReference, count_ref, goes_hierachical. halts. Qed.

Lemma Nodeset_newReferenceFinish_halts ref targetId w :
  halts (Nodeset_newReferenceFinish ref targetId w).
Proof. unfold Nodeset_newReferenceFinish. halts. Qed.

Lemma Nodeset_newAliasFinish_halts alias idString w :
  halts (Nodeset_newAliasFinish alias idString w).
Proof. unfold Nodeset_newAliasFinish. halts. Qed.

Lemma Nodeset_newNamespaceFinish_halts uri w :
  halts (Nodeset_newNamespaceFinish uri w).
Proof. unfold Nodeset_newNamespaceFinish. halts. Qed.

Lemma Nodeset_addNode_halts w node : halts (Nodeset_addNode w node).
Proof. unfold Nodeset_addNode. halts. Qed.

(** A counted loop ends when its body does. *)
Lemma res_fold_halts {A} (f : World -> A -> res World) l w :
  (forall w a, halts (f w a)) -> halts (res_fold f l w).
Proof. intros Hf. by apply (halts_fold f (fun _ => True)). Qed.

Lemma Nodeset_cleanup_halts w : halts (Nodeset_cleanup w).
Proof.
  unfold Nodeset_cleanup, free_refs.
  apply halts_bind; [apply res_fold_halts; auto with halts|]. intros w1 _.
  apply halts_bind; [|halts]. apply res_fold_halts. intros w2 c.
  apply res_fold_halts. auto with halts.
Qed.

Lemma Nodeset_getSortedNodes_halts `{Sorter} w : halts (Nodeset_getSortedNodes w).
Proof.
  unfold Nodeset_getSortedNodes, Sort_start.
  apply halts_bind; [|intros [started w'] _; halts].
  destruct (sort _ _); [|halts]. apply halts_bind; [|halts].
  apply res_fold_halts, Nodeset_addNode_halts.
Qed.

End straight.

#[export] Hint Resolve Nodeset_newNode_halts Nodeset_newReference_halts
  Nodeset_newReferenceFinish_halts Nodeset_newAliasFinish_halts
  Nodeset_newNamespaceFinish_halts Nodeset_cleanup_halts
  Nodeset_getSortedNodes_halts : halts.

(** ** The walk of the hierarchical list *)

Section walk.
Implicit Types (w : World) (n : TNode) (head : option ptr).

Lemma push_hierachicalRef_halts n w : halts (push_hierachicalRef n w).
Proof. unfold push_hierachicalRef. halts. Qed.

Lemma step_halts n rec w : halts (addIfHierachicalReferenceType_step n rec w).
Proof.
  unfold addIfHierachicalReferenceType_step. pose proof push_hierachicalRef_halts. halts.
Qed.

(** The loop ends within [fuel] turns from a head below [fuel], in a heap
    whose links lead downwards: each turn moves to a lower address, and
    no turn changes the heap. *)
Lemma loop_halts fuel n head w :
  wf_refs (World.refHeap w) (World.brk w) ->
  (forall r, head = Some r -> r < fuel) ->
  halts (addIfHierachicalReferenceType_loop fuel n head w).
Proof.
  revert head w. induction fuel as [|fuel IH]; intros [r|] w Hwf Hhead; cbn; try done.
  { specialize (Hhead r eq_refl). lia. }
  apply halts_bind; [apply deref_ref_halts|]. intros rec Hrec%deref_ref_Ok.
  apply halts_bind; [apply step_halts|]. intros w' ->%step_Ok.
  apply IH; [by rewrite refHeap_with_table|].
  intros q Hq. destruct (Hwf r rec Hrec) as [_ Hnext].
  specialize (Hnext q Hq). specialize (Hhead r eq_refl). lia.
Qed.

Lemma addIfHierachicalReferenceType_halts node w :
  wf_refs (World.refHeap w) (World.brk w) ->
  (forall n, World.nodeHeap w !! node = Some n ->
             valid_head (World.refHeap w) (TNode.hierachicalRefs n)) ->
  halts (addIfHierachicalReferenceType node w).
Proof.
  intros Hwf Hnode. unfold addIfHierachicalReferenceType.
  apply halts_bind; [apply deref_node_halts|]. intros n Hn%deref_node_Ok.
  apply loop_halts; [done|]. intros r Hr.
  destruct (Hnode n Hn r Hr) as [rec Hrec]. by apply (Hwf r rec).
Qed.

Lemma Nodeset_newNodeFinish_halts node w :
  wf_heap w -> halts (Nodeset_newNodeFinish node w).
Proof.
  intros Hwf. unfold Nodeset_newNodeFinish.
  apply halts_bind; [apply deref_node_halts|]. intros n _.
  case_decide; [|done]. apply addIfHierachicalReferenceType_halts; [apply Hwf|].
  intros n' Hn'. by apply (wf_nodeHeap w Hwf node).
Qed.

End walk.

#[export] Hint Resolve Nodeset_newNodeFinish_halts : halts.

(** ** Every operation, in every state *)

Section operations.
Context `{Sorter}.

Lemma call_halts w c : wf_heap w -> halts (call w c).
Proof. intros Hwf. destruct c; cbn [call]; halts. Qed.

Lemma op_halts l o : wf_life l -> halts (op l o).
Proof.
  destruct l as [w|w]; [|done]. intros Hwf.
  destruct o as [c| |]; cbn [op]; apply halts_map; auto using call_halts with halts.
Qed.

(** From any state of a life, a sequence of operations ends. *)
Lemma ops_halts l os : life l -> halts (ops os l).
Proof.
  apply (halts_fold op life).
  - intros s o s' Hs Ho%step_op. by eapply life_step.
  - intros s o Hs%life_wf. by apply op_halts.
Qed.

(** C12. Termination: whatever the host calls on a new builder (events,
    emissions and a cleanup, in any number and any order), no call runs
    forever.  The one loop of the builder that is not bounded by a counter,
    the walk of a node's hierarchical list in
    [addIfHierachicalReferenceType], ends within as many turns as blocks
    have been allocated, because [Nodeset_newReference] links every
    reference in front of older ones; a sequence of calls therefore
    returns or meets an undefined behaviour of the code, and the fuel of
    the model is never spent. *)
Theorem ops_terminate nsCallback os :
  ops os (Live (Nodeset_new nsCallback)) <> Trap Timeout.
Proof. apply ops_halts, life_new. Qed.

(** An import ends, on every document. *)
Corollary import_terminates nsCallback doc : import nsCallback doc <> Trap Timeout.
Proof.
  intros Himport. apply (ops_halts (Live (Nodeset_new nsCallback)) (ops_of doc));
    [apply life_new|]. by rewrite import_ops, Himport.
Qed.

End operations.
