(* ===== verification/Abstract.v ===== *)
(** * The builder, abstractly

    What a file means to the builder, without the heap: a state of lists
    (the namespace table, the aliases, the finished nodes with their two
    lists of references, the ids of the hierarchical reference types, the
    number of references counted, the calls made to the host), and one pure
    function per element of the file.  The decoding of the attributes is
    that of the code ([extractNodedId], [extractBrowseName], [attr_value]);
    what is abstracted is the memory: no address, no allocation mark, no
    arena, no linked list.

    [Refinement] shows that the builder driven over a document computes
    this function. *)

From Stdlib Require Import Ascii String.
From stdpp Require Import strings gmap.
From S2P Require Import Prelude CString Model Namespace Attributes Alias Classifier.
From S2P Require Import Sorter Builder Emit Machine Driver.

(** ** The abstract state *)

(** A reference: the record of the code without its link. *)
Module ARef.
Record t : Type := mk {
  isForward : bool;
  refType : TNodeId;
  target : option TNodeId;
}.
#[export] Instance eq_dec : EqDecision t.
Proof. solve_decision. Defined.
End ARef.
Export (hints) ARef.
Abbreviation ARef := ARef.t.

(** A node: the fields the builder sets, and its two lists of references,
    last parsed first. *)
Module ANode.
Record t : Type := mk {
  nodeClass : TNodeClass;
  id : TNodeId;
  browseName : TBrowseName;
  ext : NodeExt;
  hierachicalRefs : list ARef;
  nonHierachicalRefs : list ARef;
}.
#[export] Instance eq_dec : EqDecision t.
Proof. solve_decision. Defined.
End ANode.
Export (hints) ANode.
Abbreviation ANode := ANode.t.

Module Abs.
Record t : Type := mk {
  namespaces : list TNamespace;
  cb : addNamespaceCb;
  aliases : list Alias;
  nodes : list ANode;          (* the finished nodes, in the order of the file *)
  table : list TNodeId;        (* the ids of the hierarchical reference types *)
  refs : nat;                  (* the references counted *)
  events : list Event;         (* the calls of the host *)
}.
End Abs.
Abbreviation Abs := Abs.t.

(** The state of a new builder. *)
Definition Abs_new (nsCallback : addNamespaceCb) : Abs :=
  Abs.mk (TNamespaceTable.ns (initial_namespaceTable nsCallback)) nsCallback
    [] [] (TNode.id <$> hierachicalRefs) 0 [].

(** ** The order asked of the sorter, on values *)

(** [x] has a hierarchical reference of direction [fwd], of a type of the
    table, to the node id [target]. *)
Definition names (table : list TNodeId) (x : ANode) (fwd : bool)
    (target : TNodeId) : bool :=
  existsb
    (fun r =>
       bool_decide (ARef.isForward r = fwd) &&
       bool_decide (ARef.target r = Some target) &&
       bool_decide (ARef.refType r ∈ table))
    (ANode.hierachicalRefs x).

(** [x] is a parent of [y]: [y] names [x] by an inverse reference, or [x]
    names [y] by a forward one. *)
Definition parent (table : list TNodeId) (x y : ANode) : bool :=
  names table y false (ANode.id x) || names table x true (ANode.id y).

(** ** Decoding, purely *)

(** [alias2Id] on the alias list and the namespace table. *)
Definition resolve (aliases : list Alias) (namespaces : list TNamespace)
    (name : cstr) : res TNodeId :=
  match AliasList_getNodeId aliases name with
  | None => extractNodedId namespaces name
  | Some alias => Ok alias
  end.

(** The class-specific fields, decoded in the order of the code. *)
Definition decode_ext (aliases : list Alias) (namespaces : list TNamespace)
    (c : TNodeClass) (attributes : list XmlAttr) : res NodeExt :=
  let value attr := attr_value attr attributes in
  match c with
  | NODECLASS_OBJECTTYPE => Ok (TObjectTypeNode (value attrIsAbstract))
  | NODECLASS_OBJECT =>
      let* parentNodeId := extractNodedId namespaces (value attrParentNodeId) in
      Ok (TObjectNode parentNodeId (value attrEventNotifier))
  | NODECLASS_VARIABLE =>
      let* parentNodeId := extractNodedId namespaces (value attrParentNodeId) in
      let* datatype := resolve aliases namespaces (value attrDataType) in
      Ok (TVariableNode parentNodeId datatype (value attrValueRank)
            (value attrArrayDimensions) (value attrAccessLevel)
            (value attrUserAccessLevel) None)
  | NODECLASS_VARIABLETYPE =>
      let* datatype := resolve aliases namespaces (value attrDataType) in
      Ok (TVariableTypeNode (value attrValueRank) datatype
            (value attrArrayDimensions) (value attrIsAbstract))
  | NODECLASS_DATATYPE => Ok TDataTypeNode
  | NODECLASS_METHOD =>
      let* parentNodeId := extractNodedId namespaces (value attrParentNodeId) in
      Ok (TMethodNode parentNodeId (value attrExecutable)
            (value attrUserExecutable))
  | NODECLASS_REFERENCETYPE => Ok (TReferenceTypeNode (value attrSymmetric))
  end.

(** The common part of a node and its class-specific fields, decoded in
    the order of the code; the two lists are empty. *)
Definition decode_node (aliases : list Alias) (namespaces : list TNamespace)
    (c : TNodeClass) (attributes : list XmlAttr) : res TNode :=
  let* id := extractNodedId namespaces (attr_value attrNodeId attributes) in
  let* browseName :=
    extractBrowseName namespaces (attr_value attrBrowseName attributes) in
  let* ext := decode_ext aliases namespaces c attributes in
  Ok (TNode.mk c id browseName None None None None None ext).

(** A reference goes to the hierarchical list when its type is in the
    table, or is not of namespace 0. *)
Definition classify (table : list TNodeId) (refType : TNodeId) : bool :=
  bool_decide (refType ∈ table) || negb (TNodeId.nsIdx refType =? 0)%Z.

(** A Reference element, decoded: the list it goes to and the record. *)
Definition decode_reference (aliases : list Alias) (namespaces : list TNamespace)
    (table : list TNodeId) (e : RefElem) : res (bool * ARef) :=
  let* s := nonnull (attr_value attrIsForward (RefElem.attributes e)) in
  let* refType :=
    resolve aliases namespaces
      (attr_value attrReferenceType (RefElem.attributes e)) in
  let* target := extractNodedId namespaces (RefElem.targetId e) in
  Ok (classify table refType,
      ARef.mk (strcmp "true" s =? 0)%Z refType (Some target)).

(** ** Building *)

(** The two lists of a node while its references are parsed, and the
    number of references counted so far. *)
Definition Lists : Type := (nat * list ARef * list ARef)%type.

Definition build_reference (a : Abs) (ls : Lists) (e : RefElem) : res Lists :=
  let '(count, hier, nonHier) := ls in
  require (Z.of_nat count <? MAX_REFCOUNTEDREFS)%Z OutOfBounds ;;;
  let* (h, r) :=
    decode_reference (Abs.aliases a) (Abs.namespaces a) (Abs.table a) e in
  Ok (if h then (S count, r :: hier, nonHier) else (S count, hier, r :: nonHier)).

(** Promotion of a finished ReferenceType: one cell of the table per
    inverse reference to a type of the table, as long as the table has a
    free cell. *)
Definition promote_ref (id : TNodeId) (table : list TNodeId) (r : ARef)
  : res (list TNodeId) :=
  if negb (ARef.isForward r) then
    let* target := initialised (ARef.target r) in
    if bool_decide (target ∈ table) then
      require (bool_decide (length table < MAX_HIERACHICAL_REFS)) OutOfBounds ;;;
      Ok (table ++ [id])
    else Ok table
  else Ok table.

Definition build_node (e : NodeElem) (a : Abs) : res Abs :=
  let* n :=
    decode_node (Abs.aliases a) (Abs.namespaces a) (NodeElem.nodeClass e)
      (NodeElem.attributes e) in
  let* (count, hier, nonHier) :=
    res_fold (build_reference a) (NodeElem.references e) (Abs.refs a, [], []) in
  let* table :=
    if decide (TNode.nodeClass n = NODECLASS_REFERENCETYPE)
    then res_fold (promote_ref (TNode.id n)) hier (Abs.table a)
    else Ok (Abs.table a) in
  Ok (Abs.mk (Abs.namespaces a) (Abs.cb a) (Abs.aliases a)
        (Abs.nodes a ++
         [ANode.mk (TNode.nodeClass n) (TNode.id n) (TNode.browseName n)
            (TNode.ext n) hier nonHier])
        table count (Abs.events a)).

Definition build_uri (namespaceUri : cstr) (a : Abs) : res Abs :=
  let globalIdx := to_int (Abs.cb a namespaceUri) in
  Ok (Abs.mk
        (Abs.namespaces a ++ [TNamespace.mk (Some (to_size_t globalIdx)) namespaceUri])
        (Abs.cb a) (Abs.aliases a) (Abs.nodes a) (Abs.table a) (Abs.refs a)
        (Abs.events a ++ [CbAddNamespace namespaceUri globalIdx])).

Definition build_alias (attributes : list XmlAttr) (idString : cstr) (a : Abs)
  : res Abs :=
  let* id := extractNodedId (Abs.namespaces a) idString in
  Ok (Abs.mk (Abs.namespaces a) (Abs.cb a)
        (Abs.aliases a ++ [Alias.mk (attr_value attrAlias attributes) id])
        (Abs.nodes a) (Abs.table a) (Abs.refs a) (Abs.events a)).

Definition build_element (a : Abs) (e : Element) : res Abs :=
  match e with
  | UriElement namespaceUri => build_uri namespaceUri a
  | AliasElement attributes idString => build_alias attributes idString a
  | NodeElement e => build_node e a
  end.

Definition build (doc : Document) (a : Abs) : res Abs :=
  res_fold build_element doc a.

(** ** What the abstract builder makes of the references of a node *)

(** Of the decoded references of a node element, those that went to the
    hierarchical list ([h] true) or to the other one, last parsed
    first. *)
Definition filed_refs (h : bool) (rs : list (bool * ARef)) : list ARef :=
  reverse (snd <$> filter (fun x => x.1 = h) rs).

Lemma filed_refs_cons h x rs :
  filed_refs h (x :: rs) =
  filed_refs h rs ++ (if decide (x.1 = h) then [x.2] else []).
Proof.
  unfold filed_refs. rewrite filter_cons. case_decide; [|by rewrite app_nil_r].
  by rewrite fmap_cons, reverse_cons.
Qed.

(** The fold over the Reference elements of a node decodes each against
    the tables of the state the node element started in, counts it, and
    puts it in front of the list its classification names. *)
Lemma build_references_decoded a refs count hier nonHier ls :
  res_fold (build_reference a) refs (count, hier, nonHier) = Ok ls ->
  exists rs,
    Forall2 (fun e x =>
               decode_reference (Abs.aliases a) (Abs.namespaces a) (Abs.table a) e
               = Ok x) refs rs /\
    ls = (count + length refs, filed_refs true rs ++ hier,
          filed_refs false rs ++ nonHier).
Proof.
  revert count hier nonHier. induction refs as [|e refs IH]; intros count hier nonHier.
  { intros [= <-]. exists []. by rewrite Nat.add_0_r. }
  cbn [res_fold]. unfold build_reference at 1. intros Hrun. res_inv.
  match goal with x : (bool * ARef)%type |- _ => destruct x as [h r] end.
  match goal with H : Ok _ = Ok _ |- _ => injection H as <- end.
  destruct h; apply IH in Hrun as (rs & Hrs & ->); eexists (_ :: rs);
    (split; [by constructor|]); rewrite !filed_refs_cons; cbn [length fst snd];
    rewrite ?app_nil_r, <- ?app_assoc, ?decide_True by done;
    by replace (count + S (length refs)) with (S count + length refs) by lia.
Qed.
