(* ===== verification/Refinement.v ===== *)
(** * The builder refines the abstract builder

    The abstraction function [abs] reads a state of the builder as an
    abstract state: the lists of references of a node are the records met
    on the walk of its two linked lists, the table of hierarchical
    reference types is the list of its ids, the array of counted
    references is its length.  The theorems show that each function of the
    builder is its pure decoder followed by an explicit update of the
    memory, and that a load of a document, from any well-formed state,
    either ends in a state whose abstraction is what [build] computes, or
    traps exactly when [build] does, with the same undefined behaviour. *)

From Stdlib Require Import Ascii String.
From stdpp Require Import strings gmap functions.
From S2P Require Import Prelude CString Model Namespace Attributes Alias Classifier.
From S2P Require Import Sorter Builder Emit Machine Arena Driver Abstract.

(** ** The functions of the builder as decoders and updates *)

Section frame.
Implicit Types (w : World) (a b : list string).

Lemma set_arena_twice a b w : set_arena a (set_arena b w) = set_arena a w.
Proof. done. Qed.
Lemma arena_of_set_arena a w : arena_of (set_arena a w) = a.
Proof. done. Qed.
Lemma aliases_of_set_arena a w : aliases_of (set_arena a w) = aliases_of w.
Proof. done. Qed.
Lemma namespaces_of_set_arena a w : namespaces_of (set_arena a w) = namespaces_of w.
Proof. done. Qed.
Lemma alias2Id_resolve w name :
  alias2Id w name = resolve (aliases_of w) (namespaces_of w) name.
Proof. done. Qed.

End frame.

(** [decode_step] runs one call of a function of the builder: a read of an
    attribute becomes its value and its block, a resolution or a decoding
    is split into its two results. *)
Ltac decode_step :=
  first
    [ rewrite getAttributeValue_eq; cbn beta iota
    | rewrite alias2Id_resolve
    | rewrite aliases_of_set_arena
    | rewrite namespaces_of_set_arena
    | match goal with
      | |- context [res_bind ?m _] =>
          lazymatch m with
          | extractNodedId _ _ => idtac
          | extractBrowseName _ _ => idtac
          | resolve _ _ _ => idtac
          | nonnull _ => idtac
          end;
          destruct m; cbn [res_bind res_map]
      end ].

Ltac arena_norm :=
  repeat rewrite ?set_arena_twice, ?arena_of_set_arena, <- ?app_assoc, ?app_nil_r,
    ?set_arena_arena_of.

Section decoders.
Implicit Types (w : World) (c : TNodeClass) (attributes : list XmlAttr).

Lemma extractAttributes_ext_eq c attributes w :
  extractAttributes_ext c attributes w =
  res_map
    (fun ext =>
       (ext, set_arena (arena_of w ++ blocks_of (class_attributes c) attributes) w))
    (decode_ext (aliases_of w) (namespaces_of w) c attributes).
Proof.
  unfold extractAttributes_ext, decode_ext, blocks_of.
  destruct c; cbn [class_attributes mbind list_bind]; repeat decode_step;
    cbn [res_map res_bind]; by arena_norm.
Qed.

(** [extractAttributes] is the decoder of a node, whose result it stores
    in the fields of the node it is given. *)
Lemma extractAttributes_eq node attributes w :
  extractAttributes node attributes w =
  res_map
    (fun n =>
       (TNode.mk (TNode.nodeClass node) (TNode.id n) (TNode.browseName n)
          (TNode.displayName node) (TNode.description node) (TNode.writeMask node)
          (TNode.hierachicalRefs node) (TNode.nonHierachicalRefs node) (TNode.ext n),
        set_arena
          (arena_of w ++ blocks_of (node_attributes (TNode.nodeClass node)) attributes)
          w))
    (decode_node (aliases_of w) (namespaces_of w) (TNode.nodeClass node) attributes).
Proof.
  unfold extractAttributes, decode_node, node_attributes, blocks_of.
  cbn beta iota zeta. cbn [mbind list_bind]. repeat decode_step; try done.
  rewrite extractAttributes_ext_eq. repeat decode_step.
  destruct (decode_ext _ _ _ _); [|done].
  cbn [res_map res_bind TNode.id TNode.browseName TNode.ext]. by arena_norm.
Qed.

(** A decoded node has its class, no text and no reference. *)
Lemma decode_node_Ok aliases namespaces c attributes n :
  decode_node aliases namespaces c attributes = Ok n ->
  n = TNode.mk c (TNode.id n) (TNode.browseName n) None None None None None
        (TNode.ext n).
Proof. unfold decode_node. intros H. by res_inv. Qed.

(** The state after [Nodeset_newNode]: the node stands at the allocation
    mark, the mark has moved up, the arena holds the blocks of the
    attributes. *)
Definition new_node (n : TNode) (blocks : list string) (w : World) : World :=
  World.set_nodeHeap (<[World.brk w := n]> (World.nodeHeap w))
    (World.set_brk (S (World.brk w)) (set_arena (arena_of w ++ blocks) w)).

(** [Nodeset_newNode] is the decoder of the node followed by the
    allocation; it traps exactly when the decoder does. *)
Lemma Nodeset_newNode_eq c attributes w :
  Nodeset_newNode c attributes w =
  res_map
    (fun n => (World.brk w, new_node n (blocks_of (node_attributes c) attributes) w))
    (decode_node (aliases_of w) (namespaces_of w) c attributes).
Proof.
  unfold Nodeset_newNode, alloc_node, initNode, deref_node.
  cbn beta iota zeta. cbn [World.nodeHeap World.set_nodeHeap World.set_brk].
  rewrite lookup_insert_eq. cbn [res_bind]. rewrite extractAttributes_eq.
  cbn [TNode.nodeClass].
  change (aliases_of (World.set_brk _ _)) with (aliases_of w).
  change (namespaces_of (World.set_brk _ _)) with (namespaces_of w).
  destruct (decode_node _ _ _ _) as [n|] eqn:E; [|done]. cbn [res_map res_bind].
  unfold store_node, deref_node. cbn. rewrite lookup_insert_eq. cbn.
  rewrite insert_insert_eq. unfold new_node.
  apply decode_node_Ok in E. destruct n. cbn in E.
  injection E as -> -> -> -> -> ->. cbn. unfold set_arena, arena_of. by destruct w.
Qed.

(** The record of a reference in the heap, from its abstract form and its
    link. *)
Definition cell (r : ARef) (next : option ptr) : Reference :=
  Reference.mk (ARef.isForward r) (ARef.refType r) (ARef.target r) next.

(** The state after a Reference element of the node [n] at [node]: the
    reference stands at the allocation mark, in front of the list the
    classification chose, and is counted; the arena holds the blocks of
    its two attributes. *)
Definition new_reference (node : ptr) (n : TNode) (h : bool) (r : ARef)
    (blocks : list string) (w : World) : World :=
  World.set_nodeHeap (<[node := link h (World.brk w) n]> (World.nodeHeap w))
    (World.set_refHeap (<[World.brk w := cell r (head_of h n)]> (World.refHeap w))
       (World.set_brk (S (World.brk w))
          (World.set_nodeset
             (Nodeset.set_countedRefs (counted_of w ++ [World.brk w])
                (Nodeset.set_charArena (arena_of w ++ blocks) (World.nodeset w)))
             w))).

(** A Reference element, start tag and text: the capacity check, the
    decoder, the allocation.  While no node is filed the classification is
    that of the table alone. *)
Lemma load_reference_eq node n w e :
  World.nodeHeap w !! node = Some n -> unfiled w ->
  load_reference node w e =
  (require (Z.of_nat (length (counted_of w)) <? MAX_REFCOUNTEDREFS)%Z OutOfBounds ;;;
   let* (h, r) :=
     decode_reference (aliases_of w) (namespaces_of w) (table_ids w) e in
   Ok (new_reference node n h r
         (blocks_of [attrIsForward; attrReferenceType] (RefElem.attributes e)) w)).
Proof.
  intros Hn Hunfiled.
  unfold load_reference, Nodeset_newReference, alloc_ref, count_ref, decode_reference.
  cbn beta iota zeta. cbn [World.nodeset World.set_brk World.set_refHeap].
  fold (counted_of w). destruct (_ <? _)%Z; [|done]. cbn [require res_bind].
  rewrite getAttributeValue_eq. cbn beta iota.
  destruct (attr_value attrIsForward _) as [s|]; [|done]. cbn [nonnull res_bind].
  rewrite getAttributeValue_eq. cbn beta iota.
  rewrite (alias2Id_frame _ w), alias2Id_resolve by done.
  destruct (resolve _ _ _) as [refType|]; [|done]. cbn [res_bind].
  rewrite (goes_hierachical_frame _ w), goes_hierachical_parsing
    by (done || apply Hunfiled).
  cbn [res_bind Reference.refType]. fold (classify (table_ids w) refType).
  unfold deref_node at 1. cbn. rewrite Hn. cbn [res_bind].
  unfold Nodeset_newReferenceFinish.
  destruct (classify _ _); unfold store_ref, store_node, deref_ref, deref_node; cbn;
    rewrite !lookup_insert_eq; cbn; rewrite Hn; cbn; rewrite lookup_insert_eq; cbn;
    change (namespaces_of _) with (namespaces_of w);
    (destruct (extractNodedId _ _) as [target|]; [|done]); cbn;
    rewrite !insert_insert_eq, <- !app_assoc; unfold new_reference, arena_of; cbn;
    by rewrite app_nil_r.
Qed.

End decoders.

(** ** The abstraction *)

Definition aref (rec : Reference) : ARef :=
  ARef.mk (Reference.isForward rec) (Reference.refType rec) (Reference.target rec).

(** The records of a list, from its head. *)
Definition chain (w : World) (head : option ptr) : list ARef :=
  match ref_chain (World.brk w) (World.refHeap w) head with
  | Ok l => aref <$> l.*2
  | Trap _ => []
  end.

Definition abs_node (w : World) (n : TNode) : ANode :=
  ANode.mk (TNode.nodeClass n) (TNode.id n) (TNode.browseName n) (TNode.ext n)
    (chain w (TNode.hierachicalRefs n)) (chain w (TNode.nonHierachicalRefs n)).

(** The finished nodes are those handed to the sorter. *)
Definition abs_nodes (w : World) : list ANode :=
  omap (fun p => abs_node w <$> World.nodeHeap w !! p) (World.sortNodes w).

Definition abs (w : World) : Abs :=
  Abs.mk (namespaces_of w) (cb_of w) (aliases_of w) (abs_nodes w) (table_ids w)
    (length (counted_of w)) (World.trace w).

(** ** Walks and frames *)

Section frames.
Implicit Types (w : World) (h : gmap ptr Reference) (head : option ptr).

(** A walk reads the heap below its head only. *)
Lemma ref_chain_agree fuel h h' brk head :
  wf_refs h brk -> valid_head h head ->
  (forall r : ptr, r < brk -> h' !! r = h !! r) ->
  ref_chain fuel h' head = ref_chain fuel h head.
Proof.
  intros Hwf Hv Hagree. revert head Hv.
  induction fuel as [|fuel IH]; intros [r|] Hv; simpl; try done.
  destruct (Hv r eq_refl) as [rec Hrec]. destruct (Hwf r rec Hrec) as [Hlt Hlink].
  rewrite Hagree by done. rewrite !Hrec, IH; [done|].
  intros q Hq. by apply Hlink.
Qed.

(** The list from a head is what it was when the allocation mark has moved
    up and the heap is as it was below the old mark. *)
Lemma chain_frame w w' head :
  wf_world w -> valid_head (World.refHeap w) head ->
  World.brk w <= World.brk w' ->
  (forall r : ptr, r < World.brk w -> World.refHeap w' !! r = World.refHeap w !! r) ->
  chain w' head = chain w head.
Proof.
  intros Hwf Hv Hb Hagree. unfold chain.
  destruct (wf_world_chain w head Hwf Hv) as [l Hl]. rewrite Hl.
  erewrite ref_chain_fuel_mono; [done | exact Hb |].
  by rewrite (ref_chain_agree _ (World.refHeap w) _ (World.brk w)) by (done || apply Hwf).
Qed.

(** A reference allocated at the mark stands in front of the list it is
    linked to. *)
Lemma chain_cons w w' rec :
  wf_world w -> valid_head (World.refHeap w) (Reference.next rec) ->
  World.brk w' = S (World.brk w) ->
  World.refHeap w' = <[World.brk w := rec]> (World.refHeap w) ->
  chain w' (Some (World.brk w)) = aref rec :: chain w (Reference.next rec).
Proof.
  intros Hwf Hv Hb Hr. unfold chain. rewrite Hb, Hr.
  erewrite ref_chain_cons by apply lookup_insert_eq.
  rewrite ref_chain_alloc by (done || apply Hwf).
  by destruct (wf_world_chain w _ Hwf Hv) as [l ->].
Qed.

(** The finished nodes are what they were when the heaps are as they were
    at the finished nodes and below the old mark. *)
Lemma abs_nodes_frame w w' :
  wf_world w -> World.brk w <= World.brk w' ->
  (forall r : ptr, r < World.brk w -> World.refHeap w' !! r = World.refHeap w !! r) ->
  (forall p : ptr, p ∈ World.sortNodes w -> World.nodeHeap w' !! p = World.nodeHeap w !! p) ->
  World.sortNodes w' = World.sortNodes w ->
  abs_nodes w' = abs_nodes w.
Proof.
  intros Hwf Hb Hr Hn Hs. unfold abs_nodes. rewrite Hs.
  apply list_omap_ext, Forall2_same_length_lookup_2; [done|].
  intros i p q Hp Hq. simplify_eq. rewrite Hn by by eapply list_elem_of_lookup_2.
  destruct (World.nodeHeap w !! p) as [n|] eqn:E; [|done]. simpl. f_equal.
  destruct (wf_nodeHeap w Hwf p n E). unfold abs_node.
  by rewrite !(chain_frame w w').
Qed.

End frames.

(** ** Namespaces and aliases *)

Section tables.
Implicit Types (w : World).

Lemma load_uri_abs namespaceUri w :
  res_rel (fun w' a' => abs w' = a')
    (load_element w (UriElement namespaceUri)) (build_uri namespaceUri (abs w)).
Proof.
  cbn [load_element]. unfold Nodeset_newNamespace, Nodeset_newNamespaceFinish, build_uri.
  cbn. unfold TNamespaceTable.size. cbn.
  rewrite bool_decide_eq_true_2 by (rewrite length_app; simpl; lia).
  cbn. unfold abs. cbn. by rewrite insert_last.
Qed.

Lemma load_alias_abs attributes idString w :
  res_rel (fun w' a' => abs w' = a')
    (load_element w (AliasElement attributes idString))
    (build_alias attributes idString (abs w)).
Proof.
  cbn [load_element]. unfold Nodeset_newAlias, Nodeset_newAliasFinish, build_alias.
  rewrite getAttributeValue_eq. cbn.
  rewrite lookup_app_r, Nat.sub_diag by done. cbn.
  change (namespaces_of _) with (namespaces_of w).
  destruct (extractNodedId _ _) as [id|]; [|done]. cbn.
  unfold abs. f_equal; try done. unfold aliases_of. cbn. apply insert_snoc.
Qed.

End tables.

(** ** Nodes *)

Section nodes.
Implicit Types (w : World) (a : Abs) (node : ptr) (n : TNode) (ls : Lists).

(** The abstract node with the fields of [n] and the two lists given. *)
Definition anode n (hier nonHier : list ARef) : ANode :=
  ANode.mk (TNode.nodeClass n) (TNode.id n) (TNode.browseName n) (TNode.ext n)
    hier nonHier.

Definition with_refs (count : nat) a : Abs :=
  Abs.mk (Abs.namespaces a) (Abs.cb a) (Abs.aliases a) (Abs.nodes a) (Abs.table a)
    count (Abs.events a).

(** The state between the start tag of a node element and its end tag,
    against the abstract state [a] the element started in: the node at
    [node] is not finished, its two lists are those built so far, and
    nothing of the abstract state has changed but the number of
    references. *)
Definition in_node node (n0 : TNode) a w ls : Prop :=
  let '(count, hier, nonHier) := ls in
  wf_world w /\ (node ∉ World.sortNodes w) /\
  (exists n, World.nodeHeap w !! node = Some n /\
             abs_node w n = anode n0 hier nonHier) /\
  abs w = with_refs count a.

(** The tables the decoders read are those of the abstract state. *)
Lemma with_refs_tables w count a :
  abs w = with_refs count a ->
  aliases_of w = Abs.aliases a /\ namespaces_of w = Abs.namespaces a /\
  table_ids w = Abs.table a /\ count = length (counted_of w).
Proof. unfold abs, with_refs. intros H. by injection H. Qed.

Lemma chain_NULL w : chain w None = [].
Proof. unfold chain. by destruct (World.brk w). Qed.

(** The mark is not a finished node. *)
Lemma wf_world_fresh_sorted w : wf_world w -> World.brk w ∉ World.sortNodes w.
Proof.
  intros Hwf Hin. pose proof (wf_sortNodes w Hwf) as Hs.
  rewrite Forall_forall in Hs. apply Hs in Hin as [n Hn].
  by rewrite (wf_world_fresh_node w Hwf) in Hn.
Qed.

(** The finished nodes lie below the mark. *)
Lemma wf_world_sorted_below w p :
  wf_world w -> p ∈ World.sortNodes w -> p < World.brk w.
Proof.
  intros Hwf Hin. pose proof (wf_sortNodes w Hwf) as Hs.
  rewrite Forall_forall in Hs. apply Hs in Hin as [n Hn].
  by destruct (wf_nodeHeap w Hwf p n Hn).
Qed.

Lemma in_node_new c attributes w n :
  wf_world w ->
  decode_node (aliases_of w) (namespaces_of w) c attributes = Ok n ->
  in_node (World.brk w) n (abs w)
    (new_node n (blocks_of (node_attributes c) attributes) w)
    (length (counted_of w), [], []).
Proof.
  intros Hwf Hn. pose proof (Nodeset_newNode_eq c attributes w) as Hrun.
  rewrite Hn in Hrun. cbn [res_map res_bind] in Hrun.
  split; [by eapply wf_world_newNode|]. split; [apply (wf_world_fresh_sorted w Hwf)|].
  split.
  - exists n. split; [apply lookup_insert_eq|]. unfold abs_node, anode.
    rewrite (decode_node_Ok _ _ _ _ _ Hn).
    cbn [TNode.nodeClass TNode.id TNode.browseName TNode.ext TNode.hierachicalRefs
         TNode.nonHierachicalRefs].
    by rewrite !chain_NULL.
  - unfold abs, with_refs. f_equal; try done. apply abs_nodes_frame; try done.
    + cbn. lia.
    + intros p Hp. cbn. apply lookup_insert_ne.
      apply (wf_world_sorted_below w p Hwf) in Hp. lia.
Qed.

(** A reference in front of one of the two lists of an abstract node. *)
Definition push (h : bool) (r : ARef) (m : ANode) : ANode :=
  ANode.mk (ANode.nodeClass m) (ANode.id m) (ANode.browseName m) (ANode.ext m)
    (if h then r :: ANode.hierachicalRefs m else ANode.hierachicalRefs m)
    (if h then ANode.nonHierachicalRefs m else r :: ANode.nonHierachicalRefs m).

Lemma aref_cell r next : aref (cell r next) = r.
Proof. by destruct r. Qed.

Lemma load_reference_wf node w e w' :
  wf_world w -> load_reference node w e = Ok w' -> wf_world w'.
Proof.
  unfold load_reference. intros Hwf H. res_inv.
  match goal with x : (ptr * World)%type |- _ => destruct x as [r w1] end.
  eapply wf_world_newReferenceFinish; [done|]. by eapply wf_world_newReference.
Qed.

Section new_reference.
Context (node : ptr) (n : TNode) (h : bool) (r : ARef) (blocks : list string).
Context (w : World) (Hwf : wf_world w).
Context (Hn : World.nodeHeap w !! node = Some n).
Let w' := new_reference node n h r blocks w.

Lemma new_reference_refs (q : ptr) :
  q < World.brk w -> World.refHeap w' !! q = World.refHeap w !! q.
Proof. intros Hq. cbn. apply lookup_insert_ne. lia. Qed.

(** The node after a Reference element: the reference is in front of the
    list the classification chose, the other list is as it was. *)
Lemma abs_node_new_reference :
  abs_node w' (link h (World.brk w) n) = push h r (abs_node w n).
Proof.
  destruct (wf_nodeHeap w Hwf node n Hn) as [_ Hvh Hvn _].
  assert (chain w' (Some (World.brk w)) = r :: chain w (head_of h n)) as Hcons.
  { rewrite (chain_cons w w' (cell r (head_of h n))), aref_cell;
      try done; by destruct h. }
  assert (forall head, valid_head (World.refHeap w) head -> chain w' head = chain w head)
    as Hframe.
  { intros head Hv. apply chain_frame; try done; [unfold w'; cbn; lia|].
    apply new_reference_refs. }
  unfold abs_node, push. destruct h; cbn -[chain]; by rewrite Hcons, Hframe.
Qed.

Lemma abs_new_reference :
  node ∉ World.sortNodes w ->
  abs w' = with_refs (S (length (counted_of w))) (abs w).
Proof.
  intros Hfresh. unfold abs, with_refs. f_equal; try done.
  - apply abs_nodes_frame; try done; [unfold w'; cbn; lia | apply new_reference_refs |].
    intros p Hp. unfold w'. cbn. apply lookup_insert_ne. by intros ->.
  - unfold w', counted_of. cbn. rewrite length_app. simpl. unfold counted_of. lia.
Qed.

End new_reference.

(** A Reference element keeps the state in the node, as the abstract
    builder counts and files the reference. *)
Lemma load_reference_sim node n0 a w ls e :
  in_node node n0 a w ls ->
  res_rel (in_node node n0 a) (load_reference node w e) (build_reference a ls e).
Proof.
  destruct ls as [[count hier] nonHier].
  intros (Hwf & Hfresh & (n & Hn & Han) & Habs).
  pose proof (load_reference_wf node w e) as Hwf'.
  rewrite (load_reference_eq node n) in Hwf' |- * by (done || apply Hwf).
  unfold build_reference.
  destruct (with_refs_tables _ _ _ Habs) as (<- & <- & <- & ->).
  destruct (_ <? _)%Z; [|done]. cbn [require res_bind] in *.
  destruct (decode_reference _ _ _ e) as [[h r]|]; [|done]. cbn [res_bind] in *.
  specialize (Hwf' _ Hwf eq_refl). cbn [res_rel].
  assert (in_node node n0 a
            (new_reference node n h r
               (blocks_of [attrIsForward; attrReferenceType] (RefElem.attributes e)) w)
            (S (length (counted_of w)), (if h then r :: hier else hier),
             (if h then nonHier else r :: nonHier))); [|by destruct h].
  split; [done|]. split; [done|]. split.
  - exists (link h (World.brk w) n). split; [apply lookup_insert_eq|].
    by rewrite abs_node_new_reference, Han.
  - by rewrite abs_new_reference, Habs.
Qed.

(** *** The end tag *)

(** What the promotion of a ReferenceType leaves: the state with another
    table, whose ids are [t]. *)
Definition promoted w (w' : World) (t : list TNodeId) : Prop :=
  exists table, w' = with_table table w /\ TNode.id <$> table = t.

Lemma promoted_refl w : promoted w w (table_ids w).
Proof. exists (table_of w). by rewrite with_table_table_of. Qed.

(** One turn of the loop of [addIfHierachicalReferenceType] is
    [promote_ref] on the ids of the table. *)
Lemma step_rel n rec w :
  res_rel (promoted w) (addIfHierachicalReferenceType_step n rec w)
    (promote_ref (TNode.id n) (table_ids w) (aref rec)).
Proof.
  unfold addIfHierachicalReferenceType_step, promote_ref.
  cbn [aref ARef.isForward ARef.target].
  destruct (Reference.isForward rec); cbn [negb]; [apply promoted_refl|].
  destruct (Reference.target rec) as [tg|]; [|done]. cbn [initialised res_bind].
  rewrite targets_hierachical_spec. case_bool_decide; [|apply promoted_refl].
  unfold push_hierachicalRef, table_ids. rewrite length_fmap.
  case_bool_decide; [|done]. eexists. split; [done|]. by rewrite fmap_app.
Qed.

Lemma loop_rel fuel n head w l :
  ref_chain fuel (World.refHeap w) head = Ok l ->
  res_rel (promoted w) (addIfHierachicalReferenceType_loop fuel n head w)
    (res_fold (promote_ref (TNode.id n)) (aref <$> l.*2) (table_ids w)).
Proof.
  revert head w l. induction fuel as [|fuel IH]; intros [r|] w l; simpl; try done;
    try (intros [= <-]; apply promoted_refl).
  destruct (World.refHeap w !! r) as [rec|] eqn:Hr; [|done]. intros H. res_inv.
  rewrite (proj2 (deref_ref_Ok w r rec)) by done. cbn.
  eapply res_rel_bind; [apply step_rel|]. intros w1 t (table & -> & <-).
  eapply res_rel_mono; [|by apply IH]. intros w2 t' (table' & -> & <-).
  by exists table'.
Qed.

(** The state after the end tag: the node is with the finished ones. *)
Lemma abs_finish node n table w :
  World.nodeHeap w !! node = Some n ->
  abs (with_table table (Sort_addNode node w)) =
  Abs.mk (namespaces_of w) (cb_of w) (aliases_of w) (abs_nodes w ++ [abs_node w n])
    (TNode.id <$> table) (length (counted_of w)) (World.trace w).
Proof.
  intros Hn. unfold abs. f_equal; try done. unfold abs_nodes. cbn.
  rewrite omap_app. cbn. by rewrite Hn.
Qed.

(** The end tag of a node element: the node joins the finished nodes with
    the two lists built, and a ReferenceType is promoted over its
    hierarchical list. *)
Lemma Nodeset_newNodeFinish_sim node n0 a w count hier nonHier :
  in_node node n0 a w (count, hier, nonHier) ->
  res_rel (fun w' a' => abs w' = a') (Nodeset_newNodeFinish node w)
    (let* table :=
       if decide (TNode.nodeClass n0 = NODECLASS_REFERENCETYPE)
       then res_fold (promote_ref (TNode.id n0)) hier (Abs.table a)
       else Ok (Abs.table a) in
     Ok (Abs.mk (Abs.namespaces a) (Abs.cb a) (Abs.aliases a)
           (Abs.nodes a ++ [anode n0 hier nonHier]) table count (Abs.events a))).
Proof.
  intros (Hwf & Hfresh & (n & Hn & Han) & Habs).
  destruct (with_refs_tables _ _ _ Habs) as (_ & _ & <- & ->).
  unfold Nodeset_newNodeFinish, addIfHierachicalReferenceType.
  rewrite (proj2 (deref_node_Ok (Sort_addNode node w) node n)) by done.
  cbn [res_bind]. replace (TNode.nodeClass n0) with (TNode.nodeClass n) by by injection Han.
  replace (TNode.id n0) with (TNode.id n) by by injection Han.
  destruct (wf_nodeHeap w Hwf node n Hn) as [_ Hvh _ _].
  destruct (wf_world_chain w _ Hwf Hvh) as [l Hl].
  assert (hier = aref <$> l.*2) as -> by (injection Han; unfold chain; by rewrite Hl).
  assert (forall w' table, promoted (Sort_addNode node w) w' table ->
            abs w' = Abs.mk (Abs.namespaces a) (Abs.cb a) (Abs.aliases a)
              (Abs.nodes a ++ [anode n0 (aref <$> l.*2) nonHier]) table
              (length (counted_of w)) (Abs.events a)) as Hfin.
  { intros w' t (table & -> & <-). rewrite (abs_finish node n) by done.
    rewrite Han. unfold abs, with_refs in Habs. by injection Habs as <- <- <- <- _ <-. }
  case_decide.
  - eapply res_rel_map_r; [|apply Hfin].
    apply (loop_rel (World.brk w) n _ (Sort_addNode node w) l Hl).
  - apply Hfin, (promoted_refl (Sort_addNode node w)).
Qed.

End nodes.

(** ** The refinement *)

Section refinement.
Implicit Types (w : World) (a : Abs) (e : Element) (doc : Document).

(** The simulation relation: a well-formed state and its abstraction. *)
Definition sim w a : Prop := wf_world w /\ abs w = a.

(** The Reference elements of a node element, after its start tag. *)
Lemma load_references_sim c attributes refs w n :
  wf_world w ->
  decode_node (aliases_of w) (namespaces_of w) c attributes = Ok n ->
  res_rel (in_node (World.brk w) n (abs w))
    (res_fold (load_reference (World.brk w)) refs
       (new_node n (blocks_of (node_attributes c) attributes) w))
    (res_fold (build_reference (abs w)) refs (length (counted_of w), [], [])).
Proof.
  intros Hwf Hn. apply (res_fold_rel (in_node (World.brk w) n (abs w)));
    [intros; by apply load_reference_sim | by apply in_node_new].
Qed.

Lemma load_node_abs (e : NodeElem) w :
  wf_world w ->
  res_rel (fun w' a' => abs w' = a') (load_node e w) (build_node e (abs w)).
Proof.
  intros Hwf. unfold load_node, build_node. rewrite Nodeset_newNode_eq.
  change (Abs.aliases (abs w)) with (aliases_of w).
  change (Abs.namespaces (abs w)) with (namespaces_of w).
  destruct (decode_node _ _ _ _) as [n|] eqn:Hn; [|done]. cbn [res_map res_bind].
  eapply res_rel_bind; [by apply load_references_sim|].
  intros w2 [[count hier] nonHier] Hin. by apply Nodeset_newNodeFinish_sim in Hin.
Qed.

(** C17. A node element, functionally: after its load from a well-formed
    state the node stands at the address malloc handed out, with the
    class, id, browse name and class-specific fields its attributes
    decode to, and each Reference element under it, decoded against the
    aliases, the namespaces and the table of the state the element
    started in, is in exactly one of its two lists: the list its
    classification names, last parsed first. *)
Theorem load_node_lists (e : NodeElem) w w' :
  wf_world w -> load_node e w = Ok w' ->
  exists n n0 rs,
    World.nodeHeap w' !! World.brk w = Some n /\
    decode_node (aliases_of w) (namespaces_of w) (NodeElem.nodeClass e)
      (NodeElem.attributes e) = Ok n0 /\
    Forall2 (fun el x =>
               decode_reference (aliases_of w) (namespaces_of w) (table_ids w) el
               = Ok x) (NodeElem.references e) rs /\
    abs_node w' n = anode n0 (filed_refs true rs) (filed_refs false rs).
Proof.
  intros Hwf Hrun. unfold load_node in Hrun. rewrite Nodeset_newNode_eq in Hrun.
  destruct (decode_node _ _ _ _) as [n0|] eqn:Hn0; [|done].
  cbn [res_map res_bind] in Hrun.
  pose proof (load_references_sim _ _ (NodeElem.references e) w n0 Hwf Hn0) as Hsim.
  destruct (res_fold (load_reference _) _ _) as [w2|]; [|done].
  cbn [res_bind] in Hrun.
  apply res_rel_Ok_l in Hsim as (ls & (rs & Hrs & ->)%build_references_decoded & Hin).
  destruct Hin as (_ & _ & (n & Hn & Han) & _). rewrite !app_nil_r in Han.
  apply Nodeset_newNodeFinish_state in Hrun as (m & k & _ & ->).
  by exists n, n0, rs.
Qed.

Lemma load_element_sim w e :
  wf_world w -> res_rel sim (load_element w e) (build_element (abs w) e).
Proof.
  intros Hwf. apply res_rel_and.
  - intros w'. rewrite load_element_run. by apply run_wf.
  - destruct e; [apply load_uri_abs | apply load_alias_abs | by apply load_node_abs].
Qed.

(** A load from a well-formed state and the abstract builder from its
    abstraction agree: both return, in a well-formed state whose
    abstraction is the abstract result, or both trap, with the same
    undefined behaviour. *)
Lemma load_sim doc w :
  wf_world w -> res_rel sim (load doc w) (build doc (abs w)).
Proof.
  intros Hwf. apply (res_fold_rel sim); [|done].
  intros w1 a1 e _ [Hwf1 <-]. by apply load_element_sim.
Qed.

(** C6. Refinement: from any well-formed state, loading a document
    computes, on the abstraction of the state, what the abstract builder
    computes from the document: the same namespaces, aliases, finished
    nodes with their two lists of references, table of hierarchical
    reference types, number of references and calls of the host; and the
    load traps exactly when the abstract builder does, with the same
    undefined behaviour.  What a load makes of a document does not depend
    on the addresses or on the arena of the state it starts in. *)
Theorem load_refines doc w :
  wf_world w -> res_map abs (load doc w) = build doc (abs w).
Proof. intros Hwf. by apply (res_rel_map wf_world), load_sim. Qed.

(** The load into a new builder is the abstract builder from its initial
    state. *)
Corollary load_new nsCallback doc :
  res_map abs (load doc (Nodeset_new nsCallback)) = build doc (Abs_new nsCallback).
Proof. apply (res_rel_map wf_world), (load_sim doc), wf_world_new. Qed.

End refinement.
