(* ===== verification/Delivery.v ===== *)
(** * What the host receives

    The host is called with addresses.  This file composes the load, the
    emission and the refinement to say what it reads there: after an
    import that returns true, the nodes behind the addresses of the calls
    are the nodes the abstract builder makes of the document, each once,
    in the order of the phases and parents first within a class.

    It then states, for a whole document, the invariants of the data
    model that [Translated] and [Classifier] show of single states: the
    namespace table after a load has one cell per URI element with the
    number of the host; and every id of every node and reference is in a
    namespace the document declares. *)

From Stdlib Require Import String.
From stdpp Require Import strings gmap.
From S2P Require Import Prelude CString Model Namespace Attributes Alias Classifier.
From S2P Require Import Sorter Builder Emit Machine Stored Translated Driver Abstract.
From S2P Require Import Refinement.

Section delivery.
Context `{Sorter}.
Implicit Types (w : World) (doc : Document) (nsCallback : addNamespaceCb).
Implicit Types (p : ptr) (order : list ptr) (c : TNodeClass).

(** What is behind an address in the state [w]: the node with the records
    of its two lists. *)
Definition node_at w p : option ANode := abs_node w <$> World.nodeHeap w !! p.

(** What the host reads at the addresses of the calls of a trace, in the
    state [w] in which it is called. *)
Definition received w (t : list Event) : list ANode := omap (node_at w) (added t).

Lemma node_at_class w p x :
  node_at w p = Some x -> class_of w p = Some (ANode.nodeClass x).
Proof.
  unfold node_at, class_of.
  destruct (World.nodeHeap w !! p) as [n|]; [|done]. by intros [= <-].
Qed.

Lemma abs_nodes_node_at w : abs_nodes w = omap (node_at w) (World.sortNodes w).
Proof. done. Qed.

(** The nodes read off an emission are sorted by phase, whatever the
    order the sorter made. *)
Lemma received_emission_sorted w order :
  StronglySorted (by_rank phase ANode.nodeClass) (received w (emission w order)).
Proof.
  unfold received. rewrite added_emission, omap_bind. apply sorted_bind.
  - unfold emission_order. repeat (constructor; [|by repeat constructor]).
    constructor.
  - intros c x (p & [Hc _]%elem_of_of_class & Hp%node_at_class)%list_elem_of_omap.
    congruence.
Qed.

(** They are the nodes behind the addresses of the order. *)
Lemma received_emission_perm w order :
  Forall (fun p => is_Some (class_of w p)) order ->
  received w (emission w order) ≡ₚ omap (node_at w) order.
Proof. intros Hcl. unfold received. by rewrite emission_perm. Qed.

(** The order the sorter is asked for is the parent relation of the
    values. *)
Lemma refers_names w (n : TNode) fwd target :
  refers w n fwd target = names (table_ids w) (abs_node w n) fwd target.
Proof.
  unfold refers, names, hierarchical_refs_of, abs_node, chain. cbn.
  destruct (ref_chain _ _ _) as [l|]; [|done].
  induction l.*2 as [|rec l' IH]; [done|]. cbn. by rewrite IH.
Qed.

Lemma precedes_parent w u v x y :
  node_at w u = Some x -> node_at w v = Some y ->
  precedes w u v = parent (table_ids w) x y.
Proof.
  unfold node_at, precedes, parent.
  destruct (World.nodeHeap w !! u) as [nu|]; [|done].
  destruct (World.nodeHeap w !! v) as [nv|]; [|done].
  intros [= <-] [= <-]. by rewrite !refers_names.
Qed.

(** Of two nodes of one class in the sorter's order, a parent is emitted
    before its child. *)
Lemma received_emission_parent w order u v x y :
  NoDup (World.sortNodes w) -> sort (precedes w) (World.sortNodes w) = Some order ->
  u ∈ World.sortNodes w -> v ∈ World.sortNodes w ->
  node_at w u = Some x -> node_at w v = Some y ->
  ANode.nodeClass x = ANode.nodeClass y -> x <> y ->
  parent (table_ids w) x y = true ->
  before (received w (emission w order)) x y.
Proof.
  intros Hnd Ho Hu Hv Hx Hy Hc Hne Hp.
  apply (before_omap _ _ u v); [|done..].
  apply (emission_within_class w order u v (ANode.nodeClass x));
    [by apply node_at_class | rewrite Hc; by apply node_at_class |].
  apply (sort_sorted (precedes w) (World.sortNodes w)); try done.
  - intros ->. congruence.
  - by rewrite (precedes_parent w u v x y).
Qed.

(** The abstract builder returns on the document of a load that returns,
    with the abstraction of the state the load ends in. *)
Lemma loaded_abs nsCallback doc w :
  load doc (Nodeset_new nsCallback) = Ok w ->
  build doc (Abs_new nsCallback) = Ok (abs w).
Proof. intros Hload. by rewrite <- load_new, Hload. Qed.

(** C1. Functional correctness of a whole import, on values: after an
    import that returns true, the nodes the host has read at the addresses
    it was called with (in the state the load ended in, which the emission
    does not change) are the finished nodes the abstract builder computes
    from the document, each with its two lists of references, every one
    once; they came sorted by phase, and within a class a node came before
    every other node that names it as its parent or that it names as its
    child, by a hierarchical reference of a type of the table. *)
Theorem import_content nsCallback doc w1 w :
  load doc (Nodeset_new nsCallback) = Ok w1 ->
  import nsCallback doc = Ok (true, w) ->
  exists a, build doc (Abs_new nsCallback) = Ok a /\
    received w1 (World.trace w) ≡ₚ Abs.nodes a /\
    StronglySorted (by_rank phase ANode.nodeClass) (received w1 (World.trace w)) /\
    forall x y, x ∈ Abs.nodes a -> y ∈ Abs.nodes a ->
      ANode.nodeClass x = ANode.nodeClass y -> x <> y ->
      parent (Abs.table a) x y = true ->
      before (received w1 (World.trace w)) x y.
Proof.
  intros Hload (w1' & order & Hload' & Ho & Hadded)%import_emission.
  rewrite Hload in Hload'. injection Hload' as <-.
  destruct (loaded_nodes _ _ _ Hload) as (Hcl & Hs & _). rewrite <- Hs in Ho.
  exists (abs w1). split; [by apply loaded_abs|].
  assert (received w1 (World.trace w) = received w1 (emission w1 order)) as ->
    by (unfold received; by rewrite Hadded).
  split; [|split; [apply received_emission_sorted|]].
  - rewrite received_emission_perm.
    + cbn. by rewrite abs_nodes_node_at, (sort_perm _ _ _ Ho).
    + rewrite (sort_perm _ _ _ Ho), Hs. apply Forall_forall.
      intros p ((p' & cl) & -> & Hp)%list_elem_of_fmap. exists cl. by apply Hcl.
  - cbn. intros x y (u & Hu & Hx)%list_elem_of_omap (v & Hv & Hy)%list_elem_of_omap.
    apply (received_emission_parent w1 order u v); try done.
    rewrite Hs. apply nodes_of_NoDup.
Qed.

(** ** The namespaces of a document *)

(** The URIs a document declares, in its order. *)
Definition uris_of doc : list cstr :=
  omap (fun e => match e with UriElement uri => Some uri | _ => None end) doc.

(** The cell of a declared namespace: the number the host returns for the
    URI, as an [int] stored in a [size_t], and the URI. *)
Definition declared nsCallback (uri : cstr) : TNamespace :=
  TNamespace.mk (Some (to_size_t (to_int (nsCallback uri)))) uri.

(** The abstract builder appends one cell and calls the host once per
    URI element, and for no other element. *)
Lemma build_namespaces doc (a a' : Abs) :
  build doc a = Ok a' ->
  Abs.cb a' = Abs.cb a /\
  Abs.namespaces a' = Abs.namespaces a ++ (declared (Abs.cb a) <$> uris_of doc) /\
  Abs.events a' =
    Abs.events a ++
    ((fun uri => CbAddNamespace uri (to_int (Abs.cb a uri))) <$> uris_of doc).
Proof.
  revert a. induction doc as [|e doc IH]; intros a.
  { intros [= <-]. by rewrite !app_nil_r. }
  unfold build. cbn [res_fold]. fold (build doc).
  destruct (build_element a e) as [a1|] eqn:E; [|done]. cbn [res_bind].
  intros (Hcb & Hns & Hev)%IH. rewrite Hcb, Hns, Hev. clear IH Hcb Hns Hev.
  destruct e as [uri|attrs id|e]; cbn in E.
  - injection E as <-. cbn. by rewrite <- !app_assoc.
  - unfold build_alias in E. by res_inv.
  - unfold build_node in E. res_inv.
    match goal with x : Lists |- _ => destruct x as [[? ?] ?] end. by res_inv.
Qed.

(** After a load into a new builder the namespace table holds, behind
    the cell of namespace 0, one cell per URI element of the document, in
    the order of the document, each with the number the host's callback
    returns for the URI; and the host has been asked once per URI element,
    in that order, and for nothing else. *)
Theorem loaded_namespaces nsCallback doc w :
  load doc (Nodeset_new nsCallback) = Ok w ->
  namespaces_of w =
    TNamespace.mk (Some 0%Z) (Some "http://opcfoundation.org/UA/"%string)
    :: (declared nsCallback <$> uris_of doc) /\
  World.trace w =
    (fun uri => CbAddNamespace uri (to_int (nsCallback uri))) <$> uris_of doc.
Proof. by intros (_ & Hns & Hev)%loaded_abs%build_namespaces. Qed.

(** ** The namespaces of the nodes *)

(** An id is in a namespace of the document: its index is not positive,
    or is the number the host returned for a URI the document declares. *)
Definition declared_id nsCallback doc (id : TNodeId) : Prop :=
  (TNodeId.nsIdx id <= 0)%Z \/
  exists uri, uri ∈ uris_of doc /\ TNodeId.nsIdx id = to_int (nsCallback uri).

Definition declared_ref nsCallback doc (r : ARef) : Prop :=
  declared_id nsCallback doc (ARef.refType r) /\
  forall target, ARef.target r = Some target -> declared_id nsCallback doc target.

Definition declared_node nsCallback doc (x : ANode) : Prop :=
  declared_id nsCallback doc (ANode.id x) /\
  Forall (declared_ref nsCallback doc)
    (ANode.hierachicalRefs x ++ ANode.nonHierachicalRefs x).

Lemma translated_declared nsCallback doc w id :
  load doc (Nodeset_new nsCallback) = Ok w ->
  translated_id (World.trace w) id -> declared_id nsCallback doc id.
Proof.
  intros [_ Htr]%loaded_namespaces [Hle|Hin]; [by left | right].
  rewrite Htr in Hin. unfold host_indices in Hin.
  apply list_elem_of_omap in Hin as (e & (uri & -> & Huri)%list_elem_of_fmap & [= <-]).
  by exists uri.
Qed.

(** The records of a list of a loaded state are in namespaces of the
    document. *)
Lemma chain_declared nsCallback doc w head :
  load doc (Nodeset_new nsCallback) = Ok w ->
  Forall (declared_ref nsCallback doc) (chain w head).
Proof.
  intros Hload. pose proof (loaded_reachable _ _ _ Hload) as Hs.
  apply (@reachable_stored translation) in Hs. unfold chain.
  destruct (ref_chain _ _ _) as [l|] eqn:Hl; [|constructor].
  apply ref_chain_lookup in Hl. apply Forall_fmap, Forall_fmap.
  eapply Forall_impl; [exact Hl|]. intros [r rec] Hr. cbn in *.
  destruct (stored_refHeap w Hs r rec Hr) as [Hty Htg].
  split; [|intros target Ht]; (eapply translated_declared; [done|]);
    [exact Hty | by apply Htg].
Qed.

(** Invariants 1 and 2 of the data model, for a document: every node the
    abstract builder makes of a document, and every reference of its two
    lists, carries ids whose namespace index is not positive or is the
    number the host returned for a URI of the document. *)
Theorem build_translated nsCallback doc a :
  build doc (Abs_new nsCallback) = Ok a ->
  Forall (declared_node nsCallback doc) (Abs.nodes a).
Proof.
  intros Hbuild. pose proof (load_new nsCallback doc) as Hnew. rewrite Hbuild in Hnew.
  destruct (load doc (Nodeset_new nsCallback)) as [w|] eqn:Hload; [|done].
  injection Hnew as <-. cbn. unfold abs_nodes. apply Forall_forall.
  intros x (p & _ & Hx)%list_elem_of_omap.
  destruct (World.nodeHeap w !! p) as [n|] eqn:Hn; [|done]. injection Hx as <-.
  pose proof (loaded_reachable _ _ _ Hload) as Hs.
  apply (@reachable_stored translation) in Hs.
  split; [|apply Forall_app; split; by apply chain_declared].
  eapply translated_declared; [done|]. apply (stored_nodeHeap w Hs p n Hn).
Qed.

End delivery.
