(* ===== verification/Closure.v ===== *)
(** * The set of hierarchical reference types

    The data model asks that the table of hierarchical reference types
    be closed under "subtype of" when the nodes are sorted (invariant 4):
    a ReferenceType that names a hierarchical type by an inverse reference
    of its hierarchical list is hierarchical itself.  The code has no pass
    that closes the table: [addIfHierachicalReferenceType] looks at a
    ReferenceType once, when its end tag is read, against the table as it
    is then.

    This file states the closure as the specification has it, by rules
    ([hierarchical]), and compares the table after a load with it.  The
    table never holds more than the closure.  It holds all of it when the
    file lists every ReferenceType behind the types it names
    ([parents_first]); a file that lists a subtype first leaves it out of
    the table, and [Documents] has such a file.  The closure starts from
    the seeds of the code, which are seven ids: what that means for a
    reference of type HasEncoding is the last theorem. *)

From Stdlib Require Import String.
From stdpp Require Import strings gmap.
From S2P Require Import Prelude CString Model Namespace Attributes Alias Classifier.
From S2P Require Import Sorter Builder Emit Machine Driver Abstract Refinement Delivery.

(** ** The growth of the table *)

Section table.
Implicit Types (table : list TNodeId) (hier : list ARef) (a : Abs) (id t : TNodeId).

(** One turn of the promotion: an inverse reference to a type of the table
    appends the id, any other reference leaves the table as it is. *)
Lemma promote_ref_Ok id table r table' :
  promote_ref id table r = Ok table' ->
  table' = table \/
  table' = table ++ [id] /\ ARef.isForward r = false /\
  exists t, ARef.target r = Some t /\ t ∈ table.
Proof.
  unfold promote_ref. destruct (ARef.isForward r); cbn [negb]; [by left; simplify_eq|].
  destruct (ARef.target r) as [t|]; [|done]. cbn [initialised res_bind].
  case_bool_decide; [|by left; simplify_eq]. intros Hrun. res_inv. right. eauto.
Qed.

Lemma promote_ref_prefix id table r table' :
  promote_ref id table r = Ok table' -> table `prefix_of` table'.
Proof. intros [->|[-> _]]%promote_ref_Ok; [done | by apply prefix_app_r]. Qed.

Lemma promote_fold_prefix id hier table table' :
  res_fold (promote_ref id) hier table = Ok table' -> table `prefix_of` table'.
Proof.
  apply (res_fold_invariant (promote_ref id) (fun l => table `prefix_of` l)); [|done].
  intros l r l' _ Hl Hr%promote_ref_prefix. by etrans.
Qed.

(** An inverse reference to a type of the table promotes the node. *)
Lemma promote_fold_promotes id hier table table' r target :
  res_fold (promote_ref id) hier table = Ok table' ->
  r ∈ hier -> ARef.isForward r = false -> ARef.target r = Some target ->
  target ∈ table -> id ∈ table'.
Proof.
  revert table. induction hier as [|r' hier IH]; intros table Hrun Hr Hfwd Ht Hin;
    [by apply elem_of_nil in Hr|].
  cbn [res_fold] in Hrun. destruct (promote_ref id table r') as [table1|] eqn:E; [|done].
  cbn [res_bind] in Hrun. pose proof (promote_ref_prefix _ _ _ _ E) as Hpre.
  apply elem_of_cons in Hr as [<-|Hr].
  - apply promote_fold_prefix in Hrun. apply (elem_of_prefix table1); [|done].
    unfold promote_ref in E. rewrite Hfwd, Ht in E. cbn in E.
    rewrite bool_decide_eq_true_2 in E by done. res_inv. set_solver.
  - apply (IH table1); try done. by apply (elem_of_prefix table).
Qed.

(** What a promotion adds is the id of the node, and it adds it only for
    an inverse reference to a type the table held before. *)
Lemma promote_fold_elem id hier table table' t :
  res_fold (promote_ref id) hier table = Ok table' -> t ∈ table' ->
  t ∈ table \/
  t = id /\ Exists (fun r => ARef.isForward r = false /\
                             exists t0, ARef.target r = Some t0 /\ t0 ∈ table) hier.
Proof.
  revert table. induction hier as [|r hier IH]; intros table Hrun Ht; cbn [res_fold] in Hrun.
  { left. by simplify_eq. }
  destruct (promote_ref id table r) as [table1|] eqn:E; [|done]. cbn [res_bind] in Hrun.
  apply promote_ref_Ok in E as [->|(-> & Hfwd & t0 & Ht0 & Hin)].
  - destruct (IH _ Hrun Ht) as [?|[-> Hex]]; [by left | right].
    split; [done | by apply Exists_cons_tl].
  - destruct (IH _ Hrun Ht) as [[?| ->%list_elem_of_singleton]%elem_of_app|[-> _]];
      [by left | right..]; (split; [done | apply Exists_cons_hd; eauto]).
Qed.

Lemma build_element_table a e a' :
  build_element a e = Ok a' -> Abs.table a `prefix_of` Abs.table a'.
Proof.
  destruct e as [uri|attrs id|e]; cbn.
  - by intros [= <-].
  - unfold build_alias. intros Hrun. by res_inv.
  - unfold build_node. intros Hrun. res_inv.
    match goal with x : Lists |- _ => destruct x as [[? ?] ?] end. res_inv. cbn.
    case_decide; res_inv; [by eapply promote_fold_prefix | done].
Qed.

(** The table only grows, at its end. *)
Lemma build_table doc a a' : build doc a = Ok a' -> Abs.table a `prefix_of` Abs.table a'.
Proof.
  apply (res_fold_invariant build_element
           (fun x => Abs.table a `prefix_of` Abs.table x)); [|done].
  intros x e x' _ Hx He%build_element_table. by etrans.
Qed.

(** A ReferenceType that is parsed with an inverse reference, of a type
    known to be hierarchical, to a type the table holds at that moment, is
    in the table when the file has been read. *)
Theorem build_closed pre e post a a1 a2 a' x r target :
  build pre a = Ok a1 -> build_node e a1 = Ok a2 -> build post a2 = Ok a' ->
  last (Abs.nodes a2) = Some x -> ANode.nodeClass x = NODECLASS_REFERENCETYPE ->
  r ∈ ANode.hierachicalRefs x -> ARef.isForward r = false ->
  ARef.target r = Some target -> target ∈ Abs.table a1 ->
  ANode.id x ∈ Abs.table a'.
Proof.
  intros _ Hnode Hpost%build_table Hx Hcl Hr Hfwd Ht Hin.
  apply (elem_of_prefix (Abs.table a2)); [|done]. unfold build_node in Hnode. res_inv.
  match goal with x : Lists |- _ => destruct x as [[? ?] ?] end. res_inv.
  cbn in *. rewrite last_snoc in Hx. injection Hx as <-. cbn in *.
  rewrite decide_True in * by done. by eapply promote_fold_promotes.
Qed.

End table.

(** ** The closure, by rules *)

(** [x] is a reference type that names [t] as its supertype: it has an
    inverse reference to [t] in its hierarchical list. *)
Definition subtype_of (x : ANode) (t : TNodeId) : Prop :=
  ANode.nodeClass x = NODECLASS_REFERENCETYPE /\
  Exists (fun r => ARef.isForward r = false /\ ARef.target r = Some t)
    (ANode.hierachicalRefs x).

#[export] Instance subtype_of_dec x t : Decision (subtype_of x t).
Proof. unfold subtype_of. apply _. Defined.

(** The hierarchical reference types of a list of nodes: the seeds, and
    every reference type of the list that names a hierarchical type as its
    supertype. *)
Inductive hierarchical (nodes : list ANode) : TNodeId -> Prop :=
| hierarchical_seed id :
    id ∈ TNode.id <$> hierachicalRefs -> hierarchical nodes id
| hierarchical_subtype x t :
    x ∈ nodes -> subtype_of x t -> hierarchical nodes t ->
    hierarchical nodes (ANode.id x).

(** A table is closed over a list of nodes. *)
Definition closed (nodes : list ANode) (table : list TNodeId) : Prop :=
  forall x t, x ∈ nodes -> subtype_of x t -> t ∈ table -> ANode.id x ∈ table.

(** No node of the list names as its supertype the id of a reference type
    that stands at its own place or behind it. *)
Fixpoint parents_first (nodes : list ANode) : Prop :=
  match nodes with
  | [] => True
  | x :: rest =>
      Forall (fun y => ANode.nodeClass y = NODECLASS_REFERENCETYPE ->
                       ~ subtype_of x (ANode.id y)) (x :: rest) /\
      parents_first rest
  end.

#[export] Instance parents_first_dec nodes : Decision (parents_first nodes).
Proof. induction nodes; apply _. Defined.

Section closure.
Implicit Types (nodes : list ANode) (table : list TNodeId) (x y : ANode) (t : TNodeId).

Lemma hierarchical_mono nodes nodes' t :
  nodes ⊆ nodes' -> hierarchical nodes t -> hierarchical nodes' t.
Proof.
  intros Hsub. induction 1 as [id Hid|x t Hx Hsubtype _ IH];
    [by apply hierarchical_seed | eapply hierarchical_subtype; eauto].
Qed.

(** The last node of a list that lists parents first is named by none. *)
Lemma parents_first_snoc nodes x :
  parents_first (nodes ++ [x]) ->
  parents_first nodes /\
  (ANode.nodeClass x = NODECLASS_REFERENCETYPE ->
   Forall (fun y => ~ subtype_of y (ANode.id x)) (nodes ++ [x])).
Proof.
  induction nodes as [|y nodes IH]; cbn [app parents_first].
  - intros [Hx _]. split; [done|]. intros Hc. constructor; [|done].
    by apply Forall_inv in Hx; apply Hx.
  - intros [Hy [Hpf Hlast]%IH]. split.
    + split; [|done]. rewrite app_comm_cons, Forall_app in Hy. apply Hy.
    + intros Hc. constructor; [|by apply Hlast].
      rewrite app_comm_cons, Forall_app, Forall_singleton in Hy. by apply Hy.
Qed.

End closure.

(** ** The table against the closure *)

Section build.
Implicit Types (a : Abs) (e : Element) (doc : Document) (x : ANode) (t : TNodeId).

(** What an element does to the finished nodes and to the table: nothing,
    or one more node, promoted when it is a ReferenceType. *)
Lemma build_element_nodes a e a' :
  build_element a e = Ok a' ->
  Abs.nodes a' = Abs.nodes a /\ Abs.table a' = Abs.table a \/
  exists x, Abs.nodes a' = Abs.nodes a ++ [x] /\
    if decide (ANode.nodeClass x = NODECLASS_REFERENCETYPE)
    then res_fold (promote_ref (ANode.id x)) (ANode.hierachicalRefs x) (Abs.table a)
         = Ok (Abs.table a')
    else Abs.table a' = Abs.table a.
Proof.
  destruct e as [uri|attrs id|e]; cbn.
  - intros [= <-]. by left.
  - unfold build_alias. intros Hrun. res_inv. by left.
  - unfold build_node. intros Hrun. res_inv.
    match goal with x : Lists |- _ => destruct x as [[? ?] ?] end. res_inv.
    right. eexists. split; [done|]. cbn. by case_decide; res_inv.
Qed.

(** The table holds nothing but the closure. *)
Definition sound a : Prop := forall t, t ∈ Abs.table a -> hierarchical (Abs.nodes a) t.

Lemma build_element_sound a e a' : build_element a e = Ok a' -> sound a -> sound a'.
Proof.
  intros [[Hn Ht]|(x & Hn & Ht)]%build_element_nodes Hs t; rewrite Hn.
  { rewrite Ht. apply Hs. }
  assert (forall t, t ∈ Abs.table a -> hierarchical (Abs.nodes a ++ [x]) t) as Hold.
  { intros t0 Ht0%Hs. eapply hierarchical_mono; [|done]. set_solver. }
  case_decide as Hc; [|rewrite Ht; apply Hold].
  intros [?|[-> Hex]]%(promote_fold_elem _ _ _ _ _ Ht); [by apply Hold|].
  apply Exists_exists in Hex as (r & Hr & Hfwd & t0 & Ht0 & Hin).
  apply (hierarchical_subtype _ x t0); [set_solver| |by apply Hold].
  split; [done|]. apply Exists_exists. eauto.
Qed.

(** The table is closed over the finished nodes, as long as they list
    parents first. *)
Lemma build_element_closed a e a' :
  build_element a e = Ok a' -> parents_first (Abs.nodes a') ->
  closed (Abs.nodes a) (Abs.table a) -> closed (Abs.nodes a') (Abs.table a').
Proof.
  intros [[Hn Ht]|(x & Hn & Ht)]%build_element_nodes; rewrite Hn; [by rewrite Ht|].
  intros [_ Hlast]%parents_first_snoc Hcl y t [Hy| ->%list_elem_of_singleton]%elem_of_app
    Hsub Hin.
  - case_decide as Hc; [|rewrite Ht in *; by apply (Hcl y t)].
    destruct (promote_fold_elem _ _ _ _ _ Ht Hin) as [Hold|[-> _]].
    + apply (elem_of_prefix (Abs.table a)); [by apply (Hcl y t) |].
      by eapply promote_fold_prefix.
    + specialize (Hlast Hc). rewrite Forall_forall in Hlast.
      destruct (Hlast y); [set_solver | done].
  - destruct Hsub as [Hc Hex]. rewrite decide_True in Ht by done.
    destruct (promote_fold_elem _ _ _ _ _ Ht Hin) as [Hold|[-> _]]; [|done].
    apply Exists_exists in Hex as (r & Hr & Hfwd & Htg).
    by eapply promote_fold_promotes.
Qed.

Lemma build_sound doc a a' : build doc a = Ok a' -> sound a -> sound a'.
Proof.
  intros Hrun Hs. apply (res_fold_invariant build_element sound doc a a'); [|done..].
  intros s e s' _ Hs' He. by apply (build_element_sound s e s').
Qed.

Lemma build_nodes_prefix doc a a' :
  build doc a = Ok a' -> Abs.nodes a `prefix_of` Abs.nodes a'.
Proof.
  apply (res_fold_invariant build_element
           (fun s => Abs.nodes a `prefix_of` Abs.nodes s)); [|done].
  intros s e s' _ Hs [[-> _]|(y & -> & _)]%build_element_nodes;
    [done | by apply prefix_app_r].
Qed.

End build.

Section hierarchy.
Implicit Types (a : Abs) (doc : Document) (w : World) (t : TNodeId).

Lemma build_closure doc a a' :
  build doc a = Ok a' -> parents_first (Abs.nodes a') ->
  closed (Abs.nodes a) (Abs.table a) -> closed (Abs.nodes a') (Abs.table a').
Proof.
  intros Hrun Hpf Hcl.
  apply (res_fold_invariant build_element
           (fun s => parents_first (Abs.nodes s) -> closed (Abs.nodes s) (Abs.table s))
           doc a a'); [|done..].
  intros s e s' _ Hs He Hpf'. apply (build_element_closed s e s'); [done..|]. apply Hs.
  apply build_element_nodes in He as [[Hn _]|(x & Hn & _)]; rewrite Hn in Hpf'; [done|].
  by apply parents_first_snoc in Hpf' as [? _].
Qed.

(** The table the abstract builder makes of a document that lists parents
    first is the closure. *)
Lemma build_hierarchy nsCallback doc a :
  build doc (Abs_new nsCallback) = Ok a -> parents_first (Abs.nodes a) ->
  forall t, hierarchical (Abs.nodes a) t -> t ∈ Abs.table a.
Proof.
  intros Hrun Hpf t. induction 1 as [id Hid|x t Hx Hsub _ IH].
  - apply (elem_of_prefix (Abs.table (Abs_new nsCallback))); [done | by eapply build_table].
  - by apply (build_closure doc _ _ Hrun Hpf (fun x t Hx => False_ind _ (not_elem_of_nil x Hx))
                x t).
Qed.

(** C15. Invariant 4 of the data model, against the code.  The reference
    types [isHierachicalReference] accepts after a load are never more
    than the closure the specification describes (the seeds, and every
    ReferenceType node with an inverse reference, in its hierarchical
    list, to a hierarchical type); and they are all of it when the file
    lists every ReferenceType behind the types it names as supertypes.
    The code closes the table in one pass over the file, in file order. *)
Theorem load_hierarchy nsCallback doc w :
  load doc (Nodeset_new nsCallback) = Ok w ->
  (forall ref, isHierachicalReference w ref = true ->
               hierarchical (abs_nodes w) (Reference.refType ref)) /\
  (parents_first (abs_nodes w) ->
   forall ref, hierarchical (abs_nodes w) (Reference.refType ref) ->
               isHierachicalReference w ref = true).
Proof.
  intros Hbuild%loaded_abs. split; [|intros Hpf]; intros ref;
    rewrite isHierachicalReference_spec, bool_decide_eq_true.
  - apply (build_sound doc _ _ Hbuild). intros t Ht. by apply hierarchical_seed.
  - by apply (build_hierarchy nsCallback doc (abs w)).
Qed.

(** C40. The seed table, against the specification.  The eighth seed is
    named HasEncoding and carries the id of HasComponent (i=47), so the
    id of HasEncoding, i=38, is no seed.  After the load of a document
    that has no node of that id, a reference of type i=38 is therefore
    not hierarchical, and [Nodeset_newReference] links it into the other
    list; the specification counts HasEncoding among the eight
    hierarchical types the table starts with. *)
Theorem load_HasEncoding nsCallback doc w rec :
  load doc (Nodeset_new nsCallback) = Ok w ->
  Reference.refType rec = TNodeId.mk 0 (Some "i=38") ->
  Forall (fun x => ANode.id x <> TNodeId.mk 0 (Some "i=38")) (abs_nodes w) ->
  goes_hierachical w rec = Ok false.
Proof.
  intros Hbuild%loaded_abs Hty Hnone. unfold goes_hierachical.
  rewrite isKnownReferenceType_ns0 by by rewrite Hty. cbn [res_bind].
  rewrite isHierachicalReference_spec, Hty, bool_decide_eq_false_2; [done|].
  intros Hin. rewrite Forall_forall in Hnone.
  assert (sound (abs w)) as Hs.
  { apply (build_sound doc _ _ Hbuild). intros t Ht. by apply hierarchical_seed. }
  pose proof (Hs _ Hin) as Hh.
  inversion Hh as [id Hid|x t Hx _ _ Hx38]; [|by apply (Hnone x)].
  revert Hid. change (TNodeId.mk 0 (Some "i=38") ∉ TNode.id <$> hierachicalRefs). by_eval.
Qed.

End hierarchy.
