(* ===== verification/Order.v ===== *)
(** * The order of the alias declarations, abstractly

    An alias is looked up by name, and the first alias of the name
    decides.  What the builder makes of a file therefore does not depend
    on the order in which a run of Alias elements is written, as long as
    the names of the run are distinct: the alias lists of the two orders
    differ, but they resolve every name alike, and nothing else reads
    them.

    This file states that of the abstract builder, with equivalences.
    Two alias lists are the same ([same_aliases]) when
    [AliasList_getNodeId] returns the same on both for every name; two
    abstract states are equivalent when they are equal up to that; the
    decoders and the abstract builder respect the equivalence
    ([Proper]), and two Alias elements of different names can be
    exchanged.  [Frame] does the same for the builder itself. *)

From Stdlib Require Import String.
From stdpp Require Import strings gmap.
From S2P Require Import Prelude CString Model Namespace Attributes Alias Driver Abstract.

(** ** Alias lists that resolve alike *)

Definition same_aliases (l l' : list Alias) : Prop :=
  forall name, AliasList_getNodeId l name = AliasList_getNodeId l' name.

(** The names declared, NULL names left out: a NULL name matches no
    lookup. *)
Definition alias_names (l : list Alias) : list string := omap Alias.name l.

#[export] Instance same_aliases_equivalence : Equivalence same_aliases.
Proof.
  split; [done | by intros l l' Hl name |].
  intros l1 l2 l3 H12 H23 name. by rewrite H12.
Qed.

#[export] Instance AliasList_getNodeId_proper :
  Proper (same_aliases ==> (=) ==> (=)) AliasList_getNodeId.
Proof. by intros l l' Hl name ? <-. Qed.

#[export] Instance app_same_aliases :
  Proper (same_aliases ==> same_aliases ==> same_aliases) app.
Proof.
  intros l1 l1' H1 l2 l2' H2 [name|]; [|by rewrite !AliasList_getNodeId_NULL].
  by rewrite !AliasList_getNodeId_app, (H1 (Some name)), (H2 (Some name)).
Qed.

Section lookup.
Implicit Types (l : list Alias) (name : string) (id : TNodeId).

Lemma alias_names_cons a l :
  alias_names (a :: l) =
  match Alias.name a with Some n => n :: alias_names l | None => alias_names l end.
Proof. unfold alias_names. cbn. by destruct (Alias.name a). Qed.

Lemma NoDup_alias_names_cons a l :
  NoDup (alias_names (a :: l)) ->
  NoDup (alias_names l) /\
  forall name, Alias.name a = Some name -> name ∉ alias_names l.
Proof.
  rewrite alias_names_cons. destruct (Alias.name a) as [n|]; [|done].
  intros [Hn Hl]%NoDup_cons. split; [done | by intros ? [= <-]].
Qed.

(** A list of distinct names is a set: a name resolves to an id exactly
    when an alias of the list bears the name with the id. *)
Lemma AliasList_getNodeId_elem l name id :
  NoDup (alias_names l) ->
  AliasList_getNodeId l (Some name) = Some id <-> Alias.mk (Some name) id ∈ l.
Proof.
  induction l as [|a l IH]; [by rewrite elem_of_nil|].
  intros [Hnd Hnew]%NoDup_alias_names_cons.
  rewrite AliasList_getNodeId_cons, elem_of_cons.
  destruct a as [n i]. cbn in *. case_decide as Hn; [subst n|rewrite IH by done; naive_solver].
  split; [intros [= <-]; by left|].
  intros [[= <-]|Hin]; [done|]. exfalso.
  apply (Hnew name eq_refl), list_elem_of_omap. by exists (Alias.mk (Some name) id).
Qed.

(** Invariant 5 on the list: when the names are distinct, resolution does
    not depend on the order of the aliases. *)
Lemma Permutation_same_aliases l l' :
  NoDup (alias_names l) -> l ≡ₚ l' -> same_aliases l l'.
Proof.
  intros Hnd Hp [name|]; [|by rewrite !AliasList_getNodeId_NULL].
  assert (NoDup (alias_names l')) by (unfold alias_names in *; by rewrite <- Hp).
  apply option_eq. intros id. rewrite !AliasList_getNodeId_elem by done.
  by rewrite Hp.
Qed.

End lookup.

(** ** The decoders read the alias list by lookup only *)

Section decoders.
Context (l l' : list Alias) (Hl : same_aliases l l').
Implicit Types (namespaces : list TNamespace) (attributes : list XmlAttr).

Lemma resolve_same namespaces s : resolve l namespaces s = resolve l' namespaces s.
Proof. unfold resolve. by rewrite (Hl s). Qed.

Lemma decode_ext_same namespaces c attributes :
  decode_ext l namespaces c attributes = decode_ext l' namespaces c attributes.
Proof. unfold decode_ext. destruct c; by rewrite ?resolve_same. Qed.

Lemma decode_node_same namespaces c attributes :
  decode_node l namespaces c attributes = decode_node l' namespaces c attributes.
Proof. unfold decode_node. by rewrite decode_ext_same. Qed.

Lemma decode_reference_same namespaces table e :
  decode_reference l namespaces table e = decode_reference l' namespaces table e.
Proof. unfold decode_reference. by rewrite resolve_same. Qed.

End decoders.

(** ** Abstract states up to the order of the aliases *)

Definition with_aliases (l : list Alias) (a : Abs) : Abs :=
  Abs.mk (Abs.namespaces a) (Abs.cb a) l (Abs.nodes a) (Abs.table a) (Abs.refs a)
    (Abs.events a).

#[export] Instance Abs_equiv : Equiv Abs := fun a a' =>
  same_aliases (Abs.aliases a) (Abs.aliases a') /\ a' = with_aliases (Abs.aliases a') a.

#[export] Instance Abs_equivalence : Equivalence (≡@{Abs}).
Proof.
  split.
  - intros a. split; [done | by destruct a].
  - intros a a' [Hl ->]. split; [done | by destruct a].
  - intros a1 a2 a3 [H12 ->] [H23 ->]. split; [by etrans | done].
Qed.

Lemma with_aliases_equiv l a : same_aliases (Abs.aliases a) l -> a ≡ with_aliases l a.
Proof. done. Qed.

Section build.
Implicit Types (a : Abs) (e : Element) (doc : Document).

Lemma build_reference_same a a' ls r :
  a ≡ a' -> build_reference a ls r = build_reference a' ls r.
Proof.
  intros [Hl ->]. unfold build_reference. destruct ls as [[count hier] nonHier].
  cbn. by rewrite (decode_reference_same _ _ Hl).
Qed.

Lemma build_references_same a a' refs ls :
  a ≡ a' ->
  res_fold (build_reference a) refs ls = res_fold (build_reference a') refs ls.
Proof.
  intros Ha. revert ls. induction refs as [|r refs IH]; intros ls; [done|].
  cbn [res_fold]. rewrite (build_reference_same a a') by done.
  destruct (build_reference a' ls r); [apply IH | done].
Qed.

Lemma build_node_equiv n a a' : a ≡ a' -> build_node n a ≡ build_node n a'.
Proof.
  intros Ha. unfold build_node. rewrite (build_references_same a a') by done.
  destruct Ha as [Hl ->]. cbn. rewrite (decode_node_same _ _ Hl).
  destruct (decode_node _ _ _ _) as [x|]; [cbn|done].
  destruct (res_fold _ _ _) as [[[count hier] nonHier]|]; [cbn|done].
  by destruct (if decide _ then _ else _).
Qed.

#[export] Instance build_element_proper : Proper ((≡) ==> (=) ==> (≡)) build_element.
Proof.
  intros a a' Ha e ? <-. destruct e as [uri|attributes idString|n]; cbn.
  - destruct Ha as [Hl ->]. by split.
  - destruct Ha as [Hl ->]. unfold build_alias. cbn.
    destruct (extractNodedId _ _); [|done]. split; [cbn|done]. by apply app_same_aliases.
  - by apply build_node_equiv.
Qed.

#[export] Instance build_proper : Proper ((=) ==> (≡) ==> (≡)) build.
Proof. intros doc ? <- a a' Ha. by apply res_fold_proper; [apply build_element_proper | |]. Qed.

(** ** A run of Alias elements *)

Definition is_alias e : Prop :=
  match e with AliasElement _ _ => True | _ => False end.

(** The name an element declares. *)
Definition declared_name e : option string :=
  match e with
  | AliasElement attributes _ => attr_value attrAlias attributes
  | _ => None
  end.

(** Alias elements of distinct names. *)
Definition alias_run (block : list Element) : Prop :=
  Forall is_alias block /\ NoDup (omap declared_name block).

Lemma alias_run_tail x block : alias_run (x :: block) -> alias_run block.
Proof.
  intros [[_ Hal]%Forall_cons Hnd]. split; [done|]. cbn in Hnd.
  destruct (declared_name x); [by apply NoDup_cons in Hnd as [_ ?] | done].
Qed.

Lemma alias_run_Permutation block block' :
  block ≡ₚ block' -> alias_run block -> alias_run block'.
Proof. intros Hp [Hal Hnd]. split; by rewrite <- Hp. Qed.

(** The aliases two Alias elements of a run declare, in either order. *)
Lemma alias_run_swap attributes1 s1 attributes2 s2 block l id1 id2 :
  alias_run (AliasElement attributes1 s1 :: AliasElement attributes2 s2 :: block) ->
  same_aliases
    ((l ++ [Alias.mk (attr_value attrAlias attributes1) id1]) ++
     [Alias.mk (attr_value attrAlias attributes2) id2])
    ((l ++ [Alias.mk (attr_value attrAlias attributes2) id2]) ++
     [Alias.mk (attr_value attrAlias attributes1) id1]).
Proof.
  intros [_ Hnd]. rewrite <- !app_assoc.
  apply app_same_aliases; [done|]. apply Permutation_same_aliases; [|apply perm_swap].
  unfold alias_names. cbn in *.
  destruct (attr_value _ attributes1), (attr_value _ attributes2); try done;
    repeat match goal with H : NoDup (_ :: _) |- _ => apply NoDup_cons in H as [? H] end;
    repeat constructor; set_solver.
Qed.

(** An Alias element appends the alias it declares. *)
Lemma build_alias_eq attributes idString a :
  build_alias attributes idString a =
  res_map
    (fun id =>
       with_aliases (Abs.aliases a ++ [Alias.mk (attr_value attrAlias attributes) id]) a)
    (extractNodedId (Abs.namespaces a) idString).
Proof. unfold build_alias. by destruct (extractNodedId _ _). Qed.

(** Two Alias elements of a run can be exchanged. *)
Lemma build_alias_swap x y block a :
  alias_run (x :: y :: block) -> build [x; y] a ≡ build [y; x] a.
Proof.
  intros Hrun. pose proof Hrun as [[Hx [Hy _]%Forall_cons]%Forall_cons _].
  destruct x as [|attributes1 s1|], y as [|attributes2 s2|]; try done.
  cbn. rewrite !build_alias_eq.
  destruct (extractNodedId _ s1) as [id1|] eqn:E1, (extractNodedId _ s2) as [id2|] eqn:E2;
    cbn; rewrite ?build_alias_eq; cbn; rewrite ?E1, ?E2; try done.
  split; [cbn|done]. by eapply alias_run_swap.
Qed.

(** The order inside a run of Alias elements does not matter to the
    abstract builder. *)
Lemma build_aliases_Permutation block block' a :
  block ≡ₚ block' -> alias_run block -> build block a ≡ build block' a.
Proof.
  intros Hp Hrun.
  apply res_fold_Permutation with (I := fun _ => True) (Q := alias_run); try done.
  - intros ?? e _ ?. by apply build_element_proper.
  - apply alias_run_tail.
  - apply alias_run_Permutation.
  - intros x y l s ? _. by eapply build_alias_swap.
Qed.

(** Invariant 5 on the abstract builder: permuting a run of Alias
    elements of distinct names inside a document changes neither whether
    the document can be built nor what is built, up to the order of the
    alias list. *)
Theorem build_alias_order pre block block' rest a :
  alias_run block -> block ≡ₚ block' ->
  build (pre ++ block ++ rest) a ≡ build (pre ++ block' ++ rest) a.
Proof.
  intros Hrun Hp. unfold build. rewrite !res_fold_app.
  destruct (res_fold build_element pre a) as [a1|]; [cbn|done].
  rewrite !res_fold_app. apply res_bind_proper; [|intros ???; by apply build_proper].
  by apply build_aliases_Permutation.
Qed.

End build.
