(* ===== verification/Frame.v ===== *)
(** * The builder up to the alias list and the arena

    Two states of the program are equivalent when their alias lists
    resolve every name alike and they are otherwise equal, the arena
    apart.  The functions of the builder that touch neither the alias
    list nor the arena ([framed]) commute with a change of both; an
    element of the file loaded from equivalent well-formed states leaves
    equivalent states; two Alias elements of different names can be
    exchanged.  A permutation of a run of Alias elements inside a
    document is therefore carried through the rest of the load and
    through the emission, and is gone after the cleanup, which drops the
    alias list and the arena: the import returns the same. *)

From Stdlib Require Import String.
From stdpp Require Import strings gmap.
From S2P Require Import Prelude CString Model Namespace Attributes Alias Classifier.
From S2P Require Import Sorter Builder Emit Machine Driver Abstract Refinement Order.

(** ** States up to the alias list and the arena *)

(** The state with another alias list and another arena, everything else
    as in [w]. *)
Definition reframe (l : list Alias) (arena : list string) (w : World) : World :=
  World.set_nodeset
    (Nodeset.set_aliasList l (Nodeset.set_charArena arena (World.nodeset w))) w.

(** Two states are equivalent when their alias lists resolve alike and
    they are otherwise equal, the arena apart: the heaps, the allocation
    mark, the containers, the tables and the calls of the host are the
    same. *)
#[export] Instance World_equiv : Equiv World := fun w w' =>
  same_aliases (aliases_of w) (aliases_of w') /\ reframe [] [] w = reframe [] [] w'.

#[export] Instance World_equivalence : Equivalence (≡@{World}).
Proof.
  split; [done | by intros w w' [Hl Hw] |].
  intros w1 w2 w3 [H12 E12] [H23 E23]. split; [by etrans | congruence].
Qed.

Section frame.
Implicit Types (w : World) (l : list Alias) (arena : list string).

Lemma reframe_equiv l arena w : same_aliases (aliases_of w) l -> w ≡ reframe l arena w.
Proof. done. Qed.

Lemma reframe_id w : reframe (aliases_of w) (arena_of w) w = w.
Proof. by destruct w as [[]]. Qed.

Lemma World_equiv_reframe w w' :
  w ≡ w' -> exists l arena, same_aliases (aliases_of w) l /\ w' = reframe l arena w.
Proof.
  intros [Hl Hw]. exists (aliases_of w'), (arena_of w'). split; [done|].
  rewrite <- (reframe_id w') at 1. unfold reframe in *.
  destruct w as [[]], w' as [[]]. cbn in *. by simplify_eq.
Qed.

(** A function that neither reads nor writes the alias list and the
    arena. *)
Definition framed (f : World -> res World) : Prop :=
  forall l arena w, f (reframe l arena w) = res_map (reframe l arena) (f w).

Lemma framed_aliases f w w1 : framed f -> f w = Ok w1 -> aliases_of w1 = aliases_of w.
Proof.
  intros Hf Hrun. specialize (Hf (aliases_of w) (arena_of w) w).
  rewrite reframe_id, Hrun in Hf. injection Hf as Hf.
  by apply (f_equal aliases_of) in Hf.
Qed.

Lemma framed_equiv f w w' : framed f -> w ≡ w' -> f w ≡ f w'.
Proof.
  intros Hf (l & arena & Hl & ->)%World_equiv_reframe. rewrite Hf.
  destruct (f w) as [w1|] eqn:E; [|done]. apply reframe_equiv.
  by rewrite (framed_aliases f w w1).
Qed.

Lemma framed_fold {X} (f : World -> X -> res World) (xs : list X) :
  (forall x, framed (fun w => f w x)) -> framed (res_fold f xs).
Proof.
  intros Hf. induction xs as [|x xs IH]; intros l arena w; [done|].
  cbn [res_fold]. rewrite (Hf x). destruct (f w x); [apply IH | done].
Qed.

End frame.

(** ** The functions of the builder and the frame *)

Section framed.
Context `{Sorter}.
Implicit Types (w : World) (l : list Alias) (arena : list string).

Lemma load_uri_framed namespaceUri :
  framed (fun w => load_element w (UriElement namespaceUri)).
Proof.
  intros l arena w. cbn. unfold Nodeset_newNamespaceFinish. cbn.
  by destruct (bool_decide _).
Qed.

Lemma addIfHierachicalReferenceType_loop_framed fuel n ref :
  framed (addIfHierachicalReferenceType_loop fuel n ref).
Proof.
  revert ref. induction fuel as [|fuel IH]; intros [r|] l arena w; cbn; try done.
  unfold deref_ref. cbn. destruct (World.refHeap w !! r) as [rec|]; [cbn|done].
  unfold addIfHierachicalReferenceType_step.
  destruct (negb _); [|apply IH]. destruct (Reference.target rec); [cbn|done].
  unfold targets_hierachical. cbn. destruct (existsb _ _); [|apply IH].
  unfold push_hierachicalRef. cbn. destruct (bool_decide _); [cbn|done].
  apply (IH _ l arena (with_table _ w)).
Qed.

Lemma Nodeset_newNodeFinish_framed node : framed (Nodeset_newNodeFinish node).
Proof.
  intros l arena w. unfold Nodeset_newNodeFinish, deref_node. cbn.
  destruct (World.nodeHeap w !! node) as [n|]; [cbn|done].
  case_decide; [|done]. unfold addIfHierachicalReferenceType, deref_node. cbn.
  destruct (World.nodeHeap w !! node) as [m|]; [cbn|done].
  apply (addIfHierachicalReferenceType_loop_framed _ _ _ l arena (Sort_addNode node w)).
Qed.

Lemma Nodeset_addNode_framed node : framed (fun w => Nodeset_addNode w node).
Proof.
  intros l arena w. unfold Nodeset_addNode, deref_node. cbn.
  destruct (World.nodeHeap w !! node) as [n|]; [cbn|done].
  change (container_of (reframe l arena w)) with (container_of w).
  by destruct (_ <? _)%Z.
Qed.

Lemma emit_reframe {X} (g : X -> World -> World) (xs : list X) l arena w :
  (forall x w, g x (reframe l arena w) = reframe l arena (g x w)) ->
  foldl (fun w x => g x w) (reframe l arena w) xs =
  reframe l arena (foldl (fun w x => g x w) w xs).
Proof.
  intros Hg. revert w. induction xs as [|x xs IH]; intros w; [done|].
  cbn. by rewrite Hg, IH.
Qed.

Lemma emit_class_reframe c l arena w :
  emit_class c (reframe l arena w) = reframe l arena (emit_class c w).
Proof. by apply (emit_reframe callback). Qed.

Lemma emit_variables_reframe l arena w :
  emit_variables (reframe l arena w) = reframe l arena (emit_variables w).
Proof. by apply (emit_reframe (fun node w => deleteValue node (callback node w))). Qed.

(** The emission reads and writes neither the alias list nor the
    arena. *)
Lemma Nodeset_getSortedNodes_reframe l arena w :
  Nodeset_getSortedNodes (reframe l arena w) =
  res_map (fun r => (r.1, reframe l arena r.2)) (Nodeset_getSortedNodes w).
Proof.
  unfold Nodeset_getSortedNodes, Sort_start.
  change (precedes (reframe l arena w)) with (precedes w).
  change (World.sortNodes (reframe l arena w)) with (World.sortNodes w).
  destruct (sort _ _) as [order|]; [|done].
  rewrite (framed_fold Nodeset_addNode order Nodeset_addNode_framed).
  destruct (res_fold Nodeset_addNode order w) as [w1|]; [|done].
  cbn [res_map res_bind negb]. by rewrite !emit_class_reframe, emit_variables_reframe.
Qed.

(** The cleanup drops both. *)
Lemma Nodeset_cleanup_reframe l arena w :
  Nodeset_cleanup (reframe l arena w) = Nodeset_cleanup w.
Proof. done. Qed.

End framed.

(** ** Loading from equivalent states *)

Section load.
Context `{Sorter}.
Implicit Types (w : World) (doc : Document) (e : Element).

(** An Alias element appends the alias it declares to the list, and the
    block of its name to the arena. *)
Lemma load_alias_eq attributes idString w :
  load_element w (AliasElement attributes idString) =
  res_map
    (fun id =>
       reframe (aliases_of w ++ [Alias.mk (attr_value attrAlias attributes) id])
         (arena_of w ++ attr_blocks attrAlias attributes) w)
    (extractNodedId (namespaces_of w) idString).
Proof.
  cbn [load_element]. unfold Nodeset_newAlias, Nodeset_newAliasFinish.
  rewrite getAttributeValue_eq. cbn.
  rewrite lookup_app_r, Nat.sub_diag by done. cbn.
  change (namespaces_of _) with (namespaces_of w).
  destruct (extractNodedId _ _) as [id|]; [cbn|done].
  unfold reframe, aliases_of. cbn. by rewrite insert_snoc.
Qed.

(** While the references of the node at [node] are parsed. *)
Definition parsing node w : Prop :=
  is_Some (World.nodeHeap w !! node) /\ unfiled w.

Lemma load_reference_equiv node w w' (r : RefElem) :
  parsing node w -> w ≡ w' -> load_reference node w r ≡ load_reference node w' r.
Proof.
  intros [[n Hn] Hunf] (l & arena & Hl & ->)%World_equiv_reframe.
  rewrite (load_reference_eq node n w), (load_reference_eq node n (reframe l arena w))
    by done.
  change (counted_of (reframe l arena w)) with (counted_of w).
  destruct (_ <? _)%Z; [cbn [require res_bind]|done].
  change (decode_reference (aliases_of (reframe l arena w)) _ _ r)
    with (decode_reference l (namespaces_of w) (table_ids w) r).
  rewrite <- (decode_reference_same _ _ Hl).
  by destruct (decode_reference _ _ _ _) as [[h x]|].
Qed.

Lemma load_reference_parsing node w (r : RefElem) w' :
  parsing node w -> load_reference node w r = Ok w' -> parsing node w'.
Proof.
  intros [[n Hn] Hunf]. rewrite (load_reference_eq node n w) by done.
  intros Hrun. res_inv.
  match goal with x : (bool * ARef)%type |- _ => destruct x as [h x] end.
  injection Hrun as <-. split; [|done]. cbn. rewrite lookup_insert_eq. by eexists.
Qed.

Lemma load_node_equiv (e : NodeElem) w w' :
  wf_world w -> w ≡ w' -> load_node e w ≡ load_node e w'.
Proof.
  intros Hwf (l & arena & Hl & ->)%World_equiv_reframe.
  unfold load_node. rewrite !Nodeset_newNode_eq.
  change (decode_node (aliases_of (reframe l arena w)) _)
    with (decode_node l (namespaces_of w)).
  rewrite <- (decode_node_same _ _ Hl).
  destruct (decode_node _ _ _ _) as [n|]; [|done]. cbn [res_map res_bind].
  apply res_bind_proper;
    [|intros w1 w2 ?; by apply framed_equiv; [apply Nodeset_newNodeFinish_framed|]].
  apply res_fold_equiv with (I := parsing (World.brk w)).
  - intros; by apply load_reference_equiv.
  - intros; by eapply load_reference_parsing.
  - split; [cbn; rewrite lookup_insert_eq; by eexists | apply Hwf].
  - by split.
Qed.

Lemma load_element_equiv w w' e :
  wf_world w -> w ≡ w' -> load_element w e ≡ load_element w' e.
Proof.
  intros Hwf Hw. destruct e as [uri|attributes idString|e].
  - by apply (framed_equiv _ _ _ (load_uri_framed uri)).
  - apply World_equiv_reframe in Hw as (l & arena & Hl & ->). rewrite !load_alias_eq.
    change (namespaces_of (reframe l arena w)) with (namespaces_of w).
    destruct (extractNodedId _ _); [|done]. split; [cbn|done].
    by apply app_same_aliases.
  - by apply load_node_equiv.
Qed.

Lemma load_element_wf w e w' : wf_world w -> load_element w e = Ok w' -> wf_world w'.
Proof. rewrite load_element_run. apply run_wf. Qed.

(** A load from equivalent states ends in equivalent states. *)
Lemma load_equiv doc w w' : wf_world w -> w ≡ w' -> load doc w ≡ load doc w'.
Proof.
  apply res_fold_equiv; intros;
    [by apply load_element_equiv | by eapply load_element_wf].
Qed.

(** Two Alias elements of a run can be exchanged. *)
Lemma load_alias_swap x y block w :
  alias_run (x :: y :: block) -> load [x; y] w ≡ load [y; x] w.
Proof.
  intros Hrun. pose proof Hrun as [[Hx [Hy _]%Forall_cons]%Forall_cons _].
  destruct x as [|attributes1 s1|], y as [|attributes2 s2|]; try done.
  unfold load. cbn [res_fold]. rewrite !load_alias_eq.
  destruct (extractNodedId _ s1) as [id1|] eqn:E1, (extractNodedId _ s2) as [id2|] eqn:E2;
    cbn [res_map res_bind]; rewrite ?load_alias_eq;
    change (namespaces_of (reframe _ _ w)) with (namespaces_of w);
    rewrite ?E1, ?E2; try done.
  split; [cbn|done]. by eapply alias_run_swap.
Qed.

(** Permuting a run of Alias elements inside a document: the two loads
    trap together, or end in equivalent states. *)
Lemma load_alias_run pre block block' rest w :
  wf_world w -> alias_run block -> block ≡ₚ block' ->
  load (pre ++ block ++ rest) w ≡ load (pre ++ block' ++ rest) w.
Proof.
  intros Hwf Hrun Hp. unfold load. rewrite !res_fold_app.
  destruct (res_fold load_element pre w) as [w1|] eqn:Hpre; [cbn [res_bind]|done].
  assert (wf_world w1) as Hwf1
    by (apply (res_fold_invariant load_element wf_world pre w); [|done..];
        intros ????; by apply load_element_wf).
  rewrite !res_fold_app.
  pose proof (res_fold_Permutation load_element wf_world load_element_equiv
                load_element_wf alias_run alias_run_tail alias_run_Permutation
                (fun x y l s Hq _ => load_alias_swap x y l s Hq)
                block block' w1 Hp Hrun Hwf1) as Hblock.
  destruct (res_fold load_element block w1) as [w2|] eqn:E,
    (res_fold load_element block' w1) as [w2'|]; try done.
  cbn [res_bind]. apply load_equiv; [|done].
  apply (res_fold_invariant load_element wf_world block w1); [|done..].
  intros ????; by apply load_element_wf.
Qed.

End load.

(** ** The import *)

Section import.
Context `{Sorter}.
Implicit Types (w : World) (doc : Document).

(** C14. Invariant 5 and P5 where they hold: permuting a run of Alias
    elements of distinct names inside a document changes nothing the host
    can see.  When the import of a document returns, the import of the
    permuted document returns the same: the same answer of the sorter,
    the same calls of the host with the same addresses in the same order,
    the same memory left.  The two loads end in states with the same
    nodes and references at the same addresses, the same nodes handed to
    the sorter, the same table of hierarchical reference types and the
    same namespace table, in which every name resolves alike. *)
Theorem import_alias_order nsCallback pre block block' rest r :
  Forall is_alias block -> NoDup (omap declared_name block) -> block ≡ₚ block' ->
  import nsCallback (pre ++ block ++ rest) = Ok r ->
  import nsCallback (pre ++ block' ++ rest) = Ok r /\
  exists w1 w2,
    load (pre ++ block ++ rest) (Nodeset_new nsCallback) = Ok w1 /\
    load (pre ++ block' ++ rest) (Nodeset_new nsCallback) = Ok w2 /\
    World.nodeHeap w2 = World.nodeHeap w1 /\ World.refHeap w2 = World.refHeap w1 /\
    World.sortNodes w2 = World.sortNodes w1 /\ table_of w2 = table_of w1 /\
    namespaces_of w2 = namespaces_of w1 /\
    forall name, alias2Id w2 name = alias2Id w1 name.
Proof.
  intros Hal Hnd Hp Himp. destruct r as [sorted w].
  apply import_Ok in Himp as (w1 & w1' & Hload & Hget & Hclean).
  pose proof (load_alias_run pre block block' rest _ (wf_world_new nsCallback)
                (conj Hal Hnd) Hp) as Heq.
  rewrite Hload in Heq. apply res_equiv_Ok_l in Heq as (w2 & Hload2 & Hw).
  apply World_equiv_reframe in Hw as (l & arena & Hl & ->). split.
  - apply import_Ok. exists (reframe l arena w1), (reframe l arena w1').
    split; [done|]. by rewrite Nodeset_getSortedNodes_reframe, Hget.
  - exists w1, (reframe l arena w1). repeat split; try done.
    intros name. unfold alias2Id. fold (aliases_of w1). cbn. by rewrite (Hl name).
Qed.

End import.
