(* ===== verification/Trace.v ===== *)
(** * The trace of the namespace table

    Compiled with XMLIMPORT_TRACE, [Nodeset_getSortedNodes] prints the
    namespace table before it sorts: two header lines, then one line per
    cell with the index of the cell in the file, the index of the host and
    the URI.  The output is modelled as the list of the strings the calls
    of printf write.  Printing reads both fields of every cell: an index
    that was never written and a URI that is NULL are undefined behaviour
    of the traced build only.

    The theorems say what is printed after a load (the declared
    namespaces, in the order of the document, with the numbers of the
    host), that tracing does not change what the function returns, and
    which documents the traced build cannot print. *)

From Stdlib Require Import Ascii String.
From stdpp Require Import strings gmap pretty.
From S2P Require Import Prelude CString Model Namespace Attributes Alias Classifier.
From S2P Require Import Sorter Builder Emit Machine Driver Abstract Refinement.
From S2P Require Import Delivery.

(** ** The output *)

Definition TAB : string := String (ascii_of_nat 9) "".
Definition NL : string := String (ascii_of_nat 10) "".

(** The two header lines. *)
Definition trace_header : list string :=
  ["--- namespace table ---" +:+ NL; "FileIdx ServerIdx URI" +:+ NL].

(** What [printf("%zu\t%zu\t%s\n", ...)] writes. *)
Definition trace_text (fileIndex : nat) (idx : Z) (name : string) : string :=
  pretty (N.of_nat fileIndex) +:+ TAB +:+ pretty (Z.to_N idx) +:+ TAB +:+ name +:+ NL.

(** One turn of the loop: the two fields of the cell are read. *)
Definition trace_line (out : list string) (cell : nat * TNamespace)
  : res (list string) :=
  let* idx := initialised (TNamespace.idx cell.2) in
  let* name := nonnull (TNamespace.name cell.2) in
  Ok (out ++ [trace_text cell.1 idx name]).

(** The block under [#ifdef XMLIMPORT_TRACE]. *)
Definition trace_namespaces (namespaces : list TNamespace) : res (list string) :=
  res_fold trace_line (imap pair namespaces) trace_header.

Section traced.
Context `{Sorter}.
Implicit Types (w : World) (doc : Document) (nsCallback : addNamespaceCb).

(** [Nodeset_getSortedNodes] of the traced build: what it prints, and what
    it returns. *)
Definition Nodeset_getSortedNodes_traced w : res (list string * (bool * World)) :=
  let* out := trace_namespaces (namespaces_of w) in
  let* r := Nodeset_getSortedNodes w in
  Ok (out, r).

(** ** What is printed *)

(** The line of a cell whose two fields are set. *)
Definition line_of (cell : nat * TNamespace) : option string :=
  idx ← TNamespace.idx cell.2;
  name ← TNamespace.name cell.2;
  Some (trace_text cell.1 idx name).

Lemma trace_line_Ok out cell out' :
  trace_line out cell = Ok out' <-> exists l, line_of cell = Some l /\ out' = out ++ [l].
Proof.
  unfold trace_line, line_of.
  destruct (TNamespace.idx cell.2), (TNamespace.name cell.2); cbn; naive_solver.
Qed.

(** The loop prints the lines of the cells, in order, as long as each
    cell has both fields. *)
Lemma trace_lines_Ok cells out out' :
  res_fold trace_line cells out = Ok out' <->
  exists ls, Forall2 (fun cell l => line_of cell = Some l) cells ls /\ out' = out ++ ls.
Proof.
  revert out. induction cells as [|cell cells IH]; intros out; cbn [res_fold].
  - split; [intros [= <-]; exists []; by rewrite app_nil_r|].
    intros (ls & ->%Forall2_nil_inv_l & ->). by rewrite app_nil_r.
  - destruct (trace_line out cell) as [out1|u] eqn:E; cbn [res_bind].
    + apply trace_line_Ok in E as (l & Hl & ->). rewrite IH. split.
      * intros (ls & Hls & ->). exists (l :: ls). rewrite <- app_assoc.
        split; [by constructor | done].
      * intros (ls & (l' & ls' & Hl' & Hls' & ->)%Forall2_cons_inv_l & ->).
        exists ls'. rewrite <- app_assoc. split; [done|]. cbn. congruence.
    + split; [done|].
      intros (ls & (l' & ls' & Hl' & Hls' & ->)%Forall2_cons_inv_l & ->).
      assert (trace_line out cell = Ok (out ++ [l'])) as Hok
        by (apply trace_line_Ok; eauto).
      congruence.
Qed.

(** The text of the line of a declared namespace. *)
Definition declared_line nsCallback (i : nat) (uri : string) : string :=
  trace_text i (to_size_t (to_int (nsCallback (Some uri)))) uri.

(** The lines of a document whose URI elements all have a text. *)
Definition trace_of nsCallback (uris : list string) : list string :=
  trace_header ++
  trace_text 0 0 "http://opcfoundation.org/UA/" ::
  imap (fun i => declared_line nsCallback (S i)) uris.

Lemma declared_lines nsCallback (uris : list string) k :
  Forall2 (fun cell l => line_of cell = Some l)
    (imap (fun i => pair (k + i)) (declared nsCallback <$> (Some <$> uris)))
    (imap (fun i => declared_line nsCallback (k + i)) uris).
Proof.
  revert k. induction uris as [|uri uris IH]; intros k; [constructor|].
  cbn [fmap list_fmap imap]. constructor.
  - unfold line_of, declared, declared_line. cbn. by rewrite Nat.add_0_r.
  - specialize (IH (S k)).
    erewrite imap_ext; [erewrite (imap_ext _ (fun i => declared_line _ (S k + i)));
                        [exact IH|]|]; intros i x _; cbn; f_equal; lia.
Qed.

(** C31. The traced build on a loaded document whose URI elements all have
    a text prints the header, the line of namespace 0 and one line per URI
    element, in the order of the document, with the position of the
    element and the number the host returned for it; and it returns what
    the untraced build returns. *)
Theorem traced_loaded nsCallback doc (uris : list string) w :
  load doc (Nodeset_new nsCallback) = Ok w ->
  uris_of doc = Some <$> uris ->
  Nodeset_getSortedNodes_traced w =
    res_map (pair (trace_of nsCallback uris)) (Nodeset_getSortedNodes w).
Proof.
  intros [Hns _]%loaded_namespaces Huris. unfold Nodeset_getSortedNodes_traced.
  assert (trace_namespaces (namespaces_of w) = Ok (trace_of nsCallback uris)) as ->;
    [|by destruct (Nodeset_getSortedNodes w)].
  rewrite Hns, Huris. unfold trace_namespaces. apply trace_lines_Ok.
  eexists. split; [|done]. cbn [imap]. constructor; [done|].
  apply (declared_lines nsCallback uris 1).
Qed.

(** C39. A URI element without text makes the traced build print a NULL
    string: its behaviour is undefined on a document on which the untraced
    build is defined. *)
Theorem traced_null_uri nsCallback doc w :
  load doc (Nodeset_new nsCallback) = Ok w -> None ∈ uris_of doc ->
  exists u, Nodeset_getSortedNodes_traced w = Trap u.
Proof.
  intros [Hns _]%loaded_namespaces Hnone. unfold Nodeset_getSortedNodes_traced.
  destruct (trace_namespaces (namespaces_of w)) as [out|u] eqn:E; [|by exists u].
  apply trace_lines_Ok in E as (ls & Hls & _). rewrite Hns in Hls. exfalso.
  apply list_elem_of_lookup in Hnone as [i Hi].
  assert (imap pair (TNamespace.mk (Some 0%Z) (Some "http://opcfoundation.org/UA/"%string)
                     :: (declared nsCallback <$> uris_of doc)) !! S i
          = Some (S i, declared nsCallback None)) as Hcell
    by (rewrite list_lookup_imap, lookup_cons, list_lookup_fmap; unfold cstr in *;
        by rewrite Hi).
  destruct (Forall2_lookup_l _ _ _ _ _ Hls Hcell) as (l & _ & Hl). done.
Qed.

End traced.
