(* ===== verification/WellFormed.v ===== *)
(** * Well-formed documents

    A check on the text of a document, computed without the builder:
    every node id and browse name has a form the decoders accept against
    the namespaces declared before it, every node element has a browse
    name, and the references, the promotions of reference types and the
    nodes of each class fit the arrays [Nodeset_new] allocates.  On a
    document that passes the check the abstract builder returns, hence the
    load does, the emission does not store past a container, and an
    import has defined behaviour: it returns true or false. *)

From Stdlib Require Import Ascii String.
From stdpp Require Import strings gmap.
From S2P Require Import Prelude CString Model Namespace Attributes Alias Classifier.
From S2P Require Import Sorter Builder Emit Machine Driver Abstract Refinement.

(** ** The texts the decoders accept *)

(** A numeral at the head of [d] that names one of [n] namespaces. *)
Definition index_below (n : nat) (d : string) : bool :=
  starts_with_digit d && bool_decide (digits 0 d < Z.of_nat n)%Z.

(** A node id: NULL, a text without a semicolon, or a text with a numeral
    below [n] from its fourth character on. *)
Definition ok_nodeId (n : nat) (s : cstr) : bool :=
  match s with
  | None => true
  | Some s =>
      match strchr s ";", str_offset s 3 with
      | None, _ => true
      | Some _, Ok d => index_below n d
      | Some _, Trap _ => false
      end
  end.

(** A browse name: a text without a colon, or a text that starts with a
    numeral below [n]. *)
Definition ok_browseName (n : nat) (s : cstr) : bool :=
  match s with
  | None => false
  | Some s =>
      match strchr s ":" with
      | None => true
      | Some _ => index_below n s
      end
  end.

(** A namespace table every cell of which has its index, with no more cells
    than a browse name can name. *)
Definition ready (namespaces : list TNamespace) : Prop :=
  Forall (fun ns => is_Some (TNamespace.idx ns)) namespaces /\
  (Z.of_nat (length namespaces) <= UINT16_MAX + 1)%Z.

Section texts.
Context (namespaces : list TNamespace) (Hready : ready namespaces).

Lemma digits_nonneg acc s : (0 <= acc)%Z -> (0 <= digits acc s)%Z.
Proof.
  revert acc. induction s as [|c s IH]; intros acc Hacc; simpl; [done|].
  destruct (digit_of c) as [d|] eqn:Hd; [|done]. apply IH.
  unfold digit_of in Hd. apply fmap_Some in Hd as (k & _ & ->). lia.
Qed.

(** [atoi] on a numeral below the size of the table. *)
Lemma atoi_index d :
  index_below (length namespaces) d = true ->
  exists k, atoi d = Ok k /\ (0 <= k < Z.of_nat (length namespaces))%Z.
Proof.
  intros [Hd Hk%bool_decide_eq_true]%andb_true_iff.
  pose proof (digits_nonneg 0 d ltac:(done)). destruct Hready as [_ Hlen].
  exists (digits 0 d). rewrite atoi_starts_with_digit by done.
  rewrite (proj2 (in_int_spec _)); [done|]. unfold INT_MIN, INT_MAX, UINT16_MAX in *. lia.
Qed.

(** A cell of the table is ready at every index below its size. *)
Lemma ready_ns_ready k :
  (0 <= k < Z.of_nat (length namespaces))%Z -> exists g, ns_ready namespaces k g.
Proof.
  intros Hk. destruct Hready as [Hall _].
  destruct (lookup_lt_is_Some_2 namespaces (Z.to_nat k)) as [ns Hns]; [lia|].
  rewrite Forall_forall in Hall.
  destruct (Hall ns) as [g Hg]; [by eapply list_elem_of_lookup_2|]. by exists g, ns.
Qed.

Lemma translateNodeId_index k rest :
  (0 <= k < Z.of_nat (length namespaces))%Z ->
  exists id, translateNodeId namespaces (TNodeId.mk k rest) = Ok id.
Proof.
  intros Hk. destruct (decide (k = 0%Z)) as [->|]; [by eexists|].
  destruct (ready_ns_ready k Hk) as [g Hg].
  eexists. by apply (translateNodeId_ready _ _ g); [simpl; lia|].
Qed.

Lemma translateBrowseName_index k name :
  (0 <= k < Z.of_nat (length namespaces))%Z ->
  exists bn, translateBrowseName namespaces (TBrowseName.mk k name) = Ok bn.
Proof.
  intros Hk. destruct (decide (k = 0%Z)) as [->|]; [by eexists|].
  destruct (ready_ns_ready k Hk) as [g Hg].
  eexists. by apply (translateBrowseName_ready _ _ g); [simpl; lia|].
Qed.

(** The decoder of node ids returns on the texts [ok_nodeId] accepts. *)
Lemma extractNodedId_ok s :
  ok_nodeId (length namespaces) s = true ->
  exists id, extractNodedId namespaces s = Ok id.
Proof.
  destruct s as [s|]; [|by eexists]. unfold ok_nodeId, extractNodedId.
  destruct (strchr s ";") as [idxSemi|] eqn:Hsemi; [|by eexists].
  destruct (str_offset s 3) as [d|]; [|done]. cbn [res_bind].
  intros (k & -> & Hk)%atoi_index.
  apply strchr_Some in Hsemi as (_ & rest & _ & -> & _). cbn.
  by apply translateNodeId_index.
Qed.

(** The decoder of browse names returns on the texts [ok_browseName]
    accepts. *)
Lemma extractBrowseName_ok s :
  ok_browseName (length namespaces) s = true ->
  exists bn, extractBrowseName namespaces s = Ok bn.
Proof.
  destruct s as [s|]; [|done]. unfold ok_browseName, extractBrowseName. cbn.
  destruct (strchr s ":") as [bnName|] eqn:Hcolon; [|by eexists].
  intros (k & -> & Hk)%atoi_index.
  apply strchr_Some in Hcolon as (_ & rest & _ & -> & _). cbn.
  destruct Hready as [_ Hlen].
  rewrite to_uint16_small by (unfold UINT16_MAX in *; lia).
  by apply translateBrowseName_index.
Qed.

(** An alias or a node id: the name of an alias resolves whatever its
    text. *)
Lemma resolve_ok aliases s :
  ok_nodeId (length namespaces) s = true ->
  exists id, resolve aliases namespaces s = Ok id.
Proof.
  intros Hs. unfold resolve.
  destruct (AliasList_getNodeId aliases s); [by eexists | by apply extractNodedId_ok].
Qed.

End texts.

(** ** Elements *)

(** The node ids among the class-specific attributes. *)
Definition ok_ext (n : nat) (c : TNodeClass) (attributes : list XmlAttr) : bool :=
  let ok attr := ok_nodeId n (attr_value attr attributes) in
  match c with
  | NODECLASS_OBJECT | NODECLASS_METHOD => ok attrParentNodeId
  | NODECLASS_VARIABLE => ok attrParentNodeId && ok attrDataType
  | NODECLASS_VARIABLETYPE => ok attrDataType
  | _ => true
  end.

Definition ok_reference (n : nat) (e : RefElem) : bool :=
  ok_nodeId n (attr_value attrReferenceType (RefElem.attributes e)) &&
  ok_nodeId n (RefElem.targetId e).

Definition ok_node (n : nat) (e : NodeElem) : bool :=
  ok_nodeId n (attr_value attrNodeId (NodeElem.attributes e)) &&
  ok_browseName n (attr_value attrBrowseName (NodeElem.attributes e)) &&
  ok_ext n (NodeElem.nodeClass e) (NodeElem.attributes e) &&
  forallb (ok_reference n) (NodeElem.references e).

(** An inverse reference: its attribute IsForward is not the text "true". *)
Definition is_inverse (e : RefElem) : bool :=
  match attr_value attrIsForward (RefElem.attributes e) with
  | Some s => negb (strcmp "true" s =? 0)%Z
  | None => false
  end.

(** The cells of the table a node element can take: one per inverse
    reference of a ReferenceType. *)
Definition promotions (e : NodeElem) : nat :=
  if decide (NodeElem.nodeClass e = NODECLASS_REFERENCETYPE)
  then length (filter is_inverse (NodeElem.references e)) else 0.

(** The check, from [n] namespaces, [t] cells of the table and [c]
    counted references. *)
Fixpoint ok_elements (n t c : nat) (doc : Document) : bool :=
  match doc with
  | [] => true
  | UriElement _ :: doc =>
      bool_decide (Z.of_nat n <= UINT16_MAX)%Z && ok_elements (S n) t c doc
  | AliasElement _ idString :: doc => ok_nodeId n idString && ok_elements n t c doc
  | NodeElement e :: doc =>
      let t' := t + promotions e in
      let c' := c + length (NodeElem.references e) in
      ok_node n e && bool_decide (t' <= MAX_HIERACHICAL_REFS) &&
      bool_decide (Z.of_nat c' <= MAX_REFCOUNTEDREFS)%Z && ok_elements n t' c' doc
  end.

(** ** The abstract builder returns *)

Section decoders.
Context (aliases : list Alias) (namespaces : list TNamespace).
Context (Hready : ready namespaces).

Lemma decode_ext_ok c attributes :
  ok_ext (length namespaces) c attributes = true ->
  exists ext, decode_ext aliases namespaces c attributes = Ok ext.
Proof.
  unfold ok_ext, decode_ext. destruct c; rewrite ?andb_true_iff; intros Hok;
    destruct_and?;
    repeat match goal with
    | H : ok_nodeId _ ?s = true |- context [extractNodedId _ ?s] =>
        destruct (extractNodedId_ok namespaces Hready s H) as [? ->]; cbn [res_bind]
    | H : ok_nodeId _ ?s = true |- context [resolve _ _ ?s] =>
        destruct (resolve_ok namespaces Hready aliases s H) as [? ->]; cbn [res_bind]
    end; by eexists.
Qed.

Lemma decode_node_ok (e : NodeElem) :
  ok_node (length namespaces) e = true ->
  exists n, decode_node aliases namespaces (NodeElem.nodeClass e)
              (NodeElem.attributes e) = Ok n.
Proof.
  unfold ok_node, decode_node. rewrite !andb_true_iff.
  intros [[[Hid Hbn] Hext] _].
  destruct (extractNodedId_ok namespaces Hready _ Hid) as [id ->].
  destruct (extractBrowseName_ok namespaces Hready _ Hbn) as [bn ->].
  destruct (decode_ext_ok _ _ Hext) as [ext ->]. by eexists.
Qed.

(** A Reference element decodes to a record with its target, inverse
    exactly when the element is. *)
Lemma decode_reference_ok table (e : RefElem) :
  ok_reference (length namespaces) e = true ->
  exists h r, decode_reference aliases namespaces table e = Ok (h, r) /\
    is_Some (ARef.target r) /\ ARef.isForward r = negb (is_inverse e).
Proof.
  unfold ok_reference, decode_reference, is_inverse. rewrite andb_true_iff.
  intros [Hty Htg]. destruct (attr_value_IsForward (RefElem.attributes e)) as [s ->].
  destruct (resolve_ok namespaces Hready aliases _ Hty) as [ty ->].
  destruct (extractNodedId_ok namespaces Hready _ Htg) as [tg ->]. cbn.
  eexists _, _. split; [done|]. split; [by eexists|]. by rewrite negb_involutive.
Qed.

End decoders.

Section building.
Implicit Types (a : Abs) (l hier nonHier : list ARef) (refs : list RefElem).

(** The inverse references of a list, and a list every reference of which
    has its target. *)
Definition inverses l : nat := length (filter (fun r => ARef.isForward r = false) l).
Definition targeted l : Prop := Forall (fun r => is_Some (ARef.target r)) l.

Lemma inverses_cons r l :
  inverses (r :: l) = (if ARef.isForward r then 0 else 1) + inverses l.
Proof. unfold inverses. rewrite filter_cons. by destruct (ARef.isForward r). Qed.

Lemma filter_is_inverse_cons (e : RefElem) refs :
  length (filter is_inverse (e :: refs)) =
  (if is_inverse e then 1 else 0) + length (filter is_inverse refs).
Proof. rewrite filter_cons. by destruct (is_inverse e). Qed.

(** The promotion of a ReferenceType returns when the table has a free
    cell for each inverse reference of the list. *)
Lemma promote_ok id l table :
  targeted l -> length table + inverses l <= MAX_HIERACHICAL_REFS ->
  exists table', res_fold (promote_ref id) l table = Ok table' /\
    length table' <= length table + inverses l.
Proof.
  revert table. induction l as [|r l IH]; intros table Ht Hcap; simpl.
  { exists table. split; [done | lia]. }
  apply Forall_cons in Ht as [[tg Htg] Ht]. rewrite inverses_cons in Hcap |- *.
  unfold promote_ref at 1. rewrite Htg.
  destruct (ARef.isForward r); cbn -[MAX_HIERACHICAL_REFS].
  { destruct (IH table) as (t' & -> & ?); [done | lia |]. exists t'. split; [done | lia]. }
  case_bool_decide; cbn -[MAX_HIERACHICAL_REFS].
  - rewrite bool_decide_eq_true_2 by lia. cbn -[MAX_HIERACHICAL_REFS].
    destruct (IH (table ++ [id])) as (t' & -> & Hlen); [done | |];
      rewrite length_app in *; simpl in *; [lia|]. exists t'. split; [done | lia].
  - destruct (IH table) as (t' & -> & ?); [done | lia |]. exists t'. split; [done | lia].
Qed.

(** The references of a node element are counted and filed when each
    decodes and the array of counted references has a free cell for
    each. *)
Lemma build_references_ok a refs count hier nonHier :
  ready (Abs.namespaces a) ->
  forallb (ok_reference (length (Abs.namespaces a))) refs = true ->
  (Z.of_nat (count + length refs) <= MAX_REFCOUNTEDREFS)%Z ->
  targeted hier ->
  exists hier' nonHier',
    res_fold (build_reference a) refs (count, hier, nonHier) =
      Ok (count + length refs, hier', nonHier') /\
    targeted hier' /\
    inverses hier' <= inverses hier + length (filter is_inverse refs).
Proof.
  intros Hready. revert count hier nonHier.
  induction refs as [|e refs IH]; intros count hier nonHier Hok Hcap Ht.
  { exists hier, nonHier. rewrite Nat.add_0_r. split; [done|]. split; [done | simpl; lia]. }
  cbn [forallb] in Hok. apply andb_true_iff in Hok as [He Hok].
  cbn [length] in Hcap. cbn [res_fold]. unfold build_reference at 1.
  rewrite (proj2 (Z.ltb_lt _ _)) by lia. cbn [require res_bind].
  destruct (decode_reference_ok (Abs.aliases a) _ Hready (Abs.table a) e He)
    as (h & r & -> & Htg & Hfwd).
  cbn [res_bind]. rewrite filter_is_inverse_cons.
  replace (count + length (e :: refs)) with (S count + length refs) by (simpl; lia).
  destruct h; [destruct (IH (S count) (r :: hier) nonHier) as (h' & n' & -> & ? & Hinv)
              |destruct (IH (S count) hier (r :: nonHier)) as (h' & n' & -> & ? & Hinv)];
    try done; try lia; try (by apply Forall_cons);
    exists h', n'; (split; [done|]); (split; [done|]);
    rewrite ?inverses_cons, ?Hfwd in Hinv; destruct (is_inverse e); simpl in *; lia.
Qed.

End building.

(** An abstract state with [n] namespaces, all ready, at most [t] cells of
    the table taken and at most [c] references counted. *)
Record ok_abs (a : Abs) (n t c : nat) : Prop := {
  ok_abs_namespaces : length (Abs.namespaces a) = n;
  ok_abs_ready : ready (Abs.namespaces a);
  ok_abs_table : length (Abs.table a) <= t;
  ok_abs_refs : Abs.refs a <= c;
}.

Section build.
Implicit Types (a : Abs) (doc : Document) (n t c : nat).

Lemma ok_abs_new nsCallback : ok_abs (Abs_new nsCallback) 1 8 0.
Proof. split; [done | | done | done]. split; [|done]. by repeat constructor. Qed.

Lemma build_uri_ok a n t c namespaceUri :
  ok_abs a n t c -> (Z.of_nat n <= UINT16_MAX)%Z ->
  exists a', build_uri namespaceUri a = Ok a' /\ ok_abs a' (S n) t c.
Proof.
  intros [Hn [Hall Hlen] Ht Hc] Hcap. eexists. split; [done|].
  split; cbn; rewrite ?length_app; simpl; [lia | | done | done].
  split; [|rewrite length_app; simpl; lia].
  apply Forall_app. split; [done|]. by repeat constructor.
Qed.

Lemma build_alias_ok a n t c attributes idString :
  ok_abs a n t c -> ok_nodeId n idString = true ->
  exists a', build_alias attributes idString a = Ok a' /\ ok_abs a' n t c.
Proof.
  intros [Hn Hready Ht Hc] Hid. unfold build_alias. rewrite <- Hn in Hid.
  destruct (extractNodedId_ok _ Hready _ Hid) as [id ->]. by eexists.
Qed.

Lemma build_node_ok a n t c (e : NodeElem) :
  ok_abs a n t c -> ok_node n e = true ->
  t + promotions e <= MAX_HIERACHICAL_REFS ->
  (Z.of_nat (c + length (NodeElem.references e)) <= MAX_REFCOUNTEDREFS)%Z ->
  exists a', build_node e a = Ok a' /\
    ok_abs a' n (t + promotions e) (c + length (NodeElem.references e)).
Proof.
  intros [Hn Hready Ht Hc] Hok Htcap Hccap. rewrite <- Hn in Hok. unfold build_node.
  destruct (decode_node_ok (Abs.aliases a) _ Hready e Hok) as [m Hm]. rewrite Hm.
  cbn [res_bind].
  destruct (build_references_ok a (NodeElem.references e) (Abs.refs a) [] [])
    as (hier & nonHier & -> & Htg & Hinv); [done | | lia | apply Forall_nil_2 |].
  { unfold ok_node in Hok. by apply andb_true_iff in Hok as [_ ?]. }
  cbn [res_bind]. unfold promotions in *.
  replace (TNode.nodeClass m) with (NodeElem.nodeClass e)
    by (by rewrite (decode_node_Ok _ _ _ _ _ Hm)).
  case_decide; cbn [res_bind].
  - destruct (promote_ok (TNode.id m) hier (Abs.table a)) as (t' & -> & Hlen);
      [done | cbn in Hinv; lia |].
    eexists. split; [done|]. split; cbn in *; (done || lia).
  - eexists. split; [done|]. split; cbn in *; (done || lia).
Qed.

(** The abstract builder returns on every document that passes the
    check. *)
Lemma build_ok doc a n t c :
  ok_abs a n t c -> ok_elements n t c doc = true -> exists a', build doc a = Ok a'.
Proof.
  revert a n t c. induction doc as [|e doc IH]; intros a n t c Ha Hok; [by eexists|].
  unfold build. cbn [res_fold]. fold (build doc). destruct e as [uri|attrs id|e];
    cbn [ok_elements build_element] in *; rewrite ?andb_true_iff in Hok;
    destruct_and?; repeat case_bool_decide; try done.
  - destruct (build_uri_ok a n t c uri) as (a' & -> & Ha'); [done..|]. by eapply IH.
  - destruct (build_alias_ok a n t c attrs id) as (a' & -> & Ha'); [done..|].
    by eapply IH.
  - destruct (build_node_ok a n t c e) as (a' & -> & Ha'); [done..|]. by eapply IH.
Qed.

End build.

(** ** The import is defined *)

(** The node elements of a class. *)
Definition count_class (c : TNodeClass) (doc : Document) : nat :=
  length (filter (fun x => x.2 = c) (nodes_of 0 doc)).

(** The check of a document: its texts, the references and promotions
    from the state of a new builder, and the nodes of each class against
    the container of the class. *)
Definition ok_document (doc : Document) : bool :=
  ok_elements 1 8 0 doc &&
  forallb (fun c => bool_decide (Z.of_nat (count_class c doc) <= container_capacity c)%Z)
    all_classes.

Section import.
Context `{Sorter}.
Implicit Types (w : World) (doc : Document).

(** The load of a document that passes the check returns. *)
Lemma load_ok nsCallback doc :
  ok_elements 1 8 0 doc = true -> exists w, load doc (Nodeset_new nsCallback) = Ok w.
Proof.
  intros Hok.
  destruct (build_ok doc _ 1 8 0 (ok_abs_new nsCallback) Hok) as [a Ha].
  pose proof (load_sim doc _ (wf_world_new nsCallback)) as Hsim.
  change (abs (Nodeset_new nsCallback)) with (Abs_new nsCallback) in Hsim.
  rewrite Ha in Hsim. apply res_rel_Ok_r in Hsim as (w & -> & _). by eexists.
Qed.

(** After a load the nodes of each class are the node elements of the
    class, however they are ordered. *)
Lemma loaded_of_class nsCallback doc w order c :
  load doc (Nodeset_new nsCallback) = Ok w -> order ≡ₚ World.sortNodes w ->
  length (of_class w c order) = count_class c doc.
Proof.
  intros (Hcl & Hs & _)%loaded_nodes Hperm. unfold of_class, count_class.
  rewrite Hperm, Hs. apply length_filter_fmap. intros [p cl] Hin%Hcl. cbn.
  rewrite Hin. naive_solver.
Qed.

(** No class has more node elements than its container has cells. *)
Definition fits_document doc : Prop :=
  forall c, (Z.of_nat (count_class c doc) <= container_capacity c)%Z.

Lemma ok_document_fits doc :
  ok_document doc = true -> ok_elements 1 8 0 doc = true /\ fits_document doc.
Proof.
  intros [Hel Hfit]%andb_true_iff. split; [done|]. intros c.
  rewrite forallb_forall in Hfit. specialize (Hfit c).
  rewrite bool_decide_eq_true in Hfit. apply Hfit, list_elem_of_In.
  destruct c; unfold all_classes; set_solver.
Qed.

Lemma loaded_fits nsCallback doc w order :
  load doc (Nodeset_new nsCallback) = Ok w -> order ≡ₚ World.sortNodes w ->
  fits w order <-> fits_document doc.
Proof.
  intros Hload Hperm. unfold fits, fits_document.
  split; intros Hfit c; specialize (Hfit c);
    by rewrite (wf_unfiled w (loaded_wf _ _ _ Hload) c),
         (loaded_of_class _ _ _ _ _ Hload Hperm) in *.
Qed.

(** After a load, the emission and the cleanup return when the sorter
    gives up or the nodes fit. *)
Lemma import_fits nsCallback doc w1 :
  load doc (Nodeset_new nsCallback) = Ok w1 ->
  sort (precedes w1) (World.sortNodes w1) = None \/ fits_document doc ->
  exists sorted w, import nsCallback doc = Ok (sorted, w).
Proof.
  intros Hload Hfit. pose proof (loaded_wf _ _ _ Hload) as Hwf.
  destruct (loaded_nodes _ _ _ Hload) as (_ & Hs & _).
  destruct (sort (precedes w1) (World.sortNodes w1)) as [order|] eqn:Hsort.
  - destruct Hfit as [|Hfit]; [done|].
    destruct (Nodeset_getSortedNodes_total w1 order) as [w2 Hw2];
      [done | apply Hwf | |].
    { eapply loaded_fits; [done | by eapply sort_perm | done]. }
    destruct (cleanup_after_emission w1 w2 Hwf) as (w & Hw & _);
      [rewrite Hs; apply nodes_of_NoDup | done |].
    exists true, w. apply import_Ok. eauto.
  - destruct (Nodeset_cleanup_unfiled w1) as (w & Hw & _); [apply Hwf..|].
    exists false, w. apply import_Ok. exists w1, w1. split; [done|]. split; [|done].
    unfold Nodeset_getSortedNodes, Sort_start. by rewrite Hsort.
Qed.

(** C7. Safety of a whole import: on a document that passes the check
    (every node id and browse name has a form the decoders accept against
    the namespaces declared before it, every node element has a browse
    name, and the references, the promotions and the nodes of each class
    fit the arrays of the builder), the load, the emission and the
    cleanup all have defined behaviour: the import returns, true or
    false. *)
Theorem import_defined nsCallback doc :
  ok_document doc = true -> exists sorted w, import nsCallback doc = Ok (sorted, w).
Proof.
  intros [Hel Hfit]%ok_document_fits.
  destruct (load_ok nsCallback doc Hel) as [w1 Hload]. eapply import_fits; eauto.
Qed.

(** C8. The undefined behaviour of an import, exactly: an import returns
    when, and only when, the load of the document returns and, unless the
    sorter gives up, no class has more node elements than its container
    has cells.  The emission hides no other trap and the cleanup none at
    all. *)
Theorem import_returns nsCallback doc :
  (exists sorted w, import nsCallback doc = Ok (sorted, w)) <->
  exists w1, load doc (Nodeset_new nsCallback) = Ok w1 /\
    (sort (precedes w1) (World.sortNodes w1) = None \/ fits_document doc).
Proof.
  split; [|intros (w1 & Hload & Hfit); by eapply import_fits].
  intros (sorted & w & (w1 & w2 & Hload & Hget & _)%import_Ok).
  exists w1. split; [done|].
  destruct (sort (precedes w1) (World.sortNodes w1)) as [order|] eqn:Hsort; [right|by left].
  apply (loaded_fits _ _ _ order Hload); [by eapply sort_perm|].
  pose proof (loaded_wf _ _ _ Hload) as Hwf. intros c.
  destruct (decide (Z.of_nat (length (container_of w1 c) + length (of_class w1 c order))
                    <= container_capacity c)%Z) as [|Hover]; [done|].
  unfold Nodeset_getSortedNodes, Sort_start in Hget. rewrite Hsort in Hget.
  rewrite (Nodeset_addNode_overflow order w1 c) in Hget;
    [done | apply sorted_classes; [done | apply Hwf] | | lia].
  intros c'. rewrite (wf_unfiled w1 Hwf c'). by destruct c'.
Qed.

End import.
