(* ===== verification/Scenarios.v ===== *)
(** * Scenarios: runs of events

    Runs of the builder on small node sets, event by event, evaluated by
    the kernel, and the theorems on single functions and on the states of
    the parser applied to them: every theorem that has hypotheses is
    instantiated at a state the builder reaches, with its hypotheses
    discharged by evaluation.  [Documents] has the scenarios on whole
    files, [Buffers] those on the memory of the program. *)

From Stdlib Require Import Ascii String.
From stdpp Require Import strings gmap functions pretty.
From S2P Require Import Prelude CString Model Namespace Attributes Alias Classifier.
From S2P Require Import Sorter Builder Emit Machine.

(** ** Runs *)

(** The host maps every namespace URI to the global index 7. *)
Definition cb7 : addNamespaceCb := fun _ => 7%Z.

(** The state after the events [calls] on a new builder. *)
Definition after (calls : list Call) : World :=
  match run calls (Nodeset_new cb7) with
  | Ok w => w
  | Trap _ => Nodeset_new cb7
  end.

(** The state after [Nodeset_getSortedNodes], with Kahn's sorter. *)
Definition sorted (w : World) : World :=
  match Nodeset_getSortedNodes w with
  | Ok (_, w') => w'
  | Trap _ => w
  end.

(** An ObjectType of namespace 1 and a Variable that names it as its parent
    by an inverse HasComponent reference. *)
Definition parent_child : list Call :=
  [CallNewNamespace;
   CallNewNamespaceFinish (Some "urn:acme");
   CallNewNode NODECLASS_OBJECTTYPE
     [xml_attr "NodeId" "ns=1;i=1000"; xml_attr "BrowseName" "1:Machine"];
   CallNewNodeFinish 0;
   CallNewNode NODECLASS_VARIABLE
     [xml_attr "NodeId" "ns=1;i=1001"; xml_attr "BrowseName" "1:Temp"];
   CallNewReference 1
     [xml_attr "ReferenceType" "i=47"; xml_attr "IsForward" "false"];
   CallNewReferenceFinish 2 (Some "ns=1;i=1000");
   CallNewNodeFinish 1].

(** Two Objects, the child finished before its parent. *)
Definition child_first : list Call :=
  [CallNewNode NODECLASS_OBJECT
     [xml_attr "NodeId" "i=100"; xml_attr "BrowseName" "Child"];
   CallNewReference 0
     [xml_attr "ReferenceType" "i=35"; xml_attr "IsForward" "false"];
   CallNewReferenceFinish 1 (Some "i=85");
   CallNewNodeFinish 0;
   CallNewNode NODECLASS_OBJECT
     [xml_attr "NodeId" "i=85"; xml_attr "BrowseName" "Objects"];
   CallNewNodeFinish 2].

(** Two ObjectTypes, each a forward HasSubtype of the other. *)
Definition cycle : list Call :=
  [CallNewNode NODECLASS_OBJECTTYPE
     [xml_attr "NodeId" "i=1"; xml_attr "BrowseName" "A"];
   CallNewReference 0 [xml_attr "ReferenceType" "i=45"];
   CallNewReferenceFinish 1 (Some "i=2");
   CallNewNodeFinish 0;
   CallNewNode NODECLASS_OBJECTTYPE
     [xml_attr "NodeId" "i=2"; xml_attr "BrowseName" "B"];
   CallNewReference 2 [xml_attr "ReferenceType" "i=45"];
   CallNewReferenceFinish 3 (Some "i=1");
   CallNewNodeFinish 2].

(** A ReferenceType of namespace 1 declared an inverse HasSubtype of
    HasComponent. *)
Definition controls : list Call :=
  [CallNewNamespace;
   CallNewNamespaceFinish (Some "urn:acme");
   CallNewNode NODECLASS_REFERENCETYPE
     [xml_attr "NodeId" "ns=1;i=5000"; xml_attr "BrowseName" "1:Controls"];
   CallNewReference 0
     [xml_attr "ReferenceType" "i=45"; xml_attr "IsForward" "false"];
   CallNewReferenceFinish 1 (Some "i=47")].

(** ** Evaluation *)

(** The tactics of the prelude do the evaluation: [by_eval] proves a
    decidable proposition, [by_run] an equation between two closed terms. *)

Lemma after_wf calls w : run calls (Nodeset_new cb7) = Ok w -> wf_world w.
Proof. apply run_wf, wf_world_new. Qed.

Lemma after_reachable calls w : run calls (Nodeset_new cb7) = Ok w -> reachable w.
Proof. apply run_reachable, reachable_new. Qed.

Lemma after_unfiled calls : unfiled (after calls).
Proof.
  unfold after. destruct (run calls _) as [w|] eqn:E; [|done].
  by apply (wf_unfiled w), (after_wf calls).
Qed.

(** ** The scenarios of the specification *)

(** The parent is handed to the host before the child, and the value of the
    variable is deleted after it. *)
Example parent_child_emission :
  Nodeset_getSortedNodes (after parent_child) = Ok (true, sorted (after parent_child)) /\
  World.trace (sorted (after parent_child)) =
    [CbAddNamespace (Some "urn:acme") 7; CbAddNode 0; CbAddNode 1; CbDeleteValue 1].
Proof. split; by_run. Qed.

(** The ids of the two nodes are stored with the global namespace index. *)
Example parent_child_ids :
  TNode.id <$> World.nodeHeap (after parent_child) !! 0 =
    Some (TNodeId.mk 7 (Some "i=1000")) /\
  TNode.id <$> World.nodeHeap (after parent_child) !! 1 =
    Some (TNodeId.mk 7 (Some "i=1001")).
Proof. split; by_run. Qed.

(** Within a class the parent comes first, whatever the order in which the
    nodes were finished. *)
Example child_first_emission :
  World.sortNodes (after child_first) = [0; 2] /\
  added (World.trace (sorted (after child_first))) = [2; 0].
Proof. split; by_run. Qed.

(** A cycle of forward references makes [Nodeset_getSortedNodes] return
    false, and the host is not called. *)
Example cycle_rejected :
  Nodeset_getSortedNodes (after cycle) = Ok (false, after cycle) /\
  World.trace (after cycle) = [].
Proof. split; by_run. Qed.

(** An empty node set: nothing is emitted, the result is true. *)
Example empty_nodeset :
  Nodeset_getSortedNodes (Nodeset_new cb7) =
    Ok (true, Nodeset_new cb7).
Proof. by_run. Qed.

(** ** The theorems at these runs *)

(** The value of a result, or [d]. *)
Definition get {A} (d : A) (m : res A) : A :=
  match m with Ok a => a | Trap _ => d end.

Lemma Nodeset_getSortedNodes_phase_order_witness :
  before (emitted (after parent_child) (sorted (after parent_child))) 0 1.
Proof.
  apply (Nodeset_getSortedNodes_phase_order _ _ 0 1
           NODECLASS_OBJECTTYPE NODECLASS_VARIABLE);
    [apply after_unfiled | by_run | by_eval | by_eval | by_run | by_run | by_eval].
Defined.

Lemma Nodeset_getSortedNodes_parent_first_witness :
  before (emitted (after child_first) (sorted (after child_first))) 2 0.
Proof.
  apply (Nodeset_getSortedNodes_parent_first _ _ 2 0 NODECLASS_OBJECT);
    [apply after_unfiled | by_run | by_eval | by_eval | by_eval | by_eval
    | by_run | by_run | by_run].
Defined.

Lemma Nodeset_getSortedNodes_complete_witness :
  emitted (after child_first) (sorted (after child_first)) ≡ₚ
  World.sortNodes (after child_first).
Proof.
  apply Nodeset_getSortedNodes_complete; [apply after_unfiled | by_run].
Defined.

Lemma reachable_wf_witness : wf_world (after parent_child).
Proof. apply reachable_wf, (after_reachable parent_child). by_run. Defined.

(** The states before and after the reference of [parent_child] is
    created, and the variable it is created for. *)
Definition unlinked : World := after (take 5 parent_child).
Definition linked : World := after (take 6 parent_child).
Definition variable : TNode :=
  get (calloc_node NODECLASS_VARIABLE) (deref_node unlinked 1).
Definition reference_attributes : list XmlAttr :=
  [xml_attr "ReferenceType" "i=47"; xml_attr "IsForward" "false"].

Lemma unlinked_wf : wf_world unlinked.
Proof. apply (after_wf (take 5 parent_child)). by_run. Qed.

Lemma Nodeset_newReference_one_list_witness :
  exists n' hier, World.nodeHeap linked !! 1 = Some n' /\
    refs_of linked (head_of hier n') = 2 :: refs_of unlinked (head_of hier variable) /\
    refs_of linked (head_of (negb hier) n') =
      refs_of unlinked (head_of (negb hier) variable) /\
    2 ∉ refs_of unlinked (TNode.hierachicalRefs variable) ++
        refs_of unlinked (TNode.nonHierachicalRefs variable).
Proof.
  apply (Nodeset_newReference_one_list unlinked 1 reference_attributes);
    [apply unlinked_wf | by_run | by_run].
Defined.

(** *** The sorter *)

(** Node 2 has to come before node 1. *)
Definition two_first (u v : ptr) : bool := bool_decide (u = 2 /\ v = 1).

Lemma kahn_sort_sound_witness :
  [2; 3; 1] ≡ₚ [1; 2; 3] /\
  (2 ∈ [1; 2; 3] -> 1 ∈ [1; 2; 3] -> 2 <> 1 -> two_first 2 1 = true ->
   before [2; 3; 1] 2 1).
Proof. apply (kahn_sort_sound two_first [1; 2; 3] [2; 3; 1] 2 1). by_run. Defined.

Lemma kahn_sort_cycle_witness :
  kahn_sort (fun u v => bool_decide (u <> v)) [1; 2] = None.
Proof.
  apply (kahn_sort_cycle _ [1; 2] 1 2); [by_eval | by_eval | by_eval | by_eval | by_run | by_run].
Defined.

Lemma kahn_sort_unconstrained_witness :
  kahn_sort (fun _ _ => false) [3; 1; 2] = Some [3; 1; 2].
Proof. apply (kahn_sort_unconstrained (fun _ _ => false) [3; 1; 2]). by intros. Defined.

(** *** The classifier *)

(** The state in which the ReferenceType Controls is about to be finished,
    and the state after. *)
Definition controls_finished : World :=
  get (after controls) (addIfHierachicalReferenceType 0 (after controls)).
Definition controls_node : TNode :=
  get (calloc_node NODECLASS_REFERENCETYPE) (deref_node (after controls) 0).

Lemma controls_wf : wf_world (after controls).
Proof. apply (after_wf controls). by_run. Qed.

(** Finishing Controls puts its id, in the global namespace, in the table:
    from then on a reference of that type is hierarchical. *)
Example controls_promoted :
  table_ids controls_finished = table_ids (after controls) ++ [TNodeId.mk 7 (Some "i=5000")] /\
  isHierachicalReference controls_finished
    (Reference.mk true (TNodeId.mk 7 (Some "i=5000")) None None) = true.
Proof. split; by_run. Qed.

Lemma addIfHierachicalReferenceType_criterion_witness :
  table_of controls_finished <> table_of (after controls) <->
  exists n l rec,
    World.nodeHeap (after controls) !! 0 = Some n /\
    ref_chain (World.brk (after controls)) (World.refHeap (after controls))
      (TNode.hierachicalRefs n) = Ok l /\
    rec ∈ l.*2 /\ promotes (table_of (after controls)) rec = true.
Proof. apply (addIfHierachicalReferenceType_criterion 0). by_run. Defined.

Lemma addIfHierachicalReferenceType_grows_witness :
  exists n k, World.nodeHeap (after controls) !! 0 = Some n /\
    table_of controls_finished = table_of (after controls) ++ replicate k n.
Proof. apply (addIfHierachicalReferenceType_grows 0). by_run. Defined.

Lemma addIfHierachicalReferenceType_total_witness :
  exists w', addIfHierachicalReferenceType 0 (after controls) = Ok w'.
Proof.
  apply (addIfHierachicalReferenceType_total 0 controls_node).
  - apply controls_wf.
  - by_run.
  - apply (wf_nodeHeap _ controls_wf 0). by_run.
  - change (map_Forall (fun _ rec => finished rec) (World.refHeap (after controls))).
    by_eval.
  - intros l Hl. vm_compute in Hl. injection Hl as <-. vm_compute. lia.
Defined.

(** A table filled to its fifty cells. *)
Definition full_table : World :=
  with_table (replicate MAX_HIERACHICAL_REFS (seed "i=35" "Organizes"))
    (Nodeset_new cb7).

Lemma push_hierachicalRef_full_witness :
  push_hierachicalRef (seed "i=35" "Organizes") full_table = Trap OutOfBounds.
Proof. apply push_hierachicalRef_full. by_run. Defined.

(** A ReferenceType with [k] inverse references to HasComponent.  The
    seeds leave forty-two cells of the table free. *)
Definition crowded (k : nat) : list Call :=
  CallNewNode NODECLASS_REFERENCETYPE
    [xml_attr "NodeId" "i=5000"; xml_attr "BrowseName" "Crowded"] ::
  (seq 1 k ≫= fun r =>
     [CallNewReference 0 [xml_attr "ReferenceType" "i=45"; xml_attr "IsForward" "false"];
      CallNewReferenceFinish r (Some "i=47")]).

Lemma addIfHierachicalReferenceType_overflow_witness :
  addIfHierachicalReferenceType 0 (after (crowded 43)) = Trap OutOfBounds.
Proof.
  apply (addIfHierachicalReferenceType_overflow 0
           (get (calloc_node NODECLASS_REFERENCETYPE) (deref_node (after (crowded 43)) 0))
           _
           (get [] (ref_chain (World.brk (after (crowded 43)))
                      (World.refHeap (after (crowded 43))) (Some 43))));
    [by_run | by_run | by_eval | by_eval | by_eval].
Defined.

(** With forty-two references the node fills the table to its last cell,
    with its own id in every cell after the seeds; the forty-third is
    one too many. *)
Example crowded_table :
  length (table_of (after (crowded 42 ++ [CallNewNodeFinish 0]))) = MAX_HIERACHICAL_REFS /\
  run (crowded 43 ++ [CallNewNodeFinish 0]) (Nodeset_new cb7) = Trap OutOfBounds.
Proof. split; by_run. Qed.

(** *** The states of the parser *)

Lemma parsing_classification_witness :
  goes_hierachical unlinked (Reference.mk false (TNodeId.mk 0 (Some "i=47")) None None) =
  Ok (bool_decide (TNodeId.mk 0 (Some "i=47") ∈ table_ids unlinked) || negb (0 =? 0)%Z).
Proof. apply (parsing_classification unlinked), unlinked_wf. Defined.

Lemma Nodeset_cleanup_unfiled_witness :
  exists w', Nodeset_cleanup linked = Ok w' /\
    World.refHeap w' = ∅ /\ World.nodeHeap w' = World.nodeHeap linked.
Proof.
  pose proof (after_wf (take 6 parent_child) linked ltac:(by_run)) as Hwf.
  apply Nodeset_cleanup_unfiled; apply Hwf.
Defined.

(** *** The events on nodes and references *)

Lemma Nodeset_newReference_total_witness :
  exists w', Nodeset_newReference 1 reference_attributes unlinked =
             Ok (World.brk unlinked, w').
Proof.
  apply (Nodeset_newReference_total 1 reference_attributes unlinked variable
           (TNodeId.mk 0 (Some "i=47"))); [by_run | by_eval | by_run | by_eval].
Defined.

(** A builder whose array of counted references is full. *)
Definition full_refs : World :=
  World.set_nodeset
    (Nodeset.set_countedRefs (replicate (Z.to_nat MAX_REFCOUNTEDREFS) 0)
       (World.nodeset (Nodeset_new cb7)))
    (Nodeset_new cb7).

Lemma Nodeset_newReference_full_witness :
  Nodeset_newReference 0 [] full_refs = Trap OutOfBounds.
Proof.
  apply Nodeset_newReference_full. unfold counted_of, full_refs. cbn.
  rewrite length_replicate. unfold MAX_REFCOUNTEDREFS. lia.
Defined.

Lemma Nodeset_newNode_no_BrowseName_witness :
  Nodeset_newNode NODECLASS_OBJECT [xml_attr "NodeId" "i=85"] (Nodeset_new cb7) =
  Trap NullDeref.
Proof.
  apply (Nodeset_newNode_no_BrowseName _ _ _ (TNodeId.mk 0 (Some "i=85"))); by_run.
Defined.

(** A node of namespace 5 in a file that declares no namespace. *)
Lemma Nodeset_newNode_undeclared_namespace_witness :
  Nodeset_newNode NODECLASS_OBJECT
    [xml_attr "NodeId" "ns=5;i=1"; xml_attr "BrowseName" "Pump"] (Nodeset_new cb7) =
  Trap OutOfBounds.
Proof.
  apply (Nodeset_newNode_undeclared_namespace _ _ _ 5 "i=1");
    [by_run | by_eval | by_eval | by_eval].
Defined.

Lemma Nodeset_newNode_no_NodeId_witness :
  exists n,
    World.nodeHeap (after [CallNewNode NODECLASS_OBJECT [xml_attr "BrowseName" "Objects"]])
      !! 0 = Some n /\
    TNode.id n = TNodeId.mk 0 None.
Proof.
  apply (Nodeset_newNode_no_NodeId NODECLASS_OBJECT
           [xml_attr "BrowseName" "Objects"] (Nodeset_new cb7)); by_run.
Defined.

(** *** Attributes *)

Lemma getAttributeValue_present_witness :
  getAttributeValue attrIsForward reference_attributes unlinked =
  (Some "false", snd (arena_copy "false" unlinked)).
Proof.
  apply (getAttributeValue_present attrIsForward reference_attributes unlinked
           [xml_attr "ReferenceType" "i=47"] (xml_attr "IsForward" "false") []);
    [by_run | by_run | by_eval].
Defined.

Lemma getAttributeValue_absent_witness :
  getAttributeValue attrIsForward [xml_attr "ReferenceType" "i=45"] unlinked =
  (Some "true", unlinked).
Proof. apply (getAttributeValue_absent attrIsForward). by_eval. Defined.

Lemma getAttributeValue_in_arena_witness :
  (Some "false" = NodeAttribute.defaultValue attrIsForward \/
   "false" ∈ Nodeset.charArena
     (World.nodeset (snd (getAttributeValue attrIsForward reference_attributes unlinked))))
  /\ Nodeset.charArena (World.nodeset unlinked) `prefix_of`
       Nodeset.charArena
         (World.nodeset (snd (getAttributeValue attrIsForward reference_attributes unlinked))).
Proof. apply (getAttributeValue_in_arena attrIsForward). by_run. Defined.

(** *** Aliases *)

Lemma alias_declaration_witness :
  exists w',
    Nodeset_newAliasFinish
      (fst (Nodeset_newAlias [xml_attr "Alias" "HasComponent"] (Nodeset_new cb7)))
      (Some "i=47")
      (snd (Nodeset_newAlias [xml_attr "Alias" "HasComponent"] (Nodeset_new cb7)))
      = Ok w' /\
    aliases_of w' =
      aliases_of (Nodeset_new cb7) ++
      [Alias.mk (Some "HasComponent") (TNodeId.mk 0 (Some "i=47"))] /\
    alias2Id w' (Some "HasComponent") = Ok (TNodeId.mk 0 (Some "i=47")).
Proof.
  apply (alias_declaration [xml_attr "Alias" "HasComponent"] (Nodeset_new cb7)
           "HasComponent" "i=47"); [by_run | by constructor | by_run].
Defined.

(** The alias of the specification's fourth scenario, used before it is
    declared: the reference type is the name of the alias, not "i=47". *)
Lemma alias_used_before_declaration_witness :
  alias2Id (Nodeset_new cb7) (Some "HasComponent") =
  Ok (TNodeId.mk 0 (Some "HasComponent")).
Proof.
  apply (alias_used_before_declaration (Nodeset_new cb7) "HasComponent");
    [by constructor | by_run].
Defined.

(** *** Namespaces and the decoders *)

(** The table after the declaration of "urn:acme". *)
Definition acme : list TNamespace := namespaces_of (after (take 2 parent_child)).

Lemma declared_namespace_translates_witness :
  extractNodedId acme
    (Some (nodeId_text (N.of_nat (length (namespaces_of (Nodeset_new cb7)))) "i=10")) =
  Ok (TNodeId.mk (to_int (cb_of (Nodeset_new cb7) (Some "urn:acme"))) (Some "i=10")).
Proof.
  apply (declared_namespace_translates (Some "urn:acme") (Nodeset_new cb7)
           (after (take 2 parent_child)) "i=10"); [done | by_eval | by_run].
Defined.

Lemma extractNodedId_semicolon_in_identifier_witness :
  extractNodedId acme (Some "s=a;b") = Ok (TNodeId.mk 0 (Some "b")).
Proof.
  apply (extractNodedId_semicolon_in_identifier acme "s" "=" "a" "b"); by_eval.
Defined.

Lemma extractNodedId_short_witness :
  extractNodedId acme (Some ";x") = Trap OutOfBounds.
Proof. apply (extractNodedId_short acme ";x"); [by eexists | by_eval]. Defined.

Lemma extractBrowseName_text_witness :
  extractBrowseName acme (Some (browseName_text 1 "Temperature")) =
  translateBrowseName acme (TBrowseName.mk (to_uint16 (Z.of_N 1)) (Some "Temperature")).
Proof. apply (extractBrowseName_text acme 1 "Temperature"). by_eval. Defined.

Lemma extractBrowseName_plain_witness :
  extractBrowseName acme (Some "Objects") = Ok (TBrowseName.mk 0 (Some "Objects")).
Proof. apply (extractBrowseName_plain acme "Objects"). by_run. Defined.

Lemma translateBrowseName_ready_witness :
  translateBrowseName acme (TBrowseName.mk 1 (Some "Temperature")) =
  Ok (TBrowseName.mk (to_uint16 7) (Some "Temperature")).
Proof.
  apply (translateBrowseName_ready acme (TBrowseName.mk 1 (Some "Temperature")) 7);
    [by_eval | eexists; split; by_run].
Defined.

(** *** [atoi] *)

Lemma atoi_overflow_witness : atoi (pretty 2147483648%N +:+ ";i=1") = Trap Overflow.
Proof. apply (atoi_overflow 2147483648 ";i=1"); [by_eval | by_run]. Defined.

Lemma atoi_no_numeral_witness : atoi "s=a;b" = Ok 0%Z.
Proof. apply (atoi_no_numeral "s" "=a;b"); (by_run || by_eval). Defined.

Lemma atoi_in_int_witness : in_int 1000 = true.
Proof. apply (atoi_in_int "1000;i=1"). by_run. Defined.

(** *** Completeness, totality and cleanup *)

Lemma kahn_sort_complete_witness : is_Some (kahn_sort two_first [1; 2; 3]).
Proof.
  apply (kahn_sort_complete two_first [1; 2; 3] (fun u => if decide (u = 2) then 0 else 1)).
  intros u v _ _ _ [-> ->]%bool_decide_eq_true. by_eval.
Defined.

Lemma Nodeset_getSortedNodes_total_witness :
  exists w', Nodeset_getSortedNodes (after parent_child) = Ok (true, w').
Proof.
  apply (Nodeset_getSortedNodes_total (after parent_child) [0; 1]);
    [by_run | by_eval | intros []; by_eval].
Defined.

Lemma Nodeset_cleanup_emitted_witness :
  exists w'', Nodeset_cleanup (sorted (after child_first)) = Ok w'' /\
    World.refHeap w'' = ∅ /\
    forall p, World.nodeHeap w'' !! p =
              if decide (p ∈ World.sortNodes (after child_first)) then None
              else World.nodeHeap (after child_first) !! p.
Proof.
  apply (Nodeset_cleanup_emitted (after child_first));
    [apply (after_wf child_first); by_run | by_eval | by_run].
Defined.

(** *** The two refinements *)

Lemma Nodeset_getSortedNodes_refines_witness :
  exists order,
    sort (precedes (after parent_child)) (World.sortNodes (after parent_child)) =
      Some order /\
    World.trace (sorted (after parent_child)) =
      World.trace (after parent_child) ++ emission (after parent_child) order /\
    (forall c, container_of (sorted (after parent_child)) c =
               of_class (after parent_child) c order) /\
    World.nodeHeap (sorted (after parent_child)) = World.nodeHeap (after parent_child) /\
    World.refHeap (sorted (after parent_child)) = World.refHeap (after parent_child).
Proof.
  apply Nodeset_getSortedNodes_refines; [apply after_unfiled | by_run].
Defined.

Lemma addIfHierachicalReferenceType_refines_witness :
  addIfHierachicalReferenceType 0 (after controls) =
  Ok (with_table
        (promote controls_node
           (get [] (ref_chain (World.brk (after controls)) (World.refHeap (after controls))
                      (TNode.hierachicalRefs controls_node))).*2
           (table_of (after controls)))
        (after controls)).
Proof.
  apply (addIfHierachicalReferenceType_refines 0); [by_run | by_run | by_eval | by_eval].
Defined.

(** ** Runs the specification does not expect *)

(** A Variable that is the parent, by a forward HasComponent reference, of
    an Object. *)
Definition late_parent : list Call :=
  [CallNewNode NODECLASS_VARIABLE
     [xml_attr "NodeId" "i=1"; xml_attr "BrowseName" "Parent"];
   CallNewReference 0 [xml_attr "ReferenceType" "i=47"];
   CallNewReferenceFinish 1 (Some "i=2");
   CallNewNodeFinish 0;
   CallNewNode NODECLASS_OBJECT
     [xml_attr "NodeId" "i=2"; xml_attr "BrowseName" "Child"];
   CallNewNodeFinish 2].

(** Across classes the phases decide: the child, an Object, is handed to
    the host before its parent, a Variable, although the parent precedes it
    in the hierarchy. *)
Example late_parent_emission :
  precedes (after late_parent) 0 2 = true /\
  added (World.trace (sorted (after late_parent))) = [2; 0].
Proof. split; by_run. Qed.

(** The alias HasComponent is used by a reference before it is declared. *)
Definition alias_after_use : list Call :=
  [CallNewNode NODECLASS_OBJECT
     [xml_attr "NodeId" "i=100"; xml_attr "BrowseName" "Child"];
   CallNewReference 0
     [xml_attr "ReferenceType" "HasComponent"; xml_attr "IsForward" "false"];
   CallNewReferenceFinish 1 (Some "i=85");
   CallNewNodeFinish 0;
   CallNewAlias [xml_attr "Alias" "HasComponent"];
   CallNewAliasFinish 0 (Some "i=47")].

(** The reference keeps the name of the alias as its type and is filed as
    not hierarchical, although the alias stands for HasComponent. *)
Example alias_after_use_reference :
  Reference.refType <$> World.refHeap (after alias_after_use) !! 1 =
    Some (TNodeId.mk 0 (Some "HasComponent")) /\
  (TNode.hierachicalRefs <$> World.nodeHeap (after alias_after_use) !! 0,
   TNode.nonHierachicalRefs <$> World.nodeHeap (after alias_after_use) !! 0) =
    (Some None, Some (Some 1)) /\
  alias2Id (after alias_after_use) (Some "HasComponent") =
    Ok (TNodeId.mk 0 (Some "i=47")).
Proof. repeat split; by_run. Qed.

(** [Nodeset_newNamespaceFinish] without a [Nodeset_newNamespace] before it
    overwrites the entry of the OPC UA namespace. *)
Example namespace_finish_alone :
  namespaces_of (after [CallNewNamespaceFinish (Some "urn:acme")]) =
  [TNamespace.mk (Some 7%Z) (Some "urn:acme")].
Proof. by_run. Qed.

(** A reference whose type is a ReferenceType of the file that was parsed
    and finished, and is not hierarchical, is filed as hierarchical. *)
Definition parsed_type : list Call :=
  [CallNewNamespace;
   CallNewNamespaceFinish (Some "urn:acme");
   CallNewNode NODECLASS_REFERENCETYPE
     [xml_attr "NodeId" "ns=1;i=6000"; xml_attr "BrowseName" "1:Likes"];
   CallNewNodeFinish 0;
   CallNewNode NODECLASS_OBJECT
     [xml_attr "NodeId" "ns=1;i=1"; xml_attr "BrowseName" "1:A"];
   CallNewReference 1 [xml_attr "ReferenceType" "ns=1;i=6000"]].

Example parsed_type_unknown :
  (TNodeId.mk 7 (Some "i=6000") ∉ table_ids (after parsed_type)) /\
  TNode.hierachicalRefs <$> World.nodeHeap (after parsed_type) !! 1 = Some (Some 2).
Proof. split; [by_eval | by_run]. Qed.

