(* ===== verification/Documents.v ===== *)
(** * Scenarios: documents

    Whole files, loaded and imported, evaluated by the kernel: the
    scenarios of the specification as documents, what the host receives,
    the namespaces and the tables of a document, the life of a builder
    with its emission and its cleanup, the trace of the traced build, and
    the order of the alias declarations.  The theorems on documents are
    instantiated here, with their hypotheses discharged by evaluation. *)

From Stdlib Require Import Ascii String.
From stdpp Require Import strings gmap functions pretty.
From S2P Require Import Prelude CString Model Namespace Attributes Alias Classifier.
From S2P Require Import Sorter Builder Emit Machine Arena Driver Abstract.
From S2P Require Import Stored Translated Lifecycle Refinement Delivery Closure Order Frame Trace WellFormed.
From S2P Require Import Scenarios.

(** ** Documents *)

Definition node (c : TNodeClass) (id name : string) (refs : list RefElem)
  : Element :=
  NodeElement (NodeElem.mk c [xml_attr "NodeId" id; xml_attr "BrowseName" name] refs).

(** The file of [parent_child]: a namespace, an ObjectType, and a Variable
    with an inverse HasComponent reference to the ObjectType. *)
Definition machine : Document :=
  [UriElement (Some "urn:acme");
   node NODECLASS_OBJECTTYPE "ns=1;i=1000" "1:Machine" [];
   node NODECLASS_VARIABLE "ns=1;i=1001" "1:Temp"
     [RefElem.mk [xml_attr "ReferenceType" "i=47"; xml_attr "IsForward" "false"]
        (Some "ns=1;i=1000")]].

(** The file of [child_first]: two Objects, the child before its parent. *)
Definition family : Document :=
  [node NODECLASS_OBJECT "i=100" "Child"
     [RefElem.mk [xml_attr "ReferenceType" "i=35"; xml_attr "IsForward" "false"]
        (Some "i=85")];
   node NODECLASS_OBJECT "i=85" "Objects" []].

(** The file of [cycle]. *)
Definition loop : Document :=
  [node NODECLASS_OBJECTTYPE "i=1" "A"
     [RefElem.mk [xml_attr "ReferenceType" "i=45"] (Some "i=2")];
   node NODECLASS_OBJECTTYPE "i=2" "B"
     [RefElem.mk [xml_attr "ReferenceType" "i=45"] (Some "i=1")]].

(** The state an import ends in, and the state its load ends in. *)
Definition imported (doc : Document) : World :=
  match import cb7 doc with
  | Ok (_, w) => w
  | Trap _ => Nodeset_new cb7
  end.

Definition loaded (doc : Document) : World :=
  get (Nodeset_new cb7) (load doc (Nodeset_new cb7)).

(** The calls of the three files are the runs above: the handles the
    driver passes are the addresses the scenarios name. *)
Example machine_calls : calls_of 0 0 machine = parent_child.
Proof. by_run. Qed.

Example family_calls : calls_of 0 0 family = child_first.
Proof. by_run. Qed.

Example loop_calls : calls_of 0 0 loop = cycle.
Proof. by_run. Qed.

(** The import of [machine]: what the host sees, and what is left. *)
Example machine_import :
  import cb7 machine = Ok (true, imported machine) /\
  World.trace (imported machine) =
    [CbAddNamespace (Some "urn:acme") 7; CbAddNode 0; CbAddNode 1; CbDeleteValue 1] /\
  World.nodeHeap (imported machine) = ∅.
Proof. split; [by_run | split; by_run]. Qed.

Lemma import_delivers_witness :
  added (World.trace (imported machine)) ≡ₚ (nodes_of 0 machine).*1.
Proof. apply (import_delivers cb7). by_run. Defined.

Lemma import_phase_order_witness :
  before (added (World.trace (imported machine))) 0 1.
Proof.
  apply (import_phase_order cb7 machine _ 0 1 NODECLASS_OBJECTTYPE NODECLASS_VARIABLE);
    [by_run | by_eval | by_eval | by_eval].
Defined.

Lemma import_parent_first_witness :
  before (added (World.trace (imported family))) 2 0.
Proof.
  apply (import_parent_first cb7 family (loaded family) _ 2 0 NODECLASS_OBJECT);
    [by_run | by_run | by_eval | by_eval | by_eval | by_run].
Defined.

Lemma import_releases_witness :
  World.nodeHeap (imported machine) = ∅ /\ World.refHeap (imported machine) = ∅ /\
  arena_of (imported machine) = [] /\ aliases_of (imported machine) = [] /\
  World.sortNodes (imported machine) = [].
Proof. apply (import_releases cb7 machine). by_run. Defined.

Lemma import_sort_failure_witness :
  added (World.trace (imported loop)) = [] /\ World.refHeap (imported loop) = ∅ /\
  forall p cl, (p, cl) ∈ nodes_of 0 loop -> class_of (imported loop) p = Some cl.
Proof. apply (import_sort_failure cb7 loop). by_run. Defined.

(** *** Types and strings *)

Lemma reachable_arena_owned_witness : arena_owned (after parent_child).
Proof. apply reachable_arena_owned, (after_reachable parent_child). by_run. Defined.

(** The blocks of the arena after [parent_child]: the values of the
    attributes, in the order the code read them. *)
Example parent_child_arena :
  arena_of (after parent_child) =
    ["ns=1;i=1000"; "1:Machine"; "ns=1;i=1001"; "1:Temp"; "false"; "i=47"].
Proof. by_run. Qed.

(** *** The abstract builder *)

(** What the abstract builder makes of a file. *)
Definition built (doc : Document) : Abs :=
  get (Abs_new cb7) (build doc (Abs_new cb7)).

Definition id0 (s : string) : TNodeId := TNodeId.mk 0 (Some s).
Definition id7 (s : string) : TNodeId := TNodeId.mk 7 (Some s).

(** The file [machine], abstractly: two finished nodes, the second with
    one hierarchical reference; one reference counted; one call of the
    host. *)
Example machine_built :
  build machine (Abs_new cb7) = Ok (built machine) /\
  Abs.nodes (built machine) =
    [ANode.mk NODECLASS_OBJECTTYPE (id7 "i=1000") (TBrowseName.mk 7 (Some "Machine"))
       (TObjectTypeNode (Some "false")) [] [];
     ANode.mk NODECLASS_VARIABLE (id7 "i=1001") (TBrowseName.mk 7 (Some "Temp"))
       (TVariableNode (TNodeId.mk 0 None) (id0 "i=24") (Some "-1") (Some "")
          (Some "1") (Some "1") None)
       [ARef.mk false (id0 "i=47") (Some (id7 "i=1000"))] []] /\
  Abs.refs (built machine) = 1 /\
  Abs.events (built machine) = [CbAddNamespace (Some "urn:acme") 7].
Proof. split; [by_run | split; [by_run | split; by_run]]. Qed.

(** The abstraction of the state the load of [machine] ends in is what
    the abstract builder computes. *)
Example machine_abs : abs (loaded machine) = built machine.
Proof. by_run. Qed.

(** A reference type of namespace 0 that the seed table does not hold,
    declared as a subtype of Organizes, and an Object that uses it. *)
Definition feeds : Element :=
  node NODECLASS_REFERENCETYPE "i=9000" "Feeds"
    [RefElem.mk [xml_attr "ReferenceType" "i=45"; xml_attr "IsForward" "false"]
       (Some "i=35")].

Definition tank : Element :=
  node NODECLASS_OBJECT "i=1" "Tank"
    [RefElem.mk [xml_attr "ReferenceType" "i=9000"] (Some "i=2");
     RefElem.mk [xml_attr "ReferenceType" "i=40"] (Some "i=58")].

Definition refs_of_node (m : ANode) : list TNodeId * list TNodeId :=
  (ARef.refType <$> ANode.hierachicalRefs m,
   ARef.refType <$> ANode.nonHierachicalRefs m).

(** Declared before it is used, the type is promoted when its node is
    finished, and the reference of the Object is hierarchical. *)
Example declared_before_use :
  Abs.table (built [feeds; tank]) = (TNode.id <$> hierachicalRefs) ++ [id0 "i=9000"] /\
  refs_of_node <$> Abs.nodes (built [feeds; tank]) =
    [([id0 "i=45"], []); ([id0 "i=9000"], [id0 "i=40"])].
Proof. split; by_run. Qed.

(** Used before it is declared, the type is promoted too late: the
    reference of the Object stays in the other list. *)
Example used_before_declared :
  Abs.table (built [tank; feeds]) = (TNode.id <$> hierachicalRefs) ++ [id0 "i=9000"] /\
  refs_of_node <$> Abs.nodes (built [tank; feeds]) =
    [([], [id0 "i=40"; id0 "i=9000"]); ([id0 "i=45"], [])].
Proof. split; by_run. Qed.

(** A node without a browse name: the abstract builder traps, and so
    does the load, with the same undefined behaviour. *)
Definition nameless : Document :=
  [NodeElement (NodeElem.mk NODECLASS_OBJECT [xml_attr "NodeId" "i=1"] [])].

Example nameless_traps :
  build nameless (Abs_new cb7) = Trap NullDeref /\
  load nameless (Nodeset_new cb7) = Trap NullDeref.
Proof. split; by_run. Qed.

(** The node element [tank] loaded after [parent_child]: the node stands
    at address 3, its reference of type i=9000, not yet declared, is in
    the non-hierarchical list behind the one parsed after it. *)
Definition tank_element : NodeElem :=
  match tank with NodeElement e => e | _ => NodeElem.mk NODECLASS_OBJECT [] [] end.

Lemma load_node_lists_witness :
  exists n n0 rs,
    World.nodeHeap (get (after parent_child) (load_node tank_element (after parent_child)))
      !! World.brk (after parent_child) = Some n /\
    decode_node (aliases_of (after parent_child)) (namespaces_of (after parent_child))
      (NodeElem.nodeClass tank_element) (NodeElem.attributes tank_element) = Ok n0 /\
    Forall2 (fun el x =>
               decode_reference (aliases_of (after parent_child))
                 (namespaces_of (after parent_child)) (table_ids (after parent_child)) el
               = Ok x) (NodeElem.references tank_element) rs /\
    abs_node (get (after parent_child) (load_node tank_element (after parent_child))) n
      = anode n0 (filed_refs true rs) (filed_refs false rs).
Proof.
  apply (load_node_lists tank_element (after parent_child));
    [apply (after_wf parent_child) |]; by_run.
Defined.

Example tank_lists :
  refs_of_node <$> Abs.nodes (built [tank]) = [([], [id0 "i=40"; id0 "i=9000"])].
Proof. by_run. Qed.

(** The refinement, at the state after [parent_child] and one more
    element. *)
Lemma load_refines_witness :
  res_map abs (load [tank] (after parent_child)) =
  build [tank] (abs (after parent_child)).
Proof. apply load_refines, (after_wf parent_child). by_run. Defined.

(** *** Well-formed documents *)

(** The three files pass the check, [loop] too: a cycle is not undefined
    behaviour, the import returns false. *)
Example documents_ok :
  ok_document machine = true /\ ok_document family = true /\
  ok_document loop = true /\ ok_document [feeds; tank] = true.
Proof. split; [by_run | split; [by_run | split; by_run]]. Qed.

Lemma import_defined_witness : exists sorted w, import cb7 machine = Ok (sorted, w).
Proof. apply (import_defined cb7 machine). by_run. Defined.

Example loop_import : exists w, import cb7 loop = Ok (false, w).
Proof. eexists. by_run. Qed.

(** A node id of a namespace the file has not declared: the check
    rejects the document, and the load reads past the namespace table. *)
Definition undeclared_namespace : Document :=
  [node NODECLASS_OBJECT "ns=5;i=1" "Pump" []].

Example undeclared_namespace_rejected :
  ok_document undeclared_namespace = false /\
  load undeclared_namespace (Nodeset_new cb7) = Trap OutOfBounds.
Proof. split; by_run. Qed.

(** A document whose namespace is declared after its first use is
    rejected too; declared first, it passes. *)
Example declaration_order :
  ok_document [node NODECLASS_OBJECT "ns=1;i=1" "1:Pump" []; UriElement (Some "urn:acme")]
    = false /\
  ok_document [UriElement (Some "urn:acme"); node NODECLASS_OBJECT "ns=1;i=1" "1:Pump" []]
    = true.
Proof. split; by_run. Qed.

(** The check is sufficient, not necessary: a numeral with a sign is
    rejected, and [atoi] reads it. *)
Example signed_index :
  ok_document [node NODECLASS_OBJECT "ns=+0;i=1" "Pump" []] = false /\
  is_ok (load [node NODECLASS_OBJECT "ns=+0;i=1" "Pump" []] (Nodeset_new cb7)) = true.
Proof. split; by_run. Qed.

(** ** What the host receives *)

Lemma import_content_witness :
  exists a, build machine (Abs_new cb7) = Ok a /\
    received (loaded machine) (World.trace (imported machine)) ≡ₚ Abs.nodes a /\
    StronglySorted (by_rank phase ANode.nodeClass)
      (received (loaded machine) (World.trace (imported machine))) /\
    forall x y, x ∈ Abs.nodes a -> y ∈ Abs.nodes a ->
      ANode.nodeClass x = ANode.nodeClass y -> x <> y ->
      parent (Abs.table a) x y = true ->
      before (received (loaded machine) (World.trace (imported machine))) x y.
Proof. apply (import_content cb7 machine); by_run. Defined.

(** What the host read during the import of [machine]: the ObjectType,
    then the Variable with its inverse HasComponent reference. *)
Example machine_received :
  received (loaded machine) (World.trace (imported machine)) = Abs.nodes (built machine).
Proof. by_run. Qed.

(** In [family] the child stands first in the file and the parent is
    delivered first. *)
Example family_received :
  ANode.id <$> Abs.nodes (built family) = [id0 "i=100"; id0 "i=85"] /\
  ANode.id <$> received (loaded family) (World.trace (imported family))
    = [id0 "i=85"; id0 "i=100"].
Proof. split; by_run. Qed.

(** A node element without a browse name: the import is a NULL
    dereference, as the load is. *)
Example nameless_import : import cb7 nameless = Trap NullDeref.
Proof. by_run. Qed.

(** ** Translated indices *)

Lemma reachable_translated_witness : translated_world (after parent_child).
Proof. apply reachable_translated, (after_reachable parent_child). by_run. Defined.

(** The host was asked once, and both nodes of [parent_child] carry its
    answer in place of the index 1 of the file. *)
Example parent_child_translated :
  host_indices (World.trace (after parent_child)) = [7%Z] /\
  (TNodeId.nsIdx ∘ TNode.id <$> World.nodeHeap (after parent_child) !! 0,
   TNodeId.nsIdx ∘ TNode.id <$> World.nodeHeap (after parent_child) !! 1)
    = (Some 7%Z, Some 7%Z).
Proof. split; by_run. Qed.

(** An index that is not positive is not looked up: it is stored as the
    file gives it. *)
Example negative_index :
  extractNodedId (namespaces_of (after parent_child)) (Some "ns=-5;i=1")
    = Ok (TNodeId.mk (-5) (Some "i=1")).
Proof. by_run. Qed.

(** ** The life of a builder *)

(** The state after the operations [os] on a new builder. *)
Definition lived (os : list Op) : Life :=
  get (Live (Nodeset_new cb7)) (ops os (Live (Nodeset_new cb7))).

Lemma lived_life os l : ops os (Live (Nodeset_new cb7)) = Ok l -> life l.
Proof. apply ops_life, life_new. Qed.

(** The file of [parsed_type] up to its Object, the emission, and then a
    reference of the type the file declared. *)
Definition second_file : list Op :=
  (OpCall <$> take 5 parsed_type) ++
  [OpGetSortedNodes; OpCall (CallNewReference 1 [xml_attr "ReferenceType" "ns=1;i=6000"])].

Lemma ops_wf_witness : wf_life (lived second_file).
Proof. apply (ops_wf cb7 second_file). by_run. Defined.

Definition likes : Reference :=
  Reference.mk false (TNodeId.mk 7 (Some "i=6000")) None None.

Lemma life_classification_witness :
  goes_hierachical (world_of (lived second_file)) likes =
    Ok (bool_decide (Reference.refType likes ∈ table_ids (world_of (lived second_file))) ||
        negb ((TNodeId.nsIdx (Reference.refType likes) =? 0)%Z ||
              bool_decide (Reference.refType likes ∈
                ids_at (world_of (lived second_file))
                  (container_of (world_of (lived second_file)) NODECLASS_REFERENCETYPE)))).
Proof. apply life_classification, (lived_life second_file). by_run. Defined.

(** Once the ReferenceType has been filed its type is known: the same
    reference that went to the hierarchical list while the file was parsed
    ([parsed_type_unknown]) now goes to the other one. *)
Example known_after_emission :
  goes_hierachical (after (take 5 parsed_type)) likes = Ok true /\
  goes_hierachical (world_of (lived second_file)) likes = Ok false /\
  TNode.nonHierachicalRefs <$> World.nodeHeap (world_of (lived second_file)) !! 1
    = Some (Some 2).
Proof. split; [by_run | split; by_run]. Qed.

Definition emitted_family : list Op := (OpCall <$> child_first) ++ [OpGetSortedNodes].

Lemma cleanup_defined_witness :
  (NoDup (filed (world_of (lived emitted_family)) all_classes) <->
   exists w', Nodeset_cleanup (world_of (lived emitted_family)) = Ok w') /\
  forall w', Nodeset_cleanup (world_of (lived emitted_family)) = Ok w' ->
    World.refHeap w' = ∅ /\
    forall p, World.nodeHeap w' !! p =
              if decide (p ∈ filed (world_of (lived emitted_family)) all_classes)
              then None else World.nodeHeap (world_of (lived emitted_family)) !! p.
Proof. apply cleanup_defined, (lived_life emitted_family). by_run. Defined.

(** A node finished twice is with the sorter twice, is filed twice, and
    the cleanup frees it twice. *)
Definition finished_twice : list Op :=
  (OpCall <$> child_first) ++ [OpCall (CallNewNodeFinish 0); OpGetSortedNodes].

Example double_finish :
  filed (world_of (lived finished_twice)) all_classes = [2; 0; 0] /\
  ops (finished_twice ++ [OpCleanup]) (Live (Nodeset_new cb7)) = Trap BadPointer.
Proof. split; by_run. Qed.

(** Nothing can be asked of a builder after its cleanup. *)
Example use_after_cleanup :
  ops (ops_of machine ++ [OpGetSortedNodes]) (Live (Nodeset_new cb7)) = Trap BadPointer.
Proof. by_run. Qed.

(** ** The capacity of a container *)

(** The state after [parent_child] with the container of the ObjectTypes
    full of the first node. *)
Definition full_objectTypes : World :=
  with_nodes (<[NODECLASS_OBJECTTYPE := replicate 1000 0]> (fun _ => []))
    (after parent_child).

Lemma Nodeset_getSortedNodes_overflow_witness :
  Nodeset_getSortedNodes full_objectTypes = Trap OutOfBounds.
Proof.
  apply (Nodeset_getSortedNodes_overflow full_objectTypes [0; 1] NODECLASS_OBJECTTYPE);
    [by_run | by_eval | intros []; by_eval | by_eval].
Defined.

(** ** The trace of the namespace table *)

Lemma traced_loaded_witness :
  Nodeset_getSortedNodes_traced (loaded machine) =
    res_map (pair (trace_of cb7 ["urn:acme"])) (Nodeset_getSortedNodes (loaded machine)).
Proof. apply (traced_loaded cb7 machine); by_run. Defined.

Example machine_trace :
  trace_of cb7 ["urn:acme"] =
    ["--- namespace table ---" +:+ NL; "FileIdx ServerIdx URI" +:+ NL;
     "0" +:+ TAB +:+ "0" +:+ TAB +:+ "http://opcfoundation.org/UA/" +:+ NL;
     "1" +:+ TAB +:+ "7" +:+ TAB +:+ "urn:acme" +:+ NL].
Proof. by_run. Qed.

Lemma traced_null_uri_witness :
  exists u, Nodeset_getSortedNodes_traced (loaded [UriElement None]) = Trap u.
Proof. apply (traced_null_uri cb7 [UriElement None]); [by_run | by_eval]. Defined.

(** The untraced build sorts the same document. *)
Example untraced_null_uri :
  is_ok (Nodeset_getSortedNodes (loaded [UriElement None])) = true /\
  Nodeset_getSortedNodes_traced (loaded [UriElement None]) = Trap NullDeref.
Proof. split; by_run. Qed.

(** ** The tables of a document *)

(** Every id of [machine] is in namespace 0 or in the namespace of the
    document, under the number of the host. *)
Lemma build_translated_witness : Forall (declared_node cb7 machine) (Abs.nodes (built machine)).
Proof. apply build_translated. by_run. Defined.

(** The file of [controls]: a ReferenceType that is a subtype of
    HasComponent. *)
Definition controls_element : NodeElem :=
  NodeElem.mk NODECLASS_REFERENCETYPE
    [xml_attr "NodeId" "ns=1;i=5000"; xml_attr "BrowseName" "1:Controls"]
    [RefElem.mk [xml_attr "ReferenceType" "i=45"; xml_attr "IsForward" "false"]
       (Some "i=47")].

Definition controls_file : Document :=
  [UriElement (Some "urn:acme"); NodeElement controls_element].

Lemma build_closed_witness : id7 "i=5000" ∈ Abs.table (built controls_file).
Proof.
  apply (build_closed [UriElement (Some "urn:acme")] controls_element []
           (Abs_new cb7) (built [UriElement (Some "urn:acme")]) (built controls_file)
           (built controls_file)
           (ANode.mk NODECLASS_REFERENCETYPE (id7 "i=5000")
              (TBrowseName.mk 7 (Some "Controls")) (TReferenceTypeNode (Some "false"))
              [ARef.mk false (id0 "i=45") (Some (id0 "i=47"))] [])
           (ARef.mk false (id0 "i=45") (Some (id0 "i=47"))) (id0 "i=47"));
    first [by_run | by_eval].
Defined.

(** *** The closure of the table *)

(** A reference type of the file that is a subtype of [controls]. *)
Definition drives_element : Element :=
  NodeElement
    (NodeElem.mk NODECLASS_REFERENCETYPE
       [xml_attr "NodeId" "ns=1;i=5001"; xml_attr "BrowseName" "1:Drives"]
       [RefElem.mk [xml_attr "ReferenceType" "i=45"; xml_attr "IsForward" "false"]
          (Some "ns=1;i=5000")]).

Definition supertype_first : Document := controls_file ++ [drives_element].

Definition subtype_first : Document :=
  [UriElement (Some "urn:acme"); drives_element; NodeElement controls_element].

(** A reference of the type of [drives_element]. *)
Definition drives : Reference := Reference.mk true (id7 "i=5001") None None.

(** Listed behind its supertype, the subtype is accepted as hierarchical,
    and is in the closure. *)
Lemma load_hierarchy_witness :
  hierarchical (abs_nodes (loaded supertype_first)) (Reference.refType drives).
Proof.
  apply (proj1 (load_hierarchy cb7 supertype_first (loaded supertype_first)
                  ltac:(by_run)) drives).
  by_run.
Defined.

(** A reference of type HasEncoding, and one of type HasComponent. *)
Lemma load_HasEncoding_witness :
  goes_hierachical (loaded supertype_first)
    (Reference.mk true (TNodeId.mk 0 (Some "i=38")) None None) = Ok false.
Proof.
  apply (load_HasEncoding cb7 supertype_first); [by_run | done | by_eval].
Defined.

Example HasComponent_hierarchical :
  goes_hierachical (loaded supertype_first)
    (Reference.mk true (TNodeId.mk 0 (Some "i=47")) None None) = Ok true.
Proof. by_run. Qed.

Example supertype_first_closed :
  parents_first (abs_nodes (loaded supertype_first)) /\
  table_ids (loaded supertype_first) =
    (TNode.id <$> hierachicalRefs) ++ [id7 "i=5000"; id7 "i=5001"].
Proof. split; [by_eval | by_run]. Qed.

(** Listed in front of its supertype, the subtype is in the closure and
    not in the table: a reference of its type is not recognised by
    [isHierachicalReference] when the nodes are sorted, although its
    supertype is. *)
Example subtype_first_open :
  load subtype_first (Nodeset_new cb7) = Ok (loaded subtype_first) /\
  hierarchical (abs_nodes (loaded subtype_first)) (Reference.refType drives) /\
  isHierachicalReference (loaded subtype_first) drives = false /\
  table_ids (loaded subtype_first) = (TNode.id <$> hierachicalRefs) ++ [id7 "i=5000"] /\
  ~ parents_first (abs_nodes (loaded subtype_first)).
Proof.
  split; [by_run|]. split; [|split; [by_run | split; [by_run | by_eval]]].
  apply (hierarchical_subtype _
           (ANode.mk NODECLASS_REFERENCETYPE (id7 "i=5001")
              (TBrowseName.mk 7 (Some "Drives")) (TReferenceTypeNode (Some "false"))
              [ARef.mk false (id0 "i=45") (Some (id7 "i=5000"))] [])
           (id7 "i=5000")); [by_eval..|].
  apply (hierarchical_subtype _
           (ANode.mk NODECLASS_REFERENCETYPE (id7 "i=5000")
              (TBrowseName.mk 7 (Some "Controls")) (TReferenceTypeNode (Some "false"))
              [ARef.mk false (id0 "i=45") (Some (id0 "i=47"))] [])
           (id0 "i=47")); [by_eval..|].
  apply hierarchical_seed. by_eval.
Qed.

(** ** The order of the alias declarations *)

Definition alias (name id : string) : Element :=
  AliasElement [xml_attr "Alias" name] (Some id).

(** A Variable whose data type and whose reference type are written as
    aliases. *)
Definition aliased_node : Element :=
  NodeElement
    (NodeElem.mk NODECLASS_VARIABLE
       [xml_attr "NodeId" "i=1001"; xml_attr "BrowseName" "Temp";
        xml_attr "DataType" "Double"]
       [RefElem.mk [xml_attr "ReferenceType" "HasComponent"; xml_attr "IsForward" "false"]
          (Some "i=1000")]).

Definition two_aliases : Document := [alias "HasComponent" "i=47"; alias "Double" "i=11"].

Definition aliased : Document := [] ++ two_aliases ++ [aliased_node].
Definition aliased' : Document := [] ++ reverse two_aliases ++ [aliased_node].

Lemma import_alias_order_witness :
  import cb7 aliased' = Ok (true, imported aliased) /\
  exists w1 w2,
    load aliased (Nodeset_new cb7) = Ok w1 /\ load aliased' (Nodeset_new cb7) = Ok w2 /\
    World.nodeHeap w2 = World.nodeHeap w1 /\ World.refHeap w2 = World.refHeap w1 /\
    World.sortNodes w2 = World.sortNodes w1 /\ table_of w2 = table_of w1 /\
    namespaces_of w2 = namespaces_of w1 /\
    forall name, alias2Id w2 name = alias2Id w1 name.
Proof.
  apply (import_alias_order cb7 [] two_aliases (reverse two_aliases) [aliased_node]);
    [by repeat constructor | by_eval | apply perm_swap | by_run].
Defined.

(** The two loads differ: the aliases and the blocks of the arena stand in
    the order of the file. *)
Example aliased_states :
  aliases_of (loaded aliased) = reverse (aliases_of (loaded aliased')) /\
  arena_of (loaded aliased) <> arena_of (loaded aliased').
Proof. split; [by_run | by_eval]. Qed.

(** The node the two orders build: the aliases are resolved. *)
Example aliased_node_built :
  abs_nodes (loaded aliased) =
  [ANode.mk NODECLASS_VARIABLE (id0 "i=1001") (TBrowseName.mk 0 (Some "Temp"))
     (TVariableNode (TNodeId.mk 0 None) (id0 "i=11") (Some "-1") (Some "")
        (Some "1") (Some "1") None)
     [ARef.mk false (id0 "i=47") (Some (id0 "i=1000"))] []].
Proof. by_run. Qed.

(** The names have to be distinct: of two aliases of one name the first
    decides, so exchanging them changes what the name stands for. *)
Example duplicate_alias_order :
  alias2Id (loaded [alias "T" "i=1"; alias "T" "i=2"]) (Some "T") = Ok (id0 "i=1") /\
  alias2Id (loaded [alias "T" "i=2"; alias "T" "i=1"]) (Some "T") = Ok (id0 "i=2").
Proof. split; by_run. Qed.

