(* ===== verification/Buffers.v ===== *)
(** * Scenarios: the memory of the program

    A start tag as the parser hands it over (the buffer with the values,
    the dictionary with the names, the array of pointers), and the
    functions on memory evaluated on it: [getAttributeValue], the
    decoders, and the first two statements of [extractAttributes], with
    an arena that clears its memory and with one that does not. *)

From Stdlib Require Import Ascii String.
From stdpp Require Import strings.
From S2P Require Import Prelude CString Model Namespace Attributes Builder Bytes Decode.
From S2P Require Import Scenarios.

(** ** [getAttributeValue] in memory *)

(** The attributes NodeId and BrowseName of a start tag: the buffer of the
    parser holds the two values, the dictionary the two names, the array
    five pointers per attribute. *)
Definition tag_mem : Mem :=
  Mem.mk (list_ascii_of_string "i=85 Objects") ["NodeId"; "BrowseName"] [].

Definition tag_array : list (option Ptr) :=
  [Some (Ptr.mk (Name 0) 0); None; None; Some (Ptr.mk Input 0); Some (Ptr.mk Input 4);
   Some (Ptr.mk (Name 1) 0); None; None; Some (Ptr.mk Input 5); Some (Ptr.mk Input 12)].

Definition tag_attributes : list XmlAttr :=
  [xml_attr "NodeId" "i=85"; xml_attr "BrowseName" "Objects"].

Lemma tag_encoded : encoded tag_mem tag_array tag_attributes.
Proof.
  intros [|[|i]] x; cbn; intros [= <-].
  - eexists _, 0, 4. repeat split; try by_run; cbn; lia.
  - eexists _, 5, 12. repeat split; try by_run; cbn; lia.
Qed.

Lemma getAttributeValue_at_refines_witness :
  exists v m',
    getAttributeValue_at (Some zero) attrBrowseName tag_array (Z.of_nat 2) tag_mem
      = Ok (v, m') /\
    read_cstr m' v = Ok (getAttributeValue attrBrowseName tag_attributes
                              (Nodeset_new cb7)).1 /\
    arena_strings m' (arena_of (getAttributeValue attrBrowseName tag_attributes
                                  (Nodeset_new cb7)).2).
Proof.
  apply (getAttributeValue_at_refines attrBrowseName tag_array tag_mem tag_attributes);
    [apply tag_encoded | by_eval | by_eval | repeat constructor; by_eval | done
    | constructor].
Defined.

(** What the function leaves in the arena, cleared or not: the seven
    bytes of the value and the byte it did not write. *)
Example tag_copy :
  res_map (fun r => Mem.arena r.2)
    (getAttributeValue_at (Some zero) attrBrowseName tag_array 2 tag_mem)
  = Ok [(Some <$> list_ascii_of_string "Objects") ++ [Some zero]] /\
  res_map (fun r => Mem.arena r.2)
    (getAttributeValue_at None attrBrowseName tag_array 2 tag_mem)
  = Ok [(Some <$> list_ascii_of_string "Objects") ++ [None]].
Proof. split; by_run. Qed.

Lemma getAttributeValue_at_unterminated_witness :
  exists p m',
    getAttributeValue_at None attrNodeId tag_array (Z.of_nat 2) tag_mem = Ok (Some p, m') /\
    cstring m' p = Trap Uninitialised.
Proof.
  apply (getAttributeValue_at_unterminated attrNodeId tag_array tag_mem tag_attributes "i=85");
    [apply tag_encoded | by_eval | by_eval | by_run | by_eval].
Defined.

(** The value of NodeId of the start tag: the pointer returned is the
    start of the first block of the arena. *)
Lemma getAttributeValue_at_owned_witness :
  ((copied (Some zero) "i=85" tag_mem).1 = literal (NodeAttribute.defaultValue attrNodeId) /\
   (copied (Some zero) "i=85" tag_mem).2 = tag_mem) \/
  exists b,
    (copied (Some zero) "i=85" tag_mem).1
    = Some (Ptr.mk (Block (length (Mem.arena tag_mem))) 0) /\
    (copied (Some zero) "i=85" tag_mem).2
    = Mem.set_arena (Mem.arena tag_mem ++ [b]) tag_mem.
Proof.
  apply (getAttributeValue_at_owned (Some zero) attrNodeId tag_array 2 tag_mem). by_run.
Defined.

Lemma getAttributeValue_at_count_witness :
  getAttributeValue_at None attrDataType tag_array 3 tag_mem = Trap OutOfBounds.
Proof.
  apply (getAttributeValue_at_count None attrDataType tag_array tag_mem tag_attributes);
    [apply tag_encoded | by_run | by_eval | by_eval | by_run | by_eval].
Defined.

(** With the right count the default is returned. *)
Example tag_default :
  getAttributeValue_at None attrDataType tag_array 2 tag_mem
  = Ok (Some (Ptr.mk (Literal "i=24") 0), tag_mem).
Proof. by_run. Qed.

(** ** The decoders in memory *)

(** The table of a file that declares one namespace, which the host
    numbers 7. *)
Definition acme_namespaces : list TNamespace :=
  [TNamespace.mk (Some 0%Z) (Some "http://opcfoundation.org/UA/");
   TNamespace.mk (Some 7%Z) (Some "urn:acme")].

(** The default of the attribute DataType, a string constant, prefixed
    for the example. *)
Definition constant : Ptr := Ptr.mk (Literal "ns=1;i=24") 0.

Lemma extractNodedId_at_refines_witness :
  res_rel
    (fun a id =>
       PNodeId.nsIdx a = TNodeId.nsIdx id /\
       cstr_at tag_mem (PNodeId.id a) (TNodeId.id id) /\
       inside (Some constant) (PNodeId.id a))
    (extractNodedId_at acme_namespaces tag_mem (Some constant))
    (extractNodedId acme_namespaces (Some "ns=1;i=24")).
Proof.
  apply (extractNodedId_at_refines acme_namespaces tag_mem (Some constant)
           (Some "ns=1;i=24")).
  split; [by_eval | by_run].
Defined.

(** The constant decodes to namespace 7 and a pointer to its sixth byte. *)
Example constant_decoded :
  extractNodedId_at acme_namespaces tag_mem (Some constant)
  = Ok (PNodeId.mk 7 (Some (Ptr.mk (Literal "ns=1;i=24") 5))) /\
  cstring tag_mem (Ptr.mk (Literal "ns=1;i=24") 5) = Ok "i=24".
Proof. split; by_run. Qed.

(** A text shorter than three characters with a semicolon: [&s[3]] is
    behind the end of the object of the text. *)
Example short_text_decoded :
  extractNodedId_at acme_namespaces tag_mem (Some (Ptr.mk (Literal ";") 0))
  = Trap OutOfBounds /\
  extractNodedId_at acme_namespaces tag_mem (Some (Ptr.mk (Literal "a;") 0))
  = Trap OutOfBounds.
Proof. split; by_run. Qed.

(** The id of the node of the start tag: decoded from the copy in the
    arena, to which its identifier points. *)
Lemma extract_id_at_refines_witness :
  res_rel
    (fun r id =>
       Mem.arena r.2 = Mem.arena tag_mem ++
                       (string_cells <$> attr_blocks attrNodeId tag_attributes) /\
       PNodeId.nsIdx r.1 = TNodeId.nsIdx id /\
       read_cstr r.2 (PNodeId.id r.1) = Ok (TNodeId.id id) /\
       forall q, PNodeId.id r.1 = Some q -> Ptr.obj q = Block (length (Mem.arena tag_mem)))
    (extract_id_at (Some zero) acme_namespaces tag_array (Z.of_nat 2) tag_mem)
    (extractNodedId acme_namespaces (attr_value attrNodeId tag_attributes)).
Proof.
  apply (extract_id_at_refines acme_namespaces tag_array tag_mem tag_attributes);
    [apply tag_encoded | by_eval | by_eval | repeat constructor; by_eval].
Defined.

Example tag_id :
  res_map fst (extract_id_at (Some zero) acme_namespaces tag_array 2 tag_mem)
  = Ok (PNodeId.mk 0 (Some (Ptr.mk (Block 0) 0))).
Proof. by_run. Qed.

(** With an arena that does not clear its memory the id "i=85" cannot be
    decoded. *)
Lemma extract_id_at_unterminated_witness :
  extract_id_at None acme_namespaces tag_array (Z.of_nat 2) tag_mem = Trap Uninitialised.
Proof.
  apply (extract_id_at_unterminated acme_namespaces tag_array tag_mem tag_attributes "i=85");
    [apply tag_encoded | by_eval | by_eval | by_run | by_eval | by_run].
Defined.

(** A start tag whose NodeId names the namespace of the file. *)
Definition acme_mem : Mem := Mem.mk (list_ascii_of_string "ns=1;i=1000") ["NodeId"] [].

Definition acme_array : list (option Ptr) :=
  [Some (Ptr.mk (Name 0) 0); None; None; Some (Ptr.mk Input 0); Some (Ptr.mk Input 11)].

(** An id with a prefix is decoded whether the memory is cleared or not:
    [strchr] stops at the semicolon and [atoi] behind the digits.  The
    identifier points behind the semicolon, into the copy; it is a string
    only when the memory was cleared. *)
Example acme_id :
  res_map (fun r => (r.1, read_cstr r.2 (PNodeId.id r.1)))
    (extract_id_at (Some zero) acme_namespaces acme_array 1 acme_mem)
  = Ok (PNodeId.mk 7 (Some (Ptr.mk (Block 0) 5)), Ok (Some "i=1000")) /\
  res_map (fun r => (r.1, read_cstr r.2 (PNodeId.id r.1)))
    (extract_id_at None acme_namespaces acme_array 1 acme_mem)
  = Ok (PNodeId.mk 7 (Some (Ptr.mk (Block 0) 5)), Trap Uninitialised).
Proof. split; by_run. Qed.

(** The browse name of the start tag: decoded in its copy, as the model
    decodes the string; a start tag without BrowseName is a NULL
    dereference in both. *)
Example tag_browseName :
  res_map (fun r => (r.1, read_cstr r.2 (PBrowseName.name r.1)))
    (extract_browseName_at (Some zero) acme_namespaces tag_array 2 tag_mem)
  = Ok (PBrowseName.mk 0 (Some (Ptr.mk (Block 0) 0)), Ok (Some "Objects")) /\
  extract_browseName_at (Some zero) acme_namespaces acme_array 1 acme_mem
  = Trap NullDeref.
Proof. split; by_run. Qed.

Lemma extract_browseName_at_refines_witness :
  res_rel
    (fun r bn =>
       Mem.arena r.2 = Mem.arena tag_mem ++
                       (string_cells <$> attr_blocks attrBrowseName tag_attributes) /\
       PBrowseName.nsIdx r.1 = TBrowseName.nsIdx bn /\
       read_cstr r.2 (PBrowseName.name r.1) = Ok (TBrowseName.name bn) /\
       forall q, PBrowseName.name r.1 = Some q ->
                 Ptr.obj q = Block (length (Mem.arena tag_mem)))
    (extract_browseName_at (Some zero) acme_namespaces tag_array (Z.of_nat 2) tag_mem)
    (extractBrowseName acme_namespaces (attr_value attrBrowseName tag_attributes)).
Proof.
  apply (extract_browseName_at_refines acme_namespaces tag_array tag_mem tag_attributes);
    [apply tag_encoded | by_eval | by_eval | repeat constructor; by_eval].
Defined.
